(* ===== verification/_CoqProject ===== *)
-Q . S2P
Prelude.v
Json.v
JsString.v
Zod.v
JsonText.v
JsonPretty.v
Uri.v
Interleave.v
HotelDb.v
HotelSeed.v
HotelOutbound.v
HotelReservation.v
HotelReservationSpec.v
HotelInvariant.v
HotelConcurrency.v
HotelIsolation.v
HotelAnnouncements.v
HotelRooms.v
BroadcastTypes.v
BroadcastAuth.v
EventBus.v
BroadcastRoutes.v
BroadcastService.v
PostedEvents.v
WebTypes.v
Wire.v
WebApi.v
EventsStore.v
IslandEvent.v
UseBroadcast.v
WebWire.v
FeedHistory.v
Island.v
IslandInvariant.v
Session.v
SyntheticGuests.v
Avatar.v
WebLib.v
Simulation.v
SimulationFacts.v
TrafficGenerator.v
BeachMock.v
OctopusOracle.v
KikiQuest.v
ParrotChat.v
ParrotAdmin.v
QueryObserver.v
ChatView.v
ChatVisits.v
Carousel.v
HotelBootstrap.v
RequestLog.v
Bootstrap.v
QueryClient.v
WebData.v
HotelView.v
HotelForm.v
HotelPanel.v
HotelFlow.v
AirportView.v
ParrotConversations.v
BeachView.v
BeachOverMock.v
MapZones.v
ShopView.v
IslandMarkers.v
BroadcastView.v
ThemeProvider.v
IslandPages.v
GuestSelection.v
MapPage.v
HotelProperties.v
BroadcastProperties.v
WireProperties.v
WebProperties.v
PlayProperties.v
PageProperties.v
PanelProperties.v
ViewProperties.v
IslandProperties.v
