(* ===== verification/Prelude.v ===== *)
(** * Purrlington Island: a verification library for the TypeScript programs

    The repository is an island of cooperating programs.  Three of them are
    written in TypeScript and are modelled here: the hotel service
    ([services/hotel], NestJS over PostgreSQL), the broadcast service
    ([services/broadcast], Express with server-sent events) and the web client
    ([frontend], React).  Paths below are under [src/].

    ** How the programs meet

    The client calls every service through the gateway.  The hotel asks the
    airport whether a guest has cleared processing and announces confirmed and
    cancelled reservations to the broadcast service, which relays them, with
    everything the other services post, to the streams of the services and
    clients that identified themselves.  The client's stream feeds its event
    store and its cached beach activities.

    ** Shared layer

    [Prelude] (outcomes, the handler monad, step relations, lists and sums),
    [Json] (JSON values), [Zod] (schemas: what they accept and keep; the library
    itself is the class [Zod]), [JsString] (string methods), [JsonText]
    ([JSON.stringify] and [JSON.parse]), [JsonPretty] (indented text and the order
    of an object's keys), [Uri] ([encodeURIComponent] and its
    inverse), [Interleave] (asynchronous functions cut at their [await]s, run
    alone or interleaved in a pool that can grow, with rely and guarantee for
    the latter, and the turns a function takes to its end).

    ** The hotel ([services/hotel])

    - [HotelDb]: [prisma/schema.prisma] as records; the Prisma client as the
      class [PrismaClient], whose laws say what a query answers when it answers,
      and [PrismaResponsive], that valid queries answer; [MemDB] implements both.
    - [HotelSeed]: [prisma/seed.ts].
    - [HotelOutbound]: [src/airport/airport.service.ts],
      [src/broadcast/broadcast.service.ts], [src/common].
    - [HotelReservation]: [src/reservation]; a request runs from start to end on
      the world [Hotel]: the database and the requests sent.
    - [HotelReservationSpec]: what creating and cancelling promise
      ([create_spec], [cancel_spec]), and that the handlers implement it.
    - [HotelInvariant]: well-formed tables, no double booking, and what follows.
    - [HotelConcurrency]: the same handlers as asynchronous functions, what
      survives interleaving, and the double booking that does not.
      [HotelIsolation]: requests that do not compete never book a room twice.
      [HotelAnnouncements]: interleaved or not, what is announced is in the tables.
    - [HotelRooms]: [src/rooms/rooms.service.ts], [src/simulation].
    - [HotelBootstrap]: the validation pipe of [src/main.ts] over the decorators
      of [reservation/dto]; the libraries behind it are the class
      [ClassValidator].  [RequestLog]: the request loggers of both services and
      the identifier every outbound call carries.  [Bootstrap]: how the three
      programs start.

    ** The broadcast service ([services/broadcast])

    - [BroadcastTypes]: [types.ts], [schemas.ts].  [BroadcastAuth]:
      [serviceAuth.ts], [adminAuth.ts].  [EventBus]: [eventBus.ts].
      [BroadcastRoutes]: [validate.ts], [routes/], [app.ts].
    - [BroadcastService]: connections and publications in any order, with the
      invariant that determines every stream.  [PostedEvents]: the event a route
      makes of a body.

    ** The web client ([frontend/src])

    - [WebTypes]: the features' schemas.  [WebApi]: [lib/api-client.ts] and the
      clients.  [WebLib]: [lib/], [config/env.ts].  [Avatar]: [lib/avatar.ts].
    - [QueryClient]: what the hooks ask of the query cache, as a class with the
      library's documented laws and a cache that has them.  [QueryObserver]:
      what a component sees of a query, as a class likewise.  [WebData]: the
      records the components read from checked data.
    - [HotelView], [HotelForm], [HotelPanel]: [features/hotel], the form over the
      class [Calendar], what it shows over the errors its library keeps, and the
      panel as a machine over the cache.
      [HotelFlow]: the form's body through the hotel's pipe to its service.
    - [AirportView]: [features/airport].  [BeachView]: [features/beach];
      [BeachOverMock]: what the client reads of the mock's answers, and the paths
      the mock listens on.
    - [ShopView]: [features/crab] and [features/goat-farm].  [BroadcastView]:
      the composer of announcements and the lighthouse's panel.
    - [MapZones]: the zones, markers and locks of [features/map];
      [IslandMarkers]: the octopus and Kiki over them, and the zoom.
      [IslandPages]: the router, signing in and the map's page as one machine,
      and what every panel shows.  [GuestSelection]: the two faces of the first
      page, over [Carousel] ([components/ui/carousel.tsx] and the class [Embla]).  [MapPage]:
      both pages as they are drawn.
      [ThemeProvider]: [components/theme-provider.tsx], over several tabs.
    - [EventsStore], [Session]: [stores/].  [IslandEvent], [UseBroadcast]:
      [features/broadcast].
    - [SyntheticGuests], [Simulation], [SimulationFacts], [TrafficGenerator]:
      [features/simulation].  [BeachMock]: [mocks/handlers/beach.ts].
    - [ParrotChat], [ChatView], [ChatVisits]: the chat of [features/parrot], its
      thread and its draft, and what is left of it when its panel is closed and what
      the cache drops.  [ParrotAdmin], [ParrotConversations]: what an administrator
      sees of the conversations, as a machine over queries.  [OctopusOracle],
      [KikiQuest]: [features/octopus-oracle], [features/kiki-burger-quest].
    - [Wire], [WebWire]: what one program sends, another accepts.  [FeedHistory]:
      a page's stream, over the class [EventSource], and what its feeds keep.

    ** The island ([Island], [IslandInvariant])

    The three programs as one system: the hotel with requests that arrive at any
    time and take turns; a network that may lose, delay, repeat and reorder the
    hotel's posts; the broadcast service; pages that connect, read at their own
    pace and lose their connections; and restarts of both services, which cut
    off what was under way.  An action is an operation of the component's own
    file.  Anyone may post to any path, the hotel's included; [permitted] is what
    is relied on of the environment: that a posted body prints faithfully.

    ** What is proved

    [HotelProperties]: creating and cancelling implement their specifications
    and answer without internal errors; a room is assigned exactly when one is
    free; served one by one, requests never double-book; interleaved, they keep
    the tables sound, end within a bounded number of their own turns, and only those
    that compete can double-book; the airport's word is taken as it is; bookings
    read back; the listing, the active reservation, the clock and the seed.  [BroadcastProperties]: every
    stream is exactly what its service may read; identification and the
    administrator's passcode; the contract of every route.  [WireProperties]:
    events and answers survive the way from service to client.
    [IslandProperties]: the bookings a page shows are in the hotel's tables or were
    posted by somebody else to the hotel's paths, which anyone may do; it shows only
    what was posted, announcements with the passcode; feeds replay the broadcast
    log, without gaps on an open connection; and what the hotel announced can still
    reach every open page, a booking from its request on.
    [WebProperties]: shown errors, bounded feeds, a stream hook that never gives
    up, availability updates, a coherent session, codecs that invert each other.
    [PlayProperties]: simulated guests, the loops of their traffic over the visits
    to the map, the mock's places, the chat and the quest.

    [PanelProperties]: a valid reservation form always reaches the hotel's
    service and is refused for its days exactly when both dates are on one
    calendar day; the pipe lets through exactly the bodies that are requests, and
    names what is wrong with the others; the hotel's panel shows a
    confirmation only with its reservation, to a guest who waits for answers;
    the mock's answers can be read, but no call reaches it; the goat farm's countdown goes on until a fetch
    fails; what an answer's schema keeps can be read.  [PageProperties]: pages
    and sessions; markers and the panels they open; the way of an announcement
    to every feed; the geometry of the map; the theme of every tab.
    [ViewProperties]: the administrator's view of the conversations shows what
    was heard; a draft of a chat is lost only by posting it, typing, a change of guest
    or closing the panel, which loses no turn in flight, but order and failures;
    tool payloads keep their value; every guest of the carousel can be chosen;
    the hotel's form shows its badge when it is right, and when its refusals come
    and go.

    The theorems whose comment begins with a number of the form C1 are the
    properties of the manifest; the others are part of the library.

    ** Conventions, bounds and fuel

    A string is the bytes of its text in UTF-8; [JsString] reads the characters and
    the code units of JavaScript off them, for lengths, white space, positions and
    escapes.  A surrogate without its other half, which UTF-8 has no bytes for, is
    kept as three bytes of its own and printed as an escape.  A database integer is an
    integer with its 32-bit range checked where a value is stored
    ([fits_int4]); the avatar's hash is wrapped to 32 bits; other numbers are
    [Json.number]s: integers, finite decimals, infinities and NaN.  The clock's
    divisions are rational, and so are lengths on the screen and percentages.
    A hook with its component is a record of the state that survives a render,
    with one function per handler, effect and answer; its machine is a step
    relation where the order of answers is free ([HotelPanel.ui_step]) and a
    fold over events where it is given ([ShopView.Goats.goat_run],
    [IslandPages.app_run], [ThemeProvider.act]).  [JSON_parse] takes twice the length of the text as fuel and [decodeURIComponent] the length: [JSON_parse_stringify] and
    [decode_encode] show that this is enough for any value.  Identifiers drawn
    at random ([randomUUID], [Math.random]) and what the network, the database
    and the browser answer are arguments of the definitions.

    ** What is not modelled

    Bodies of [POST /reservation] that are no objects: what the framework makes of
    an array is its own.  When the query library fetches again: an answer, a failure
    or a dropped entry is an event of the machines, whatever its time; of the
    polling of an arrival the file has the interval.  The Go, Kotlin and Python
    services and the gateway; the NestJS, Express,
    React, Zod and Prisma libraries, whose documented behaviour the definitions
    take as arguments or classes; the decorators that wire the hotel's
    modules; the primitives of [components/ui] other than the carousel, which are
    third-party components with class names (popover, select and skeleton
    have no user); the worker script that the mock library generates; the merging
    of class names ([lib/utils.ts]); and the layout and styling of the components, of which the
    definitions keep the texts, the conditions and the measured lengths. *)

From stdpp Require Export prelude strings gmap list fin_maps pretty.
From Stdlib Require Export ZArith Lia.

Declare Scope island_scope.
Delimit Scope island_scope with island.
#[global] Open Scope island_scope.

(** ** Hint databases of the development *)

Create HintDb island.
Create Rewrite HintDb island_simpl.

(** ** Outcomes of code that may throw *)

(** A JavaScript computation either returns a value or throws one. *)
Inductive outcome (E A : Type) : Type :=
  | Returned (a : A)
  | Thrown (e : E).
Arguments Returned {E A} a.
Arguments Thrown {E A} e.

#[global] Instance outcome_eq_dec `{EqDecision E, EqDecision A} :
  EqDecision (outcome E A).
Proof. solve_decision. Defined.

(** The state-and-exception monad the request handlers are written in: a
    handler reads and changes a world, and returns or throws.  What was
    changed before a throw stays changed, as in the code. *)
Definition handler (W E A : Type) : Type := W → outcome E A * W.

Definition hret {W E A} (a : A) : handler W E A := λ w, (Returned a, w).
Definition hthrow {W E A} (e : E) : handler W E A := λ w, (Thrown e, w).
Definition hbind {W E A B} (m : handler W E A) (k : A → handler W E B) :
    handler W E B := λ w,
  match m w with
  | (Returned a, w') => k a w'
  | (Thrown e, w') => (Thrown e, w')
  end.
Definition hget {W E A} (f : W → A) : handler W E A := λ w, (Returned (f w), w).
Definition hmodify {W E} (f : W → W) : handler W E () := λ w, (Returned tt, f w).

Notation "'let!' x ':=' m 'in' k" := (hbind m (λ x, k))
  (at level 10, x name, m at level 100, k at level 200)
  : island_scope.
Notation "'do!' m ';' k" := (hbind m (λ _, k))
  (at level 10, m at level 100, k at level 200)
  : island_scope.

Section handler_laws.
Context {W E : Type}.

Lemma hbind_ret {A B} (a : A) (k : A → handler W E B) w :
  hbind (hret a) k w = k a w.
Proof. reflexivity. Qed.

Lemma hbind_throw {A B} (e : E) (k : A → handler W E B) w :
  hbind (hthrow e) k w = (Thrown e, w).
Proof. reflexivity. Qed.

Lemma hbind_assoc {A B C} (m : handler W E A) (k : A → handler W E B)
    (h : B → handler W E C) w :
  hbind (hbind m k) h w = hbind m (λ a, hbind (k a) h) w.
Proof. unfold hbind. by destruct (m w) as [[] ?]. Qed.

Lemma hbind_step {A B} (m : handler W E A) (k : A → handler W E B) w a w' :
  m w = (Returned a, w') → hbind m k w = k a w'.
Proof. unfold hbind. by intros ->. Qed.

Lemma hbind_returned_inv {A B} (m : handler W E A) (k : A → handler W E B) w b w2 :
  hbind m k w = (Returned b, w2) →
  ∃ a w1, m w = (Returned a, w1) ∧ k a w1 = (Returned b, w2).
Proof. unfold hbind. destruct (m w) as [[] ?]; naive_solver. Qed.
End handler_laws.

#[export] Hint Rewrite @hbind_ret @hbind_throw @hbind_assoc : island_simpl.

(** ** Tactics *)

(** Case analysis on every [match]/[if] of the goal or a hypothesis. *)
Ltac split_matches :=
  repeat (case_match || case_decide || case_bool_decide); simplify_eq/=.

(** Unfold the monad on hypotheses and goal. *)
Ltac run_handler :=
  unfold hbind, hret, hthrow, hget, hmodify in *; simpl in *.

Ltac solve_by_cases := split_matches; try done; naive_solver.

(** ** Lists *)

Section lists.
Context {A : Type}.
Implicit Types (l : list A) (P Q : A → bool).

(** [Array.prototype.find]. *)
Fixpoint find_first (P : A → bool) l : option A :=
  match l with
  | [] => None
  | x :: l => if P x then Some x else find_first P l
  end.

Lemma find_first_Some P l x :
  find_first P l = Some x ↔
  ∃ l1 l2, l = l1 ++ x :: l2 ∧ P x = true ∧ Forall (λ y, P y = false) l1.
Proof.
  induction l as [|y l IH]; simpl.
  - split; [done|]. intros (l1 & l2 & Hl & _). by destruct l1.
  - destruct (P y) eqn:HP.
    + split.
      * intros [= <-]. exists [], l. done.
      * intros (l1 & l2 & Hl & Hx & Hall).
        destruct l1 as [|z l1]; simplify_eq/=; [done|].
        apply Forall_cons_1 in Hall as [? _]. congruence.
    + rewrite IH. split.
      * intros (l1 & l2 & -> & Hx & Hall). exists (y :: l1), l2.
        split_and!; [done..|by constructor].
      * intros (l1 & l2 & Hl & Hx & Hall).
        destruct l1 as [|z l1]; simplify_eq/=; [congruence|].
        apply Forall_cons_1 in Hall as [_ Hall]. by exists l1, l2.
Qed.

Lemma find_first_None P l :
  find_first P l = None ↔ Forall (λ y, P y = false) l.
Proof.
  induction l as [|y l IH]; simpl; [by split|].
  rewrite Forall_cons. destruct (P y); naive_solver.
Qed.

Lemma find_first_elem P l x : find_first P l = Some x → x ∈ l ∧ P x = true.
Proof. intros (l1 & l2 & -> & ? & _)%find_first_Some. set_solver. Qed.
End lists.

#[export] Hint Resolve find_first_elem : island.

(** Filters that keep everything, or nothing of what the other half keeps. *)
Section filters.
Context {A : Type} (P : A → Prop) `{!∀ x, Decision (P x)}.

Lemma filter_all (l : list A) : (∀ x, x ∈ l → P x) → filter P l = l.
Proof.
  induction l as [|x l IH]; intros HP; [done|].
  rewrite filter_cons, decide_True, IH by set_solver. done.
Qed.

Lemma filter_none (l : list A) : Forall (λ x, ¬ P x) l → filter P l = [].
Proof.
  induction 1 as [|x l Hx Hl IH]; [done|]. by rewrite filter_cons, decide_False.
Qed.

Lemma filter_split_nil (l : list A) : filter P (filter (λ x, ¬ P x) l) = [].
Proof.
  rewrite list_filter_filter. induction l as [|x l IH]; [done|].
  rewrite filter_cons, decide_False by tauto. done.
Qed.
End filters.

(** The sum of an integer measure over a list. *)
Definition sum_with {A} (f : A → Z) (l : list A) : Z := foldr (λ x n, (f x + n)%Z) 0%Z l.

Section sums.
Context {A : Type}.
Implicit Types (f g : A → Z) (l : list A).

Lemma sum_with_app f l1 l2 :
  sum_with f (l1 ++ l2) = (sum_with f l1 + sum_with f l2)%Z.
Proof. induction l1; simpl; [lia|]. unfold sum_with in *. simpl. lia. Qed.

Lemma sum_with_perm f l1 l2 : l1 ≡ₚ l2 → sum_with f l1 = sum_with f l2.
Proof. unfold sum_with. induction 1; simpl; lia. Qed.

Lemma sum_with_ext f g l :
  (∀ x, x ∈ l → f x = g x) → sum_with f l = sum_with g l.
Proof.
  induction l as [|x l IH]; intros H; [done|].
  unfold sum_with in *; simpl. rewrite (H x), IH; [done|set_solver..].
Qed.

#[global] Instance sum_with_proper :
  Proper (pointwise_relation A eq ==> (≡ₚ) ==> eq) (@sum_with A).
Proof.
  intros f g Hfg l1 l2 Hl. rewrite (sum_with_perm _ _ _ Hl).
  apply sum_with_ext. intros; apply Hfg.
Qed.

Lemma sum_with_nonneg f l : (∀ x, x ∈ l → 0 ≤ f x)%Z → (0 ≤ sum_with f l)%Z.
Proof.
  induction l as [|x l IH]; intros H; unfold sum_with in *; simpl; [lia|].
  specialize (H x) as Hx. ospecialize (IH _); [intros; apply H; set_solver|].
  specialize (Hx ltac:(set_solver)). lia.
Qed.

Lemma sum_with_le f g l :
  (∀ x, x ∈ l → f x ≤ g x)%Z → (sum_with f l ≤ sum_with g l)%Z.
Proof.
  induction l as [|x l IH]; intros H; unfold sum_with in *; simpl; [lia|].
  specialize (H x ltac:(set_solver)) as Hx.
  ospecialize (IH _); [intros; apply H; set_solver|]. lia.
Qed.
End sums.

(** ** Step relations *)

(** A state is reachable when some sequence of steps leads to it from an
    initial state; an inductive invariant holds of every reachable state. *)
Definition reachable {S} (init : S → Prop) (step : S → S → Prop) (s : S) : Prop :=
  ∃ s0, init s0 ∧ rtc step s0 s.

Lemma invariant_reachable {S} (init : S → Prop) (step : S → S → Prop) (I : S → Prop) :
  (∀ s, init s → I s) → (∀ s s', I s → step s s' → I s') →
  ∀ s, reachable init step s → I s.
Proof.
  intros Hinit Hstep s (s0 & H0 & Hr).
  assert (I s0) as H by auto. clear H0. induction Hr; eauto.
Qed.
