(* ===== verification/Json.v ===== *)
(** * JSON values and the JavaScript operations the source applies to them

    Parsed JSON as data: what [JSON.parse] yields and [JSON.stringify] takes.
    An object is the list of its own properties in insertion order; JavaScript
    gives every object distinct keys, and [well_formed] says so.  [undefined]
    (an absent property) is [None] of [option json]. *)

From S2P Require Import Prelude.

(** A JavaScript number: an integer, a finite non-integer kept as the decimal
    [digits × 10^-places] with [places > 0], an infinity ([JSON.parse] reads
    [1e999] as one) or [NaN].  Arithmetic is exact; rounding is not modelled. *)
Inductive number : Type :=
  | NumZ (z : Z)
  | NumDec (digits : Z) (places : nat)
  | NumInf (negative : bool)
  | NumNaN.

#[warnings="-register-all"]
Inductive json : Type :=
  | JNull
  | JBool (b : bool)
  | JNum (n : number)
  | JStr (s : string)
  | JArr (l : list json)
  | JObj (fields : list (string * json)).

#[global] Instance number_eq_dec : EqDecision number.
Proof. solve_decision. Defined.

(** ** Induction and decidable equality through the nested lists *)

Section json_induction.
Variable P : json → Prop.
Hypothesis P_null : P JNull.
Hypothesis P_bool : ∀ b, P (JBool b).
Hypothesis P_num : ∀ n, P (JNum n).
Hypothesis P_str : ∀ s, P (JStr s).
Hypothesis P_arr : ∀ l, Forall P l → P (JArr l).
Hypothesis P_obj : ∀ fs, Forall (λ kv, P kv.2) fs → P (JObj fs).

Fixpoint json_nested_ind (v : json) : P v :=
  match v with
  | JNull => P_null
  | JBool b => P_bool b
  | JNum n => P_num n
  | JStr s => P_str s
  | JArr l => P_arr l ((fix go l : Forall P l :=
      match l with
      | [] => Forall_nil_2 _
      | x :: l => Forall_cons_2 _ _ _ (json_nested_ind x) (go l)
      end) l)
  | JObj fs => P_obj fs ((fix go fs : Forall (λ kv, P kv.2) fs :=
      match fs with
      | [] => Forall_nil_2 _
      | kv :: fs => Forall_cons_2 _ _ _ (json_nested_ind kv.2) (go fs)
      end) fs)
  end.
End json_induction.

Fixpoint json_eq_dec (v w : json) {struct v} : Decision (v = w).
Proof.
  refine (
    match v, w with
    | JNull, JNull => left eq_refl
    | JBool a, JBool b => cast_if (decide (a = b))
    | JNum a, JNum b => cast_if (decide (a = b))
    | JStr a, JStr b => cast_if (decide (a = b))
    | JArr a, JArr b => cast_if (@list_eq_dec _ json_eq_dec a b)
    | JObj a, JObj b =>
        cast_if (@list_eq_dec _ (@prod_eq_dec _ _ _ json_eq_dec) a b)
    | _, _ => right _
    end); first [congruence | by subst].
Defined.
#[global] Instance json_eq_decision : EqDecision json := json_eq_dec.

(** ** Property access *)

(** [obj.k] on the own properties of an object. *)
Fixpoint jget (k : string) (fields : list (string * json)) : option json :=
  match fields with
  | [] => None
  | (k', v) :: fields => if decide (k = k') then Some v else jget k fields
  end.

(** [v.k] where [v] may be any value (a primitive has no such property). *)
Definition jprop (k : string) (v : json) : option json :=
  match v with JObj fields => jget k fields | _ => None end.

(** The object rest pattern [const { a, b, ...rest } = obj]. *)
Definition omit (ks : list string) (fields : list (string * json)) :
    list (string * json) :=
  filter (λ kv, kv.1 ∉ ks) fields.

(** A property that is [undefined] is left out of the serialised object. *)
Definition jopt (k : string) (o : option json) : list (string * json) :=
  match o with Some v => [(k, v)] | None => [] end.

Definition keys (fields : list (string * json)) : list string := fields.*1.

Definition as_string (v : json) : option string :=
  match v with JStr s => Some s | _ => None end.
Definition as_int (v : json) : option Z :=
  match v with JNum (NumZ z) => Some z | _ => None end.
Definition as_bool (v : json) : option bool :=
  match v with JBool b => Some b | _ => None end.

Definition as_object (v : json) : option (list (string * json)) :=
  match v with JObj fs => Some fs | _ => None end.

(** A property that is a string, or undefined. *)
Definition opt_string (k : string) (fs : list (string * json)) : option string :=
  match jget k fs with Some v => as_string v | None => None end.
Definition opt_object (k : string) (fs : list (string * json)) :
    option (list (string * json)) :=
  match jget k fs with Some v => as_object v | None => None end.

(** [Number.isFinite]. *)
Definition num_is_finite (n : number) : bool :=
  match n with NumZ _ | NumDec _ _ => true | NumInf _ | NumNaN => false end.

(** Keys are distinct at every level, and a decimal has a fractional part. *)
Definition num_wf (n : number) : bool :=
  match n with
  | NumDec d p => bool_decide (0 < p) && negb (bool_decide (d `mod` 10 = 0)%Z)
  | _ => true
  end.

Fixpoint well_formed (v : json) : Prop :=
  match v with
  | JNum n => num_wf n = true
  | JArr l => foldr (λ x P, well_formed x ∧ P) True l
  | JObj fs => NoDup (keys fs) ∧ foldr (λ kv P, well_formed kv.2 ∧ P) True fs
  | _ => True
  end.

(** ** Lemmas *)

Lemma jget_cons_eq k v fs : jget k ((k, v) :: fs) = Some v.
Proof. simpl. by rewrite decide_True. Qed.

Lemma jget_cons_ne k k' v fs : k ≠ k' → jget k ((k', v) :: fs) = jget k fs.
Proof. intros. simpl. by rewrite decide_False. Qed.

Lemma jget_app k fs gs :
  jget k (fs ++ gs) = match jget k fs with Some v => Some v | None => jget k gs end.
Proof.
  induction fs as [|[k' v] fs IH]; simpl; [done|]. by case_decide.
Qed.

Lemma jget_jopt_eq k o : jget k (jopt k o) = o.
Proof. destruct o; simpl; [|done]. by rewrite decide_True. Qed.

Lemma jget_jopt_ne k k' o : k ≠ k' → jget k (jopt k' o) = None.
Proof. destruct o; simpl; [|done]. intros. by rewrite decide_False. Qed.

Lemma jget_omit k ks fs :
  jget k (omit ks fs) = if decide (k ∈ ks) then None else jget k fs.
Proof.
  unfold omit. induction fs as [|[k' v] fs IH]; simpl; [by case_decide|].
  rewrite filter_cons. simpl.
  destruct (decide (k' ∈ ks)) as [Hin|Hin].
  - rewrite decide_False by tauto. rewrite IH.
    destruct (decide (k = k')) as [->|]; [|done]. by rewrite !decide_True.
  - rewrite decide_True by done. simpl.
    destruct (decide (k = k')) as [->|]; [by rewrite decide_False|done].
Qed.

Lemma jget_Some_elem k v fs : jget k fs = Some v → (k, v) ∈ fs.
Proof.
  induction fs as [|[k' v'] fs IH]; simpl; [done|].
  case_decide; intros; simplify_eq; set_solver.
Qed.

Lemma jget_None k fs : jget k fs = None ↔ k ∉ keys fs.
Proof.
  unfold keys. induction fs as [|[k' v'] fs IH]; simpl.
  - split; [set_solver|done].
  - case_decide; simplify_eq.
    + split; [done|set_solver].
    + rewrite IH. set_solver.
Qed.

Lemma jget_elem k v fs : NoDup (keys fs) → (k, v) ∈ fs → jget k fs = Some v.
Proof.
  unfold keys. induction fs as [|[k' v'] fs IH]; simpl; [set_solver|].
  intros [Hk Hnd]%NoDup_cons [Heq|Hin]%elem_of_cons; simplify_eq.
  - by rewrite decide_True.
  - rewrite decide_False; [by apply IH|].
    intros ->. apply Hk. apply list_elem_of_fmap. by exists (k', v).
Qed.

Lemma elem_of_omit k v ks fs : (k, v) ∈ omit ks fs ↔ (k, v) ∈ fs ∧ k ∉ ks.
Proof. unfold omit. rewrite list_elem_of_filter. naive_solver. Qed.

Lemma keys_omit ks fs k : k ∈ keys (omit ks fs) ↔ k ∈ keys fs ∧ k ∉ ks.
Proof.
  unfold keys. rewrite !list_elem_of_fmap. split.
  - intros ([k' v] & -> & [? ?]%elem_of_omit). simpl. split; [|done]. by exists (k', v).
  - intros [([k' v] & -> & ?) ?]. exists (k', v). by rewrite elem_of_omit.
Qed.

#[export] Hint Rewrite jget_app jget_jopt_eq jget_omit : island_simpl.

(** Evaluate property lookups in literal objects. *)
Ltac simpl_jget :=
  repeat (first
    [ rewrite jget_app | rewrite jget_cons_eq
    | rewrite jget_cons_ne by done | rewrite jget_jopt_eq
    | rewrite jget_jopt_ne by done ]; simpl).
