(* ===== verification/JsString.v ===== *)
(** * JavaScript strings

    The string methods the source calls.  A string is kept as its UTF-8 text
    (Stdlib's [string] of bytes), a lone surrogate as the three bytes its number
    would take; [code_units] are the 16-bit units JavaScript counts and indexes.
    White space is the white space and the line ends of the language; case
    mapping is the ASCII one. *)

From S2P Require Import Prelude.
From Stdlib Require Strings.String.
From Stdlib Require Export Strings.Ascii.

Definition chars (s : string) : list ascii := Strings.String.list_ascii_of_string s.
Definition of_chars (l : list ascii) : string := Strings.String.string_of_list_ascii l.

Lemma of_chars_chars s : of_chars (chars s) = s.
Proof. apply Strings.String.string_of_list_ascii_of_string. Qed.
Lemma chars_of_chars l : chars (of_chars l) = l.
Proof. apply Strings.String.list_ascii_of_string_of_list_ascii. Qed.

#[global] Instance chars_inj : Inj (=) (=) chars.
Proof. intros s t H. by rewrite <-(of_chars_chars s), H, of_chars_chars. Qed.

Lemma chars_app s t : chars (s +:+ t) = chars s ++ chars t.
Proof. unfold chars. induction s; simpl; [done|]. by f_equal. Qed.

Lemma of_chars_app l k : of_chars (l ++ k) = of_chars l +:+ of_chars k.
Proof. apply (inj chars). by rewrite chars_app, !chars_of_chars. Qed.

Lemma length_chars s : length (chars s) = String.length s.
Proof. unfold chars. induction s; simpl; auto. Qed.

(** [charCodeAt]. *)
Definition code (c : ascii) : Z := Z.of_N (N_of_ascii c).

Lemma code_range c : (0 ≤ code c < 256)%Z.
Proof. unfold code. pose proof (N_ascii_bounded c). lia. Qed.

Definition between (lo hi : Z) (c : ascii) : bool :=
  bool_decide (lo ≤ code c ≤ hi)%Z.

Definition chr (z : Z) : ascii := ascii_of_N (Z.to_N z).

Lemma code_chr z : (0 ≤ z < 256)%Z → code (chr z) = z.
Proof. intros. unfold code, chr. rewrite N_ascii_embedding; lia. Qed.

(** ** UTF-8 and UTF-16 *)

(** The bytes of a code point. *)
Definition utf8 (z : Z) : list ascii :=
  let low n := chr (128 + (z / 64 ^ n) mod 64) in
  if (z <? 128)%Z then [chr z]
  else if (z <? 2048)%Z then [chr (192 + z / 64); low 0%Z]
  else if (z <? 65536)%Z then [chr (224 + z / 64 ^ 2); low 1%Z; low 0%Z]
  else [chr (240 + z / 64 ^ 3); low 2%Z; low 1%Z; low 0%Z].

(** A byte that goes on with the character before it. *)
Definition continues (c : ascii) : bool := between 128 191 c.

(** The characters of a text, each as its bytes. *)
Fixpoint glyphs (l : list ascii) : list (list ascii) :=
  match l with
  | [] => []
  | c :: l =>
      match glyphs l with
      | (d :: g) :: gs => if continues d then (c :: d :: g) :: gs else [c] :: (d :: g) :: gs
      | gs => [c] :: gs
      end
  end.

(** The code point a character's bytes spell. *)
Definition code_point (g : list ascii) : Z :=
  match code <$> g with
  | [a] => a
  | [a; b] => (a mod 32) * 64 + b mod 64
  | [a; b; c] => (a mod 16) * 64 ^ 2 + (b mod 64) * 64 + c mod 64
  | [a; b; c; d] => (a mod 8) * 64 ^ 3 + (b mod 64) * 64 ^ 2 + (c mod 64) * 64 + d mod 64
  | _ => 65533
  end.

(** One unit, or a pair of surrogates. *)
Definition glyph_units (g : list ascii) : list Z :=
  let z := code_point g in
  if (z <? 65536)%Z then [z]
  else [55296 + (z - 65536) / 1024; 56320 + (z - 65536) mod 1024]%Z.

Definition code_units (s : string) : list Z := glyphs (chars s) ≫= glyph_units.

(** [s.length]. *)
Definition js_length (s : string) : nat := length (code_units s).

Definition space_codes : list Z :=
  [9; 10; 11; 12; 13; 32; 160; 5760; 8192; 8193; 8194; 8195; 8196; 8197; 8198; 8199; 8200; 8201;
   8202; 8232; 8233; 8239; 8287; 12288; 65279]%Z.
Definition space_glyphs : list (list ascii) := Eval vm_compute in utf8 <$> space_codes.

Definition is_space (g : list ascii) : bool := bool_decide (g ∈ space_glyphs).

(** [s.toLowerCase()]. *)
Definition lower_char (c : ascii) : ascii :=
  if between 65 90 c then ascii_of_N (N_of_ascii c + 32) else c.
Definition toLowerCase (s : string) : string := of_chars (lower_char <$> chars s).

(** [s.slice(n)] for [n >= 0]. *)
Definition slice_from (n : nat) (s : string) : string := of_chars (drop n (chars s)).

(** [s.startsWith(p)]. *)
Definition startsWith (p s : string) : bool := String.prefix p s.

Fixpoint drop_while {A} (P : A → bool) (l : list A) : list A :=
  match l with
  | [] => []
  | x :: l' => if P x then drop_while P l' else l
  end.

(** [s.trim()]. *)
Definition trim_glyphs (l : list (list ascii)) : list (list ascii) :=
  reverse (drop_while is_space (reverse (drop_while is_space l))).
Definition trim (s : string) : string := of_chars (concat (trim_glyphs (glyphs (chars s)))).

(** [parts.join(sep)]. *)
Fixpoint join (sep : string) (parts : list string) : string :=
  match parts with
  | [] => ""
  | [p] => p
  | p :: parts => p +:+ sep +:+ join sep parts
  end.

(** A string is falsy exactly when it is empty. *)
Definition truthy (s : string) : bool := bool_decide (s ≠ "").

(** [o || d] where [o] may be undefined: an empty string falls through too. *)
Definition or_else (o : option string) (d : string) : string :=
  match o with Some s => if truthy s then s else d | None => d end.

(** The decimal text of an integer. *)
Definition show_int (z : Z) : string := pretty z.

(** ** Facts *)

Section drop_while.
Context {A : Type} (P : A → bool).

Lemma drop_while_suffix l : ∃ l1, l = l1 ++ drop_while P l ∧ Forall (λ x, P x = true) l1.
Proof.
  induction l as [|x l (l1 & Hl & Hall)]; simpl; [by exists []|].
  destruct (P x) eqn:HP; [|by exists []].
  exists (x :: l1). simpl. split; [by f_equal|by constructor].
Qed.

Lemma drop_while_head x l l' : drop_while P l = x :: l' → P x = false.
Proof. induction l; simpl; [done|]. case_match; naive_solver. Qed.

Lemma drop_while_id l :
  match l with [] => True | x :: _ => P x = false end → drop_while P l = l.
Proof. destruct l; simpl; [done|]. by intros ->. Qed.

Lemma drop_while_nil l : drop_while P l = [] ↔ Forall (λ x, P x = true) l.
Proof.
  induction l as [|x l IH]; simpl; [by split|].
  rewrite Forall_cons. destruct (P x); naive_solver.
Qed.

Lemma drop_while_snoc l x : P x = false → drop_while P (l ++ [x]) = drop_while P l ++ [x].
Proof.
  intros Hx. induction l as [|y l IH]; simpl; [by rewrite Hx|]. by case_match.
Qed.
End drop_while.

(** *** Characters *)

Lemma concat_glyphs l : concat (glyphs l) = l.
Proof.
  induction l as [|c l IH]; [done|]. cbn. destruct (glyphs l) as [|[|d g] gs]; cbn in *; [..|case_match];
    cbn; by rewrite <-IH.
Qed.

(** How characters follow each other: one begins, others go on. *)
Definition glyph_ok (g : list ascii) : Prop :=
  match g with [] => False | _ :: g => Forall (λ c, continues c = true) g end.
Definition begins (g : list ascii) : bool :=
  match g with [] => false | c :: _ => negb (continues c) end.
Definition glyphs_ok (gs : list (list ascii)) : Prop :=
  Forall glyph_ok gs ∧ match gs with [] => True | _ :: gs => Forall (λ g, begins g = true) gs end.

Lemma glyphs_wf l : glyphs_ok (glyphs l).
Proof.
  induction l as [|c l [Hok Hb]]; [by split|]. cbn.
  destruct (glyphs l) as [|[|d g] gs]; [by repeat constructor| |].
  - by apply Forall_cons in Hok as [[] _].
  - apply Forall_cons in Hok as [Hg Hok]. destruct (continues d) eqn:Hd.
    + split; [|done]. by repeat constructor.
    + split; [by repeat constructor|]. constructor; [cbn; by rewrite Hd|done].
Qed.

Lemma glyphs_continued c g l :
  Forall (λ c, continues c = true) g →
  match glyphs l with (d :: _) :: _ => continues d = false | _ => True end →
  glyphs (c :: g ++ l) = (c :: g) :: glyphs l.
Proof.
  revert c. induction g as [|d g IH]; intros c Hg Hl.
  - cbn. pose proof (glyphs_wf l) as [Hok _]. destruct (glyphs l) as [|[|d k] gs]; [done| |].
    + by apply Forall_cons in Hok as [[] _].
    + by rewrite Hl.
  - apply Forall_cons in Hg as [Hd Hg]. specialize (IH d Hg Hl).
    change (glyphs (c :: (d :: g) ++ l)) with
      (match glyphs (d :: g ++ l) with
       | (d :: g) :: gs => if continues d then (c :: d :: g) :: gs else [c] :: (d :: g) :: gs
       | gs => [c] :: gs
       end).
    by rewrite IH, Hd.
Qed.

Lemma glyphs_concat gs : glyphs_ok gs → glyphs (concat gs) = gs.
Proof.
  induction gs as [|[|c g] gs IH]; intros [Hok Hb]; [done|by apply Forall_cons in Hok as [[] _]|].
  apply Forall_cons in Hok as [Hg Hok]. cbn [concat].
  assert (glyphs (concat gs) = gs) as Hgs.
  { apply IH. split; [done|]. destruct gs; [done|]. by apply Forall_cons in Hb as [_ ?]. }
  cbn [app]. rewrite glyphs_continued, Hgs; [done|done|]. rewrite Hgs.
  destruct gs as [|[|d k] gs]; [done..|]. apply Forall_cons in Hb as [Hd _].
  cbn in Hd. by destruct (continues d).
Qed.

Lemma glyphs_ok_drop gs1 gs2 : glyphs_ok (gs1 ++ gs2) → glyphs_ok gs2.
Proof.
  intros [Hok Hb]. apply Forall_app in Hok as [_ Hok]. split; [done|].
  destruct gs1 as [|g gs1]; [done|]. apply Forall_app in Hb as [_ Hb].
  destruct gs2; [done|]. by apply Forall_cons in Hb as [_ ?].
Qed.

Lemma glyphs_ok_take gs1 gs2 : glyphs_ok (gs1 ++ gs2) → glyphs_ok gs1.
Proof.
  intros [Hok Hb]. apply Forall_app in Hok as [Hok _]. split; [done|].
  destruct gs1 as [|g gs1]; [done|]. by apply Forall_app in Hb as [? _].
Qed.

Lemma code_units_pos s : s ≠ "" ↔ 1 ≤ js_length s.
Proof.
  unfold js_length, code_units. rewrite <-(of_chars_chars s) at 1.
  destruct (glyphs (chars s)) as [|g gs] eqn:Hg.
  - pose proof (concat_glyphs (chars s)) as Hc. rewrite Hg in Hc. cbn in *. rewrite <-Hc.
    cbn. split; [done|lia].
  - split.
    + intros _. cbn. rewrite length_app. unfold glyph_units. case_match; cbn; lia.
    + intros _ Hs. apply (f_equal chars) in Hs. rewrite chars_of_chars in Hs.
      rewrite Hs in Hg. discriminate.
Qed.

Lemma glyph_units_range g : Forall (λ u, 0 ≤ u < 65536)%Z (glyph_units g).
Proof.
  assert (∀ c, 0 ≤ code c < 256)%Z as Hc by apply code_range.
  assert (0 ≤ code_point g < 2097152)%Z as Hp.
  { unfold code_point. destruct g as [|a [|b [|c [|d [|]]]]]; cbn; try lia.
    - specialize (Hc a). lia.
    - pose proof (Z.mod_pos_bound (code a) 32). pose proof (Z.mod_pos_bound (code b) 64). lia.
    - pose proof (Z.mod_pos_bound (code a) 16). pose proof (Z.mod_pos_bound (code b) 64).
      pose proof (Z.mod_pos_bound (code c) 64). lia.
    - pose proof (Z.mod_pos_bound (code a) 8). pose proof (Z.mod_pos_bound (code b) 64).
      pose proof (Z.mod_pos_bound (code c) 64). pose proof (Z.mod_pos_bound (code d) 64). lia. }
  unfold glyph_units. destruct (Z.ltb_spec (code_point g) 65536); repeat constructor; try lia.
  - assert (0 ≤ (code_point g - 65536) / 1024)%Z by (apply Z.div_pos; lia). lia.
  - assert ((code_point g - 65536) / 1024 < 2048)%Z by (apply Z.div_lt_upper_bound; lia). lia.
  - pose proof (Z.mod_pos_bound (code_point g - 65536) 1024). lia.
  - pose proof (Z.mod_pos_bound (code_point g - 65536) 1024). lia.
Qed.

Lemma code_units_range s : Forall (λ u, 0 ≤ u < 65536)%Z (code_units s).
Proof.
  unfold code_units. apply Forall_bind, Forall_forall. intros g _. apply glyph_units_range.
Qed.

(** *** Trimming *)

(** A trimmed text neither begins nor ends with white space. *)
Definition trimmed (l : list (list ascii)) : Prop :=
  match l with [] => True | x :: _ => is_space x = false end ∧
  match last l with None => True | Some x => is_space x = false end.

(** What is left lies in between. *)
Lemma trim_glyphs_infix l : ∃ l1 l2, l = l1 ++ trim_glyphs l ++ l2.
Proof.
  unfold trim_glyphs. destruct (drop_while_suffix is_space l) as (l1 & Hl & _).
  set (m := drop_while is_space l) in *. clearbody m.
  destruct (drop_while_suffix is_space (reverse m)) as (l2 & Hm & _).
  exists l1, (reverse l2). by rewrite <-reverse_app, <-Hm, reverse_involutive.
Qed.

Lemma trim_glyphs_ok l : glyphs_ok l → glyphs_ok (trim_glyphs l).
Proof.
  destruct (trim_glyphs_infix l) as (l1 & l2 & Hl). rewrite Hl at 1.
  intros Hok. by eapply glyphs_ok_take, glyphs_ok_drop.
Qed.

Lemma trim_glyphs_trimmed l : trimmed (trim_glyphs l).
Proof.
  unfold trimmed, trim_glyphs. set (m := drop_while is_space l).
  assert (match m with [] => True | x :: _ => is_space x = false end) as Hm.
  { unfold m. destruct (drop_while is_space l) eqn:E; [done|].
    by eapply drop_while_head. }
  clearbody m. destruct (drop_while_suffix is_space (reverse m)) as (pre & Hpre & Hall).
  pose proof (drop_while_head is_space) as Hhead.
  specialize (λ x l', Hhead x (reverse m) l') as Hkh.
  set (k := drop_while is_space (reverse m)) in *. clearbody k.
  assert (m = reverse k ++ reverse pre) as Heq.
  { by rewrite <-reverse_app, <-Hpre, reverse_involutive. }
  split.
  - destruct (reverse k) as [|x r] eqn:Hk; [done|]. by rewrite Heq in Hm.
  - rewrite last_reverse. destruct (head k) as [x|] eqn:Hk; [|done].
    destruct k as [|y k']; [done|]. injection Hk as ->. by eapply Hkh.
Qed.

Lemma trim_glyphs_id l : trimmed l → trim_glyphs l = l.
Proof.
  intros [Hh Hl]. unfold trim_glyphs. rewrite (drop_while_id _ l) by done.
  rewrite (drop_while_id _ (reverse l)); [by rewrite reverse_involutive|].
  rewrite <-head_reverse in Hl. by destruct (reverse l).
Qed.

Lemma glyphs_trim s : glyphs (chars (trim s)) = trim_glyphs (glyphs (chars s)).
Proof. unfold trim. rewrite chars_of_chars. apply glyphs_concat, trim_glyphs_ok, glyphs_wf. Qed.

Lemma trim_idempotent s : trim (trim s) = trim s.
Proof.
  unfold trim at 1. rewrite glyphs_trim.
  by rewrite trim_glyphs_id by apply trim_glyphs_trimmed.
Qed.

Lemma trim_id s : trimmed (glyphs (chars s)) → trim s = s.
Proof.
  intros Ht. unfold trim. rewrite trim_glyphs_id by done. by rewrite concat_glyphs, of_chars_chars.
Qed.

Lemma trim_trimmed s : trimmed (glyphs (chars (trim s))).
Proof. rewrite glyphs_trim. apply trim_glyphs_trimmed. Qed.

Lemma trim_empty_iff s : trim s = "" ↔ Forall (λ g, is_space g = true) (glyphs (chars s)).
Proof.
  assert (trim s = "" ↔ trim_glyphs (glyphs (chars s)) = []) as ->.
  { rewrite <-glyphs_trim. split; [by intros ->|]. intros Hg.
    rewrite <-(of_chars_chars (trim s)), <-(concat_glyphs (chars _)), Hg. done. }
  unfold trim_glyphs. rewrite <-(drop_while_nil is_space). split.
  - intros H. apply (f_equal reverse) in H. rewrite reverse_involutive in H.
    rewrite reverse_nil in H. apply drop_while_nil in H.
    destruct (drop_while is_space (glyphs (chars s))) as [|x l] eqn:E; [done|].
    pose proof (drop_while_head _ _ _ _ E) as Hx. exfalso.
    rewrite reverse_cons in H. apply Forall_app in H as [_ H].
    apply Forall_cons_1 in H as [? _]. congruence.
  - by intros ->.
Qed.

Example trim_unicode :
  trim (of_chars (utf8 160 ++ chars "a b" ++ utf8 8195 ++ utf8 65279)) = "a b" ∧
  js_length "naïve" = 5 ∧ js_length "🦀" = 2.
Proof. vm_compute. done. Qed.

Lemma prefix_app p s : startsWith p (p +:+ s) = true.
Proof.
  unfold startsWith. induction p as [|c p IH]; simpl; [by destruct s|].
  destruct (Ascii.ascii_dec c c); [apply IH|done].
Qed.

Lemma slice_from_app p s : slice_from (String.length p) (p +:+ s) = s.
Proof.
  unfold slice_from. rewrite chars_app, <-length_chars, drop_app_length.
  apply of_chars_chars.
Qed.

Lemma prefix_decompose p s : startsWith p s = true → ∃ t, s = p +:+ t.
Proof.
  unfold startsWith. revert s. induction p as [|c p IH]; intros [|d s]; simpl; try done.
  - by exists "".
  - by exists (String d s).
  - destruct (Ascii.ascii_dec c d) as [->|]; [|done]. intros (t & ->)%IH. by exists t.
Qed.
