(* ===== verification/Zod.v ===== *)
(** * Zod schemas: the declarations as data, the library as an interface

    Both the broadcast service and the web client declare their payloads with
    the third-party library Zod.  The declarations are the program's own, and
    are kept here as data ([schema]).  What [safeParse] does with a declaration
    is the library's: it is the class [Zod], whose laws are the documented
    behaviour of the combinators used.  [conforms] says which values a schema
    accepts and [project] what the parsed value is (unknown keys of a plain
    object are dropped, a strict object rejects them); [zod_reference] is a
    concrete function that satisfies the laws. *)

From S2P Require Import Prelude Json JsString.

(** How a property may be missing: [s], [s.optional()], [s.nullish()]. *)
Inductive presence : Type := Required | Optional | Nullish.

#[warnings="-register-all"]
Inductive schema : Type :=
  | ZString
  | ZStringMin (n : nat)            (** [z.string().min(n)] *)
  | ZNumber                         (** [z.number()] *)
  | ZInt                            (** [z.number().int()] *)
  | ZIntMin (lo : Z)                (** [z.number().int().min(lo)], [.positive()] *)
  | ZBool
  | ZUnknown
  | ZEnum (values : list string)    (** [z.enum], [z.literal] *)
  | ZArray (s : schema)
  | ZArrayMin (s : schema) (n : nat)
  | ZNullable (s : schema)
  | ZRecord (s : schema)            (** [z.record(z.string(), s)] *)
  | ZObject (strict : bool) (fields : list (string * presence * schema)).

#[global] Instance presence_eq_dec : EqDecision presence.
Proof. solve_decision. Defined.

Definition field_names (fs : list (string * presence * schema)) : list string :=
  (λ f, f.1.1) <$> fs.

(** Zod 4 integers are the safe integers. *)
Definition max_safe_integer : Z := 2 ^ 53 - 1.

Definition is_safe_int (n : number) : bool :=
  match n with
  | NumZ z => bool_decide (- max_safe_integer ≤ z ≤ max_safe_integer)%Z
  | _ => false
  end.

Definition int_at_least (lo : Z) (n : number) : bool :=
  match n with NumZ z => bool_decide (lo ≤ z)%Z | _ => false end.

(** The values a schema accepts. *)
Fixpoint conforms (s : schema) (v : json) {struct s} : bool :=
  match s, v with
  | ZString, JStr _ => true
  | ZStringMin n, JStr x => bool_decide (n ≤ js_length x)
  | ZNumber, JNum n => num_is_finite n
  | ZInt, JNum n => is_safe_int n
  | ZIntMin lo, JNum n => is_safe_int n && int_at_least lo n
  | ZBool, JBool _ => true
  | ZUnknown, _ => true
  | ZEnum vs, JStr x => bool_decide (x ∈ vs)
  | ZArray s, JArr l => forallb (conforms s) l
  | ZArrayMin s n, JArr l => forallb (conforms s) l && bool_decide (n ≤ length l)
  | ZNullable _, JNull => true
  | ZNullable s, v => conforms s v
  | ZRecord s, JObj kvs => forallb (λ kv, conforms s kv.2) kvs
  | ZObject strict fs, JObj kvs =>
      (fix go fs :=
        match fs with
        | [] => true
        | (k, p, s) :: fs =>
            match jget k kvs with
            | None => bool_decide (p ≠ Required)
            | Some JNull => bool_decide (p = Nullish) || conforms s JNull
            | Some v => conforms s v
            end && go fs
        end) fs
      && (negb strict || forallb (λ kv, bool_decide (kv.1 ∈ field_names fs)) kvs)
  | _, _ => false
  end.

(** The data a successful parse returns. *)
Fixpoint project (s : schema) (v : json) {struct s} : json :=
  match s, v with
  | ZArray s, JArr l | ZArrayMin s _, JArr l => JArr (project s <$> l)
  | ZNullable _, JNull => JNull
  | ZNullable s, v => project s v
  | ZRecord s, JObj kvs => JObj ((λ kv, (kv.1, project s kv.2)) <$> kvs)
  | ZObject _ fs, JObj kvs =>
      JObj ((fix go fs :=
        match fs with
        | [] => []
        | (k, p, s) :: fs =>
            jopt k (match jget k kvs with
                    | Some JNull =>
                        Some (if bool_decide (p = Nullish) then JNull else project s JNull)
                    | Some v => Some (project s v)
                    | None => None
                    end) ++ go fs
        end) fs)
  | _, v => v
  end.

(** One entry of [error.issues]. *)
Record ZodIssue := { issue_path : list string; issue_message : string }.

(** The library, as the source uses it. *)
Class Zod := {
  safeParse : schema → json → list ZodIssue + json;
  safeParse_success s v :
    conforms s v = true → safeParse s v = inr (project s v);
  safeParse_failure s v :
    conforms s v = false → ∃ i rest, safeParse s v = inl (i :: rest);
}.

(** A concrete library for the witnesses. *)
Program Definition zod_reference : Zod := {|
  safeParse s v :=
    if conforms s v then inr (project s v)
    else inl [{| issue_path := []; issue_message := "Invalid input" |}]
|}.
Next Obligation. intros s v H. simpl. by rewrite H. Qed.
Next Obligation. intros s v H. simpl. rewrite H. eauto. Qed.

Section zod_facts.
Context `{Zod}.

Lemma safeParse_inr_iff s v d :
  safeParse s v = inr d ↔ conforms s v = true ∧ d = project s v.
Proof.
  destruct (conforms s v) eqn:Hc.
  - rewrite (safeParse_success s v Hc). naive_solver.
  - destruct (safeParse_failure s v Hc) as (i & rest & ->). naive_solver.
Qed.

Lemma safeParse_inl_iff s v :
  (∃ issues, safeParse s v = inl issues) ↔ conforms s v = false.
Proof.
  destruct (conforms s v) eqn:Hc.
  - rewrite (safeParse_success s v Hc). naive_solver.
  - destruct (safeParse_failure s v Hc) as (i & rest & ->). naive_solver.
Qed.
End zod_facts.

(** ** What acceptance says about the fields of an object *)

Definition field_ok (p : presence) (s : schema) (o : option json) : bool :=
  match o with
  | None => bool_decide (p ≠ Required)
  | Some JNull => bool_decide (p = Nullish) || conforms s JNull
  | Some v => conforms s v
  end.

Definition field_data (p : presence) (s : schema) (o : option json) : option json :=
  match o with
  | Some JNull => Some (if bool_decide (p = Nullish) then JNull else project s JNull)
  | Some v => Some (project s v)
  | None => None
  end.

Fixpoint fields_ok (fs : list (string * presence * schema)) (kvs : list (string * json)) :
    bool :=
  match fs with
  | [] => true
  | (k, p, s) :: fs => field_ok p s (jget k kvs) && fields_ok fs kvs
  end.

Fixpoint fields_data (fs : list (string * presence * schema)) (kvs : list (string * json)) :
    list (string * json) :=
  match fs with
  | [] => []
  | (k, p, s) :: fs => jopt k (field_data p s (jget k kvs)) ++ fields_data fs kvs
  end.

Lemma conforms_object strict fs kvs :
  conforms (ZObject strict fs) (JObj kvs) =
  fields_ok fs kvs &&
  (negb strict || forallb (λ kv, bool_decide (kv.1 ∈ field_names fs)) kvs).
Proof.
  simpl. f_equal. generalize fs. clear fs. intros fs.
  induction fs as [|[[k p] s] fs IH]; simpl; [done|]. by rewrite <-IH.
Qed.

Lemma project_object strict fs kvs :
  project (ZObject strict fs) (JObj kvs) = JObj (fields_data fs kvs).
Proof.
  simpl. f_equal. induction fs as [|[[k p] s] fs IH]; simpl; [done|].
  by rewrite <-IH.
Qed.

Lemma conforms_object_inv strict fs v :
  conforms (ZObject strict fs) v = true →
  ∃ kvs, v = JObj kvs ∧ fields_ok fs kvs = true ∧
    (strict = true → ∀ k, k ∈ keys kvs → k ∈ field_names fs).
Proof.
  destruct v; try done. rewrite conforms_object. intros [Hf Hs]%andb_prop.
  eexists; split_and!; [done..|]. intros -> k. simpl in Hs.
  rewrite forallb_forall in Hs. unfold keys. rewrite list_elem_of_fmap.
  intros ([k' v] & -> & Hin%list_elem_of_In). specialize (Hs _ Hin). simpl in *.
  by apply bool_decide_eq_true in Hs.
Qed.

Lemma fields_ok_elem fs kvs k p s :
  fields_ok fs kvs = true → (k, p, s) ∈ fs → field_ok p s (jget k kvs) = true.
Proof.
  induction fs as [|[[k' p'] s'] fs IH]; simpl; [set_solver|].
  intros [? ?]%andb_prop [?|?]%elem_of_cons; simplify_eq; auto.
Qed.

Lemma jget_fields_data_ne fs kvs k :
  k ∉ field_names fs → jget k (fields_data fs kvs) = None.
Proof.
  induction fs as [|[[k' p] s] fs IH]; simpl; [done|]. intros Hk.
  rewrite jget_app, jget_jopt_ne by set_solver. apply IH. set_solver.
Qed.

Lemma jget_fields_data fs kvs k p s :
  NoDup (field_names fs) → (k, p, s) ∈ fs →
  jget k (fields_data fs kvs) = field_data p s (jget k kvs).
Proof.
  induction fs as [|[[k' p'] s'] fs IH]; simpl; [set_solver|].
  intros [Hk' Hnd]%NoDup_cons [Heq|Hin]%elem_of_cons; simplify_eq.
  - rewrite jget_app, jget_jopt_eq. destruct (field_data _ _ _); [done|].
    by apply jget_fields_data_ne.
  - rewrite jget_app, jget_jopt_ne; [by apply IH|].
    intros ->. apply Hk'. apply list_elem_of_fmap. by exists (k', p, s).
Qed.

Lemma keys_fields_data fs kvs k :
  k ∈ keys (fields_data fs kvs) → k ∈ field_names fs ∧ k ∈ keys kvs.
Proof.
  induction fs as [|[[k' p] s] fs IH]; simpl; [set_solver|].
  unfold keys in *. rewrite fmap_app, elem_of_app. intros [Hk|Hk].
  - assert (k = k' ∧ is_Some (jget k' kvs)) as [-> Hs].
    { destruct (jget k' kvs) as [[]|]; simpl in Hk; set_solver. }
    split; [set_solver|]. destruct (decide (k' ∈ keys kvs)) as [|Hn]; [done|].
    apply jget_None in Hn. rewrite Hn in Hs. by destruct Hs.
  - set_solver.
Qed.

(** Reading a required or optional string field of accepted data. *)
Lemma field_ok_string o :
  field_ok Required ZString o = true → ∃ s, o = Some (JStr s).
Proof. destruct o as [[]|]; simpl; naive_solver. Qed.

Lemma field_ok_opt_string o :
  field_ok Optional ZString o = true → o = None ∨ ∃ s, o = Some (JStr s).
Proof. destruct o as [[]|]; simpl; naive_solver. Qed.

Lemma field_ok_int p o :
  p ≠ Nullish → field_ok p ZInt o = true →
  (p = Optional ∧ o = None) ∨
  ∃ z, o = Some (JNum (NumZ z)) ∧ (- max_safe_integer ≤ z ≤ max_safe_integer)%Z.
Proof.
  intros Hp. destruct o as [[| |n| | |]|]; simpl.
  all: rewrite ?orb_false_r; try discriminate.
  - by rewrite bool_decide_eq_true.
  - destruct n; simpl; try discriminate. rewrite bool_decide_eq_true. right; eauto.
  - rewrite bool_decide_eq_true. left. by destruct p.
Qed.
