(* ===== verification/JsonText.v ===== *)
(** * [JSON.stringify] and [JSON.parse]

    The text form in which events travel from the broadcast service to the web
    client.  The printer writes what [JSON.stringify] writes without an indent
    argument (numbers positionally, never with an exponent: JavaScript does so
    below 10^21); the parser is a recursive descent over the JSON grammar with
    white space, escapes, fractions and exponents.  A lone surrogate is written
    as an escape, and a pair of escaped surrogates is one character. *)

From S2P Require Import Prelude Json JsString.

(** ** Numbers *)

Definition digit (d : Z) : ascii := chr (48 + d).
Definition is_digit (c : ascii) : bool := between 48 57 c.
Definition digit_value (c : ascii) : Z := (code c - 48)%Z.

Fixpoint print_digits_fuel (fuel : nat) (n : Z) (acc : list ascii) : list ascii :=
  match fuel with
  | O => acc
  | S fuel =>
      if (n <? 10)%Z then digit n :: acc
      else print_digits_fuel fuel (n / 10)%Z (digit (n mod 10) :: acc)
  end.
Definition print_digits (n : Z) : list ascii :=
  print_digits_fuel (S (Z.to_nat (Z.log2 n))) n [].

(** Exactly [p] digits of [n]. *)
Fixpoint pad_digits (p : nat) (n : Z) : list ascii :=
  match p with
  | O => []
  | S p => pad_digits p (n / 10)%Z ++ [digit (n mod 10)]
  end.

Definition print_sign (z : Z) : list ascii := if (z <? 0)%Z then ["-"%char] else [].

(** [NaN] and the infinities are written as [null]. *)
Definition print_number (n : number) : list ascii :=
  match n with
  | NumZ z => print_sign z ++ print_digits (Z.abs z)
  | NumDec d p =>
      print_sign d ++ print_digits (Z.abs d / 10 ^ Z.of_nat p)%Z ++
      "."%char :: pad_digits p (Z.abs d mod 10 ^ Z.of_nat p)%Z
  | NumInf _ | NumNaN => chars "null"
  end.

(** Drop the trailing zeros of a decimal. *)
Fixpoint strip_zeros (p : nat) (d : Z) : number :=
  match p with
  | O => NumZ d
  | S p' => if (d mod 10 =? 0)%Z then strip_zeros p' (d / 10)%Z else NumDec d p
  end.

(** The number [m × 10^e]; at 2^1024 and above it is an infinity. *)
Definition make_number (m e : Z) : number :=
  if (0 <=? e)%Z then
    if (m =? 0)%Z then NumZ 0
    else if (400 <? e)%Z then NumInf (m <? 0)%Z
    else let z := (m * 10 ^ e)%Z in
      if (2 ^ 1024 <=? Z.abs z)%Z then NumInf (z <? 0)%Z else NumZ z
  else strip_zeros (Z.to_nat (- e)) m.

Fixpoint span {A} (P : A → bool) (l : list A) : list A * list A :=
  match l with
  | [] => ([], [])
  | x :: l' => if P x then let '(a, b) := span P l' in (x :: a, b) else ([], l)
  end.

Definition read_digits (acc : Z) (ds : list ascii) : Z :=
  foldl (λ a c, (10 * a + digit_value c)%Z) acc ds.

Definition parse_sign (l : list ascii) : Z * list ascii :=
  match l with "-"%char :: l => ((-1)%Z, l) | _ => (1%Z, l) end.

(** Integer part: digits without a superfluous leading zero. *)
Definition parse_int_part (l : list ascii) : option (list ascii * list ascii) :=
  match span is_digit l with
  | ([], _) => None
  | ("0"%char :: _ :: _, _) => None
  | r => Some r
  end.

Definition parse_fraction (l : list ascii) : option (list ascii * list ascii) :=
  match l with
  | "."%char :: l => match span is_digit l with ([], _) => None | r => Some r end
  | _ => Some ([], l)
  end.

Definition parse_exponent (l : list ascii) : option (Z * list ascii) :=
  match l with
  | ("e"%char | "E"%char) :: l =>
      let '(sg, l) := match l with
                      | "+"%char :: l => (1%Z, l)
                      | "-"%char :: l => ((-1)%Z, l)
                      | _ => (1%Z, l)
                      end in
      match span is_digit l with
      | ([], _) => None
      | (ds, l) => Some ((sg * read_digits 0 ds)%Z, l)
      end
  | _ => Some (0%Z, l)
  end.

Definition parse_number (l : list ascii) : option (number * list ascii) :=
  let '(sg, l) := parse_sign l in
  '(ds, l) ← parse_int_part l;
  '(fs, l) ← parse_fraction l;
  '(e, l) ← parse_exponent l;
  Some (make_number (sg * read_digits 0 (ds ++ fs)) (e - Z.of_nat (length fs)), l).

(** ** Strings *)

Definition hex_digit (d : Z) : ascii := chr (if (d <? 10)%Z then 48 + d else 87 + d).
Definition hex_value (c : ascii) : option Z :=
  if is_digit c then Some (code c - 48)%Z
  else if between 97 102 c then Some (code c - 87)%Z
  else if between 65 70 c then Some (code c - 55)%Z else None.

Definition quote : ascii := chr 34.
Definition backslash : ascii := chr 92.

Definition print_char (c : ascii) : list ascii :=
  match code c with
  | 34 => [backslash; quote]
  | 92 => [backslash; backslash]
  | 8 => ["\"; "b"]
  | 9 => ["\"; "t"]
  | 10 => ["\"; "n"]
  | 12 => ["\"; "f"]
  | 13 => ["\"; "r"]
  | z => if (z <? 32)%Z
         then ["\"; "u"; "0"; "0"; hex_digit (z / 16); hex_digit (z mod 16)]
         else [c]
  end%char%Z.

(** The surrogate the text begins with, and what follows it. *)
Definition surrogate (l : list ascii) : option (Z * list ascii) :=
  match l with
  | a :: b :: c :: l =>
      if (code a =? 237)%Z && between 160 191 b && continues c
      then Some (code_point [a; b; c], l) else None
  | _ => None
  end.
Definition is_high (z : Z) : bool := (55296 <=? z)%Z && (z <? 56320)%Z.
Definition is_low (z : Z) : bool := (56320 <=? z)%Z && (z <? 57344)%Z.
Definition begins_low (l : list ascii) : bool :=
  match surrogate l with Some (z, _) => is_low z | None => false end.

Definition hex4 (z : Z) : list ascii :=
  [hex_digit (z / 16 ^ 3 mod 16); hex_digit (z / 16 ^ 2 mod 16); hex_digit (z / 16 mod 16);
   hex_digit (z mod 16)]%Z.

(** A surrogate that stands alone is escaped. *)
Fixpoint print_body (l : list ascii) : list ascii :=
  match l with
  | [] => []
  | a :: (b :: c :: l2) as l1 =>
      match surrogate [a; b; c] with
      | Some (z, _) =>
          if is_high z && begins_low l2 then print_char a ++ print_body l1
          else "\"%char :: "u"%char :: hex4 z ++ print_body l2
      | None => print_char a ++ print_body l1
      end
  | a :: l1 => print_char a ++ print_body l1
  end.

Definition print_chars (l : list ascii) : list ascii := quote :: print_body l ++ [quote].

Definition parse_hex4 (l : list ascii) : option (Z * list ascii) :=
  match l with
  | a :: b :: c :: d :: l =>
      wa ← hex_value a; wb ← hex_value b; wc ← hex_value c; wd ← hex_value d;
      Some ((((wa * 16 + wb) * 16 + wc) * 16 + wd)%Z, l)
  | _ => None
  end.

(** The second escape of a pair. *)
Definition parse_low (l : list ascii) : option (Z * list ascii) :=
  match l with
  | "\"%char :: "u"%char :: l =>
      '(z, l) ← parse_hex4 l; if is_low z then Some (z, l) else None
  | _ => None
  end.

(** What an escape stands for: a character, or its unit when it has no pair. *)
Definition parse_escape (l : list ascii) : option (list ascii * list ascii) :=
  match l with
  | "b"%char :: l => Some ([chr 8], l)
  | "t"%char :: l => Some ([chr 9], l)
  | "n"%char :: l => Some ([chr 10], l)
  | "f"%char :: l => Some ([chr 12], l)
  | "r"%char :: l => Some ([chr 13], l)
  | "/"%char :: l => Some (["/"%char], l)
  | "u"%char :: l =>
      '(z, l) ← parse_hex4 l;
      if is_high z then
        match parse_low l with
        | Some (w, l) => Some (utf8 (65536 + (z - 55296) * 1024 + (w - 56320)), l)
        | None => Some (utf8 z, l)
        end
      else Some (utf8 z, l)
  | c :: l => if bool_decide (c = quote ∨ c = backslash) then Some ([c], l) else None
  | [] => None
  end.

(** The rest of a string after the opening quote. *)
Fixpoint parse_chars (fuel : nat) (l : list ascii) : option (list ascii * list ascii) :=
  match fuel, l with
  | S fuel, c :: l =>
      if bool_decide (c = quote) then Some ([], l)
      else if bool_decide (c = backslash) then
        '(x, l) ← parse_escape l; '(xs, l) ← parse_chars fuel l; Some (x ++ xs, l)
      else if (code c <? 32)%Z then None
      else '(xs, l) ← parse_chars fuel l; Some (c :: xs, l)
  | _, _ => None
  end.

(** ** Values *)

Fixpoint intersperse {A} (sep : A) (ls : list (list A)) : list A :=
  match ls with
  | [] => []
  | [l] => l
  | l :: ls => l ++ sep :: intersperse sep ls
  end.

Fixpoint print_json (v : json) : list ascii :=
  match v with
  | JNull => chars "null"
  | JBool true => chars "true"
  | JBool false => chars "false"
  | JNum n => print_number n
  | JStr s => print_chars (chars s)
  | JArr l => "["%char :: intersperse ","%char (print_json <$> l) ++ ["]"%char]
  | JObj fs =>
      "{"%char ::
      intersperse ","%char
        ((λ kv, print_chars (chars kv.1) ++ ":"%char :: print_json kv.2) <$> fs)
      ++ ["}"%char]
  end.

Definition JSON_stringify (v : json) : string := of_chars (print_json v).

Definition is_json_space (c : ascii) : bool :=
  bool_decide (code c = 32 ∨ code c = 9 ∨ code c = 10 ∨ code c = 13)%Z.
Definition skip_ws (l : list ascii) : list ascii := drop_while is_json_space l.

(** Assigning a property of a fresh object: a repeated key keeps its place and
    takes the later value. *)
Fixpoint set_field (k : string) (v : json) (fs : list (string * json)) :
    list (string * json) :=
  match fs with
  | [] => [(k, v)]
  | (k', v') :: fs => if decide (k = k') then (k, v) :: fs else (k', v') :: set_field k v fs
  end.

Fixpoint strip_prefix (p l : list ascii) : option (list ascii) :=
  match p, l with
  | [], l => Some l
  | x :: p, y :: l => if decide (x = y) then strip_prefix p l else None
  | _, _ => None
  end.

Fixpoint parse_value (fuel : nat) (l : list ascii) : option (json * list ascii) :=
  match fuel with
  | O => None
  | S fuel =>
      match skip_ws l with
      | "n"%char :: _ => l ← strip_prefix (chars "null") (skip_ws l); Some (JNull, l)
      | "t"%char :: _ => l ← strip_prefix (chars "true") (skip_ws l); Some (JBool true, l)
      | "f"%char :: _ => l ← strip_prefix (chars "false") (skip_ws l); Some (JBool false, l)
      | "["%char :: l =>
          match skip_ws l with
          | "]"%char :: l => Some (JArr [], l)
          | _ => '(vs, l) ← parse_elements fuel l; Some (JArr vs, l)
          end
      | "{"%char :: l =>
          match skip_ws l with
          | "}"%char :: l => Some (JObj [], l)
          | _ => '(fs, l) ← parse_members fuel [] l; Some (JObj fs, l)
          end
      | c :: l' =>
          if bool_decide (c = quote) then
            '(s, l) ← parse_chars (S (length l')) l'; Some (JStr (of_chars s), l)
          else '(n, l) ← parse_number (c :: l'); Some (JNum n, l)
      | [] => None
      end
  end
with parse_elements (fuel : nat) (l : list ascii) : option (list json * list ascii) :=
  match fuel with
  | O => None
  | S fuel =>
      '(v, l) ← parse_value fuel l;
      match skip_ws l with
      | ","%char :: l => '(vs, l) ← parse_elements fuel l; Some (v :: vs, l)
      | "]"%char :: l => Some ([v], l)
      | _ => None
      end
  end
with parse_members (fuel : nat) (seen : list (string * json)) (l : list ascii) :
    option (list (string * json) * list ascii) :=
  match fuel with
  | O => None
  | S fuel =>
      match skip_ws l with
      | c :: l =>
          if bool_decide (c = quote) then
            '(k, l) ← parse_chars (S (length l)) l;
            match skip_ws l with
            | ":"%char :: l =>
                '(v, l) ← parse_value fuel l;
                let seen := set_field (of_chars k) v seen in
                match skip_ws l with
                | ","%char :: l => parse_members fuel seen l
                | "}"%char :: l => Some (seen, l)
                | _ => None
                end
            | _ => None
            end
          else None
      | [] => None
      end
  end.

(** [None] is the [SyntaxError] of [JSON.parse].  Twice the length of the text
    is more fuel than any value it spells needs ([parse_print]). *)
Definition JSON_parse (s : string) : option json :=
  match parse_value (S (2 * length (chars s))) (chars s) with
  | Some (v, l) => match skip_ws l with [] => Some v | _ => None end
  | None => None
  end.

Example parse_escapes :
  JSON_parse (of_chars (quote :: chars "\u2019 \ud83e\udd80" ++ [quote])) = Some (JStr "’ 🦀").
Proof. vm_compute. reflexivity. Qed.

(** ** Round trip *)

(** The values the printer is faithful on: distinct keys, finite numbers below
    2^1024 in lowest terms. *)
Definition printable_number (n : number) : bool :=
  match n with
  | NumZ z => (Z.abs z <? 2 ^ 1024)%Z
  | NumDec _ _ => num_wf n
  | NumInf _ | NumNaN => false
  end.

Fixpoint printable (v : json) : Prop :=
  match v with
  | JNum n => printable_number n = true
  | JArr l => foldr (λ x P, printable x ∧ P) True l
  | JObj fs => NoDup (keys fs) ∧ foldr (λ kv P, printable kv.2 ∧ P) True fs
  | _ => True
  end.

Lemma span_app {A} (P : A → bool) ds rest :
  Forall (λ x, P x = true) ds →
  match rest with [] => True | x :: _ => P x = false end →
  span P (ds ++ rest) = (ds, rest).
Proof.
  intros Hds Hrest. induction Hds as [|x ds Hx _ IH]; simpl.
  - destruct rest; [done|]. simpl. by rewrite Hrest.
  - by rewrite Hx, IH.
Qed.

Lemma is_digit_digit d : (0 ≤ d < 10)%Z → is_digit (digit d) = true.
Proof.
  intros. unfold is_digit, between, digit. rewrite code_chr by lia.
  apply bool_decide_eq_true. lia.
Qed.

Lemma digit_value_digit d : (0 ≤ d < 10)%Z → digit_value (digit d) = d.
Proof. intros. unfold digit_value, digit. rewrite code_chr; lia. Qed.

Lemma digit_zero_iff d : (0 ≤ d < 10)%Z → digit d = "0"%char → d = 0%Z.
Proof.
  intros Hd H. apply (f_equal digit_value) in H.
  by rewrite digit_value_digit in H.
Qed.

Lemma mod10 n : (0 ≤ n mod 10 < 10)%Z.
Proof. apply Z.mod_pos_bound. lia. Qed.
#[local] Hint Resolve mod10 : island.

Lemma print_digits_fuel_spec fuel n acc :
  (0 ≤ n < 2 ^ Z.of_nat fuel)%Z → Forall (λ c, is_digit c = true) acc →
  Forall (λ c, is_digit c = true) (print_digits_fuel fuel n acc) ∧
  read_digits 0 (print_digits_fuel fuel n acc) = read_digits n acc ∧
  (0 < n → ∃ c l, print_digits_fuel fuel n acc = c :: l ∧ c ≠ "0"%char)%Z.
Proof.
  revert n acc. induction fuel as [|fuel IH]; intros n acc Hn Hacc; simpl.
  { replace n with 0%Z by lia. split_and!; [done..|lia]. }
  destruct (Z.ltb_spec n 10) as [Hlt|Hge].
  - split_and!.
    + constructor; [apply is_digit_digit; lia|done].
    + unfold read_digits. simpl. by rewrite digit_value_digit by lia.
    + intros. do 2 eexists. split; [done|]. intros Hz%digit_zero_iff; lia.
  - assert (0 < n / 10)%Z as Hpos by (apply Z.div_str_pos; lia).
    assert (n / 10 < 2 ^ Z.of_nat fuel)%Z as Hlt2.
    { apply Z.div_lt_upper_bound; [lia|].
      rewrite Nat2Z.inj_succ, Z.pow_succ_r in Hn by lia. lia. }
    destruct (IH (n / 10)%Z (digit (n mod 10) :: acc)) as (H1 & H2 & H3).
    + lia.
    + constructor; [apply is_digit_digit, mod10|done].
    + split_and!; [done| |naive_solver].
      rewrite H2. unfold read_digits. simpl. rewrite digit_value_digit by apply mod10.
      by rewrite <-Z.div_mod.
Qed.

Lemma print_digits_spec n :
  (0 ≤ n)%Z →
  Forall (λ c, is_digit c = true) (print_digits n) ∧
  read_digits 0 (print_digits n) = n ∧
  (print_digits n = ["0"%char] ∨ ∃ c l, print_digits n = c :: l ∧ c ≠ "0"%char).
Proof.
  intros Hn. destruct (Z.eq_dec n 0) as [->|].
  { split; [|split]; [|reflexivity|by left]. by repeat constructor. }
  destruct (print_digits_fuel_spec (S (Z.to_nat (Z.log2 n))) n []) as (H1 & H2 & H3).
  - rewrite Nat2Z.inj_succ, Z2Nat.id by apply Z.log2_nonneg.
    split; [lia|]. apply Z.log2_spec. lia.
  - constructor.
  - split_and!; [done..|right; apply H3; lia].
Qed.

Lemma pad_digits_spec p a x :
  (0 ≤ x < 10 ^ Z.of_nat p)%Z →
  Forall (λ c, is_digit c = true) (pad_digits p x) ∧
  length (pad_digits p x) = p ∧
  read_digits a (pad_digits p x) = (a * 10 ^ Z.of_nat p + x)%Z.
Proof.
  revert x. induction p as [|p IH]; intros x Hx; simpl.
  { change (10 ^ Z.of_nat 0)%Z with 1%Z in *.
    split_and!; [done..|]. unfold read_digits. simpl. lia. }
  rewrite Nat2Z.inj_succ, Z.pow_succ_r in * by lia.
  destruct (IH (x / 10)%Z) as (H1 & H2 & H3).
  { split; [apply Z.div_pos; lia|]. apply Z.div_lt_upper_bound; lia. }
  split_and!.
  - apply Forall_app; split; [done|].
    constructor; [apply is_digit_digit, mod10|done].
  - rewrite length_app, H2. simpl. lia.
  - unfold read_digits in *. rewrite foldl_app, H3. simpl.
    rewrite digit_value_digit by apply mod10.
    pose proof (Z.div_mod x 10). lia.
Qed.

Lemma read_digits_app a ds fs : read_digits a (ds ++ fs) = read_digits (read_digits a ds) fs.
Proof. apply foldl_app. Qed.

(** What may follow a number so that it ends there. *)
Definition ends_number (l : list ascii) : Prop :=
  match l with
  | [] => True
  | c :: _ => is_digit c = false ∧ c ≠ "."%char ∧ c ≠ "e"%char ∧ c ≠ "E"%char
  end.

Lemma parse_int_part_print n rest :
  (0 ≤ n)%Z → match rest with [] => True | c :: _ => is_digit c = false end →
  parse_int_part (print_digits n ++ rest) = Some (print_digits n, rest).
Proof.
  intros Hn Hrest. destruct (print_digits_spec n Hn) as (Hd & _ & Hz).
  unfold parse_int_part. rewrite span_app by done.
  destruct Hz as [->|(c & l & -> & Hc)]; [done|].
  destruct c as [[] [] [] [] [] [] [] []]; done || by destruct l.
Qed.

Lemma parse_exponent_none rest : ends_number rest → parse_exponent rest = Some (0%Z, rest).
Proof.
  destruct rest as [|c rest]; [done|]. intros (_ & _ & He & HE). unfold parse_exponent.
  destruct c as [[] [] [] [] [] [] [] []]; done.
Qed.

Lemma parse_fraction_none rest : ends_number rest → parse_fraction rest = Some ([], rest).
Proof.
  destruct rest as [|c rest]; [done|]. intros (_ & Hd & _). unfold parse_fraction.
  destruct c as [[] [] [] [] [] [] [] []]; done.
Qed.

Lemma parse_sign_print z l :
  match l with c :: _ => is_digit c = true | [] => False end →
  parse_sign (print_sign z ++ l) = ((if (z <? 0)%Z then -1 else 1)%Z, l).
Proof.
  intros Hl. unfold print_sign. destruct (z <? 0)%Z; [done|]. simpl.
  destruct l as [|c l]; [done|]. destruct c as [[] [] [] [] [] [] [] []]; done.
Qed.

Lemma sign_abs z : ((if (z <? 0)%Z then -1 else 1) * Z.abs z = z)%Z.
Proof. destruct (Z.ltb_spec z 0); lia. Qed.

Lemma print_digits_head n rest :
  (0 ≤ n)%Z → match print_digits n ++ rest with c :: _ => is_digit c = true | [] => False end.
Proof.
  intros Hn. destruct (print_digits_spec n Hn) as (Hd & _ & Hz).
  destruct Hz as [->|(c & l & Heq & _)]; [done|]. rewrite Heq in *. simpl.
  by apply Forall_cons_1 in Hd as [? _].
Qed.

Lemma parse_print_number n rest :
  printable_number n = true → ends_number rest →
  parse_number (print_number n ++ rest) = Some (n, rest).
Proof.
  intros Hn Hrest. assert (match rest with [] => True | c :: _ => is_digit c = false end) as Hnd.
  { destruct rest; [done|]. apply Hrest. }
  destruct n as [z|d p| |]; simpl in Hn; try done; unfold print_number, parse_number.
  - rewrite <-app_assoc, parse_sign_print by (apply print_digits_head; lia).
    rewrite parse_int_part_print by (done || lia). simpl.
    rewrite parse_fraction_none by done. simpl. rewrite parse_exponent_none by done. simpl.
    destruct (print_digits_spec (Z.abs z)) as (_ & Hr & _); [lia|].
    rewrite app_nil_r, Hr, sign_abs. unfold make_number. simpl.
    destruct (Z.eqb_spec z 0) as [->|]; [done|]. rewrite Z.mul_1_r.
    apply Z.ltb_lt in Hn. apply Z.leb_gt in Hn. by rewrite Hn.
  - apply andb_prop in Hn as [Hp Hm].
    apply bool_decide_eq_true in Hp. apply negb_true_iff, bool_decide_eq_false in Hm.
    set (b := (10 ^ Z.of_nat p)%Z).
    assert (0 < b)%Z as Hb by (apply Z.pow_pos_nonneg; lia).
    destruct (pad_digits_spec p (Z.abs d / b) (Z.abs d mod b)) as (Hf & Hl & Hv).
    { apply Z.mod_pos_bound. done. }
    assert (0 ≤ Z.abs d / b)%Z as Hq by (apply Z.div_pos; lia).
    rewrite <-!app_assoc, parse_sign_print by (by apply print_digits_head).
    simpl. rewrite parse_int_part_print by done. simpl.
    rewrite span_app by done.
    destruct (pad_digits p (Z.abs d mod b)) as [|f fs] eqn:Hpad; [simpl in *; lia|].
    rewrite <-Hpad in *. simpl. rewrite Hpad, <-Hpad. simpl.
    rewrite parse_exponent_none by done. simpl.
    destruct (print_digits_spec (Z.abs d / b)) as (_ & Hr & _); [lia|].
    rewrite read_digits_app, Hr, Hv, Hl. fold b.
    rewrite (Z.mul_comm _ b), <-Z.div_mod by lia. rewrite sign_abs.
    unfold make_number. destruct (Z.leb_spec 0 (0 - Z.of_nat p)); [lia|].
    replace (Z.to_nat (- (0 - Z.of_nat p))) with p by lia.
    destruct p; [lia|]. simpl. by apply Z.eqb_neq in Hm as ->.
Qed.

(** One character: whatever its escape, one step of the reader gives it back. *)
Lemma parse_chars_step fuel c l :
  parse_chars (S fuel) (print_char c ++ l) =
  ('(xs, l) ← parse_chars fuel l; Some (c :: xs, l)).
Proof. destruct c as [[] [] [] [] [] [] [] []]; reflexivity. Qed.

(** *** Surrogates *)

Lemma chr_code c : chr (code c) = c.
Proof. unfold chr, code. by rewrite N2Z.id, ascii_N_embedding. Qed.

Lemma hex_digit_value d : (0 ≤ d < 16)%Z → hex_value (hex_digit d) = Some d.
Proof.
  intros Hd. assert (Forall (λ n, hex_value (hex_digit (Z.of_nat n)) = Some (Z.of_nat n)) (seq 0 16)) as Hall
    by (apply (bool_decide_unpack _); by vm_compute).
  rewrite Forall_forall in Hall. specialize (Hall (Z.to_nat d)).
  rewrite elem_of_seq, Z2Nat.id in Hall by lia. apply Hall. lia.
Qed.

Lemma parse_hex4_print z l : (0 ≤ z < 65536)%Z → parse_hex4 (hex4 z ++ l) = Some (z, l).
Proof.
  intros Hz. unfold hex4. cbn [app parse_hex4].
  rewrite !hex_digit_value by (apply Z.mod_pos_bound; lia). cbn [mbind option_bind].
  do 2 f_equal. change (16 ^ 3)%Z with 4096%Z. change (16 ^ 2)%Z with 256%Z.
  Z.div_mod_to_equations. lia.
Qed.

Lemma surrogate_bytes b c :
  160 ≤ b < 192 → 128 ≤ c < 192 →
  let g := [chr 237; chr (Z.of_nat b); chr (Z.of_nat c)] in
  utf8 (code_point g) = g ∧ (55296 ≤ code_point g < 57344)%Z.
Proof.
  intros Hb Hc g.
  assert (forallb (λ b, forallb (λ c, let g := [chr 237; chr (Z.of_nat b); chr (Z.of_nat c)] in
    bool_decide (utf8 (code_point g) = g) && (55296 <=? code_point g)%Z && (code_point g <? 57344)%Z)
    (seq 128 64)) (seq 160 32) = true) as Hall by (by vm_compute).
  rewrite forallb_forall in Hall. specialize (Hall b ltac:(apply in_seq; lia)). cbn beta in Hall.
  rewrite forallb_forall in Hall. specialize (Hall c ltac:(apply in_seq; lia)). cbv zeta in Hall.
  fold g in Hall. rewrite !andb_true_iff, bool_decide_eq_true in Hall. split; [tauto|lia].
Qed.

(** A surrogate is told by its bytes. *)
Lemma surrogate_spec a b c z l :
  surrogate (a :: b :: c :: l) = Some (z, l) → utf8 z = [a; b; c] ∧ (55296 ≤ z < 57344)%Z.
Proof.
  unfold surrogate. destruct (Z.eqb_spec (code a) 237) as [Ha|]; [|done]. unfold continues, between.
  case_bool_decide as Hb; [|done]. case_bool_decide as Hc; [|done]. cbn [andb]. intros [= <-].
  pose proof (surrogate_bytes (Z.to_nat (code b)) (Z.to_nat (code c))) as Hbc.
  rewrite !Z2Nat.id, <-Ha, !chr_code in Hbc by lia.
  destruct Hbc as [Hu Hz]; [lia..|]. by rewrite Hu.
Qed.

Lemma surrogate_tail a b c l : surrogate (a :: b :: c :: l) = (λ z, (z.1, l)) <$> surrogate [a; b; c].
Proof. cbn. by case_match. Qed.

(** How the printer goes on: by one byte, or by a surrogate that stands alone. *)
Inductive printed : list ascii → list ascii → Prop :=
  | printed_nil : printed [] []
  | printed_byte a l t : printed l t → printed (a :: l) (print_char a ++ t)
  | printed_unit a b c l t z :
      surrogate (a :: b :: c :: l) = Some (z, l) →
      is_high z && begins_low l = false → printed l t →
      printed (a :: b :: c :: l) ("\"%char :: "u"%char :: hex4 z ++ t).

Lemma print_body_printed l : printed l (print_body l).
Proof.
  induction l as [l IH] using (induction_ltof1 _ (@length ascii)).
  unfold ltof in IH. destruct l as [|a [|b [|c l]]]; cbn [print_body].
  - constructor.
  - apply printed_byte, printed_nil.
  - apply printed_byte, (IH [b]). simpl. lia.
  - pose proof (surrogate_tail a b c l) as Hs. destruct (surrogate [a; b; c]) as [[z k]|].
    + cbn in Hs. destruct (is_high z && begins_low l) eqn:Hz.
      * apply printed_byte, (IH (b :: c :: l)). simpl. lia.
      * apply printed_unit; [done..|]. apply IH. simpl. lia.
    + apply printed_byte, (IH (b :: c :: l)). simpl. lia.
Qed.

(** No escape of a low surrogate begins what is printed, if none begins the text. *)
Lemma parse_low_printed l t rest :
  printed l t → begins_low l = false → parse_low (t ++ quote :: rest) = None.
Proof.
  destruct 1 as [|a l t _|a b c l t z Hz _ _]; intros Hl; [done| |].
  - rewrite <-app_assoc. destruct a as [[] [] [] [] [] [] [] []]; reflexivity.
  - unfold begins_low in Hl. rewrite Hz in Hl. apply surrogate_spec in Hz as [_ Hz].
    cbn [app parse_low]. rewrite <-app_assoc, parse_hex4_print by lia. cbn. by rewrite Hl.
Qed.

Lemma parse_escape_unit a b c l t z rest :
  surrogate (a :: b :: c :: l) = Some (z, l) → is_high z && begins_low l = false → printed l t →
  parse_escape ("u"%char :: hex4 z ++ t ++ quote :: rest) = Some ([a; b; c], t ++ quote :: rest).
Proof.
  intros Hz Hh Ht. apply surrogate_spec in Hz as [Hu Hz].
  unfold parse_escape. rewrite parse_hex4_print by lia. cbn [mbind option_bind]. rewrite Hu.
  destruct (is_high z); [|done]. cbn in Hh. by rewrite (parse_low_printed l).
Qed.

Lemma parse_chars_print fuel cs t rest :
  printed cs t → length cs < fuel → parse_chars fuel (t ++ quote :: rest) = Some (cs, rest).
Proof.
  intros Ht. revert fuel. induction Ht as [|a l t Ht IH|a b c l t z Hz Hh Ht IH]; intros fuel Hf;
    (destruct fuel as [|fuel]; [simpl in Hf; lia|]).
  - done.
  - rewrite <-app_assoc, parse_chars_step, IH; [done|simpl in Hf; lia].
  - cbn [parse_chars app]. rewrite bool_decide_false, bool_decide_true by done.
    rewrite <-app_assoc. rewrite (parse_escape_unit a b c l t) by done.
    cbn [mbind option_bind]. rewrite IH; [done|simpl in Hf; lia].
Qed.

Lemma length_print_char c : 1 ≤ length (print_char c).
Proof. destruct c as [[] [] [] [] [] [] [] []]; vm_compute; lia. Qed.

Lemma length_printed cs t : printed cs t → length cs ≤ length t.
Proof.
  induction 1 as [|a l t _ IH|a b c l t z _ _ _ IH]; [done|..]; cbn; rewrite ?length_app.
  - pose proof (length_print_char a). lia.
  - unfold hex4. cbn. lia.
Qed.

(** The reader of a quoted string, with the fuel the value parser gives it. *)
Lemma parse_quoted cs rest :
  parse_chars (S (length (print_body cs ++ quote :: rest))) (print_body cs ++ quote :: rest) =
    Some (cs, rest).
Proof.
  pose proof (print_body_printed cs) as Hp. apply parse_chars_print; [done|].
  rewrite length_app. pose proof (length_printed _ _ Hp). lia.
Qed.

(** The first characters of values. *)
Definition value_start (c : ascii) : Prop :=
  c ∈ [quote; "["; "{"; "n"; "t"; "f"; "-"]%char ∨ is_digit c = true.

Lemma value_start_not_space c : value_start c → is_json_space c = false ∧ c ≠ "]"%char ∧ c ≠ "}"%char.
Proof.
  intros [H|H].
  - set_unfold. naive_solver.
  - destruct c as [[] [] [] [] [] [] [] []]; done.
Qed.

Lemma print_number_start n :
  printable_number n = true → ∃ c l, print_number n = c :: l ∧ (c = "-"%char ∨ is_digit c = true).
Proof.
  assert (∀ z m l, (0 ≤ m)%Z → ∃ c l', print_sign z ++ print_digits m ++ l = c :: l' ∧
    (c = "-"%char ∨ is_digit c = true)) as Hgen.
  { intros z m l Hm. unfold print_sign. destruct (z <? 0)%Z; simpl; [by eauto|].
    pose proof (print_digits_head m l Hm) as Hh.
    destruct (print_digits m ++ l) as [|c l']; [done|]. eauto. }
  destruct n as [z|d p| |]; simpl; intros Hn; try done.
  - rewrite <-(app_nil_r (print_digits _)). apply Hgen. lia.
  - apply Hgen. apply Z.div_pos; [lia|]. apply Z.pow_pos_nonneg; lia.
Qed.

Lemma print_json_start v : printable v → ∃ c l, print_json v = c :: l ∧ value_start c.
Proof.
  unfold value_start. destruct v as [|[]|n|s|l|fs]; cbn; intros Hp.
  4: { destruct (print_number_start n Hp) as (c & l & -> & [->|]);
       do 2 eexists; split; [done| |done|]; [|by right]. left. set_solver. }
  all: do 2 eexists; split; [reflexivity|]; left; set_solver.
Qed.

Lemma skip_ws_start c l : is_json_space c = false → skip_ws (c :: l) = c :: l.
Proof. unfold skip_ws. simpl. by intros ->. Qed.

(** Fuel a value needs. *)
Fixpoint need (v : json) : nat :=
  match v with
  | JArr l => S (foldr (λ x n, S (need x + n)) 0 l)
  | JObj fs => S (foldr (λ kv n, S (need kv.2 + n)) 0 fs)
  | _ => 1
  end.

Definition reads_back (v : json) : Prop :=
  printable v → ∀ fuel rest, need v ≤ fuel → ends_number rest →
  parse_value fuel (print_json v ++ rest) = Some (v, rest).

Lemma parse_elements_print l fuel rest :
  Forall reads_back l → l ≠ [] → foldr (λ x P, printable x ∧ P) True l →
  foldr (λ x n, S (need x + n)) 0 l ≤ fuel →
  parse_elements fuel (intersperse ","%char (print_json <$> l) ++ "]"%char :: rest) =
  Some (l, rest).
Proof.
  intros Hall. revert fuel. induction Hall as [|x l Hx Hall IH]; intros fuel Hne Hp Hf; [done|].
  simpl in Hp, Hf. destruct Hp as [Hpx Hpl]. destruct fuel as [|fuel]; [lia|].
  destruct l as [|y l].
  - simpl. by rewrite (Hx Hpx) by (done || lia).
  - change (intersperse ","%char (print_json <$> x :: y :: l))
      with (print_json x ++ ","%char :: intersperse ","%char (print_json <$> y :: l)).
    rewrite <-app_assoc. cbn [parse_elements]. rewrite (Hx Hpx) by (done || lia).
    cbn [mbind option_bind app]. rewrite skip_ws_start by done.
    rewrite IH; [done..|]. lia.
Qed.

Lemma set_field_fresh k v fs : k ∉ keys fs → set_field k v fs = fs ++ [(k, v)].
Proof.
  unfold keys. induction fs as [|[k' v'] fs IH]; simpl; [done|]. intros Hk.
  rewrite decide_False by set_solver. rewrite IH by set_solver. done.
Qed.

Definition print_member (kv : string * json) : list ascii :=
  print_chars (chars kv.1) ++ ":"%char :: print_json kv.2.

Lemma parse_members_print fs seen fuel rest :
  Forall (λ kv, reads_back kv.2) fs → fs ≠ [] → NoDup (keys (seen ++ fs)) →
  foldr (λ kv P, printable kv.2 ∧ P) True fs →
  foldr (λ kv n, S (need kv.2 + n)) 0 fs ≤ fuel →
  parse_members fuel seen (intersperse ","%char (print_member <$> fs) ++ "}"%char :: rest) =
  Some (seen ++ fs, rest).
Proof.
  intros Hall. revert seen fuel.
  induction Hall as [|[k v] fs Hx Hall IH]; intros seen fuel Hne Hnd Hp Hf; [done|].
  simpl in Hp, Hf, Hx. destruct Hp as [Hpx Hpl]. destruct fuel as [|fuel]; [lia|].
  assert (set_field k v seen = seen ++ [(k, v)]) as Hset.
  { apply set_field_fresh. unfold keys in Hnd. rewrite fmap_app in Hnd.
    apply NoDup_app in Hnd as (_ & Hd & _). intros Hk. apply (Hd k Hk). set_solver. }
  assert (∀ l, ends_number l → parse_members (S fuel) seen (print_member (k, v) ++ l) =
    match skip_ws l with
    | ","%char :: l => parse_members fuel (seen ++ [(k, v)]) l
    | "}"%char :: l => Some (seen ++ [(k, v)], l)
    | _ => None
    end) as Hstep.
  { intros l Hl. unfold print_member, print_chars. simpl fst. simpl snd.
    cbn [parse_members app]. rewrite skip_ws_start by done.
    rewrite bool_decide_true by done. rewrite <-!app_assoc. cbn [app].
    rewrite parse_quoted. cbn [mbind option_bind]. rewrite skip_ws_start by done.
    rewrite (Hx Hpx) by (done || lia). cbn [mbind option_bind].
    by rewrite of_chars_chars, Hset. }
  destruct fs as [|kv fs].
  - change (intersperse ","%char (print_member <$> [(k, v)])) with (print_member (k, v)).
    rewrite Hstep by done. by rewrite skip_ws_start.
  - change (intersperse ","%char (print_member <$> (k, v) :: kv :: fs))
      with (print_member (k, v) ++ ","%char :: intersperse ","%char (print_member <$> kv :: fs)).
    rewrite <-app_assoc, Hstep by done. cbn [app]. rewrite skip_ws_start by done.
    rewrite IH; [by rewrite <-app_assoc|done|by rewrite <-app_assoc|done|lia].
Qed.

(** On a digit or a minus sign the value parser reads a number. *)
Lemma parse_value_number fuel c l :
  c = "-"%char ∨ is_digit c = true →
  parse_value (S fuel) (c :: l) = ('(n, l) ← parse_number (c :: l); Some (JNum n, l)).
Proof.
  intros [->|Hd]; [reflexivity|].
  destruct c as [[] [] [] [] [] [] [] []]; first [done | reflexivity].
Qed.

Lemma parse_value_string fuel l :
  parse_value (S fuel) (quote :: l) =
  ('(s, l) ← parse_chars (S (length l)) l; Some (JStr (of_chars s), l)).
Proof. reflexivity. Qed.

Lemma intersperse_cons {A} (sep : A) l ls :
  ∃ l', intersperse sep (l :: ls) = l ++ l'.
Proof. destruct ls; simpl; [exists []; by rewrite app_nil_r|eauto]. Qed.

(** The text after an opening bracket may begin with white space. *)
Lemma parse_value_array fuel c l k :
  c ≠ "]"%char → skip_ws k = c :: l →
  parse_value (S fuel) ("["%char :: k) =
  ('(vs, l) ← parse_elements fuel k; Some (JArr vs, l)).
Proof.
  intros Hb Hk. change (parse_value (S fuel) ("["%char :: k)) with
    (match skip_ws k with
     | "]"%char :: l => Some (JArr [], l)
     | _ => '(vs, l) ← parse_elements fuel k; Some (JArr vs, l)
     end).
  rewrite Hk. destruct c as [[] [] [] [] [] [] [] []]; first [done | reflexivity].
Qed.

Lemma parse_value_object fuel k l :
  skip_ws k = quote :: l →
  parse_value (S fuel) ("{"%char :: k) =
  ('(fs, l) ← parse_members fuel [] k; Some (JObj fs, l)).
Proof.
  intros Hk. change (parse_value (S fuel) ("{"%char :: k)) with
    (match skip_ws k with
     | "}"%char :: l => Some (JObj [], l)
     | _ => '(fs, l) ← parse_members fuel [] k; Some (JObj fs, l)
     end).
  by rewrite Hk.
Qed.

Lemma parse_print_value v : reads_back v.
Proof.
  induction v as [|b|n|s|l IH|fs IH] using json_nested_ind; intros Hp fuel rest Hf Hr;
    (destruct fuel as [|fuel]; [simpl in Hf; lia|]).
  - done.
  - by destruct b.
  - simpl in Hp. destruct (print_number_start n Hp) as (c & l & Hc & Hs).
    pose proof (parse_print_number n rest Hp Hr) as Hn.
    cbn [print_json]. rewrite Hc in *. cbn [app] in *.
    by rewrite parse_value_number, Hn.
  - cbn [print_json]. unfold print_chars. rewrite <-app_comm_cons, parse_value_string.
    rewrite <-app_assoc. cbn [app]. rewrite parse_quoted. cbn. by rewrite of_chars_chars.
  - cbn [print_json]. destruct l as [|x l]; [reflexivity|].
    simpl in Hp. destruct (print_json_start x) as (c & l' & Hc & Hs); [tauto|].
    rewrite <-app_comm_cons, <-app_assoc.
    destruct (intersperse_cons ","%char (print_json x) (print_json <$> l)) as (l'' & Hi).
    rewrite (parse_value_array _ c (l' ++ l'' ++ "]"%char :: rest)).
    + cbn [app]. rewrite parse_elements_print; [done..|simpl in *; lia].
    + by apply value_start_not_space.
    + rewrite fmap_cons, Hi, Hc, <-app_assoc. by apply skip_ws_start, value_start_not_space.
  - cbn [print_json]. destruct fs as [|kv fs]; [reflexivity|].
    change (λ kv, print_chars (chars kv.1) ++ ":"%char :: print_json kv.2) with print_member.
    rewrite <-app_comm_cons, <-app_assoc.
    destruct (intersperse_cons ","%char (print_member kv) (print_member <$> fs)) as (l'' & Hi).
    simpl in Hp.
    erewrite parse_value_object.
    + cbn [app]. rewrite (parse_members_print (kv :: fs) []); [done|done|done|apply Hp|apply Hp|].
      simpl in *. lia.
    + rewrite fmap_cons, Hi. by apply skip_ws_start.
Qed.

(** The fuel [JSON_parse] starts with is enough for any text the printer
    writes. *)
Lemma length_intersperse {A} (sep : A) ls :
  length (intersperse sep ls) = foldr (λ l n, length l + n) 0 ls + pred (length ls).
Proof.
  induction ls as [|l ls IH]; [done|]. destruct ls as [|k ls].
  - cbn. lia.
  - change (intersperse sep (l :: k :: ls)) with (l ++ sep :: intersperse sep (k :: ls)).
    rewrite length_app. cbn [length foldr] in *. cbn in IH |- *. lia.
Qed.

Lemma need_sum {A} (f : A → nat) (g : A → list ascii) l :
  Forall (λ x, f x ≤ 2 * length (g x)) l →
  foldr (λ x n, S (f x + n)) 0 l ≤ 2 * foldr (λ l n, length l + n) 0 (g <$> l) + length l.
Proof. induction 1; cbn in *; lia. Qed.

Lemma printable_elem {A} (f : A → json) l :
  foldr (λ x P, printable (f x) ∧ P) True l → Forall (λ x, printable (f x)) l.
Proof. induction l; cbn; [constructor|]. intros []. constructor; auto. Qed.

Lemma need_le v : printable v → need v ≤ 2 * length (print_json v).
Proof.
  induction v as [|[]|n|s|l IH|fs IH] using json_nested_ind; intros Hp;
    try (cbn; lia).
  - destruct (print_json_start (JNum n) Hp) as (c & l & Hl & _). rewrite Hl. cbn. lia.
  - cbn [need print_json]. cbn in Hp. cbn [length]. rewrite length_app, length_intersperse.
    rewrite length_fmap. cbn [length].
    assert (Forall (λ x, need x ≤ 2 * length (print_json x)) l) as Hall.
    { apply (printable_elem id) in Hp. rewrite Forall_forall in *.
      intros x Hx. by apply IH, Hp. }
    pose proof (need_sum need print_json l Hall). lia.
  - cbn [need print_json]. cbn in Hp. cbn [length]. rewrite length_app, length_intersperse.
    rewrite length_fmap. cbn [length].
    change (λ kv, print_chars (chars kv.1) ++ ":"%char :: print_json kv.2) with print_member.
    assert (Forall (λ kv, need kv.2 ≤ 2 * length (print_member kv)) fs) as Hall.
    { destruct Hp as [_ Hp%printable_elem]. rewrite Forall_forall in *.
      intros kv Hkv. specialize (IH kv Hkv (Hp kv Hkv)). unfold print_member.
      rewrite length_app. cbn [length]. lia. }
    pose proof (need_sum (λ kv, need kv.2) print_member fs Hall). lia.
Qed.

(** [JSON.parse(JSON.stringify(v))] is [v]. *)
Lemma JSON_parse_stringify v : printable v → JSON_parse (JSON_stringify v) = Some v.
Proof.
  intros Hp. unfold JSON_parse, JSON_stringify. rewrite chars_of_chars.
  rewrite <-(app_nil_r (print_json v)) at 2.
  rewrite (parse_print_value v Hp); [done| |done].
  pose proof (need_le v Hp). lia.
Qed.

(** ** What the printer never writes

    A control character inside a string is escaped, so the text has none: in
    particular no line feed, on which event-stream framing relies. *)
Definition visible (c : ascii) : Prop := (32 ≤ code c)%Z.

Ltac solve_visible :=
  repeat (apply Forall_cons_2; [vm_compute; discriminate|]); try apply Forall_nil_2.

Lemma digits_visible l : Forall (λ c, is_digit c = true) l → Forall visible l.
Proof.
  intros Hl. eapply Forall_impl; [exact Hl|]. cbn. intros c Hc. unfold is_digit, between in Hc.
  apply bool_decide_eq_true in Hc. unfold visible. lia.
Qed.

Lemma print_char_visible_bool c : forallb (λ d, (32 <=? code d)%Z) (print_char c) = true.
Proof. destruct c as [[] [] [] [] [] [] [] []]; reflexivity. Qed.

Lemma print_char_visible c : Forall visible (print_char c).
Proof.
  apply List.Forall_forall. intros d Hd.
  pose proof (print_char_visible_bool c) as H. rewrite forallb_forall in H.
  specialize (H d Hd). unfold visible. lia.
Qed.

Lemma hex_digit_visible d : (0 ≤ d < 16)%Z → visible (hex_digit d).
Proof.
  intros Hd. unfold visible, hex_digit. rewrite code_chr; case_match; lia.
Qed.

Lemma printed_visible cs t : printed cs t → Forall visible t.
Proof.
  induction 1 as [|a l t _ IH|a b c l t z _ _ _ IH]; [constructor|..].
  - apply Forall_app; split; [apply print_char_visible|done].
  - do 2 (apply Forall_cons_2; [vm_compute; discriminate|]). apply Forall_app; split; [|done].
    unfold hex4. repeat constructor; apply hex_digit_visible, Z.mod_pos_bound; lia.
Qed.

Lemma print_chars_visible l : Forall visible (print_chars l).
Proof.
  unfold print_chars. constructor; [by vm_compute|].
  apply Forall_app; split; [|solve_visible]. by eapply printed_visible, print_body_printed.
Qed.

Lemma print_sign_visible z : Forall visible (print_sign z).
Proof. unfold print_sign. destruct (z <? 0)%Z; solve_visible. Qed.

Lemma print_number_visible n : Forall visible (print_number n).
Proof.
  destruct n as [z|d p| |]; cbn [print_number].
  - apply Forall_app; split; [apply print_sign_visible|].
    apply digits_visible, print_digits_spec. lia.
  - assert (0 < 10 ^ Z.of_nat p)%Z by (apply Z.pow_pos_nonneg; lia).
    apply Forall_app; split; [apply print_sign_visible|]. apply Forall_app; split.
    + apply digits_visible, print_digits_spec. apply Z.div_pos; lia.
    + apply Forall_cons_2; [vm_compute; discriminate|]. apply digits_visible.
      apply (pad_digits_spec p 0). by apply Z.mod_pos_bound.
  - solve_visible.
  - solve_visible.
Qed.

Lemma intersperse_visible ls :
  Forall (Forall visible) ls → Forall visible (intersperse ","%char ls).
Proof.
  induction 1 as [|l ls Hl _ IH]; [constructor|]. destruct ls; [done|].
  apply Forall_app; split; [done|]. apply Forall_cons_2; [vm_compute; discriminate|done].
Qed.

Lemma print_json_visible v : Forall visible (print_json v).
Proof.
  induction v as [|[]|n|s|l IH|fs IH] using json_nested_ind; cbn [print_json];
    try solve [solve_visible].
  - apply print_number_visible.
  - apply print_chars_visible.
  - apply Forall_cons_2; [vm_compute; discriminate|]. apply Forall_app; split; [|solve_visible].
    by apply intersperse_visible, Forall_fmap.
  - apply Forall_cons_2; [vm_compute; discriminate|]. apply Forall_app; split; [|solve_visible].
    apply intersperse_visible, Forall_fmap. eapply Forall_impl; [exact IH|].
    intros kv Hkv. apply Forall_app; split; [apply print_chars_visible|].
    apply Forall_cons_2; [vm_compute; discriminate|done].
Qed.
