(* ===== verification/JsonPretty.v ===== *)
(** * [JSON.stringify] with an indentation

    The text of [JSON.stringify(v, null, 2)]: one line for each element and
    member, indented by the depth; that reading it gives the value back; what
    [JSON_parse] gives; and the order in which an object gives its keys. *)

From stdpp Require Import sorting.
From S2P Require Import Prelude Json JsString JsonText.

(** The gap of one level, [" ".repeat(2)]. *)
Definition GAP : nat := 2.

Definition newline (indent : nat) : list ascii := chr 10 :: replicate indent " "%char.

Definition join (sep : list ascii) (ls : list (list ascii)) : list ascii :=
  match ls with
  | [] => []
  | l :: ls => l ++ (ls ≫= λ k, sep ++ k)
  end.

Fixpoint print_indented (indent : nat) (v : json) : list ascii :=
  match v with
  | JArr (x :: l) =>
      let nl := newline (indent + GAP) in
      "["%char :: nl ++
      join (","%char :: nl) (print_indented (indent + GAP) <$> x :: l) ++
      newline indent ++ ["]"%char]
  | JObj (kv :: fs) =>
      let nl := newline (indent + GAP) in
      "{"%char :: nl ++
      join (","%char :: nl)
        ((λ kv, print_chars (chars kv.1) ++ ":"%char :: " "%char ::
                print_indented (indent + GAP) kv.2) <$> kv :: fs) ++
      newline indent ++ ["}"%char]
  | _ => print_json v
  end.

Definition JSON_stringify_indented (v : json) : string := of_chars (print_indented 0 v).

Example indented_text :
  let LF := of_chars [chr 10] in
  let q s := of_chars [quote] +:+ s +:+ of_chars [quote] in
  JSON_stringify_indented
    (JObj [("zone", JStr "crab"); ("ids", JArr [JNum (NumZ 1); JArr []]); ("q", JObj [])]) =
  "{" +:+ LF +:+ "  " +:+ q "zone" +:+ ": " +:+ q "crab" +:+ "," +:+ LF +:+
  "  " +:+ q "ids" +:+ ": [" +:+ LF +:+ "    1," +:+ LF +:+ "    []" +:+ LF +:+ "  ]," +:+ LF +:+
  "  " +:+ q "q" +:+ ": {}" +:+ LF +:+ "}".
Proof. vm_compute. reflexivity. Qed.

(** ** Reading it back *)

Abbreviation spaces ws := (Forall (λ c, is_json_space c = true) ws).

Lemma newline_spaces n : spaces (newline n).
Proof. constructor; [done|]. induction n; constructor; done. Qed.

Lemma skip_ws_spaces ws l : spaces ws → skip_ws (ws ++ l) = skip_ws l.
Proof. unfold skip_ws. induction 1 as [|c ws Hc _ IH]; simpl; [done|]. by rewrite Hc. Qed.

Lemma skip_ws_newline n c l : is_json_space c = false → skip_ws (newline n ++ c :: l) = c :: l.
Proof. intros Hc. rewrite skip_ws_spaces by apply newline_spaces. by apply skip_ws_start. Qed.

Lemma parse_value_spaces fuel ws l : spaces ws → parse_value fuel (ws ++ l) = parse_value fuel l.
Proof. intros Hw. destruct fuel; [done|]. cbn [parse_value]. by rewrite skip_ws_spaces. Qed.

Lemma parse_members_spaces fuel seen ws l :
  spaces ws → parse_members fuel seen (ws ++ l) = parse_members fuel seen l.
Proof. intros Hw. destruct fuel; [done|]. cbn [parse_members]. by rewrite skip_ws_spaces. Qed.

Lemma ends_number_newline n l : ends_number (newline n ++ l).
Proof. by repeat split. Qed.
#[local] Hint Resolve newline_spaces ends_number_newline : island.

Definition reads_indented (v : json) : Prop :=
  printable v → ∀ indent fuel rest, need v ≤ fuel → ends_number rest →
  parse_value fuel (print_indented indent v ++ rest) = Some (v, rest).

Definition indented_member (indent : nat) (kv : string * json) : list ascii :=
  print_chars (chars kv.1) ++ ":"%char :: " "%char :: print_indented indent kv.2.

Lemma print_indented_start indent v :
  printable v → ∃ c l, print_indented indent v = c :: l ∧ value_start c.
Proof.
  intros Hp. destruct v as [|b|n|s|[|x l]|[|kv fs]]; try by apply print_json_start.
  all: do 2 eexists; split; [reflexivity|]; left; set_solver.
Qed.

Lemma join_one sep l rest : join sep [l] ++ rest = l ++ rest.
Proof. cbn. by rewrite app_nil_r. Qed.

Lemma join_cons sep l k ls rest :
  join sep (l :: k :: ls) ++ rest = l ++ sep ++ join sep (k :: ls) ++ rest.
Proof. cbn. by rewrite <-!app_assoc. Qed.

Lemma parse_elements_indented x l indent n fuel ws rest :
  reads_indented x → Forall reads_indented l →
  printable x → foldr (λ x P, printable x ∧ P) True l →
  foldr (λ x n, S (need x + n)) 0 (x :: l) ≤ fuel → spaces ws →
  parse_elements fuel (ws ++ join (","%char :: newline indent) (print_indented indent <$> x :: l) ++
    newline n ++ "]"%char :: rest) = Some (x :: l, rest).
Proof.
  intros Hx Hall. revert x Hx fuel ws.
  induction Hall as [|y l Hy Hall IH]; intros x Hx fuel ws Hpx Hpl Hf Hw; simpl in Hf, Hpl;
    (destruct fuel as [|fuel]; [lia|]); cbn [parse_elements]; rewrite parse_value_spaces by done;
    rewrite ?fmap_cons.
  - rewrite fmap_nil, join_one, Hx by (done || lia). cbn [mbind option_bind].
    by rewrite skip_ws_newline.
  - destruct Hpl as [Hpy Hpl]. rewrite join_cons, Hx by (done || lia). cbn [mbind option_bind app].
    rewrite skip_ws_start by done. rewrite <-fmap_cons.
    rewrite IH; [done..|simpl; lia|apply newline_spaces].
Qed.

Lemma parse_member_indented seen fuel indent k v l :
  reads_indented v → printable v → need v ≤ fuel → k ∉ keys seen → ends_number l →
  parse_members (S fuel) seen (indented_member indent (k, v) ++ l) =
    match skip_ws l with
    | ","%char :: l => parse_members fuel (seen ++ [(k, v)]) l
    | "}"%char :: l => Some (seen ++ [(k, v)], l)
    | _ => None
    end.
Proof.
  intros Hv Hp Hf Hk Hl. unfold indented_member, print_chars. simpl fst. simpl snd.
  cbn [parse_members app]. rewrite skip_ws_start by done.
  rewrite bool_decide_true by done. rewrite <-!app_assoc. cbn [app].
  rewrite parse_quoted. cbn [mbind option_bind]. rewrite skip_ws_start by done.
  change (" "%char :: print_indented indent v ++ l) with ([" "%char] ++ print_indented indent v ++ l).
  rewrite parse_value_spaces, Hv by (done || by repeat constructor). cbn [mbind option_bind].
  by rewrite of_chars_chars, set_field_fresh.
Qed.

Lemma keys_snoc_fresh seen (kv : string * json) fs :
  NoDup (keys (seen ++ kv :: fs)) →
  (kv.1 ∉ keys seen) ∧ NoDup (keys ((seen ++ [kv]) ++ fs)).
Proof.
  intros Hnd. rewrite <-app_assoc. split; [|done].
  unfold keys in Hnd. rewrite fmap_app in Hnd. apply NoDup_app in Hnd as (_ & Hd & _).
  intros Hk. apply (Hd _ Hk). set_solver.
Qed.

Lemma parse_members_indented kv fs seen indent n fuel ws rest :
  reads_indented kv.2 → Forall (λ kv, reads_indented kv.2) fs →
  NoDup (keys (seen ++ kv :: fs)) →
  printable kv.2 → foldr (λ kv P, printable kv.2 ∧ P) True fs →
  foldr (λ kv n, S (need kv.2 + n)) 0 (kv :: fs) ≤ fuel → spaces ws →
  parse_members fuel seen (ws ++ join (","%char :: newline indent)
    (indented_member indent <$> kv :: fs) ++ newline n ++ "}"%char :: rest) =
  Some (seen ++ kv :: fs, rest).
Proof.
  intros Hx Hall. revert kv Hx seen fuel ws.
  induction Hall as [|kv' fs Hy Hall IH]; intros [k v] Hx seen fuel ws Hnd Hpx Hpl Hf Hw;
    simpl in Hf, Hpl, Hpx, Hx; (destruct fuel as [|fuel]; [lia|]);
    apply keys_snoc_fresh in Hnd as [Hk Hnd]; rewrite parse_members_spaces by done;
    rewrite ?fmap_cons.
  - rewrite fmap_nil, join_one, parse_member_indented by (done || lia || apply ends_number_newline).
    by rewrite skip_ws_newline.
  - destruct Hpl as [Hpy Hpl]. rewrite join_cons, parse_member_indented by (done || lia).
    cbn [app]. rewrite skip_ws_start by done. rewrite <-fmap_cons.
    rewrite IH; [by rewrite <-app_assoc|done..|simpl; lia|apply newline_spaces].
Qed.

Lemma parse_indented_value v : reads_indented v.
Proof.
  induction v as [|b|n|s|l IH|fs IH] using json_nested_ind; intros Hp indent fuel rest Hf Hr;
    try by apply parse_print_value.
  - destruct l as [|x l]; [by apply parse_print_value|]. cbn [print_indented].
    destruct fuel as [|fuel]; [simpl in Hf; lia|]. simpl in Hp. destruct Hp as [Hpx Hpl].
    destruct (print_indented_start (indent + GAP) x Hpx) as (c & k & Hc & Hs).
    apply value_start_not_space in Hs as (Hs & Hb & _).
    rewrite <-app_comm_cons, <-!app_assoc. erewrite (parse_value_array _ c).
    + apply Forall_cons_1 in IH as [Hx IH]. cbn [app].
      rewrite parse_elements_indented; [done..|simpl in *; lia|apply newline_spaces].
    + done.
    + rewrite skip_ws_spaces by apply newline_spaces. cbn [fmap list_fmap join].
      rewrite Hc, <-app_assoc. by apply skip_ws_start.
  - destruct fs as [|kv fs]; [by apply parse_print_value|]. cbn [print_indented].
    destruct fuel as [|fuel]; [simpl in Hf; lia|]. simpl in Hp. destruct Hp as [Hnd [Hpx Hpl]].
    change (λ kv, print_chars (chars kv.1) ++ ":"%char :: " "%char ::
      print_indented (indent + GAP) kv.2) with (indented_member (indent + GAP)).
    rewrite <-app_comm_cons, <-!app_assoc. erewrite parse_value_object.
    + apply Forall_cons_1 in IH as [Hx IH]. cbn [app].
      rewrite (parse_members_indented kv fs []);
        [done..|simpl in *; lia|apply newline_spaces].
    + rewrite skip_ws_spaces by apply newline_spaces. cbn [fmap list_fmap join].
      unfold indented_member, print_chars. rewrite <-!app_assoc. by apply skip_ws_start.
Qed.

(** ** Enough fuel *)

Lemma length_intersperse_join sep ls ks :
  sep ≠ [] → Forall2 (λ l k, length l ≤ length k) ls ks →
  length (intersperse ","%char ls) ≤ length (join sep ks).
Proof.
  intros Hs Hall. rewrite length_intersperse. destruct Hall as [|l k ls ks Hl Hall]; [done|].
  cbn [foldr length pred join]. rewrite length_app.
  assert (1 ≤ length sep) by (destruct sep; [done|cbn; lia]).
  enough (foldr (λ l n, length l + n) 0 ls + length ls ≤ length (ks ≫= λ k, sep ++ k)) by lia.
  induction Hall; [done|]. cbn in *. rewrite !length_app. lia.
Qed.

(** The text without white space is no longer. *)
Lemma length_indented v indent : length (print_json v) ≤ length (print_indented indent v).
Proof.
  revert indent. induction v as [|b|n|s|l IH|fs IH] using json_nested_ind; intros indent; try done.
  - destruct l as [|x l]; [done|]. cbn [print_json print_indented].
    cbn [length]. rewrite !length_app. cbn [length].
    apply le_n_S. etrans; [|apply Nat.le_add_l]. apply Nat.add_le_mono; [|lia].
    apply length_intersperse_join; [done|]. apply Forall2_fmap_2, Forall_Forall2_diag.
    eapply Forall_impl; [exact IH|]. intros v Hv. apply Hv.
  - destruct fs as [|kv fs]; [done|]. cbn [print_json print_indented].
    cbn [length]. rewrite !length_app. cbn [length].
    apply le_n_S. etrans; [|apply Nat.le_add_l]. apply Nat.add_le_mono; [|lia].
    apply length_intersperse_join; [done|]. apply Forall2_fmap_2, Forall_Forall2_diag.
    eapply Forall_impl; [exact IH|]. intros kv' Hv. rewrite !length_app. cbn [length].
    specialize (Hv (indent + GAP)). lia.
Qed.

(** [JSON.parse(JSON.stringify(v, null, 2))] is [v]. *)
Lemma JSON_parse_indented v : printable v → JSON_parse (JSON_stringify_indented v) = Some v.
Proof.
  intros Hp. unfold JSON_parse, JSON_stringify_indented. rewrite chars_of_chars.
  rewrite <-(app_nil_r (print_indented 0 v)) at 2.
  rewrite (parse_indented_value v Hp); [done| |done].
  pose proof (need_le v Hp). pose proof (length_indented v 0). lia.
Qed.

(** ** What [JSON_parse] gives

    An object that was read has no key twice: the only values it can give that
    the printer does not keep are some of the numbers.  Numbers a double tells
    apart and that are written without an exponent are plain: integers up to
    2^53 - 1, and fractions of at most fifteen digits from a millionth up. *)

Definition plain_number (n : number) : bool :=
  printable_number n &&
  match n with
  | NumZ z => (Z.abs z <? 2 ^ 53)%Z
  | NumDec d p => (Z.abs d <? 10 ^ 15)%Z && (10 ^ Z.of_nat p <=? Z.abs d * 10 ^ 6)%Z
  | _ => false
  end.

Fixpoint plain_numbers (v : json) : Prop :=
  match v with
  | JNum n => plain_number n = true
  | JArr l => foldr (λ x P, plain_numbers x ∧ P) True l
  | JObj fs => foldr (λ kv P, plain_numbers kv.2 ∧ P) True fs
  | _ => True
  end.

Fixpoint distinct_keys (v : json) : Prop :=
  match v with
  | JArr l => foldr (λ x P, distinct_keys x ∧ P) True l
  | JObj fs => NoDup (keys fs) ∧ foldr (λ kv P, distinct_keys kv.2 ∧ P) True fs
  | _ => True
  end.

Lemma foldr_and {A} (P : A → Prop) l : foldr (λ x Q, P x ∧ Q) True l ↔ Forall P l.
Proof. induction l; cbn; [done|]. by rewrite Forall_cons, IHl. Qed.

Lemma plain_distinct_printable v : plain_numbers v → distinct_keys v → printable v.
Proof.
  induction v as [|b|n|s|l IH|fs IH] using json_nested_ind; try done; cbn;
    rewrite ?foldr_and; rewrite ?Forall_forall in *.
  - intros Hp _. unfold plain_number in Hp. by apply andb_prop in Hp as [].
  - intros Hf Hd x Hx. auto.
  - intros Hf [? Hd]. split; [done|]. intros x Hx. auto.
Qed.

Lemma keys_set_field k v fs : keys (set_field k v fs) = keys fs ∨
  ((k ∉ keys fs) ∧ keys (set_field k v fs) = keys fs ++ [k]).
Proof.
  unfold keys. induction fs as [|[k' v'] fs IH]; cbn; [right; set_solver|].
  case_decide as Hk; cbn; [left; by subst|].
  destruct IH as [->|[? ->]]; [by left|right; set_solver].
Qed.

Lemma set_field_distinct k v fs :
  distinct_keys v → distinct_keys (JObj fs) → distinct_keys (JObj (set_field k v fs)).
Proof.
  intros Hv [Hnd Hfs]. split.
  - destruct (keys_set_field k v fs) as [->|[Hk ->]]; [done|]. apply NoDup_app.
    split_and!; [done|set_solver|apply NoDup_singleton].
  - clear Hnd. revert Hfs. rewrite !foldr_and. induction 1 as [|[k' v'] fs Hx Hfs IH]; cbn;
      [by constructor|]. case_decide; by constructor.
Qed.

Lemma bind_Some_inv {A B} (o : option A) (f : A → option B) b :
  (a ← o; f a) = Some b → ∃ a, o = Some a ∧ f a = Some b.
Proof. destruct o; naive_solver. Qed.

(** How a value that was read came to be. *)
Inductive read_from (fuel : nat) : json → Prop :=
  | read_scalar v : (match v with JArr _ | JObj _ => False | _ => True end) → read_from fuel v
  | read_empty_array : read_from fuel (JArr [])
  | read_empty_object : read_from fuel (JObj [])
  | read_array k vs l : parse_elements fuel k = Some (vs, l) → read_from fuel (JArr vs)
  | read_object k fs l : parse_members fuel [] k = Some (fs, l) → read_from fuel (JObj fs).

Ltac read_bind H :=
  apply bind_Some_inv in H as ([? ?] & ? & [= <- <-]);
  first [by apply read_scalar | by eapply read_array | by eapply read_object].

Lemma read_brackets fuel k v l' :
  match skip_ws k with
  | "]"%char :: l => Some (JArr [], l)
  | _ => '(vs, l) ← parse_elements fuel k; Some (JArr vs, l)
  end = Some (v, l') → read_from fuel v.
Proof.
  destruct (skip_ws k) as [|c j]; [intros H; read_bind H|].
  destruct c as [[] [] [] [] [] [] [] []]; intros H; try read_bind H.
  injection H as <- _. apply read_empty_array.
Qed.

Lemma read_braces fuel k v l' :
  match skip_ws k with
  | "}"%char :: l => Some (JObj [], l)
  | _ => '(fs, l) ← parse_members fuel [] k; Some (JObj fs, l)
  end = Some (v, l') → read_from fuel v.
Proof.
  destruct (skip_ws k) as [|c j]; [intros H; read_bind H|].
  destruct c as [[] [] [] [] [] [] [] []]; intros H; try read_bind H.
  injection H as <- _. apply read_empty_object.
Qed.

Lemma parse_value_from fuel l v l' : parse_value (S fuel) l = Some (v, l') → read_from fuel v.
Proof.
  cbn [parse_value]. destruct (skip_ws l) as [|c k]; [done|].
  destruct (decide (c = "["%char)) as [->|Ha]; [apply read_brackets|].
  destruct (decide (c = "{"%char)) as [->|Ho]; [apply read_braces|].
  destruct c as [[] [] [] [] [] [] [] []]; try done; intros H; try (case_bool_decide; [done|]);
    first [read_bind H | apply bind_Some_inv in H as (? & _ & [= <- _]); by apply read_scalar].
Qed.

Lemma parse_elements_inv fuel l vs l' :
  parse_elements (S fuel) l = Some (vs, l') →
  ∃ v k, parse_value fuel l = Some (v, k) ∧
    (vs = [v] ∨ ∃ k' ws, parse_elements fuel k' = Some (ws, l') ∧ vs = v :: ws).
Proof.
  cbn [parse_elements]. intros ([v k] & Hv & H)%bind_Some_inv. exists v, k. split; [done|].
  destruct (skip_ws k) as [|c j]; [done|].
  destruct c as [[] [] [] [] [] [] [] []]; try done.
  - injection H as <- <-. by left.
  - apply bind_Some_inv in H as ([ws ?] & ? & [= <- <-]). right. by exists j, ws.
Qed.

Lemma parse_members_inv fuel seen l fs l' :
  parse_members (S fuel) seen l = Some (fs, l') →
  ∃ key v j k, parse_value fuel j = Some (v, k) ∧
    (fs = set_field key v seen ∨
     ∃ k', parse_members fuel (set_field key v seen) k' = Some (fs, l')).
Proof.
  cbn [parse_members]. destruct (skip_ws l) as [|c i]; [done|]. case_bool_decide as Hc; [|done].
  intros ([key j] & _ & H)%bind_Some_inv. destruct (skip_ws j) as [|d j']; [done|].
  destruct (decide (d = ":"%char)) as [->|Hd];
    [|by destruct d as [[] [] [] [] [] [] [] []]].
  apply bind_Some_inv in H as ([v k] & Hv & H). exists (of_chars key), v, j', k. split; [done|].
  destruct (skip_ws k) as [|e k']; [done|].
  destruct e as [[] [] [] [] [] [] [] []]; try done; [|right; by exists k'].
  injection H as <- <-. by left.
Qed.

Lemma parse_distinct fuel :
  (∀ l v l', parse_value fuel l = Some (v, l') → distinct_keys v) ∧
  (∀ l vs l', parse_elements fuel l = Some (vs, l') → Forall distinct_keys vs) ∧
  (∀ seen l fs l', distinct_keys (JObj seen) → parse_members fuel seen l = Some (fs, l') →
     distinct_keys (JObj fs)).
Proof.
  assert (distinct_keys (JObj [])) as Hnil by (split; [constructor|done]).
  induction fuel as [|fuel (IHv & IHe & IHm)]; [done|]. split_and!.
  - intros l v l' [[]| | |k vs j Hk|k fs j Hk]%parse_value_from; try done.
    + apply foldr_and. by eapply IHe.
    + by eapply IHm.
  - intros l vs l' (v & k & Hv & [->|(k' & ws & Hk & ->)])%parse_elements_inv;
      (constructor; [by eapply IHv|]); [constructor|by eapply IHe].
  - intros seen l fs l' Hs (key & v & j & k & Hv & [->|(k' & Hk)])%parse_members_inv.
    + apply set_field_distinct; [by eapply IHv|done].
    + eapply IHm, Hk. apply set_field_distinct; [by eapply IHv|done].
Qed.

Lemma JSON_parse_distinct s v : JSON_parse s = Some v → distinct_keys v.
Proof.
  unfold JSON_parse. destruct (parse_value _ _) as [[w l]|] eqn:E; [|done].
  apply parse_distinct in E. destruct (skip_ws l); [|done]. by intros [= <-].
Qed.

Lemma JSON_parse_printable s v : JSON_parse s = Some v → plain_numbers v → printable v.
Proof. intros Hv Hf. apply plain_distinct_printable; [done|]. by eapply JSON_parse_distinct. Qed.

(** ** The order of keys

    An object gives its array indices first, in ascending order, and its other
    keys in the order in which they were set. *)

(** The index a key is, if it is the text of one below 2^32 - 1. *)
Definition key_index (k : string) : option Z :=
  let l := chars k in
  let n := foldl (λ n c, n * 10 + digit_value c)%Z 0%Z l in
  if decide (Forall (λ c, is_digit c = true) l ∧ print_digits n = l ∧ (n < 2 ^ 32 - 1)%Z) then Some n else None.

Definition index_of (kv : string * json) : Z := default 0%Z (key_index kv.1).
Abbreviation indexed kv := (is_Some (key_index (kv : string * json).1)).

Fixpoint insert_field (kv : string * json) (l : list (string * json)) : list (string * json) :=
  match l with
  | [] => [kv]
  | kv' :: l' => if (index_of kv <=? index_of kv')%Z then kv :: l else kv' :: insert_field kv l'
  end.

Definition order_fields (fs : list (string * json)) : list (string * json) :=
  foldr insert_field [] (filter (λ kv, indexed kv) fs) ++ filter (λ kv, ¬ indexed kv) fs.

(** The value with every object's keys in their order. *)
Fixpoint own_order (v : json) : json :=
  match v with
  | JArr l => JArr (own_order <$> l)
  | JObj fs => JObj (order_fields ((λ kv, (kv.1, own_order kv.2)) <$> fs))
  | _ => v
  end.

Example indices_first :
  own_order (JObj [("b", JNull); ("10", JNull); ("01", JNull); ("2", JNull)]) =
  JObj [("2", JNull); ("10", JNull); ("b", JNull); ("01", JNull)].
Proof. vm_compute. reflexivity. Qed.

Lemma insert_field_perm kv l : insert_field kv l ≡ₚ kv :: l.
Proof.
  induction l as [|x l IH]; cbn; [done|]. case_match; [done|]. rewrite IH. apply Permutation_swap.
Qed.

Lemma insert_fields_perm l : foldr insert_field [] l ≡ₚ l.
Proof. induction l as [|x l IH]; cbn; [done|]. by rewrite insert_field_perm, IH. Qed.

Lemma order_fields_perm fs : order_fields fs ≡ₚ fs.
Proof.
  unfold order_fields. rewrite insert_fields_perm. induction fs as [|x fs IH]; [done|].
  rewrite !filter_cons. case_decide as Hx.
  - rewrite (decide_False (P := ¬ _)) by tauto. cbn. by rewrite IH.
  - rewrite decide_True by done. by rewrite <- Permutation_middle, IH.
Qed.

Abbreviation ascending := (StronglySorted (λ a b : string * json, (index_of a ≤ index_of b)%Z)).

Lemma insert_field_sorted kv l : ascending l → ascending (insert_field kv l).
Proof.
  induction 1 as [|x l Hl IH Hx]; cbn; [by repeat constructor|]. case_match eqn:E.
  - apply Z.leb_le in E. constructor; [by constructor|]. constructor; [done|].
    eapply Forall_impl; [exact Hx|]. cbn. intros. lia.
  - apply Z.leb_gt in E. constructor; [done|]. rewrite insert_field_perm. constructor; [lia|done].
Qed.

Lemma insert_fields_sorted l : ascending (foldr insert_field [] l).
Proof. induction l as [|x l IH]; cbn; [constructor|]. by apply insert_field_sorted. Qed.

Lemma insert_fields_id l : ascending l → foldr insert_field [] l = l.
Proof.
  induction 1 as [|x l Hl IH Hx]; cbn; [done|]. rewrite IH. destruct l as [|y l]; [done|]. cbn.
  apply Forall_cons_1 in Hx as [Hx _]. apply Z.leb_le in Hx. by rewrite Hx.
Qed.

Lemma order_fields_idem fs : order_fields (order_fields fs) = order_fields fs.
Proof.
  unfold order_fields. set (s := foldr insert_field [] (filter (λ kv, indexed kv) fs)). set (r := filter (λ kv, ¬ indexed kv) fs).
  assert (∀ x, x ∈ s → indexed x) as Hs.
  { intros x. unfold s. rewrite insert_fields_perm, list_elem_of_filter. by intros []. }
  assert (∀ x, x ∈ r → ¬ indexed x) as Hr by (intros x; unfold r; rewrite list_elem_of_filter; by intros []).
  rewrite !filter_app, (filter_all _ s), (filter_none _ r), (filter_none _ s), (filter_all _ r), app_nil_r
    by (rewrite ?Forall_forall; naive_solver).
  f_equal. apply insert_fields_id, insert_fields_sorted.
Qed.

(** Only the keys decide the order. *)
Lemma order_fields_map (f : json → json) fs :
  order_fields ((λ kv, (kv.1, f kv.2)) <$> fs) = (λ kv, (kv.1, f kv.2)) <$> order_fields fs.
Proof.
  set (g := λ kv : string * json, (kv.1, f kv.2)).
  assert (∀ (P : string * json → Prop) `{∀ x, Decision (P x)} (l : list (string * json)),
    (∀ x, P (g x) ↔ P x) →
    filter P (g <$> l) = g <$> filter P l) as Hf.
  { intros P ? l HP. induction l as [|x l IH]; [done|]. rewrite fmap_cons, !filter_cons.
    specialize (HP x). case_decide; case_decide; rewrite ?fmap_cons, IH; tauto. }
  unfold order_fields. rewrite !Hf, fmap_app by done. f_equal.
  induction (filter (λ kv, indexed kv) fs) as [|x l IH]; cbn; [done|]. rewrite IH.
  generalize (foldr insert_field [] l) as k. induction k as [|y k IHk]; cbn; [done|].
  unfold index_of. cbn. case_match; [done|]. by rewrite IHk.
Qed.

Lemma own_order_idem v : own_order (own_order v) = own_order v.
Proof.
  induction v as [|b|n|s|l IH|fs IH] using json_nested_ind; try done; cbn; f_equal.
  - rewrite <- list_fmap_compose. apply list_fmap_ext. intros i x Hx. cbn.
    rewrite Forall_forall in IH. by eapply IH, list_elem_of_lookup_2.
  - rewrite order_fields_map, order_fields_idem, order_fields_map, <- list_fmap_compose.
    apply list_fmap_ext. intros i [k x] Hx. cbn. f_equal.
    assert ((k, x) ∈ fs) as Hin by (rewrite <- (order_fields_perm fs); by eapply list_elem_of_lookup_2).
    rewrite Forall_forall in IH. by apply (IH (k, x)).
Qed.

Lemma keys_own_order fs : keys (order_fields ((λ kv, (kv.1, own_order kv.2)) <$> fs)) ≡ₚ keys fs.
Proof. unfold keys. rewrite order_fields_map, order_fields_perm, <- list_fmap_compose. done. Qed.

Lemma Forall_own_order (P : json → Prop) fs :
  Forall (λ kv, P kv.2) (order_fields ((λ kv, (kv.1, own_order kv.2)) <$> fs)) ↔
  Forall (λ kv, P (own_order kv.2)) fs.
Proof. rewrite order_fields_map, order_fields_perm, Forall_fmap. done. Qed.

Lemma printable_own_order v : printable v → printable (own_order v).
Proof.
  induction v as [|b|n|s|l IH|fs IH] using json_nested_ind; try done; cbn -[order_fields]; rewrite !foldr_and.
  - rewrite Forall_fmap, !Forall_forall in *. naive_solver.
  - intros [Hnd Hp]. split; [by rewrite keys_own_order|].
    pose proof (Forall_own_order printable fs) as Hw. cbn in Hw. rewrite Hw.
    rewrite Forall_forall in *. naive_solver.
Qed.
