(* ===== verification/Uri.v ===== *)
(** * URI components

    [encodeURIComponent], which the web client uses for its token and its
    avatars, and the decoding a server applies to a query, on the UTF-8 bytes
    of a text that has no lone surrogate (which [encodeURIComponent] refuses). *)

From S2P Require Import Prelude JsString JsonText.

Definition uri_unreserved (c : ascii) : bool :=
  between 48 57 c || between 65 90 c || between 97 122 c ||
  bool_decide (c ∈ ["-"; "_"; "."; "!"; "~"; "*"; "'"; "("; ")"]%char).
Definition upper_hex (d : Z) : ascii := chr (if (d <? 10)%Z then 48 + d else 55 + d).
Definition percent (b : Z) : list ascii := ["%"%char; upper_hex (b / 16); upper_hex (b mod 16)].

Definition encode_char (c : ascii) : list ascii :=
  if uri_unreserved c then [c] else percent (code c).

Definition encodeURIComponent (s : string) : string := of_chars (chars s ≫= encode_char).

(** One percent-encoded byte. *)
Definition decode_byte (l : list ascii) : option (Z * list ascii) :=
  match l with
  | "%"%char :: a :: b :: l => x ← hex_value a; y ← hex_value b; Some ((x * 16 + y)%Z, l)
  | _ => None
  end.

(** [decodeURIComponent] on what spells UTF-8; [None] is the [URIError] of a
    malformed escape. *)
Fixpoint decode_chars (fuel : nat) (l : list ascii) : option (list ascii) :=
  match fuel with
  | O => None
  | S fuel =>
      match l with
      | [] => Some []
      | "%"%char :: _ =>
          '(b, l) ← decode_byte l;
          cs ← decode_chars fuel l; Some (chr b :: cs)
      | c :: l => cs ← decode_chars fuel l; Some (c :: cs)
      end
  end.
Definition decodeURIComponent (s : string) : option string :=
  of_chars <$> decode_chars (S (length (chars s))) (chars s).

(** ** Facts *)

Lemma decode_encode_step fuel c l :
  decode_chars (S fuel) (encode_char c ++ l) = (cs ← decode_chars fuel l; Some (c :: cs)).
Proof. destruct c as [[] [] [] [] [] [] [] []]; reflexivity. Qed.

Lemma length_encode_char c : 1 ≤ length (encode_char c).
Proof. destruct c as [[] [] [] [] [] [] [] []]; vm_compute; lia. Qed.

Lemma length_bind_ge {A B} (f : A → list B) l :
  (∀ x, 1 ≤ length (f x)) → length l ≤ length (l ≫= f).
Proof.
  intros Hf. induction l as [|x l IH]; [simpl; lia|].
  change ((x :: l) ≫= f) with (f x ++ (l ≫= f)). rewrite length_app. specialize (Hf x).
  simpl. lia.
Qed.

Lemma decode_encode_chars fuel cs :
  length cs < fuel → decode_chars fuel (cs ≫= encode_char) = Some cs.
Proof.
  revert fuel. induction cs as [|c cs IH]; intros fuel Hf.
  - by destruct fuel; [simpl in Hf; lia|].
  - destruct fuel as [|fuel]; [simpl in Hf; lia|]. cbn [mbind list_bind].
    rewrite decode_encode_step.
    change (list_bind ascii ascii encode_char cs) with (cs ≫= encode_char).
    rewrite IH; [done|simpl in Hf; lia].
Qed.

(** Decoding undoes encoding. *)
Lemma decode_encode s : decodeURIComponent (encodeURIComponent s) = Some s.
Proof.
  unfold decodeURIComponent, encodeURIComponent. rewrite chars_of_chars, decode_encode_chars.
  - cbn. by rewrite of_chars_chars.
  - pose proof (length_bind_ge encode_char (chars s) length_encode_char). lia.
Qed.

Definition uri_char (c : ascii) : bool := uri_unreserved c || bool_decide (c = "%"%char).

Lemma encode_char_safe c : forallb uri_char (encode_char c) = true.
Proof. destruct c as [[] [] [] [] [] [] [] []]; reflexivity. Qed.

(** What is encoded has only unreserved characters and percent signs. *)
Lemma encodeURIComponent_safe s : Forall (λ c, uri_char c = true) (chars (encodeURIComponent s)).
Proof.
  unfold encodeURIComponent. rewrite chars_of_chars.
  induction (chars s) as [|c cs IH]; cbn; [constructor|]. apply Forall_app; split; [|apply IH].
  apply List.Forall_forall. apply forallb_forall. apply encode_char_safe.
Qed.

#[global] Instance encodeURIComponent_inj : Inj (=) (=) encodeURIComponent.
Proof. intros s t H. apply (inj Some). by rewrite <-!decode_encode, H. Qed.
