(* ===== verification/Interleave.v ===== *)
(** * Asynchronous functions and their interleavings

    An [async] function is a sequence of atomic stretches of code separated by
    [await]s.  [proc] is such a function; [run] executes it with nothing in
    between; [pool_step] lets a set of them take turns on one world, one
    stretch at a time, which is how a JavaScript process runs concurrent
    requests. *)

From S2P Require Import Prelude.

#[warnings="-register-all"]
Inductive proc (W E A : Type) : Type :=
  | Finished (o : outcome E A)
  | Await (k : W → proc W E A * W).
Arguments Finished {W E A} o.
Arguments Await {W E A} k.

(** One stretch: the effect of [m] happens at once. *)
Definition atomic {W E A} (m : handler W E A) : proc W E A :=
  Await (λ w, (Finished (m w).1, (m w).2)).

Fixpoint pbind {W E A B} (p : proc W E A) (f : A → proc W E B) : proc W E B :=
  match p with
  | Finished (Returned a) => f a
  | Finished (Thrown e) => Finished (Thrown e)
  | Await k => Await (λ w, match k w with (p, w) => (pbind p f, w) end)
  end.

(** Without interruption. *)
Fixpoint run {W E A} (p : proc W E A) : handler W E A := λ w,
  match p with
  | Finished o => (o, w)
  | Await k => match k w with (p, w) => run p w end
  end.

Notation "'await!' x ':=' m 'in' k" := (pbind m (λ x, k))
  (at level 10, x name, m at level 100, k at level 200)
  : island_scope.
Notation "'await_!' m ';' k" := (pbind m (λ _, k))
  (at level 10, m at level 100, k at level 200)
  : island_scope.

Section proc_laws.
Context {W E : Type}.

Fixpoint proc_nested_ind {A} (P : proc W E A → Prop) (HF : ∀ o, P (Finished o))
    (HA : ∀ k, (∀ w, P (k w).1) → P (Await k)) (p : proc W E A) : P p :=
  match p with
  | Finished o => HF o
  | Await k => HA k (λ w,
      match k w as x return P x.1 with (p, _) => proc_nested_ind P HF HA p end)
  end.

Lemma run_atomic {A} (m : handler W E A) w : run (atomic m) w = m w.
Proof. simpl. by destruct (m w). Qed.

Lemma run_pbind {A B} (p : proc W E A) (f : A → proc W E B) w :
  run (pbind p f) w = hbind (run p) (λ a, run (f a)) w.
Proof.
  revert w. induction p as [[a|e]|k IH] using proc_nested_ind; intros w; [done..|].
  specialize (IH w). unfold hbind in *. cbn [pbind run].
  destruct (k w) as [p w']. apply IH.
Qed.
End proc_laws.

#[export] Hint Rewrite @run_atomic @run_pbind : island_simpl.

(** ** A pool of functions taking turns *)

Definition pool (W E A : Type) : Type := list (proc W E A) * W.

Inductive pool_step {W E A} : pool W E A → pool W E A → Prop :=
  | pool_turn ps w i k :
      ps !! i = Some (Await k) →
      pool_step (ps, w) (<[i := (k w).1]> ps, (k w).2).

(** Executable schedules: let the functions at the listed positions take their
    turns; a position that is out of range or finished passes. *)
Definition turn {W E A} (i : nat) (s : pool W E A) : pool W E A :=
  match s.1 !! i with
  | Some (Await k) => (<[i := (k s.2).1]> s.1, (k s.2).2)
  | _ => s
  end.
Definition schedule {W E A} (is_ : list nat) (s : pool W E A) : pool W E A :=
  foldl (λ s i, turn i s) s is_.

Lemma turn_steps {W E A} i (s : pool W E A) : rtc pool_step s (turn i s).
Proof.
  unfold turn. destruct s as [ps w]. simpl. destruct (ps !! i) as [[o|k]|] eqn:Hi.
  - apply rtc_refl.
  - apply rtc_once. by constructor.
  - apply rtc_refl.
Qed.

Lemma schedule_steps {W E A} l (s : pool W E A) : rtc pool_step s (schedule l s).
Proof.
  revert s. induction l as [|i l IH]; intros s; [apply rtc_refl|].
  eapply rtc_trans; [apply turn_steps|apply IH].
Qed.

(** A function that is given every turn from now on runs to its end. *)
Lemma turns_run {W E A} i (p : proc W E A) ps w :
  ps !! i = Some p → ∃ n, (Nat.iter n (turn i) (ps, w)).2 = (run p w).2.
Proof.
  revert ps w. induction p as [o|k IH] using proc_nested_ind; intros ps w Hi; [by exists 0|].
  destruct (IH w (<[i := (k w).1]> ps) (k w).2) as [n Hn].
  { apply list_lookup_insert_eq. by eapply lookup_lt_Some. }
  exists (S n). rewrite Nat.iter_succ_r. unfold turn at 2. cbn [fst snd]. rewrite Hi, Hn.
  cbn [run]. by destruct (k w).
Qed.

(** An invariant [I] of the world that every stretch of a function preserves,
    whatever the others do in between, with a postcondition [Q]. *)
Fixpoint upholds {W E A} (I : W → Prop) (Q : A → Prop) (p : proc W E A) : Prop :=
  match p with
  | Finished (Returned a) => Q a
  | Finished (Thrown _) => True
  | Await k => ∀ w, I w → match k w with (p, w') => upholds I Q p ∧ I w' end
  end.

Lemma pool_invariant {W E A} (I : W → Prop) (Q : A → Prop) (s s' : pool W E A) :
  rtc pool_step s s' → Forall (upholds I Q) s.1 → I s.2 →
  Forall (upholds I Q) s'.1 ∧ I s'.2.
Proof.
  induction 1 as [|s1 s2 s3 Hs _ IH]; [done|]. destruct Hs as [ps w i k Hi].
  simpl in *. intros Hps Hw.
  pose proof (Forall_lookup_1 _ _ _ _ Hps Hi) as Hk. simpl in Hk.
  specialize (Hk w Hw). destruct (k w) as [p w']. simpl in *.
  apply IH; [|by apply Hk]. apply Forall_insert; [done|by apply Hk].
Qed.

Lemma upholds_atomic {W E A} (I : W → Prop) (Q : A → Prop) (m : handler W E A) :
  (∀ w, I w → I (m w).2 ∧ ∀ a, (m w).1 = Returned a → Q a) → upholds I Q (atomic m).
Proof. intros Hm w Hw. simpl. destruct (Hm w Hw) as [Hi HQ]. destruct (m w).1; auto. Qed.

Lemma upholds_pbind {W E A B} (I : W → Prop) (Q : A → Prop) (R : B → Prop)
    (p : proc W E A) (f : A → proc W E B) :
  upholds I Q p → (∀ a, Q a → upholds I R (f a)) → upholds I R (pbind p f).
Proof.
  intros Hp Hf. induction p as [[a|e]|k IH] using proc_nested_ind; [by apply Hf|done|].
  intros w Hw. specialize (Hp w Hw). specialize (IH w). simpl in *.
  destruct (k w) as [p w']. simpl in *. destruct Hp as [Hp Hw']. auto.
Qed.

(** ** Functions that end

    [ends I Q n p]: whatever the others do in between, as long as they keep [I],
    [p] keeps [I] too, takes at most [n] turns, and returns what satisfies [Q]. *)
Fixpoint ends {W E A} (I : W → Prop) (Q : A → Prop) (n : nat) (p : proc W E A) {struct p} : Prop :=
  match p with
  | Finished (Returned a) => Q a
  | Finished (Thrown _) => True
  | Await k =>
      match n with
      | 0 => False
      | S n => ∀ w, I w → match k w with (p, w') => ends I Q n p ∧ I w' end
      end
  end.

Section ends.
Context {W E A : Type} (I : W → Prop).

Lemma ends_mono {B} (Q : B → Prop) n m (p : proc W E B) : n ≤ m → ends I Q n p → ends I Q m p.
Proof.
  revert n m. induction p as [[a|e]|k IH] using proc_nested_ind; intros n m Hle Hp; [done..|].
  destruct n as [|n]; [done|]. destruct m as [|m]; [lia|]. cbn in *. intros w Hw.
  specialize (Hp w Hw). specialize (IH w). destruct (k w) as [p w']. cbn in *.
  destruct Hp as [Hp ?]. split; [|done]. apply (IH n); [lia|done].
Qed.

(** One stretch takes one turn. *)
Lemma ends_one {B} (Q : B → Prop) (m : handler W E B) : upholds I Q (atomic m) → ends I Q 1 (atomic m).
Proof. intros Hm w Hw. specialize (Hm w Hw). cbn in *. by destruct (m w).1. Qed.

Lemma ends_pbind {B C} (Q : B → Prop) (R : C → Prop) n m (p : proc W E B) (f : B → proc W E C) :
  ends I Q n p → (∀ a, Q a → ends I R m (f a)) → ends I R (n + m) (pbind p f).
Proof.
  intros Hp Hf. revert n Hp. induction p as [[a|e]|k IH] using proc_nested_ind; intros n Hp.
  - apply (ends_mono _ m); [lia|]. by apply Hf.
  - done.
  - destruct n as [|n]; [done|]. intros w Hw. specialize (Hp w Hw). specialize (IH w). cbn in *.
    destruct (k w) as [p w']. cbn in *. destruct Hp as [Hp ?]. auto.
Qed.

Definition finished_proc (p : proc W E A) : Prop := ∃ o, p = Finished o.

Lemma ends_zero (Q : A → Prop) p : ends I Q 0 p → finished_proc p.
Proof. destruct p as [o|k]; [by exists o|done]. Qed.

Lemma ends_pred (Q : A → Prop) n o : ends I Q n (Finished o : proc W E A) → ends I Q (pred n) (Finished o).
Proof. by destruct o. Qed.

(** Functions with [ns i] turns left each. *)
Definition budget (Q : A → Prop) (ns : nat → nat) (s : pool W E A) : Prop :=
  (∀ i p, s.1 !! i = Some p → ends I Q (ns i) p) ∧ I s.2.

(** A turn is the function's own. *)
Lemma budget_turn Q ns i s :
  budget Q ns s → budget Q (λ j, if decide (i = j) then pred (ns j) else ns j) (turn i s).
Proof.
  intros [Hns Hw]. unfold turn. destruct (s.1 !! i) as [[o|k]|] eqn:Hi.
  - split; [|done]. intros j p Hj. specialize (Hns j p Hj). case_decide; [|done]. subst j.
    rewrite Hi in Hj. injection Hj as <-. by apply ends_pred.
  - pose proof (Hns i _ Hi) as Hk. destruct (ns i) as [|n] eqn:Hn; [done|].
    specialize (Hk s.2 Hw). destruct (k s.2) as [q w']. destruct Hk as [Hq Hw']. split; [|done].
    cbn. intros j p [(<- & <- & _)|(Hne & Hj)]%list_lookup_insert_Some.
    + rewrite decide_True by done. by rewrite Hn.
    + rewrite decide_False by done. by apply Hns.
  - split; [|done]. intros j p Hj. specialize (Hns j p Hj). case_decide; [|done]. congruence.
Qed.

Lemma budget_schedule Q ns l s :
  budget Q ns s → budget Q (λ j, ns j - count_occ Nat.eq_dec l j) (schedule l s).
Proof.
  revert ns s. induction l as [|i l IH]; intros ns s Hs.
  - destruct Hs as [Hs ?]. split; [|done]. intros j p Hj. cbn. rewrite Nat.sub_0_r. by apply Hs.
  - apply (budget_turn Q ns i), IH in Hs. destruct Hs as [Hs ?]. split; [|done].
    intros j p Hj. specialize (Hs j p Hj). cbn in *.
    destruct (Nat.eq_dec i j), (decide (i = j)); try done.
    by replace (ns j - S (count_occ Nat.eq_dec l j)) with (pred (ns j) - count_occ Nat.eq_dec l j) by lia.
Qed.

(** A function that was given its turns has ended. *)
Lemma schedule_ends Q ns l s i :
  budget Q ns s → i < length s.1 → ns i ≤ count_occ Nat.eq_dec l i →
  ∃ o, (schedule l s).1 !! i = Some (Finished o).
Proof.
  intros Hs Hi Hle. destruct (budget_schedule Q ns l s Hs) as [Hl _].
  assert (length (schedule l s).1 = length s.1) as Hlen.
  { clear. revert s. induction l as [|i l IH]; intros s; [done|]. cbn. etransitivity; [apply IH|].
    unfold turn. destruct (s.1 !! i) as [[]|]; [done| |done]. apply length_insert. }
  rewrite <-Hlen in Hi. apply lookup_lt_is_Some in Hi as [p Hp].
  specialize (Hl i p Hp). cbn in Hl. replace (ns i - _) with 0 in Hl by lia.
  apply ends_zero in Hl as [o ->]. by exists o.
Qed.

Lemma fmap_lookup_seq {B} (f : B → nat) (l : list B) :
  (λ i, from_option f 0 (l !! i)) <$> seq 0 (length l) = f <$> l.
Proof.
  apply list_eq. intros i. rewrite !list_lookup_fmap. destruct (l !! i) as [x|] eqn:Hi.
  - rewrite lookup_seq_lt by (by eapply lookup_lt_Some). cbn. by rewrite Hi.
  - apply lookup_ge_None in Hi. by rewrite lookup_seq_ge.
Qed.

Lemma sum_list_pred (ns : nat → nat) l i :
  NoDup l → i ∈ l → ns i ≠ 0 →
  S (sum_list ((λ j, if decide (i = j) then pred (ns j) else ns j) <$> l)) = sum_list (ns <$> l).
Proof.
  induction 1 as [|j l Hj Hnd IH]; [by intros ?%not_elem_of_nil|].
  intros Hin Hn. cbn. destruct (decide (i = j)) as [->|Hne].
  - rewrite (list_fmap_ext _ ns l); [lia|]. intros k x Hk. rewrite decide_False; [done|].
    intros <-. apply Hj. by eapply list_elem_of_lookup_2.
  - rewrite <-IH by (done || set_solver). lia.
Qed.

(** No run is longer than all the turns together. *)
Lemma budget_steps Q n s s' :
  nsteps pool_step n s s' → ∀ ns, budget Q ns s → n ≤ sum_list (ns <$> seq 0 (length s.1)).
Proof.
  induction 1 as [|n s1 s2 s3 Hs _ IH]; intros ns Hb; [lia|].
  destruct Hs as [ps w i k Hi]. pose proof (proj1 Hb i _ Hi) as Hk. cbn in *.
  apply (budget_turn Q ns i) in Hb. unfold turn in Hb. cbn in Hb. rewrite Hi in Hb.
  apply IH in Hb. cbn in Hb. rewrite length_insert in Hb.
  rewrite <-(sum_list_pred ns _ i); [lia|apply NoDup_seq| |by destruct (ns i)].
  apply elem_of_seq. apply lookup_lt_Some in Hi. lia.
Qed.

(** A run that cannot go on has ended everywhere. *)
Lemma stuck_pool_ended (s : pool W E A) i p :
  nf pool_step s → s.1 !! i = Some p → finished_proc p.
Proof.
  intros Hnf Hi. destruct p as [o|k]; [by exists o|]. exfalso. apply Hnf.
  destruct s as [ps w]. eexists. by apply (pool_turn ps w i k).
Qed.
End ends.

(** ** Rely and guarantee

    What an invariant of the world alone cannot express: a stretch that relies
    on what an earlier stretch saw.  [safe I R G Q p w]: from the world [w], as
    long as the others change it as [R] allows, every stretch of [p] keeps [I]
    and changes the world as [G] allows, and a value that is returned satisfies
    [Q], then and for as long as only the others go on. *)
Section rely.
Context {W E : Type} (I : W → Prop).

Fixpoint safe {A} (R G : relation W) (Q : A → W → Prop) (p : proc W E A) (w : W) : Prop :=
  match p with
  | Finished (Returned a) => ∀ w', R w w' → Q a w'
  | Finished (Thrown _) => True
  | Await k => ∀ w', R w w' → I w' →
      match k w' with (p, w'') => safe R G Q p w'' ∧ G w' w'' ∧ I w'' end
  end.

Lemma safe_rely {A} (R G : relation W) `{!Transitive R} (Q : A → W → Prop) p w w' :
  safe R G Q p w → R w w' → safe R G Q p w'.
Proof.
  destruct p as [[a|e]|k]; simpl; intros Hp Hw; [|done|]; intros w'' Hw'';
    apply Hp; by trans w'.
Qed.

Lemma safe_atomic {A} (R G : relation W) (Q : A → W → Prop) (m : handler W E A) w :
  (∀ w1, R w w1 → I w1 → G w1 (m w1).2 ∧ I (m w1).2 ∧
     ∀ a, (m w1).1 = Returned a → ∀ w2, R (m w1).2 w2 → Q a w2) →
  safe R G Q (atomic m) w.
Proof.
  intros Hm w1 Hw Hi. simpl. destruct (Hm w1 Hw Hi) as (HG & Hi' & HQ).
  split; [|done]. destruct (m w1).1; [|done]. by apply HQ.
Qed.

Lemma safe_pbind {A B} (R G : relation W) (Q : A → W → Prop) (Q' : B → W → Prop)
    (p : proc W E A) (f : A → proc W E B) w :
  safe R G Q p w →
  (∀ a w, (∀ w', R w w' → Q a w') → safe R G Q' (f a) w) →
  safe R G Q' (pbind p f) w.
Proof.
  intros Hp Hf. revert w Hp. induction p as [[a|e]|k IH] using proc_nested_ind; intros w Hp.
  - by apply Hf.
  - done.
  - intros w' Hw Hi. specialize (Hp w' Hw Hi). specialize (IH w'). simpl in *.
    destruct (k w') as [p w'']. destruct Hp as (Hp & HG & Hi'). auto.
Qed.

(** Functions, one for each of [bs], that guarantee what the others rely on. *)
Context {A B : Type} (R G : B → relation W) `{!∀ b, PreOrder (R b)} (Q : A → W → Prop).
Variable bs : list B.
Hypothesis rely_guarantee : ∀ i j b c w w',
  i ≠ j → bs !! i = Some b → bs !! j = Some c → G b w w' → R c w w'.

Definition pool_safe (s : pool W E A) : Prop :=
  (∀ i p, s.1 !! i = Some p → ∃ b, bs !! i = Some b ∧ safe (R b) (G b) Q p s.2) ∧ I s.2.

Lemma pool_safe_step s s' : pool_step s s' → pool_safe s → pool_safe s'.
Proof.
  destruct 1 as [ps w i k Hi]. intros [Hps Hw]. simpl in *.
  destruct (Hps i _ Hi) as (b & Hb & Hk). specialize (Hk w (reflexivity w) Hw).
  destruct (k w) as [p w'] eqn:E1. destruct Hk as (Hp & HG & Hw'). simpl in *.
  split; [|done]. simpl. intros j q [(<- & <- & _)|(Hne & Hj)]%list_lookup_insert_Some; [by exists b|].
  destruct (Hps j q Hj) as (c & Hc & Hq). exists c. split; [done|].
  apply safe_rely with w; [apply _|done|]. by apply (rely_guarantee i j b c).
Qed.

Lemma pool_safe_steps s s' : rtc pool_step s s' → pool_safe s → pool_safe s'.
Proof. induction 1; [done|]. eauto using pool_safe_step. Qed.
End rely.

(** ** A team

    Functions that all rely on the same change of the world and guarantee it,
    so that more of them can join at any time. *)
Section team.
Context {W E A : Type} (I : W → Prop) (R : relation W) `{!PreOrder R} (Q : A → W → Prop).

Definition team_safe (s : pool W E A) : Prop :=
  Forall (λ p, safe I R R Q p s.2) s.1 ∧ I s.2.

Lemma team_safe_step s s' : pool_step s s' → team_safe s → team_safe s' ∧ R s.2 s'.2.
Proof.
  destruct 1 as [ps w i k Hi]. intros [Hps Hw]. cbn in *.
  pose proof (Forall_lookup_1 _ _ _ _ Hps Hi) as Hk. specialize (Hk w (reflexivity w) Hw).
  destruct (k w) as [p w']. destruct Hk as (Hp & HR & Hw'). cbn.
  split; [|done]. split; [|done]. cbn. apply Forall_insert; [|done].
  eapply Forall_impl; [exact Hps|]. intros q Hq. by apply safe_rely with w; [apply _|..].
Qed.

Lemma team_safe_turn i s : team_safe s → team_safe (turn i s) ∧ R s.2 (turn i s).2.
Proof.
  intros Hs. unfold turn. destruct s as [ps w]. cbn in *.
  destruct (ps !! i) as [[o|k]|] eqn:Hi; [by split|..|by split].
  apply (team_safe_step (ps, w)); [by constructor|done].
Qed.

Lemma team_safe_join ps w p : team_safe (ps, w) → safe I R R Q p w → team_safe (ps ++ [p], w).
Proof. intros [Hps Hw] Hp. split; [|done]. apply Forall_app. by repeat constructor. Qed.
End team.
