(* ===== verification/HotelDb.v ===== *)
(** * The hotel's database

    The Prisma schema of the hotel service as records, the seed script, and
    the Prisma client as an interface ([PrismaClient]).  The client and the
    database behind it are third-party; the laws of the class are their
    documented behaviour on the queries the service sends: what a filter
    matches, that a write that fails changes nothing, that a created row
    satisfies the keys.  Any call may fail; [PrismaResponsive] adds that valid
    calls succeed.  [MemDB] is a concrete database that satisfies both. *)

From S2P Require Import Prelude.
From stdpp Require Import sorting.

(** ** The schema *)

(** (src/services/hotel/prisma/schema.prisma:11-15 RoomType) *)
Inductive RoomType : Type := STANDARD | DELUXE | SUITE.

(** (src/services/hotel/prisma/schema.prisma:17-20 ReservationStatus) *)
Inductive ReservationStatus : Type := CONFIRMED | CANCELLED.

#[global] Instance RoomType_eq_dec : EqDecision RoomType.
Proof. solve_decision. Defined.
#[global] Instance ReservationStatus_eq_dec : EqDecision ReservationStatus.
Proof. solve_decision. Defined.

(** (src/services/hotel/prisma/schema.prisma:22-28 Room) *)
Record Room : Type := {
  room_id : string;
  room_type : RoomType;
  capacity : Z;
  price_per_night : Z;
}.

(** A row with its [guests] relation: the guest ids of its [ReservationGuest]
    rows. (src/services/hotel/prisma/schema.prisma:30-48 Reservation) *)
Record Reservation : Type := {
  r_id : string;
  r_guest_id : string;
  r_room_id : string;
  r_guest_count : Z;
  r_check_in_day : Z;
  r_check_out_day : Z;
  r_status : ReservationStatus;
  r_guests : list string;
}.

#[global] Instance Room_eq_dec : EqDecision Room.
Proof. solve_decision. Defined.
#[global] Instance Reservation_eq_dec : EqDecision Reservation.
Proof. solve_decision. Defined.

(** Prisma's [Int] is PostgreSQL's 32-bit [integer]. *)
Definition fits_int4 (z : Z) : bool := bool_decide (- 2 ^ 31 ≤ z < 2 ^ 31)%Z.

(** ** Queries *)

(** The conditions of a [where] argument; a list of them is their conjunction. *)
Inductive Cond : Type :=
  | RoomIdIs (id : string)
  | IdIs (id : string)
  | GuestIdIs (id : string)
  | StatusIs (s : ReservationStatus)
  | CheckInLte (d : Z)
  | CheckOutGte (d : Z)
  | CheckOutGt (d : Z).

Definition matches1 (c : Cond) (r : Reservation) : bool :=
  match c with
  | RoomIdIs id => bool_decide (r_room_id r = id)
  | IdIs id => bool_decide (r_id r = id)
  | GuestIdIs id => bool_decide (r_guest_id r = id)
  | StatusIs s => bool_decide (r_status r = s)
  | CheckInLte d => (r_check_in_day r <=? d)%Z
  | CheckOutGte d => (d <=? r_check_out_day r)%Z
  | CheckOutGt d => (d <? r_check_out_day r)%Z
  end.
Definition matches (where_ : list Cond) (r : Reservation) : bool :=
  forallb (λ c, matches1 c r) where_.

(** A query whose integers do not fit the column type is refused. *)
Definition valid_cond (c : Cond) : bool :=
  match c with
  | CheckInLte d | CheckOutGte d | CheckOutGt d => fits_int4 d
  | _ => true
  end.

(** The [data] of [reservation.create]. *)
Record ReservationData : Type := {
  d_guest_id : string;
  d_room_id : string;
  d_guest_count : Z;
  d_check_in_day : Z;
  d_check_out_day : Z;
  d_status : ReservationStatus;
  d_guests : list string;
}.

Definition row_of (id : string) (guests : list string) (d : ReservationData) : Reservation := {|
  r_id := id; r_guest_id := d_guest_id d; r_room_id := d_room_id d;
  r_guest_count := d_guest_count d; r_check_in_day := d_check_in_day d;
  r_check_out_day := d_check_out_day d; r_status := d_status d; r_guests := guests
|}.

Definition set_status (s : ReservationStatus) (r : Reservation) : Reservation := {|
  r_id := r_id r; r_guest_id := r_guest_id r; r_room_id := r_room_id r;
  r_guest_count := r_guest_count r; r_check_in_day := r_check_in_day r;
  r_check_out_day := r_check_out_day r; r_status := s; r_guests := r_guests r
|}.

Definition data_in_range (d : ReservationData) : bool :=
  fits_int4 (d_guest_count d) && fits_int4 (d_check_in_day d)
  && fits_int4 (d_check_out_day d).

(** [orderBy] of [findFirst]. *)
Inductive Order : Type := Unordered | CheckInDayDesc.

Definition type_matches (ty : option RoomType) (room : Room) : bool :=
  match ty with None => true | Some ty => bool_decide (room_type room = ty) end.

Definition PrismaError : Type := string.

(** The tables, as finite maps from the primary key. *)
Record Tables : Type := {
  rooms : gmap string Room;
  reservations : gmap string Reservation;
}.

Definition selected (t : Tables) (where_ : list Cond) : gmap string Reservation :=
  filter (λ kv, matches where_ kv.2 = true) (reservations t).

Definition guests_in (rows : gmap string Reservation) : Z :=
  sum_with (λ kv, r_guest_count kv.2) (map_to_list rows).

Definition with_room (t : Tables) (r : Reservation) : option (Reservation * Room) :=
  room ← rooms t !! r_room_id r; Some (r, room).

(** The client.  [tables] is the content of the database. *)
Class PrismaClient (DB : Type) := {
  tables : DB → Tables;
  id_le : relation string;
  room_findMany : DB → option RoomType → outcome PrismaError (list Room);
  room_upsert : DB → Room → outcome PrismaError Room * DB;
  reservation_count : DB → list Cond → outcome PrismaError Z;
  reservation_create : DB → ReservationData → outcome PrismaError Reservation * DB;
  reservation_findFirst :
    DB → list Cond → Order → outcome PrismaError (option (Reservation * Room));
  reservation_findUnique : DB → string → outcome PrismaError (option (Reservation * Room));
  reservation_update :
    DB → string → ReservationStatus → outcome PrismaError (Reservation * Room) * DB;
  reservation_groupBy_room :
    DB → list Cond → outcome PrismaError (list (string * option Z));

  room_findMany_spec db ty l : room_findMany db ty = Returned l →
    l ≡ₚ filter (λ r, type_matches ty r = true) (map_to_list (rooms (tables db))).*2 ∧
    StronglySorted (λ a b, id_le (room_id a) (room_id b)) l;
  room_upsert_spec db room o db' : room_upsert db room = (o, db') →
    reservations (tables db') = reservations (tables db) ∧
    match o with
    | Returned _ => rooms (tables db') =
        match rooms (tables db) !! room_id room with
        | Some _ => rooms (tables db)
        | None => <[room_id room := room]> (rooms (tables db))
        end
    | Thrown _ => rooms (tables db') = rooms (tables db)
    end;
  reservation_count_spec db w n : reservation_count db w = Returned n →
    n = Z.of_nat (size (selected (tables db) w));
  reservation_create_spec db d o db' : reservation_create db d = (o, db') →
    rooms (tables db') = rooms (tables db) ∧
    match o with
    | Returned r =>
        data_in_range d = true ∧ is_Some (rooms (tables db) !! d_room_id d) ∧
        NoDup (d_guests d) ∧ reservations (tables db) !! r_id r = None ∧
        (∃ guests, guests ≡ₚ d_guests d ∧ r = row_of (r_id r) guests d) ∧
        reservations (tables db') = <[r_id r := r]> (reservations (tables db))
    | Thrown _ => reservations (tables db') = reservations (tables db)
    end;
  reservation_findFirst_spec db w o res : reservation_findFirst db w o = Returned res →
    match res with
    | None => selected (tables db) w = ∅
    | Some (r, room) =>
        (∃ id, selected (tables db) w !! id = Some r) ∧
        with_room (tables db) r = Some (r, room) ∧
        (o = CheckInDayDesc → ∀ id r', selected (tables db) w !! id = Some r' →
           (r_check_in_day r' ≤ r_check_in_day r)%Z)
    end;
  reservation_findUnique_spec db id res : reservation_findUnique db id = Returned res →
    match res with
    | None => reservations (tables db) !! id = None
    | Some (r, room) =>
        reservations (tables db) !! id = Some r ∧ with_room (tables db) r = Some (r, room)
    end;
  reservation_update_spec db id s o db' : reservation_update db id s = (o, db') →
    rooms (tables db') = rooms (tables db) ∧
    match o with
    | Returned (r', room) => ∃ r,
        reservations (tables db) !! id = Some r ∧ r' = set_status s r ∧
        with_room (tables db) r' = Some (r', room) ∧
        reservations (tables db') = <[id := r']> (reservations (tables db))
    | Thrown _ => reservations (tables db') = reservations (tables db)
    end;
  reservation_groupBy_room_spec db w l : reservation_groupBy_room db w = Returned l →
    NoDup l.*1 ∧
    (∀ id s, (id, s) ∈ l ↔
       let group := filter (λ kv, r_room_id kv.2 = id) (selected (tables db) w) in
       group ≠ ∅ ∧ s = Some (guests_in group));
}.

(** What the database owes a valid call when it is up. *)
Class PrismaResponsive (DB : Type) `{PrismaClient DB} := {
  room_findMany_up db ty : ∃ l, room_findMany db ty = Returned l;
  room_upsert_up db room : ∃ r db', room_upsert db room = (Returned r, db');
  reservation_count_up db w :
    forallb valid_cond w = true → ∃ n, reservation_count db w = Returned n;
  reservation_create_up db d :
    data_in_range d = true → is_Some (rooms (tables db) !! d_room_id d) →
    NoDup (d_guests d) → ∃ r db', reservation_create db d = (Returned r, db');
  reservation_findFirst_up db w o :
    forallb valid_cond w = true →
    (∀ id r, selected (tables db) w !! id = Some r → is_Some (with_room (tables db) r)) →
    ∃ res, reservation_findFirst db w o = Returned res;
  reservation_findUnique_up db id :
    (∀ r, reservations (tables db) !! id = Some r → is_Some (with_room (tables db) r)) →
    ∃ res, reservation_findUnique db id = Returned res;
  reservation_update_up db id s r :
    reservations (tables db) !! id = Some r → is_Some (with_room (tables db) r) →
    ∃ res db', reservation_update db id s = (Returned res, db');
  reservation_groupBy_room_up db w :
    forallb valid_cond w = true → ∃ l, reservation_groupBy_room db w = Returned l;
}.

Lemma elem_of_values {V} (m : gmap string V) (P : V → Prop) `{∀ v, Decision (P v)} v :
  v ∈ filter P (map_to_list m).*2 ↔ ∃ k, m !! k = Some v ∧ P v.
Proof.
  rewrite list_elem_of_filter, list_elem_of_fmap. split.
  - intros (HP & [id v'] & -> & Hin%elem_of_map_to_list). eauto.
  - intros (id & Hm & HP). split; [done|]. exists (id, v).
    by rewrite elem_of_map_to_list.
Qed.

(** The listing has the rows of the type and no other. *)
Lemma room_findMany_elem `{PrismaClient DB} db ty l :
  room_findMany db ty = Returned l →
  ∀ r, r ∈ l ↔ ∃ id, rooms (tables db) !! id = Some r ∧ type_matches ty r = true.
Proof.
  intros [Hl _]%room_findMany_spec r. rewrite Hl.
  apply (elem_of_values _ (λ r, type_matches ty r = true)).
Qed.

(** ** A concrete database *)

Module MemDB.

Definition sorted_rooms (ty : option RoomType) (t : Tables) : list Room :=
  merge_sort (λ a b, String.le (room_id a) (room_id b))
    (filter (λ r, type_matches ty r = true) (map_to_list (rooms t)).*2).

Definition upsert (t : Tables) (room : Room) : outcome PrismaError Room * Tables :=
  match rooms t !! room_id room with
  | Some old => (Returned old, t)
  | None => (Returned room,
      {| rooms := <[room_id room := room]> (rooms t); reservations := reservations t |})
  end.

Definition create (t : Tables) (d : ReservationData) : outcome PrismaError Reservation * Tables :=
  let id := fresh (dom (reservations t)) in
  let r := row_of id (d_guests d) d in
  if data_in_range d && bool_decide (is_Some (rooms t !! d_room_id d) ∧ NoDup (d_guests d))
  then (Returned r,
        {| rooms := rooms t; reservations := <[id := r]> (reservations t) |})
  else (Thrown "Invalid reservation", t).

Definition guarded {A} (w : list Cond) (a : A) : outcome PrismaError A :=
  if forallb valid_cond w then Returned a else Thrown "Unable to fit integer value into INT4".

(** The row whose [check_in_day] is greatest. *)
Definition later (a b : option Reservation) : option Reservation :=
  match a, b with
  | Some x, Some y => if (r_check_in_day x <? r_check_in_day y)%Z then b else a
  | None, _ => b
  | _, None => a
  end.
Definition latest (l : list Reservation) : option Reservation :=
  foldr (λ r acc, later (Some r) acc) None l.

Definition joined (t : Tables) (o : option Reservation) :
    outcome PrismaError (option (Reservation * Room)) :=
  match o with
  | None => Returned None
  | Some r =>
      match with_room t r with
      | Some p => Returned (Some p)
      | None => Thrown "Inconsistent query result"
      end
  end.

Definition findFirst (t : Tables) (w : list Cond) (o : Order) :
    outcome PrismaError (option (Reservation * Room)) :=
  if forallb valid_cond w then joined t (latest (map_to_list (selected t w)).*2)
  else Thrown "Unable to fit integer value into INT4".

Definition findUnique (t : Tables) (id : string) := joined t (reservations t !! id).

Definition update (t : Tables) (id : string) (s : ReservationStatus) :
    outcome PrismaError (Reservation * Room) * Tables :=
  match reservations t !! id with
  | None => (Thrown "Record to update not found", t)
  | Some r =>
      match with_room t (set_status s r) with
      | Some p => (Returned p,
          {| rooms := rooms t; reservations := <[id := set_status s r]> (reservations t) |})
      | None => (Thrown "Inconsistent query result", t)
      end
  end.

Definition groups (t : Tables) (w : list Cond) : list (string * option Z) :=
  (λ id, (id, Some (guests_in (filter (λ kv, r_room_id kv.2 = id) (selected t w)))))
    <$> elements (list_to_set (r_room_id <$> (map_to_list (selected t w)).*2) : gset string).

Lemma latest_None l : latest l = None → l = [].
Proof.
  destruct l as [|r l]; [done|]. change (latest (r :: l)) with (later (Some r) (latest l)).
  destruct (latest l); simpl; [|done]. by case_match.
Qed.

Lemma latest_Some l r :
  latest l = Some r → r ∈ l ∧ ∀ r', r' ∈ l → (r_check_in_day r' ≤ r_check_in_day r)%Z.
Proof.
  revert r. induction l as [|x l IH]; intros r; [done|].
  change (latest (x :: l)) with (later (Some x) (latest l)). destruct (latest l) as [y|] eqn:E; simpl.
  - destruct (IH y eq_refl) as [Hin Hmax].
    destruct (Z.ltb_spec (r_check_in_day x) (r_check_in_day y)); intros [= <-].
    + split; [set_solver|]. intros r' [->|?]%elem_of_cons; [lia|auto].
    + split; [set_solver|]. intros r' [->|Hr]%elem_of_cons; [lia|].
      specialize (Hmax _ Hr). lia.
  - intros [= <-]. apply latest_None in E as ->.
    split; [set_solver|]. intros r' ->%list_elem_of_singleton. lia.
Qed.

Lemma with_room_fst t r p : with_room t r = Some p → p.1 = r.
Proof. unfold with_room. destruct (rooms t !! r_room_id r); simpl; naive_solver. Qed.

Lemma with_room_is_Some t r : is_Some (with_room t r) → ∃ room, with_room t r = Some (r, room).
Proof. intros [[r' room] H]. pose proof (with_room_fst _ _ _ H). simpl in *. naive_solver. Qed.

#[program, export] Instance prisma : PrismaClient Tables := {|
  tables := λ t, t;
  id_le := String.le;
  room_findMany t ty := Returned (sorted_rooms ty t);
  room_upsert := upsert;
  reservation_count t w := guarded w (Z.of_nat (size (selected t w)));
  reservation_create := create;
  reservation_findFirst := findFirst;
  reservation_findUnique := findUnique;
  reservation_update := update;
  reservation_groupBy_room t w := guarded w (groups t w);
|}.
Next Obligation.
  intros t ty l [= <-]. unfold sorted_rooms. split.
  - apply merge_sort_Permutation.
  - apply StronglySorted_merge_sort.
    + intros x y z. apply transitivity.
    + intros x y. apply total. apply _.
Qed.
Next Obligation.
  intros t room o t'. unfold upsert. destruct (rooms t !! room_id room) eqn:E;
    intros [= <- <-]; simpl; by rewrite ?E.
Qed.
Next Obligation. intros t w n. unfold guarded. by case_match; intros [= <-]. Qed.
Next Obligation.
  intros t d o t'. unfold create. destruct (data_in_range d) eqn:Hd; simpl; [|by intros [= <- <-]].
  case_bool_decide as Hb; [|by intros [= <- <-]]. destruct Hb as [Hroom Hnd].
  intros [= <- <-]. simpl. split_and!; [done..| |by exists (d_guests d)|done].
  apply not_elem_of_dom. apply is_fresh.
Qed.
Next Obligation.
  intros t w o res. unfold findFirst. case_match; [|done].
  destruct (latest _) as [r|] eqn:E; simpl.
  - destruct (with_room t r) as [[r' room]|] eqn:Hw; [|done]. intros [= <-].
    apply with_room_fst in Hw as Hfst. simpl in Hfst. subst r'.
    apply latest_Some in E as [Hin Hmax]. split_and!.
    + apply list_elem_of_fmap in Hin as ([id r'] & -> & Hin%elem_of_map_to_list). eauto.
    + done.
    + intros _ id r' Hr'. apply Hmax, list_elem_of_fmap. exists (id, r').
      by rewrite elem_of_map_to_list.
  - intros [= <-]. apply latest_None in E. apply fmap_nil_inv in E.
    by apply map_to_list_empty_iff.
Qed.
Next Obligation.
  intros t id res. unfold findUnique, joined. destruct (reservations t !! id) as [r|] eqn:E;
    [|by intros [= <-]].
  destruct (with_room t r) as [[r' room]|] eqn:Hw; [|done]. intros [= <-].
  apply with_room_fst in Hw as Hfst. simpl in Hfst. by subst r'.
Qed.
Next Obligation.
  intros t id s o t'. unfold update. destruct (reservations t !! id) as [r|] eqn:E;
    [|by intros [= <- <-]].
  destruct (with_room t (set_status s r)) as [[r' room]|] eqn:Hw; [|by intros [= <- <-]].
  intros [= <- <-]. apply with_room_fst in Hw as Hfst. simpl in Hfst. subst r'. simpl.
  split; [done|]. by exists r.
Qed.
Next Obligation.
  intros t w l. unfold guarded. case_match; [|done]. intros [= <-]. unfold groups. split.
  - rewrite <-list_fmap_compose. unfold compose. simpl. rewrite list_fmap_id.
    apply NoDup_elements.
  - intros id s. rewrite list_elem_of_fmap. setoid_rewrite elem_of_elements.
    setoid_rewrite elem_of_list_to_set. simpl. split.
    + intros (id' & [= -> ->] & Hin). split; [|done].
      apply list_elem_of_fmap in Hin as (r & -> & ([k r'] & -> & Hin)%list_elem_of_fmap).
      apply elem_of_map_to_list in Hin. simpl. intros He.
      apply (f_equal (lookup k)) in He. rewrite lookup_empty in He.
      eapply map_lookup_filter_None in He as [He|He]; [by rewrite Hin in He|].
      by apply (He _ Hin).
    + intros (Hne & ->). exists id. split; [done|].
      apply map_choose in Hne as (k & r & [Hk Hr]%map_lookup_filter_Some).
      simpl in Hr. subst id. apply list_elem_of_fmap_2, list_elem_of_fmap. exists (k, r).
      by rewrite elem_of_map_to_list.
Qed.

#[program, export] Instance prisma_responsive : PrismaResponsive Tables := {}.
Next Obligation. intros. by eexists. Qed.
Next Obligation. intros t room. simpl. unfold upsert. case_match; eauto. Qed.
Next Obligation. intros t w Hw. simpl. unfold guarded. rewrite Hw. eauto. Qed.
Next Obligation.
  intros t d Hd Hroom Hnd. simpl in *. unfold create. rewrite Hd, bool_decide_true by done. eauto.
Qed.
Next Obligation.
  intros t w o Hw Hfk. simpl in *. unfold findFirst, joined. rewrite Hw.
  destruct (latest _) as [r|] eqn:E; [|eauto].
  apply latest_Some in E as [Hin _].
  apply list_elem_of_fmap in Hin as ([id r'] & -> & Hin%elem_of_map_to_list).
  simpl. destruct (Hfk _ _ Hin) as [p ->]. eauto.
Qed.
Next Obligation.
  intros t id Hfk. simpl in *. unfold findUnique, joined.
  destruct (reservations t !! id) as [r|] eqn:E; [|eauto].
  destruct (Hfk _ eq_refl) as [p ->]. eauto.
Qed.
Next Obligation.
  intros t id s r Hr Hw. simpl in *. unfold update. rewrite Hr.
  assert (is_Some (with_room t (set_status s r))) as [p ->].
  { unfold with_room in *. simpl. destruct (rooms t !! r_room_id r); [eauto|by destruct Hw]. }
  eauto.
Qed.
Next Obligation. intros t w Hw. simpl. unfold guarded. rewrite Hw. eauto. Qed.

End MemDB.
