(* ===== verification/HotelSeed.v ===== *)
(** * The seed script of the hotel's database

    [prisma/seed.ts]: twenty rooms, each written with an upsert whose update
    is empty.  Running it adds the missing rooms and changes nothing else. *)

From S2P Require Import Prelude JsString HotelDb.

(** [String(n).padStart(2, '0')]. *)
Definition padStart2 (n : nat) : string :=
  let s := show_int (Z.of_nat n) in
  if bool_decide (String.length s < 2) then String "0" s else s.

Definition room_block (n : nat) (name : string) (ty : RoomType) (cap price : Z) : list Room :=
  (λ i, {| room_id := "room-" +:+ name +:+ "-" +:+ padStart2 (i + 1);
           room_type := ty; capacity := cap; price_per_night := price |}) <$> seq 0 n.

(** (src/services/hotel/prisma/seed.ts:7-26 rooms) *)
Definition seed_rooms : list Room :=
  room_block 10 "standard" STANDARD 2 100 ++
  room_block 6 "deluxe" DELUXE 3 200 ++
  room_block 4 "suite" SUITE 4 400.

Section seed.
Context {DB : Type} `{PrismaClient DB}.

Fixpoint upsert_all (l : list Room) : handler DB PrismaError () :=
  match l with
  | [] => hret tt
  | room :: l => do! (λ db, room_upsert db room); upsert_all l
  end.

(** (src/services/hotel/prisma/seed.ts:28-37 main) *)
Definition seed_main : handler DB PrismaError () := upsert_all seed_rooms.

Lemma upsert_all_spec l db db' :
  upsert_all l db = (Returned tt, db') →
  reservations (tables db') = reservations (tables db) ∧
  rooms (tables db') = rooms (tables db) ∪ list_to_map ((λ r, (room_id r, r)) <$> l).
Proof.
  revert db. induction l as [|room l IH]; intros db; cbn [upsert_all].
  { intros [= <-]. split; [done|]. cbn. by rewrite (right_id_L ∅ (∪)). }
  intros (r & db1 & Hup & Hrest)%hbind_returned_inv.
  apply room_upsert_spec in Hup as [Hres Hroom]. apply IH in Hrest as [-> ->].
  split; [done|]. rewrite Hroom. cbn. destruct (rooms (tables db) !! room_id room) as [old|] eqn:E.
  - apply map_eq. intros id. rewrite !lookup_union.
    destruct (decide (id = room_id room)) as [->|].
    + rewrite E. by rewrite !union_Some_l.
    + by rewrite lookup_insert_ne.
  - by rewrite <-insert_union_r, insert_union_l.
Qed.

(** A run changes no reservation, keeps every room that was there, adds the
    seed rooms that were missing, and adds nothing else. *)
Lemma seed_main_spec db db' :
  seed_main db = (Returned tt, db') →
  reservations (tables db') = reservations (tables db) ∧
  rooms (tables db') = rooms (tables db) ∪ list_to_map ((λ r, (room_id r, r)) <$> seed_rooms).
Proof. apply upsert_all_spec. Qed.
End seed.

Lemma seed_rooms_ids : NoDup (room_id <$> seed_rooms).
Proof. apply (bool_decide_unpack _). vm_compute. done. Qed.
