(* ===== verification/HotelOutbound.v ===== *)
(** * The hotel's outbound calls

    The airport check and the publication of hotel events, over HTTP.  What
    the network answers is the parameter [fetch], a function of everything
    sent so far and of the request; [sent] records the requests in order.
    Logging and timing are not modelled. *)

From S2P Require Import Prelude Json JsString JsonText HotelDb.

(** Method, URL, headers and body of a request. *)
Definition HttpRequest : Type := string * string * list (string * string) * option string.

(** The service's world: its database and the requests it has sent. *)
Record Hotel (DB : Type) : Type := MkHotel { db : DB; sent : list HttpRequest }.
Arguments MkHotel {DB} db sent.
Arguments db {DB} h.
Arguments sent {DB} h.

Inductive FetchResult : Type :=
  | FetchFails                                  (** the promise rejects *)
  | Response (status : Z) (text : string).

Definition response_ok (status : Z) : bool := (200 <=? status)%Z && (status <=? 299)%Z.

(** What a handler can end with other than a value: an [HttpException] it
    throws, or any other error, which the framework answers with 500. *)
Inductive Failure : Type :=
  | HttpException (error : string) (status : Z)
  | InternalError.
Definition BAD_REQUEST : Z := 400.
Definition NOT_FOUND : Z := 404.
Definition CONFLICT : Z := 409.

(** The environment variables read at start-up.
    (src/services/hotel/src/broadcast/broadcast.service.ts:8-8 broadcastServiceUrl) *)
Record HotelEnv : Type := {
  AIRPORT_SERVICE_URL : option string;
  BROADCAST_SERVICE_URL : option string;
}.

(** [req.header('X-Request-Id') || randomUUID()]
    (src/services/hotel/src/common/request-logger.middleware.ts:16-29 use) *)
Definition request_id_for (header : option string) (uuid : string) : string :=
  or_else header uuid.

(** (src/services/hotel/src/common/request-context.ts:14-16 getRequestId) *)
Definition getRequestId (store : option string) : string := default "-" store.

(** (src/services/hotel/src/broadcast/hotel-events.ts:3-6 HotelBroadcastEventType) *)
Inductive HotelBroadcastEventType : Type := ReservationConfirmed | ReservationCancelled.

(** (src/services/hotel/src/broadcast/hotel-events.ts:8-16 HotelBroadcastEvent) *)
Record HotelBroadcastEvent : Type := {
  message : string;
  reservation_id : string;
  guest_id : string;
  ev_room_type : RoomType;
  guest_count : Z;
  check_in_day : Z;
  check_out_day : Z;
}.

Definition show_room_type (ty : RoomType) : string :=
  match ty with STANDARD => "STANDARD" | DELUXE => "DELUXE" | SUITE => "SUITE" end.

Definition show_status (s : ReservationStatus) : string :=
  match s with CONFIRMED => "CONFIRMED" | CANCELLED => "CANCELLED" end.

(** The object literal as JSON.
    (src/services/hotel/src/broadcast/broadcast.service.ts:30-30 body) *)
Definition event_json (e : HotelBroadcastEvent) : json := JObj
  [("message", JStr (message e)); ("reservation_id", JStr (reservation_id e));
   ("guest_id", JStr (guest_id e)); ("room_type", JStr (show_room_type (ev_room_type e)));
   ("guest_count", JNum (NumZ (guest_count e)));
   ("check_in_day", JNum (NumZ (check_in_day e)));
   ("check_out_day", JNum (NumZ (check_out_day e)))].

(** (src/services/hotel/src/broadcast/broadcast.service.ts:50-57 getEndpointForEvent) *)
Definition getEndpointForEvent (t : HotelBroadcastEventType) : string :=
  match t with
  | ReservationConfirmed => "/hotel/confirm"
  | ReservationCancelled => "/hotel/cancel"
  end.

(** [JSON.parse(text).status]: throws on ill-formed text and on [null], whose
    properties cannot be read; any other value without the property gives
    [undefined].
    (src/services/hotel/src/airport/airport.service.ts:30-37 body) *)
Definition parsed_status (text : string) : option (option json) :=
  match JSON_parse text with
  | None | Some JNull => None
  | Some body => Some (jprop "status" body)
  end.

Section outbound.
Context {DB : Type}.
Variable env : HotelEnv.
Variable request_id : string.
Variable fetch : list HttpRequest → HttpRequest → FetchResult.

(** Send a request, recording it. *)
Definition send (rq : HttpRequest) : handler (Hotel DB) Failure FetchResult := λ h,
  (Returned (fetch (sent h) rq), MkHotel (db h) (sent h ++ [rq])).

(** (src/services/hotel/src/airport/airport.service.ts:16-23 fetch) *)
Definition airport_request (url guestId : string) : HttpRequest :=
  ("GET", url +:+ "/arrivals/" +:+ guestId, [("X-Request-Id", request_id)], None).

(** [None] is [null], "not known".
    (src/services/hotel/src/airport/airport.service.ts:10-47 hasGuestClearedProcessing) *)
Definition hasGuestClearedProcessing (guestId : string) :
    handler (Hotel DB) Failure (option bool) :=
  match AIRPORT_SERVICE_URL env with
  | None => hret None
  | Some url =>
      if negb (truthy url) then hret None else
      let! response := send (airport_request url guestId) in
      match response with
      | FetchFails => hret None
      | Response status text =>
          if negb (response_ok status) then hret None else
          match parsed_status text with
          | None => hret None
          | Some st => hret (Some (bool_decide (st = Some (JStr "processed"))))
          end
      end
  end.

(** (src/services/hotel/src/broadcast/broadcast.service.ts:24-31 fetch) *)
Definition publish_request (url : string) (t : HotelBroadcastEventType)
    (e : HotelBroadcastEvent) : HttpRequest :=
  ("POST", url +:+ getEndpointForEvent t,
   [("content-type", "application/json"); ("X-Request-Id", request_id)],
   Some (JSON_stringify (event_json e))).

(** A refused or failed publication is logged and forgotten.
    (src/services/hotel/src/broadcast/broadcast.service.ts:10-48 publishHotelEvent) *)
Definition publishHotelEvent (t : HotelBroadcastEventType) (e : HotelBroadcastEvent) :
    handler (Hotel DB) Failure () :=
  match BROADCAST_SERVICE_URL env with
  | None => hret tt
  | Some url =>
      if negb (truthy url) then hret tt else
      let! response := send (publish_request url t e) in
      match response with
      | FetchFails => hret tt
      | Response status _ => hret tt
      end
  end.

(** What publishing adds to the sent requests. *)
Definition published (t : HotelBroadcastEventType) (e : HotelBroadcastEvent) :
    list HttpRequest :=
  match BROADCAST_SERVICE_URL env with
  | Some url => if truthy url then [publish_request url t e] else []
  | None => []
  end.

Lemma publishHotelEvent_run t e h :
  publishHotelEvent t e h = (Returned tt, MkHotel (db h) (sent h ++ published t e)).
Proof.
  unfold publishHotelEvent, published, send. run_handler. destruct h as [d l]. simpl.
  destruct (BROADCAST_SERVICE_URL env) as [url|]; [|by rewrite app_nil_r].
  destruct (truthy url); simpl; [|by rewrite app_nil_r].
  by destruct (fetch _ _).
Qed.

(** What the airport call sends. *)
Definition asked (guestId : string) : list HttpRequest :=
  match AIRPORT_SERVICE_URL env with
  | Some url => if truthy url then [airport_request url guestId] else []
  | None => []
  end.

(** What the airport's answer means: [Some true] cleared, [Some false] known
    not to have cleared, [None] unknown. *)
Definition clearance (past : list HttpRequest) (guestId : string) : option bool :=
  match AIRPORT_SERVICE_URL env with
  | Some url =>
      if truthy url then
        match fetch past (airport_request url guestId) with
        | Response status text =>
            if response_ok status then
              (λ st, bool_decide (st = Some (JStr "processed"))) <$> parsed_status text
            else None
        | FetchFails => None
        end
      else None
  | None => None
  end.

Lemma hasGuestClearedProcessing_run guestId h :
  hasGuestClearedProcessing guestId h =
  (Returned (clearance (sent h) guestId), MkHotel (db h) (sent h ++ asked guestId)).
Proof.
  unfold hasGuestClearedProcessing, clearance, asked, send. run_handler.
  destruct h as [d l]. simpl.
  destruct (AIRPORT_SERVICE_URL env) as [url|]; [|by rewrite app_nil_r].
  destruct (truthy url); simpl; [|by rewrite app_nil_r].
  destruct (fetch _ _) as [|status text]; [done|].
  destruct (response_ok status); simpl; [|done].
  by destruct (parsed_status text).
Qed.
End outbound.

#[export] Hint Rewrite @publishHotelEvent_run @hasGuestClearedProcessing_run : island_simpl.
