(* ===== verification/HotelReservation.v ===== *)
(** * Reservations

    The reservation service and its controller ([reservation.service.ts],
    [reservation.controller.ts]): creating a reservation, reading one,
    cancelling one.  Every handler runs alone here, from its request to its
    response; [HotelConcurrency] interleaves them. *)

From S2P Require Import Prelude Json JsString HotelDb HotelOutbound.

(** The request body after validation.
    (src/services/hotel/src/reservation/dto/create-reservation.dto.ts:5-29 CreateReservationDto) *)
Record CreateReservationDto : Type := {
  c_guest_id : string;
  c_room_type : RoomType;
  c_guest_count : Z;
  c_party_guest_ids : option (list string);
  c_check_in_day : Z;
  c_check_out_day : Z;
}.

(** (src/services/hotel/src/reservation/dto/reservation-response.dto.ts:6-16 ReservationResponseDto) *)
Record ReservationResponseDto : Type := {
  o_id : string;
  o_guest_id : string;
  o_room_id : string;
  o_room_type : RoomType;
  o_guest_count : Z;
  o_party_guest_ids : list string;
  o_check_in_day : Z;
  o_check_out_day : Z;
  o_status : ReservationStatus;
}.

(** (src/services/hotel/src/reservation/dto/cancel-reservation-response.dto.ts:3-6 CancelReservationResponseDto) *)
Record CancelReservationResponseDto : Type := {
  x_id : string;
  x_status : ReservationStatus;
}.

(** (src/services/hotel/src/reservation/reservation.service.ts:160-170 findById) *)
Definition response_of (r : Reservation) (room : Room) : ReservationResponseDto := {|
  o_id := r_id r; o_guest_id := r_guest_id r; o_room_id := r_room_id r;
  o_room_type := room_type room; o_guest_count := r_guest_count r;
  o_party_guest_ids := r_guests r; o_check_in_day := r_check_in_day r;
  o_check_out_day := r_check_out_day r; o_status := r_status r
|}.

(** [Math.max(...l)]: of no arguments it is [-Infinity]. *)
Fixpoint Math_max (l : list Z) : number :=
  match l with
  | [] => NumInf true
  | z :: l => match Math_max l with NumZ m => NumZ (Z.max z m) | _ => NumZ z end
  end.

(** [z > n]. *)
Definition exceeds (z : Z) (n : number) : bool :=
  match n with NumZ m => (m <? z)%Z | NumInf negative => negative | _ => false end.

Definition show_number (n : number) : string :=
  match n with
  | NumZ z => show_int z
  | NumInf true => "-Infinity"
  | _ => "Infinity"
  end.

(** (src/services/hotel/src/reservation/reservation.service.ts:41-47 partySize) *)
Definition partySize (dto : CreateReservationDto) : Z :=
  match c_party_guest_ids dto with
  | Some (p :: ps) => Z.of_nat (length (p :: ps))
  | _ => c_guest_count dto
  end.

(** The filter of the availability check.
    (src/services/hotel/src/reservation/reservation.service.ts:66-73 overlappingReservationCount) *)
Definition overlapping (dto : CreateReservationDto) (room : Room) : list Cond :=
  [RoomIdIs (room_id room); StatusIs CONFIRMED; CheckInLte (c_check_out_day dto);
   CheckOutGte (c_check_in_day dto)].

(** (src/services/hotel/src/reservation/reservation.service.ts:92-103 data) *)
Definition new_reservation (dto : CreateReservationDto) (room : Room) : ReservationData := {|
  d_guest_id := c_guest_id dto; d_room_id := room_id room;
  d_guest_count := c_guest_count dto; d_check_in_day := c_check_in_day dto;
  d_check_out_day := c_check_out_day dto; d_status := CONFIRMED;
  d_guests := default [] (c_party_guest_ids dto)
|}.

(** (src/services/hotel/src/reservation/reservation.service.ts:109-117 event) *)
Definition event_of (msg : string) (r : Reservation) (ty : RoomType) : HotelBroadcastEvent := {|
  message := msg; reservation_id := r_id r; guest_id := r_guest_id r; ev_room_type := ty;
  guest_count := r_guest_count r; check_in_day := r_check_in_day r;
  check_out_day := r_check_out_day r
|}.

(** (src/services/hotel/src/reservation/reservation.service.ts:53-53 error) *)
Definition too_many (dto : CreateReservationDto) (maxCapacity : number) : string :=
  "Room type " +:+ show_room_type (c_room_type dto) +:+ " supports at most " +:+
  show_number maxCapacity +:+ " guests".
(** (src/services/hotel/src/reservation/reservation.service.ts:84-84 error) *)
Definition no_rooms (dto : CreateReservationDto) : string :=
  "No available rooms of type " +:+ show_room_type (c_room_type dto) +:+ " for days " +:+
  show_int (c_check_in_day dto) +:+ "-" +:+ show_int (c_check_out_day dto).

Section service.
Context {DB : Type} `{PrismaClient DB}.
Variable env : HotelEnv.
Variable request_id : string.
Variable fetch : list HttpRequest → HttpRequest → FetchResult.

Abbreviation run A := (handler (Hotel DB) Failure A).

(** A database call that rejects is not an [HttpException]. *)
Definition query {A} (q : DB → outcome PrismaError A) : run A := λ h,
  match q (db h) with
  | Returned a => (Returned a, h)
  | Thrown _ => (Thrown InternalError, h)
  end.
Definition execute {A} (q : DB → outcome PrismaError A * DB) : run A := λ h,
  match q (db h) with
  | (Returned a, d) => (Returned a, MkHotel d (sent h))
  | (Thrown _, d) => (Thrown InternalError, MkHotel d (sent h))
  end.

(** (src/services/hotel/src/reservation/reservation.service.ts:133-145 rejectIfGuestHasNotClearedAirport) *)
Definition rejectIfGuestHasNotClearedAirport (guestId : string) : run () :=
  let! hasClearedAirport := hasGuestClearedProcessing env request_id fetch guestId in
  if bool_decide (hasClearedAirport = Some false)
  then hthrow (HttpException "Guest has not cleared airport processing" CONFLICT)
  else hret tt.

(** The loop over the rooms.
    (src/services/hotel/src/reservation/reservation.service.ts:59-79 availableRoom) *)
Fixpoint find_available (dto : CreateReservationDto) (l : list Room) : run (option Room) :=
  match l with
  | [] => hret None
  | room :: l =>
      if (capacity room <? partySize dto)%Z then find_available dto l
      else
        let! n := query (λ d, reservation_count d (overlapping dto room)) in
        if (n =? 0)%Z then hret (Some room) else find_available dto l
  end.

(** (src/services/hotel/src/reservation/reservation.service.ts:19-131 create) *)
Definition create (dto : CreateReservationDto) : run ReservationResponseDto :=
  if (c_check_out_day dto <=? c_check_in_day dto)%Z then
    hthrow (HttpException "check_out_day must be greater than check_in_day" BAD_REQUEST)
  else
    do! rejectIfGuestHasNotClearedAirport (c_guest_id dto);
    let! rooms := query (λ d, room_findMany d (Some (c_room_type dto))) in
    let maxCapacity := Math_max (capacity <$> rooms) in
    if exceeds (partySize dto) maxCapacity then
      hthrow (HttpException (too_many dto maxCapacity) CONFLICT)
    else
      let! availableRoom := find_available dto rooms in
      match availableRoom with
      | None => hthrow (HttpException (no_rooms dto) CONFLICT)
      | Some room =>
          let! reservation :=
            execute (λ d, reservation_create d (new_reservation dto room)) in
          do! publishHotelEvent env request_id fetch ReservationConfirmed
                (event_of "Hotel reservation confirmed." reservation (room_type room));
          hret (response_of reservation room)
      end.

(** (src/services/hotel/src/reservation/reservation.service.ts:147-171 findById) *)
Definition findById (id : string) : run ReservationResponseDto :=
  let! reservation := query (λ d, reservation_findUnique d id) in
  match reservation with
  | None => hthrow (HttpException "Reservation not found" NOT_FOUND)
  | Some (r, room) => hret (response_of r room)
  end.

(** (src/services/hotel/src/reservation/reservation.service.ts:173-201 findActiveByGuestId) *)
Definition findActiveByGuestId (guestId : string) : run ReservationResponseDto :=
  let! reservation := query (λ d,
    reservation_findFirst d [GuestIdIs guestId; StatusIs CONFIRMED] CheckInDayDesc) in
  match reservation with
  | None => hthrow (HttpException "Reservation not found" NOT_FOUND)
  | Some (r, room) => hret (response_of r room)
  end.

(** (src/services/hotel/src/reservation/reservation.service.ts:203-244 cancel) *)
Definition cancel (id : string) : run CancelReservationResponseDto :=
  let! existing := query (λ d, reservation_findFirst d [IdIs id] Unordered) in
  match existing with
  | None => hthrow (HttpException "Reservation not found" NOT_FOUND)
  | Some (e, _) =>
      if decide (r_status e = CANCELLED) then
        hret {| x_id := r_id e; x_status := r_status e |}
      else
        let! updated := execute (λ d, reservation_update d id CANCELLED) in
        let '(r, room) := updated in
        do! publishHotelEvent env request_id fetch ReservationCancelled
              (event_of "Hotel reservation cancelled." r (room_type room));
        hret {| x_id := r_id r; x_status := r_status r |}
  end.

(** ** The controller *)

(** A request that reached the controller.
    (src/services/hotel/src/reservation/reservation.controller.ts:5-28 ReservationController) *)
Inductive Request : Type :=
  | PostReservation (dto : CreateReservationDto)
  | GetActiveByGuest (guest_id : string)
  | GetReservation (id : string)
  | DeleteReservation (id : string).

Inductive Reply : Type :=
  | ReservationReply (r : ReservationResponseDto)
  | CancelReply (r : CancelReservationResponseDto).

Definition hmap {A B} (f : A → B) (m : run A) : run B := let! a := m in hret (f a).

Definition handle (rq : Request) : run Reply :=
  match rq with
  | PostReservation dto => hmap ReservationReply (create dto)
  | GetActiveByGuest g => hmap ReservationReply (findActiveByGuestId g)
  | GetReservation id => hmap ReservationReply (findById id)
  | DeleteReservation id => hmap CancelReply (cancel id)
  end.
End service.
