(* ===== verification/HotelReservationSpec.v ===== *)
(** * What the reservation service promises

    The abstract specification of creating and cancelling a reservation, as
    relations between the tables before, the answer, the tables after and the
    event announced; the refinement theorems that the handlers of
    [HotelReservation] implement it; and that a valid request is never
    answered with an internal error while the database is up. *)

From stdpp Require Import sorting.
From S2P Require Import Prelude Json JsString HotelDb HotelOutbound HotelReservation.

(** ** Abstract specification *)

(** Two stays that both include some day, the day of departure counted. *)
Definition stays_meet (in1 out1 in2 out2 : Z) : Prop := (in1 ≤ out2 ∧ in2 ≤ out1)%Z.

(** The room is not taken on the days of the request. *)
Definition free_for (t : Tables) (dto : CreateReservationDto) (room : Room) : Prop :=
  ∀ id r, reservations t !! id = Some r → r_room_id r = room_id room →
  r_status r = CONFIRMED →
  ¬ stays_meet (r_check_in_day r) (r_check_out_day r) (c_check_in_day dto) (c_check_out_day dto).

Definition of_type (t : Tables) (ty : RoomType) (room : Room) : Prop :=
  ∃ id, rooms t !! id = Some room ∧ room_type room = ty.

Definition holds_party (dto : CreateReservationDto) (room : Room) : Prop :=
  (partySize dto ≤ capacity room)%Z.
#[global] Instance holds_party_dec dto room : Decision (holds_party dto room).
Proof. unfold holds_party. apply _. Defined.

(** The number named in the refusal: the capacity of the largest room of the
    type, [-Infinity] when there is none. *)
Definition greatest_capacity (t : Tables) (ty : RoomType) (m : number) : Prop :=
  match m with
  | NumZ z => (∃ room, of_type t ty room ∧ capacity room = z) ∧
      (∀ room, of_type t ty room → capacity room ≤ z)%Z
  | NumInf negative => negative = true ∧ ∀ room, ¬ of_type t ty room
  | _ => False
  end.

Definition candidate (t : Tables) (dto : CreateReservationDto) (room : Room) : Prop :=
  of_type t (c_room_type dto) room ∧ holds_party dto room ∧ free_for t dto room.

Definition confirmed_event (r : Reservation) (room : Room) :
    HotelBroadcastEventType * HotelBroadcastEvent :=
  (ReservationConfirmed, event_of "Hotel reservation confirmed." r (room_type room)).
Definition cancelled_event (r : Reservation) (room : Room) :
    HotelBroadcastEventType * HotelBroadcastEvent :=
  (ReservationCancelled, event_of "Hotel reservation cancelled." r (room_type room)).

(** What [create] may answer, given what the airport said of the guest. *)
Inductive create_spec (id_le : relation string) (cleared : option bool) (t : Tables)
    (dto : CreateReservationDto) :
    outcome Failure ReservationResponseDto → Tables →
    option (HotelBroadcastEventType * HotelBroadcastEvent) → Prop :=
  | create_bad_days :
      (c_check_out_day dto ≤ c_check_in_day dto)%Z →
      create_spec id_le cleared t dto
        (Thrown (HttpException "check_out_day must be greater than check_in_day" 400)) t None
  | create_not_cleared :
      (c_check_in_day dto < c_check_out_day dto)%Z → cleared = Some false →
      create_spec id_le cleared t dto
        (Thrown (HttpException "Guest has not cleared airport processing" 409)) t None
  | create_too_many m :
      (c_check_in_day dto < c_check_out_day dto)%Z → cleared ≠ Some false →
      (∀ room, of_type t (c_room_type dto) room → ¬ holds_party dto room) →
      greatest_capacity t (c_room_type dto) m →
      create_spec id_le cleared t dto (Thrown (HttpException (too_many dto m) 409)) t None
  | create_full :
      (c_check_in_day dto < c_check_out_day dto)%Z → cleared ≠ Some false →
      (∀ room, ¬ candidate t dto room) →
      create_spec id_le cleared t dto (Thrown (HttpException (no_rooms dto) 409)) t None
  | create_done r room :
      (c_check_in_day dto < c_check_out_day dto)%Z → cleared ≠ Some false →
      candidate t dto room →
      (∀ room', candidate t dto room' →
         id_le (room_id room) (room_id room') ∨ room' = room) →
      reservations t !! r_id r = None →
      is_Some (rooms t !! room_id room) →
      NoDup (r_guests r) →
      (∃ guests, guests ≡ₚ default [] (c_party_guest_ids dto) ∧
         r = row_of (r_id r) guests (new_reservation dto room)) →
      create_spec id_le cleared t dto (Returned (response_of r room))
        {| rooms := rooms t; reservations := <[r_id r := r]> (reservations t) |}
        (Some (confirmed_event r room))
  | create_broken :
      create_spec id_le cleared t dto (Thrown InternalError) t None.

(** What [cancel] may answer. *)
Inductive cancel_spec (t : Tables) (id : string) :
    outcome Failure CancelReservationResponseDto → Tables →
    option (HotelBroadcastEventType * HotelBroadcastEvent) → Prop :=
  | cancel_unknown :
      (∀ k r, reservations t !! k = Some r → r_id r ≠ id) →
      cancel_spec t id (Thrown (HttpException "Reservation not found" 404)) t None
  | cancel_again k r :
      reservations t !! k = Some r → r_id r = id → r_status r = CANCELLED →
      cancel_spec t id (Returned {| x_id := id; x_status := CANCELLED |}) t None
  | cancel_done k r0 r room :
      reservations t !! k = Some r0 → r_id r0 = id → r_status r0 = CONFIRMED →
      reservations t !! id = Some r →
      rooms t !! r_room_id r = Some room →
      cancel_spec t id (Returned {| x_id := r_id r; x_status := CANCELLED |})
        {| rooms := rooms t;
           reservations := <[id := set_status CANCELLED r]> (reservations t) |}
        (Some (cancelled_event (set_status CANCELLED r) room))
  | cancel_broken :
      cancel_spec t id (Thrown InternalError) t None.

(** ** The lists behind the specification *)

Lemma Math_max_exceeds z l : exceeds z (Math_max l) = true ↔ Forall (λ m, m < z)%Z l.
Proof.
  induction l as [|m l IH]; simpl; [by split|]. rewrite Forall_cons, <-IH.
  destruct l as [|m' l]; simpl in *.
  - rewrite Z.ltb_lt. naive_solver.
  - destruct (match Math_max l with NumZ m => NumZ (Z.max m' m) | _ => NumZ m' end) eqn:E;
      simpl; rewrite ?Z.ltb_lt; try lia; by destruct (Math_max l).
Qed.

Lemma selected_lookup t w id r :
  selected t w !! id = Some r ↔ reservations t !! id = Some r ∧ matches w r = true.
Proof. unfold selected. by rewrite map_lookup_filter_Some. Qed.

Lemma matches_overlapping dto room r :
  matches (overlapping dto room) r = true ↔
  r_room_id r = room_id room ∧ r_status r = CONFIRMED ∧
  stays_meet (r_check_in_day r) (r_check_out_day r) (c_check_in_day dto) (c_check_out_day dto).
Proof.
  unfold matches, overlapping, stays_meet. simpl.
  rewrite !andb_true_iff, !bool_decide_eq_true, !Z.leb_le. tauto.
Qed.

Lemma no_overlapping_iff t dto room :
  size (selected t (overlapping dto room)) = 0 ↔ free_for t dto room.
Proof.
  rewrite map_size_empty_iff. split.
  - intros He id r Hr Hroom Hst Hmeet.
    assert (selected t (overlapping dto room) !! id = Some r) as Hs.
    { apply selected_lookup. split; [done|]. by apply matches_overlapping. }
    by rewrite He in Hs.
  - intros Hfree. apply map_eq. intros id. rewrite lookup_empty.
    destruct (selected t (overlapping dto room) !! id) as [r|] eqn:E; [|done].
    apply selected_lookup in E as [Hr (? & ? & ?)%matches_overlapping].
    by destruct (Hfree id r).
Qed.

Definition suitable (t : Tables) (dto : CreateReservationDto) (room : Room) : bool :=
  (partySize dto <=? capacity room)%Z && bool_decide (size (selected t (overlapping dto room)) = 0).

Lemma suitable_iff t dto room :
  suitable t dto room = true ↔ holds_party dto room ∧ free_for t dto room.
Proof.
  unfold suitable, holds_party.
  by rewrite andb_true_iff, Z.leb_le, bool_decide_eq_true, no_overlapping_iff.
Qed.

Lemma Math_max_spec l :
  match Math_max l with
  | NumZ m => m ∈ l ∧ Forall (λ z, z ≤ m)%Z l
  | NumInf negative => negative = true ∧ l = []
  | _ => False
  end.
Proof.
  induction l as [|z l IH]; simpl; [done|].
  destruct (Math_max l) as [m| |b|]; try done.
  - destruct IH as [Hin Hall]. split.
    + destruct (Z.max_spec z m) as [[_ ->]|[_ ->]]; set_solver.
    + constructor; [lia|]. eapply Forall_impl; [exact Hall|]. simpl. lia.
  - destruct IH as [_ ->]. split; [set_solver|by repeat constructor].
Qed.

(** In a list sorted by a relation, the first suitable element is below every
    other suitable one. *)
Lemma find_first_sorted {A} (R : relation A) (P : A → bool) l x :
  StronglySorted R l → find_first P l = Some x →
  ∀ y, y ∈ l → P y = true → R x y ∨ y = x.
Proof.
  intros Hs (l1 & l2 & -> & _ & Hall)%find_first_Some y Hy HPy.
  rewrite elem_of_app, elem_of_cons in Hy. destruct Hy as [Hy|[->|Hy]]; [|by right|].
  - rewrite Forall_forall in Hall. specialize (Hall _ Hy). congruence.
  - left. clear Hall. induction l1 as [|z l1 IH]; simpl in Hs.
    + apply StronglySorted_inv in Hs as [_ Hs]. rewrite Forall_forall in Hs. auto.
    + apply StronglySorted_inv in Hs as [Hs _]. auto.
Qed.

(** ** Refinement *)

Section refinement.
Context {DB : Type} `{PrismaClient DB}.
Variable env : HotelEnv.
Variable request_id : string.
Variable fetch : list HttpRequest → HttpRequest → FetchResult.
Implicit Types (h : Hotel DB) (dto : CreateReservationDto).

Lemma reject_run g h :
  rejectIfGuestHasNotClearedAirport env request_id fetch g h =
  (if decide (clearance env request_id fetch (sent h) g = Some false)
   then Thrown (HttpException "Guest has not cleared airport processing" CONFLICT)
   else Returned tt,
   MkHotel (db h) (sent h ++ asked env request_id g)).
Proof.
  unfold rejectIfGuestHasNotClearedAirport, hbind. rewrite hasGuestClearedProcessing_run.
  case_bool_decide; by case_decide.
Qed.

Lemma find_available_run dto l h :
  find_available dto l h = (Thrown InternalError, h) ∨
  find_available dto l h =
    (Returned (find_first (suitable (tables (db h)) dto) l), h).
Proof.
  induction l as [|room l IH]; cbn [find_available find_first]; [by right|].
  unfold suitable at 1.
  destruct (Z.ltb_spec (capacity room) (partySize dto)) as [Hlt|Hge].
  { destruct (Z.leb_spec (partySize dto) (capacity room)); [lia|]. exact IH. }
  destruct (Z.leb_spec (partySize dto) (capacity room)); [|lia]. simpl.
  unfold hbind, query.
  destruct (reservation_count (db h) (overlapping dto room)) as [n|] eqn:Hn; [|by left].
  apply reservation_count_spec in Hn. subst n.
  case_bool_decide as Hz.
  - rewrite Hz. by right.
  - destruct (Z.eqb_spec (Z.of_nat (size (selected (tables (db h)) (overlapping dto room)))) 0);
      [lia|exact IH].
Qed.

Lemma findMany_of_type d ty l :
  room_findMany d (Some ty) = Returned l →
  ∀ room, room ∈ l ↔ of_type (tables d) ty room.
Proof.
  intros Hl room. rewrite (room_findMany_elem _ _ _ Hl). unfold of_type. simpl.
  by setoid_rewrite bool_decide_eq_true.
Qed.

Lemma candidate_iff d dto l room :
  room_findMany d (Some (c_room_type dto)) = Returned l →
  candidate (tables d) dto room ↔ room ∈ l ∧ suitable (tables d) dto room = true.
Proof.
  intros Hl. rewrite (findMany_of_type _ _ _ Hl), suitable_iff. done.
Qed.

Lemma greatest_capacity_max d ty l :
  room_findMany d (Some ty) = Returned l →
  greatest_capacity (tables d) ty (Math_max (capacity <$> l)).
Proof.
  intros Hl. pose proof (findMany_of_type _ _ _ Hl) as Hty.
  pose proof (Math_max_spec (capacity <$> l)) as Hm. unfold greatest_capacity.
  destruct (Math_max (capacity <$> l)) as [m| |b|]; try done.
  - destruct Hm as [(room & -> & Hin)%list_elem_of_fmap Hall]. split.
    + exists room. by rewrite <-Hty.
    + intros room' Hr%Hty. rewrite Forall_fmap, Forall_forall in Hall. by apply Hall.
  - destruct Hm as [-> Hnil%fmap_nil_inv]. split; [done|]. intros room Hr%Hty. subst. set_solver.
Qed.

(** What a run adds to the requests sent. *)
Definition announced (ev : option (HotelBroadcastEventType * HotelBroadcastEvent)) :
    list HttpRequest :=
  match ev with Some (ty, e) => published env request_id ty e | None => [] end.
Definition create_asks dto : list HttpRequest :=
  if (c_check_out_day dto <=? c_check_in_day dto)%Z then []
  else asked env request_id (c_guest_id dto).

Lemma create_refines_spec dto h out h' :
  create env request_id fetch dto h = (out, h') →
  ∃ ev, create_spec id_le (clearance env request_id fetch (sent h) (c_guest_id dto))
          (tables (db h)) dto out (tables (db h')) ev ∧
    sent h' = sent h ++ create_asks dto ++ announced ev.
Proof.
  unfold create, create_asks.
  destruct (Z.leb_spec (c_check_out_day dto) (c_check_in_day dto)) as [Hd|Hd].
  { intros [= <- <-]. exists None. rewrite !app_nil_r. split; [by constructor|done]. }
  unfold hbind at 1. rewrite reject_run. case_decide as Hcl.
  { intros [= <- <-]. exists None. rewrite app_nil_r. split; [by constructor|done]. }
  unfold hbind at 1, query at 1. cbn [db sent].
  destruct (room_findMany (db h) _) as [l|] eqn:Hl.
  2: { intros [= <- <-]. exists None. rewrite app_nil_r. split; [constructor|done]. }
  destruct (exceeds _ _) eqn:Hmax.
  { intros [= <- <-]. exists None. rewrite app_nil_r. split; [|done].
    constructor; [done..| |by apply greatest_capacity_max].
    intros room Hr%(findMany_of_type _ _ _ Hl). apply Math_max_exceeds in Hmax.
    rewrite Forall_fmap, Forall_forall in Hmax. specialize (Hmax _ Hr). simpl in Hmax.
    unfold holds_party. lia. }
  unfold hbind at 1.
  destruct (find_available_run dto l
    (MkHotel (db h) (sent h ++ asked env request_id (c_guest_id dto)))) as [Hf|Hf];
    rewrite Hf; clear Hf; cbn [db].
  { intros [= <- <-]. exists None. rewrite app_nil_r. split; [constructor|done]. }
  destruct (find_first _ l) as [room|] eqn:Hfind.
  2: { intros [= <- <-]. exists None. rewrite app_nil_r. split; [|done].
    apply create_full; [done..|]. intros room [Hin Hs]%(candidate_iff _ _ _ _ Hl).
    apply find_first_None in Hfind. rewrite Forall_forall in Hfind.
    specialize (Hfind _ Hin). congruence. }
  unfold hbind at 1, execute. cbn [db sent].
  destruct (reservation_create (db h) _) as [[r|] d'] eqn:Hc;
    apply reservation_create_spec in Hc as [Hrooms Hc].
  2: { intros [= <- <-]. exists None. rewrite app_nil_r. split; [|done]. cbn [db].
    replace (tables d') with (tables (db h)); [constructor|].
    destruct (tables d'), (tables (db h)); simpl in *; congruence. }
  destruct Hc as (_ & Hroom & Hnd & Hfresh & (guests & Hperm & Heq) & Hres).
  unfold hbind. rewrite publishHotelEvent_run. intros [= <- <-]. cbn [db sent].
  exists (Some (confirmed_event r room)). split; [|by rewrite <-!app_assoc].
  replace (tables d') with
    {| rooms := rooms (tables (db h));
       reservations := <[r_id r := r]> (reservations (tables (db h))) |}
    by (destruct (tables d'), (tables (db h)); simpl in *; congruence).
  apply create_done; try done.
  - apply (candidate_iff _ _ _ _ Hl). by apply find_first_elem.
  - intros room' [Hin Hs]%(candidate_iff _ _ _ _ Hl).
    apply room_findMany_spec in Hl as [_ Hsort].
    by apply (find_first_sorted _ _ _ _ Hsort Hfind).
  - rewrite Heq. simpl. by rewrite Hperm.
  - exists guests. done.
Qed.

(** *** The airport's word *)

(** What it takes for a guest to be held not to have cleared. *)
Lemma clearance_false past g :
  clearance env request_id fetch past g = Some false ↔
  ∃ url status text v, AIRPORT_SERVICE_URL env = Some url ∧ url ≠ "" ∧
    fetch past (airport_request request_id url g) = Response status text ∧
    (200 ≤ status ≤ 299)%Z ∧ JsonText.JSON_parse text = Some v ∧ v ≠ JNull ∧
    jprop "status" v ≠ Some (JStr "processed").
Proof.
  unfold clearance, response_ok, truthy. split.
  - destruct (AIRPORT_SERVICE_URL env) as [url|]; [|done]. case_bool_decide as Hu; [|done].
    destruct (fetch _ _) as [|status text] eqn:Hf; [done|].
    destruct (Z.leb_spec 200 status); [|done]. destruct (Z.leb_spec status 299); [|done].
    cbn [andb]. unfold parsed_status. destruct (JsonText.JSON_parse text) as [v|] eqn:Hp; [|done].
    intros Hv. exists url, status, text, v. split_and!; try done; [by intros ->|].
    destruct v; try done; simpl in Hv; injection Hv as Hv; by apply bool_decide_eq_false in Hv.
  - intros (url & status & text & v & -> & Hu & Hf & Hs & Hp & Hn & Hv).
    rewrite bool_decide_true, Hf by done.
    destruct (Z.leb_spec 200 status); [|lia]. destruct (Z.leb_spec status 299); [|lia].
    cbn [andb]. unfold parsed_status. rewrite Hp.
    destruct v; try done; cbn; f_equal; by apply bool_decide_eq_false.
Qed.

(** A booking for days in order is answered with the refusal exactly then. *)
Lemma create_refuses dto h :
  (c_check_in_day dto < c_check_out_day dto)%Z →
  (create env request_id fetch dto h).1 =
    Thrown (HttpException "Guest has not cleared airport processing" CONFLICT) ↔
  clearance env request_id fetch (sent h) (c_guest_id dto) = Some false.
Proof.
  intros Hd. split.
  - destruct (create env request_id fetch dto h) as [out h'] eqn:E.
    apply create_refines_spec in E as (ev & Hs & _). cbn [fst]. intros ->. by inversion Hs.
  - intros Hc. unfold create. destruct (Z.leb_spec (c_check_out_day dto) (c_check_in_day dto)); [lia|].
    unfold hbind at 1. by rewrite reject_run, decide_True.
Qed.

Lemma matches_id id r : matches [IdIs id] r = true ↔ r_id r = id.
Proof. unfold matches. simpl. by rewrite andb_true_r, bool_decide_eq_true. Qed.

Lemma with_room_Some t r r' room :
  with_room t r = Some (r', room) ↔ r' = r ∧ rooms t !! r_room_id r = Some room.
Proof.
  unfold with_room. destruct (rooms t !! r_room_id r); simpl; naive_solver.
Qed.

Lemma cancel_refines_spec id h out h' :
  cancel env request_id fetch id h = (out, h') →
  ∃ ev, cancel_spec (tables (db h)) id out (tables (db h')) ev ∧
    sent h' = sent h ++ announced ev.
Proof.
  unfold cancel. unfold hbind at 1, query at 1.
  destruct (reservation_findFirst (db h) [IdIs id] Unordered) as [res|] eqn:Hf.
  2: { intros [= <- <-]. exists None. rewrite app_nil_r. split; [constructor|done]. }
  apply reservation_findFirst_spec in Hf. destruct res as [[e room0]|].
  2: { intros [= <- <-]. exists None. rewrite app_nil_r. split; [|done].
    constructor. intros k r Hr Hid.
    assert (selected (tables (db h)) [IdIs id] !! k = Some r) as Hs.
    { apply selected_lookup. by rewrite matches_id. }
    by rewrite Hf in Hs. }
  destruct Hf as ((k & [Hk Hid%matches_id]%selected_lookup) & _).
  case_decide as Hst.
  { intros [= <- <-]. exists None. rewrite app_nil_r. split; [|done].
    rewrite Hid, Hst. by eapply cancel_again. }
  unfold hbind at 1, execute.
  destruct (reservation_update (db h) id CANCELLED) as [[[r' room]|] d'] eqn:Hu;
    apply reservation_update_spec in Hu as [Hrooms Hu].
  2: { intros [= <- <-]. exists None. rewrite app_nil_r. split; [|done]. cbn [db].
    replace (tables d') with (tables (db h)); [constructor|].
    destruct (tables d'), (tables (db h)); simpl in *; congruence. }
  destruct Hu as (r & Hr & -> & [_ Hroom]%with_room_Some & Hres).
  unfold hbind. rewrite publishHotelEvent_run. intros [= <- <-]. cbn [db sent].
  exists (Some (cancelled_event (set_status CANCELLED r) room)). split; [|done].
  replace (tables d') with
    {| rooms := rooms (tables (db h));
       reservations := <[id := set_status CANCELLED r]> (reservations (tables (db h))) |}
    by (destruct (tables d'), (tables (db h)); simpl in *; congruence).
  eapply (cancel_done _ _ k e); try done. by destruct (r_status e).
Qed.

(** Reading changes nothing and announces nothing. *)
Lemma findById_reads id h : (findById id h).2 = h.
Proof.
  unfold findById, hbind, query. destruct (reservation_findUnique _ _) as [[[]|]|]; done.
Qed.
Lemma findActiveByGuestId_reads g h : (findActiveByGuestId g h).2 = h.
Proof.
  unfold findActiveByGuestId, hbind, query.
  destruct (reservation_findFirst _ _ _) as [[[]|]|]; done.
Qed.

Lemma findById_answer id h out h' :
  findById id h = (out, h') →
  match out with
  | Returned o => ∃ r room, reservations (tables (db h)) !! id = Some r ∧
      rooms (tables (db h)) !! r_room_id r = Some room ∧ o = response_of r room
  | Thrown (HttpException _ st) => st = 404%Z ∧ reservations (tables (db h)) !! id = None
  | Thrown InternalError => True
  end.
Proof.
  unfold findById, hbind, query.
  destruct (reservation_findUnique (db h) id) as [res|] eqn:Hu; [|by intros [= <- _]].
  apply reservation_findUnique_spec in Hu. destruct res as [[r room]|]; intros [= <- _].
  - destruct Hu as [Hr [_ Hroom]%with_room_Some]. eauto.
  - done.
Qed.

Lemma findActiveByGuestId_answer g h out h' :
  findActiveByGuestId g h = (out, h') →
  let active id r := reservations (tables (db h)) !! id = Some r ∧
    r_guest_id r = g ∧ r_status r = CONFIRMED in
  match out with
  | Returned o => ∃ id r room, active id r ∧
      rooms (tables (db h)) !! r_room_id r = Some room ∧ o = response_of r room ∧
      ∀ id' r', active id' r' → (r_check_in_day r' ≤ r_check_in_day r)%Z
  | Thrown (HttpException _ st) => st = 404%Z ∧ ∀ id r, ¬ active id r
  | Thrown InternalError => True
  end.
Proof.
  intros Hrun active. revert Hrun. unfold findActiveByGuestId, hbind, query.
  assert (∀ id r, selected (tables (db h)) [GuestIdIs g; StatusIs CONFIRMED] !! id = Some r
    ↔ active id r) as Hact.
  { intros id r. rewrite selected_lookup. unfold matches, active. simpl.
    rewrite !andb_true_iff, !bool_decide_eq_true. tauto. }
  destruct (reservation_findFirst _ _ _) as [res|] eqn:Hf; [|by intros [= <- _]].
  apply reservation_findFirst_spec in Hf. destruct res as [[r room]|]; intros [= <- _].
  - destruct Hf as ((id & Hid) & [_ Hroom]%with_room_Some & Hmax).
    exists id, r, room. split_and!; [by apply Hact|done..|].
    intros id' r' Hr'. apply (Hmax eq_refl id'). by apply Hact.
  - split; [done|]. intros id r Hr%Hact. by rewrite Hf in Hr.
Qed.
End refinement.
