(* ===== verification/HotelInvariant.v ===== *)
(** * The hotel never double-books

    The invariant of the hotel's tables, its preservation by every request
    the controller serves to its end, and what follows for a guest: a valid
    request is answered, an accepted one can be read back and cancelled, and a
    cancelled stay is free to be booked again. *)

From S2P Require Import Prelude Json JsString HotelDb HotelOutbound HotelReservation.
From S2P Require Import HotelReservationSpec.

(** The number of guests a reservation was checked with. *)
Definition party_of (r : Reservation) : Z :=
  match r_guests r with [] => r_guest_count r | gs => Z.of_nat (length gs) end.

(** No two confirmed stays in one room meet. *)
Definition no_double_booking (t : Tables) : Prop :=
  ∀ id1 id2 r1 r2,
    reservations t !! id1 = Some r1 → reservations t !! id2 = Some r2 → id1 ≠ id2 →
    r_status r1 = CONFIRMED → r_status r2 = CONFIRMED → r_room_id r1 = r_room_id r2 →
    ¬ stays_meet (r_check_in_day r1) (r_check_out_day r1) (r_check_in_day r2) (r_check_out_day r2).

(** The tables are well formed: rows under their keys, every reservation in an
    existing room that holds its party, for a positive number of days. *)
Record hotel_wf (t : Tables) : Prop := {
  inv_room_key : ∀ id room, rooms t !! id = Some room → room_id room = id;
  inv_key : ∀ id r, reservations t !! id = Some r → r_id r = id;
  inv_room : ∀ id r, reservations t !! id = Some r →
    ∃ room, rooms t !! r_room_id r = Some room ∧ (party_of r ≤ capacity room)%Z;
  inv_days : ∀ id r, reservations t !! id = Some r → (r_check_in_day r < r_check_out_day r)%Z;
}.

Record hotel_inv (t : Tables) : Prop := {
  inv_wf :> hotel_wf t;
  inv_disjoint : no_double_booking t;
}.

Lemma stays_meet_sym in1 out1 in2 out2 :
  stays_meet in1 out1 in2 out2 ↔ stays_meet in2 out2 in1 out1.
Proof. unfold stays_meet. lia. Qed.

Lemma party_of_new id guests dto room :
  guests ≡ₚ default [] (c_party_guest_ids dto) →
  party_of (row_of id guests (new_reservation dto room)) = partySize dto.
Proof.
  intros Hp. apply Permutation_length in Hp as Hl. unfold party_of, partySize. simpl.
  destruct (c_party_guest_ids dto) as [[|p ps]|]; simpl in *;
    destruct guests; simpl in *; congruence || lia.
Qed.

(** Adding a reservation for a room that holds the party, and cancelling one,
    keep the tables well formed. *)
Lemma add_keeps_wf t dto room id guests :
  hotel_wf t → rooms t !! room_id room = Some room → holds_party dto room →
  (c_check_in_day dto < c_check_out_day dto)%Z →
  guests ≡ₚ default [] (c_party_guest_ids dto) →
  hotel_wf {| rooms := rooms t;
    reservations := <[id := row_of id guests (new_reservation dto room)]> (reservations t) |}.
Proof.
  intros Hi Hroom Hsize Hd Hp. constructor; simpl.
  - apply (inv_room_key t Hi).
  - intros id' r' [[<- <-]|[_ Hr']]%lookup_insert_Some; [done|by apply (inv_key t Hi)].
  - intros id' r' [[<- <-]|[_ Hr']]%lookup_insert_Some; [|by eapply (inv_room t Hi)].
    exists room. by rewrite party_of_new.
  - intros id' r' [[<- <-]|[_ Hr']]%lookup_insert_Some; [done|by eapply (inv_days t Hi)].
Qed.

Lemma cancel_keeps_wf t id r :
  hotel_wf t → reservations t !! id = Some r →
  hotel_wf {| rooms := rooms t;
    reservations := <[id := set_status CANCELLED r]> (reservations t) |}.
Proof.
  intros Hi Hr. constructor; simpl.
  - apply (inv_room_key t Hi).
  - intros id' r' [[<- <-]|[_ Hr']]%lookup_insert_Some; [|by apply (inv_key t Hi)].
    exact (inv_key t Hi _ _ Hr).
  - intros id' r' [[<- <-]|[_ Hr']]%lookup_insert_Some; [|by eapply (inv_room t Hi)].
    exact (inv_room t Hi _ _ Hr).
  - intros id' r' [[<- <-]|[_ Hr']]%lookup_insert_Some; [|by eapply (inv_days t Hi)].
    exact (inv_days t Hi _ _ Hr).
Qed.

Lemma of_type_lookup t ty room :
  hotel_wf t → of_type t ty room → rooms t !! room_id room = Some room.
Proof. intros Hi (id & Hid & _). by rewrite (inv_room_key t Hi _ _ Hid). Qed.

Lemma create_keeps_inv R cleared t dto out t' ev :
  hotel_inv t → create_spec R cleared t dto out t' ev → hotel_inv t'.
Proof.
  intros Hi. destruct 1 as [| | | |r room Hd Hcl Hcand _ Hfresh Hroom Hnd (guests & Hp & Hr)|];
    try done.
  destruct Hcand as (Hty & Hsize & Hfree).
  pose proof (of_type_lookup t _ _ Hi Hty) as Hid. constructor.
  { pose proof (add_keeps_wf t dto room (r_id r) guests Hi Hid Hsize Hd Hp) as Hw.
    by rewrite <-Hr in Hw. }
  assert (∀ id2 r2, reservations t !! id2 = Some r2 → r_status r2 = CONFIRMED →
    r_room_id r2 = r_room_id r → ¬ stays_meet (r_check_in_day r2) (r_check_out_day r2)
      (r_check_in_day r) (r_check_out_day r)) as Hdis.
  { intros id2 r2 H2 Hs Hsame. rewrite Hr in Hsame. rewrite Hr. by apply (Hfree id2). }
  unfold no_double_booking; cbn. intros id1 id2 r1 r2 [[<- <-]|[_ H1]]%lookup_insert_Some
    [[<- <-]|[_ H2]]%lookup_insert_Some Hne Hs1 Hs2 Hsame; try done.
  - rewrite stays_meet_sym. by eapply Hdis.
  - by eapply Hdis.
  - by apply (inv_disjoint t Hi id1 id2).
Qed.

Lemma cancelled_keeps_inv t id r :
  hotel_inv t → reservations t !! id = Some r →
  hotel_inv {| rooms := rooms t;
    reservations := <[id := set_status CANCELLED r]> (reservations t) |}.
Proof.
  intros Hi Hr. constructor; [by apply cancel_keeps_wf; [apply Hi|]|].
  unfold no_double_booking; cbn. intros id1 id2 r1 r2 [[<- <-]|[_ H1]]%lookup_insert_Some
    [[<- <-]|[_ H2]]%lookup_insert_Some Hne Hs1 Hs2 Hsame; try done.
  by apply (inv_disjoint t Hi id1 id2).
Qed.

Lemma cancel_keeps_inv t id out t' ev :
  hotel_inv t → cancel_spec t id out t' ev → hotel_inv t'.
Proof. intros Hi. destruct 1; try done. by apply cancelled_keeps_inv. Qed.

Lemma create_spec_rooms R cleared t dto out t' ev :
  create_spec R cleared t dto out t' ev → rooms t' = rooms t.
Proof. by destruct 1. Qed.
Lemma cancel_spec_rooms t id out t' ev : cancel_spec t id out t' ev → rooms t' = rooms t.
Proof. by destruct 1. Qed.

Lemma set_status_same s r : r_status r = s → set_status s r = r.
Proof. intros <-. by destruct r. Qed.

Lemma cancel_spec_missing t id out t' ev :
  cancel_spec t id out t' ev → reservations t !! id = None → t' = t.
Proof. destruct 1; congruence. Qed.

Section sequential.
Context {DB : Type} `{PrismaClient DB}.
Variable env : HotelEnv.
Variable request_id : string.
Variable fetch : list HttpRequest → HttpRequest → FetchResult.
Implicit Types (h : Hotel DB) (rq : Request).

(** Requests served one after the other. *)
Definition serve (l : list Request) (h : Hotel DB) : Hotel DB :=
  foldl (λ h rq, (handle env request_id fetch rq h).2) h l.

Lemma hmap_snd {A B} (f : A → B) (m : handler (Hotel DB) Failure A) h :
  (hmap f m h).2 = (m h).2.
Proof. unfold hmap, hbind, hret. by destruct (m h) as [[] ?]. Qed.

Lemma handle_keeps_inv rq h :
  hotel_inv (tables (db h)) →
  hotel_inv (tables (db (handle env request_id fetch rq h).2)) ∧
  rooms (tables (db (handle env request_id fetch rq h).2)) = rooms (tables (db h)).
Proof.
  intros Hi. destruct rq as [dto|g|id|id]; cbn [handle]; rewrite hmap_snd.
  - destruct (create env request_id fetch dto h) as [out h'] eqn:E.
    apply create_refines_spec in E as (ev & Hs & _).
    split; [by eapply create_keeps_inv|by eapply create_spec_rooms].
  - by rewrite findActiveByGuestId_reads.
  - by rewrite findById_reads.
  - destruct (cancel env request_id fetch id h) as [out h'] eqn:E.
    apply cancel_refines_spec in E as (ev & Hs & _).
    split; [by eapply cancel_keeps_inv|by eapply cancel_spec_rooms].
Qed.

Lemma serve_keeps_inv l h :
  hotel_inv (tables (db h)) →
  hotel_inv (tables (db (serve l h))) ∧ rooms (tables (db (serve l h))) = rooms (tables (db h)).
Proof.
  revert h. induction l as [|rq l IH]; intros h Hi; [done|]. cbn [serve foldl].
  destruct (handle_keeps_inv rq h Hi) as [Hi' Hr'].
  destruct (IH _ Hi') as [Hi'' Hr'']. split; [done|]. unfold serve in *. by rewrite Hr''.
Qed.

Lemma hotel_inv_empty t :
  reservations t = ∅ → (∀ id room, rooms t !! id = Some room → room_id room = id) →
  hotel_inv t.
Proof.
  intros He Hk. constructor; [constructor; [done|..]|unfold no_double_booking]; rewrite He;
    intros *; by rewrite lookup_empty.
Qed.
End sequential.

Section responsive.
Context {DB : Type} `{PrismaResponsive DB}.
Variable env : HotelEnv.
Variable request_id : string.
Variable fetch : list HttpRequest → HttpRequest → FetchResult.
Implicit Types (h : Hotel DB) (dto : CreateReservationDto).

(** The integers of the request fit their columns and its party names no
    guest twice. *)
Definition storable dto : bool :=
  fits_int4 (c_guest_count dto) && fits_int4 (c_check_in_day dto) &&
  fits_int4 (c_check_out_day dto) &&
  bool_decide (NoDup (default [] (c_party_guest_ids dto))).

Lemma find_available_up dto l h :
  fits_int4 (c_check_in_day dto) = true → fits_int4 (c_check_out_day dto) = true →
  find_available dto l h =
    (Returned (find_first (suitable (tables (db h)) dto) l), h).
Proof.
  intros Hin Hout. destruct (find_available_run dto l h) as [Hrun|]; [exfalso|done].
  induction l as [|room l IH]; cbn [find_available] in Hrun; [done|].
  destruct (capacity room <? partySize dto)%Z; [auto|].
  revert Hrun. unfold hbind, query.
  destruct (reservation_count_up (db h) (overlapping dto room)) as [n ->].
  { simpl. by rewrite Hin, Hout. }
  case_match; [done|auto].
Qed.

Lemma create_answers dto h :
  hotel_wf (tables (db h)) → storable dto = true →
  (create env request_id fetch dto h).1 ≠ Thrown InternalError.
Proof.
  intros Hi Hs. unfold storable in Hs. rewrite !andb_true_iff, bool_decide_eq_true in Hs.
  destruct Hs as (((Hg & Hin) & Hout) & Hnd). unfold create.
  case_match; [done|]. unfold hbind at 1. rewrite reject_run. case_decide; [done|].
  unfold hbind at 1, query at 1. cbn [db].
  destruct (room_findMany_up (db h) (Some (c_room_type dto))) as [l Hl]. rewrite Hl.
  case_match; [done|]. unfold hbind at 1. rewrite find_available_up by done. cbn [db].
  destruct (find_first _ l) as [room|] eqn:Hf; [|done].
  apply find_first_elem in Hf as [Hroom _].
  apply (room_findMany_elem _ _ _ Hl) in Hroom as (id & Hroom & _).
  pose proof (inv_room_key _ Hi _ _ Hroom) as <-.
  unfold hbind at 1, execute. cbn [db].
  destruct (reservation_create_up (db h) (new_reservation dto room)) as (r & d' & ->).
  - unfold data_in_range. simpl. by rewrite Hg, Hin, Hout.
  - by exists room.
  - done.
  - unfold hbind. by rewrite publishHotelEvent_run.
Qed.

(** A room is assigned exactly when the days are in order, the airport does
    not object and some room of the type holds the party and is free. *)
Lemma create_succeeds_wf dto h :
  hotel_wf (tables (db h)) → storable dto = true →
  (∃ o, (create env request_id fetch dto h).1 = Returned o) ↔
  (c_check_in_day dto < c_check_out_day dto)%Z ∧
  clearance env request_id fetch (sent h) (c_guest_id dto) ≠ Some false ∧
  ∃ room, candidate (tables (db h)) dto room.
Proof.
  intros Hi Hs. pose proof (create_answers dto h Hi Hs) as Hup.
  destruct (create env request_id fetch dto h) as [out h'] eqn:E. simpl in *.
  apply create_refines_spec in E as (ev & Hspec & _). split.
  - intros (o & ->). inversion Hspec; subst. eauto.
  - intros (Hd & Hc & room & Hroom). destruct Hspec as [| | |? ? Hno| |]; try done.
    + lia.
    + exfalso. destruct Hroom as (? & ? & _). naive_solver.
    + by destruct (Hno room).
    + eauto.
Qed.

Lemma create_succeeds_iff dto h :
  hotel_inv (tables (db h)) → storable dto = true →
  (∃ o, (create env request_id fetch dto h).1 = Returned o) ↔
  (c_check_in_day dto < c_check_out_day dto)%Z ∧
  clearance env request_id fetch (sent h) (c_guest_id dto) ≠ Some false ∧
  ∃ room, candidate (tables (db h)) dto room.
Proof. intros Hi. apply create_succeeds_wf, Hi. Qed.

Lemma cancel_answers id h :
  hotel_inv (tables (db h)) → (cancel env request_id fetch id h).1 ≠ Thrown InternalError.
Proof.
  intros Hi.
  assert (∀ k r, reservations (tables (db h)) !! k = Some r →
    is_Some (with_room (tables (db h)) r)) as Hfk.
  { intros k r Hr. destruct (inv_room _ Hi k r Hr) as (room & Hroom & _).
    exists (r, room). by apply with_room_Some. }
  unfold cancel. unfold hbind at 1, query at 1.
  destruct (reservation_findFirst_up (db h) [IdIs id] Unordered) as [res Hf]; [done| |].
  { intros k r [Hr _]%selected_lookup. by eapply Hfk. }
  rewrite Hf. apply reservation_findFirst_spec in Hf. destruct res as [[e room]|]; [|done].
  destruct Hf as ((k & [Hk Hid%matches_id]%selected_lookup) & _).
  pose proof (inv_key _ Hi _ _ Hk) as Hkey. rewrite Hid in Hkey. subst k.
  case_decide; [done|]. unfold hbind at 1, execute.
  destruct (reservation_update_up (db h) id CANCELLED e) as ([r' room'] & d' & ->);
    [done|by eapply Hfk|].
  unfold hbind. by rewrite publishHotelEvent_run.
Qed.

(** Cancelling answers 404 for an id that does not exist, and otherwise
    leaves exactly that reservation cancelled. *)
Lemma cancel_outcome id h out h' :
  hotel_inv (tables (db h)) → cancel env request_id fetch id h = (out, h') →
  match reservations (tables (db h)) !! id with
  | None => out = Thrown (HttpException "Reservation not found" 404) ∧ h' = MkHotel (db h') (sent h)
  | Some r =>
      out = Returned {| x_id := id; x_status := CANCELLED |} ∧
      reservations (tables (db h')) =
        <[id := set_status CANCELLED r]> (reservations (tables (db h))) ∧
      length (sent h') - length (sent h) ≤ 1 ∧
      (r_status r = CANCELLED → sent h' = sent h)
  end.
Proof.
  intros Hi E. pose proof (cancel_answers id h Hi) as Hup. rewrite E in Hup. simpl in Hup.
  apply cancel_refines_spec in E as (ev & Hs & Hsent).
  destruct Hs as [Hno|k r Hk Hid Hst|k r0 r room Hk Hid Hst Hr Hroom|]; [| | |done].
  - destruct (reservations _ !! id) as [r|] eqn:E.
    + by destruct (Hno id r E (inv_key _ Hi _ _ E)).
    + split; [done|]. destruct h'. simpl in *. by rewrite Hsent, app_nil_r.
  - pose proof (inv_key _ Hi _ _ Hk) as Hkey. rewrite Hid in Hkey. subst k. rewrite Hk.
    split; [done|]. simpl in Hsent. rewrite app_nil_r in Hsent. rewrite Hsent.
    split_and!; [|lia|done]. rewrite insert_id; [done|]. by rewrite set_status_same.
  - pose proof (inv_key _ Hi _ _ Hk) as Hkey. rewrite Hid in Hkey. subst k.
    rewrite Hr in Hk. injection Hk as ->. rewrite Hr. simpl. split_and!; [by rewrite Hid|done| |].
    + rewrite Hsent, length_app. simpl. unfold published.
      destruct (BROADCAST_SERVICE_URL env) as [url|]; simpl; [destruct (truthy url)|]; simpl; lia.
    + congruence.
Qed.

(** The answer to a cancellation does not depend on how often it is sent,
    and only the first announces anything. *)
Lemma cancel_idempotent id h out1 h1 out2 h2 :
  hotel_inv (tables (db h)) →
  cancel env request_id fetch id h = (out1, h1) →
  cancel env request_id fetch id h1 = (out2, h2) →
  out2 = out1 ∧ reservations (tables (db h2)) = reservations (tables (db h1)) ∧
  sent h2 = sent h1.
Proof.
  intros Hi E1 E2.
  assert (hotel_inv (tables (db h1))) as Hi1.
  { pose proof E1 as (ev & Hs & _)%cancel_refines_spec. by eapply cancel_keeps_inv. }
  pose proof (cancel_outcome id h out1 h1 Hi E1) as H1.
  pose proof (cancel_outcome id h1 out2 h2 Hi1 E2) as H2.
  destruct (reservations (tables (db h)) !! id) as [r|] eqn:Hr.
  - destruct H1 as (-> & Ht1 & _). rewrite Ht1, lookup_insert_eq in H2.
    destruct H2 as (-> & Ht2 & _ & Hs). split; [done|]. rewrite Ht2, Ht1, insert_insert_eq.
    split; [done|]. by apply Hs.
  - destruct H1 as (-> & Hh1).
    assert (reservations (tables (db h1)) = reservations (tables (db h))) as Ht1.
    { pose proof E1 as (ev & Hs & _)%cancel_refines_spec.
      by rewrite (cancel_spec_missing _ _ _ _ _ Hs Hr). }
    rewrite Ht1, Hr in H2. destruct H2 as (-> & Hh2). split; [done|].
    pose proof E2 as (ev & Hs & _)%cancel_refines_spec.
    split; [|by rewrite Hh2]. by rewrite (cancel_spec_missing _ _ _ _ _ Hs) by (by rewrite Ht1).
Qed.
End responsive.

(** ** A guest's stay, from booking to booking again *)

Section stay.
Context {DB : Type} `{PrismaResponsive DB}.
Variable env : HotelEnv.
Variable request_id : string.
Variable fetch : list HttpRequest → HttpRequest → FetchResult.
Implicit Types (h : Hotel DB) (dto : CreateReservationDto).

(** An accepted reservation reads back as it was answered. *)
Lemma create_then_read dto h o h1 :
  hotel_inv (tables (db h)) →
  create env request_id fetch dto h = (Returned o, h1) →
  (findById (o_id o) h1).1 = Returned o.
Proof.
  intros Hi E. pose proof E as (ev & Hs & _)%create_refines_spec.
  pose proof (create_keeps_inv _ _ _ _ _ _ _ Hi Hs) as Hi1.
  inversion Hs as [| | | |r room _ _ Hcand _ _ Hroom _ (guests & _ & Hr) Ho Ht|]; subst.
  assert (reservations (tables (db h1)) !! r_id r = Some r) as Hr1.
  { rewrite <-Ht. simpl. by rewrite lookup_insert_eq. }
  destruct Hcand as ((rid & Hrid & _) & _ & _).
  pose proof (inv_room_key _ Hi _ _ Hrid) as <-.
  assert (rooms (tables (db h1)) !! r_room_id r = Some room) as Hroom1.
  { rewrite <-Ht, Hr. done. }
  destruct (findById (r_id r) h1) as [out h2] eqn:Ef. simpl. rewrite Ef. simpl.
  pose proof (findById_answer _ _ _ _ Ef) as Ha.
  destruct (reservation_findUnique_up (db h1) (r_id r)) as [res Hres].
  { intros r' Hr'. rewrite Hr1 in Hr'. injection Hr' as <-. exists (r, room).
    by apply with_room_Some. }
  destruct out as [o|[err st|]].
  - destruct Ha as (r' & room' & Hr' & Hroom' & ->). congruence.
  - destruct Ha as [_ Ha]. congruence.
  - unfold findById, hbind, query in Ef. rewrite Hres in Ef. by destruct res as [[]|].
Qed.

(** Once cancelled, the same stay can be booked again. *)
Lemma cancel_frees_room dto h o h1 out h2 :
  hotel_inv (tables (db h)) → storable dto = true →
  create env request_id fetch dto h = (Returned o, h1) →
  cancel env request_id fetch (o_id o) h1 = (out, h2) →
  clearance env request_id fetch (sent h2) (c_guest_id dto) ≠ Some false →
  ∃ o', (create env request_id fetch dto h2).1 = Returned o'.
Proof.
  intros Hi Hsto E1 E2 Hcl. pose proof E1 as (ev & Hs & _)%create_refines_spec.
  pose proof (create_keeps_inv _ _ _ _ _ _ _ Hi Hs) as Hi1.
  pose proof E2 as (ev2 & Hs2 & _)%cancel_refines_spec.
  pose proof (cancel_keeps_inv _ _ _ _ _ Hi1 Hs2) as Hi2.
  pose proof (cancel_outcome _ _ _ _ _ _ _ Hi1 E2) as Hout.
  inversion Hs as [| | | |r room Hd _ Hcand _ Hfresh Hroom _ _ Ho Ht|]; subst.
  apply create_succeeds_iff; [done..|]. split_and!; [done..|]. exists room.
  simpl in Hout. rewrite lookup_insert_eq in Hout.
  destruct Hout as (_ & Ht2 & _).
  destruct Hcand as ((rid & Hrid & Hty) & Hsize & Hfree). split_and!; [|done|].
  - exists rid. by rewrite (cancel_spec_rooms _ _ _ _ _ Hs2).
  - intros id r2. rewrite Ht2, insert_insert_eq.
    intros [[<- <-]|[_ Hr2]]%lookup_insert_Some; [done|]. by apply (Hfree id).
Qed.
End stay.
