(* ===== verification/HotelConcurrency.v ===== *)
(** * Concurrent requests to the hotel

    The same handlers cut at their [await]s, so that several can be under way
    at once.  Run alone they are the handlers of [HotelReservation]; run
    together they keep the tables well formed, but the availability check and
    the insertion it guards are separate stretches, and two guests can be
    given the same room for the same days. *)

From S2P Require Import Prelude Json JsString HotelDb HotelOutbound HotelReservation.
From S2P Require Import HotelReservationSpec HotelInvariant Interleave.

Section handlers.
Context {DB : Type} `{PrismaClient DB}.
Variable env : HotelEnv.
Variable request_id : string.
Variable fetch : list HttpRequest → HttpRequest → FetchResult.

Abbreviation async A := (proc (Hotel DB) Failure A).

(** (src/services/hotel/src/reservation/reservation.service.ts:59-79 availableRoom) *)
Fixpoint find_available_async (dto : CreateReservationDto) (l : list Room) :
    async (option Room) :=
  match l with
  | [] => Finished (Returned None)
  | room :: l =>
      if (capacity room <? partySize dto)%Z then find_available_async dto l
      else
        await! n := atomic (query (λ d, reservation_count d (overlapping dto room))) in
        if (n =? 0)%Z then Finished (Returned (Some room)) else find_available_async dto l
  end.

(** (src/services/hotel/src/reservation/reservation.service.ts:19-131 create) *)
Definition create_async (dto : CreateReservationDto) : async ReservationResponseDto :=
  if (c_check_out_day dto <=? c_check_in_day dto)%Z then
    Finished (Thrown
      (HttpException "check_out_day must be greater than check_in_day" BAD_REQUEST))
  else
    await_! atomic (rejectIfGuestHasNotClearedAirport env request_id fetch (c_guest_id dto));
    await! rooms := atomic (query (λ d, room_findMany d (Some (c_room_type dto)))) in
    let maxCapacity := Math_max (capacity <$> rooms) in
    if exceeds (partySize dto) maxCapacity then
      Finished (Thrown (HttpException (too_many dto maxCapacity) CONFLICT))
    else
      await! availableRoom := find_available_async dto rooms in
      match availableRoom with
      | None => Finished (Thrown (HttpException (no_rooms dto) CONFLICT))
      | Some room =>
          await! reservation :=
            atomic (execute (λ d, reservation_create d (new_reservation dto room))) in
          await_! atomic (publishHotelEvent env request_id fetch ReservationConfirmed
                (event_of "Hotel reservation confirmed." reservation (room_type room)));
          Finished (Returned (response_of reservation room))
      end.

(** (src/services/hotel/src/reservation/reservation.service.ts:203-244 cancel) *)
Definition cancel_async (id : string) : async CancelReservationResponseDto :=
  await! existing := atomic (query (λ d, reservation_findFirst d [IdIs id] Unordered)) in
  match existing with
  | None => Finished (Thrown (HttpException "Reservation not found" NOT_FOUND))
  | Some (e, _) =>
      if decide (r_status e = CANCELLED) then
        Finished (Returned {| x_id := r_id e; x_status := r_status e |})
      else
        await! updated := atomic (execute (λ d, reservation_update d id CANCELLED)) in
        let '(r, room) := updated in
        await_! atomic (publishHotelEvent env request_id fetch ReservationCancelled
              (event_of "Hotel reservation cancelled." r (room_type room)));
        Finished (Returned {| x_id := r_id r; x_status := r_status r |})
  end.

Definition handle_async (rq : Request) : async Reply :=
  match rq with
  | PostReservation dto => await! r := create_async dto in Finished (Returned (ReservationReply r))
  | GetActiveByGuest g => atomic (hmap ReservationReply (findActiveByGuestId g))
  | GetReservation id => atomic (hmap ReservationReply (findById id))
  | DeleteReservation id => await! r := cancel_async id in Finished (Returned (CancelReply r))
  end.

(** *** Alone, the functions are the handlers *)

Lemma hbind_ext {W E A B} (m m' : handler W E A) (f g : A → handler W E B) w :
  m w = m' w → (∀ a w, f a w = g a w) → hbind m f w = hbind m' g w.
Proof. intros Hm Hf. unfold hbind. rewrite Hm. destruct (m' w) as [[] ?]; auto. Qed.

Lemma run_find_available dto l h :
  run (find_available_async dto l) h = find_available dto l h.
Proof.
  revert h. induction l as [|room l IH]; intros h; [done|].
  cbn [find_available_async find_available]. case_match; [done|].
  rewrite run_pbind. apply hbind_ext; [apply run_atomic|]. intros n w. by case_match.
Qed.

Lemma run_create dto h :
  run (create_async dto) h = create env request_id fetch dto h.
Proof.
  unfold create_async, create. case_match; [done|].
  rewrite run_pbind. apply hbind_ext; [apply run_atomic|]. intros [] w.
  rewrite run_pbind. apply hbind_ext; [apply run_atomic|]. intros l w'.
  case_match; [done|].
  rewrite run_pbind. apply hbind_ext; [apply run_find_available|]. intros [room|] w2; [|done].
  rewrite run_pbind. apply hbind_ext; [apply run_atomic|]. intros r w3.
  rewrite run_pbind. by apply hbind_ext; [apply run_atomic|].
Qed.

Lemma run_cancel id h :
  run (cancel_async id) h = cancel env request_id fetch id h.
Proof.
  unfold cancel_async, HotelReservation.cancel.
  rewrite run_pbind. apply hbind_ext; [apply run_atomic|]. intros [[e room]|] w; [|done].
  case_decide; [done|].
  rewrite run_pbind. apply hbind_ext; [apply run_atomic|]. intros [r room'] w'.
  rewrite run_pbind. by apply hbind_ext; [apply run_atomic|].
Qed.

Lemma run_handle rq h :
  run (handle_async rq) h = handle env request_id fetch rq h.
Proof.
  destruct rq; cbn [handle_async handle]; rewrite ?run_pbind, ?run_atomic; [|done..|];
    (apply hbind_ext; [|done]); [apply run_create|apply run_cancel].
Qed.

(** *** Together, they keep the tables well formed *)

(** The rooms of the hotel are [R], and the tables are well formed. *)
Definition sound (R : gmap string Room) (h : Hotel DB) : Prop :=
  rooms (tables (db h)) = R ∧ hotel_wf (tables (db h)).

Lemma sound_tables R d d' l l' :
  tables d' = tables d → sound R (MkHotel d l) → sound R (MkHotel d' l').
Proof. unfold sound. simpl. by intros ->. Qed.

Lemma upholds_query {A} R (Q : A → Prop) (q : DB → outcome PrismaError A) :
  (∀ h a, sound R h → q (db h) = Returned a → Q a) →
  upholds (sound R) Q (atomic (query q)).
Proof.
  intros Hq. apply upholds_atomic. intros h Hh. unfold query.
  destruct (q (db h)) eqn:E; split; try done. intros a' [= <-]. eauto.
Qed.

Lemma upholds_quiet {A} R (Q : A → Prop) (m : handler (Hotel DB) Failure A) :
  (∀ h, db (m h).2 = db h) → (∀ h a, (m h).1 = Returned a → Q a) →
  upholds (sound R) Q (atomic m).
Proof.
  intros Hm HQ. apply upholds_atomic. intros h Hh. split; [|apply HQ].
  unfold sound. by rewrite Hm.
Qed.

Lemma db_publish t e (h : Hotel DB) : db (publishHotelEvent env request_id fetch t e h).2 = db h.
Proof. by rewrite publishHotelEvent_run. Qed.
Lemma db_reject g (h : Hotel DB) :
  db (rejectIfGuestHasNotClearedAirport env request_id fetch g h).2 = db h.
Proof. by rewrite reject_run. Qed.

Lemma upholds_find_available R dto l :
  Forall (λ room, R !! room_id room = Some room) l →
  upholds (sound R) (λ o, ∀ room, o = Some room →
    R !! room_id room = Some room ∧ holds_party dto room) (find_available_async dto l).
Proof.
  induction 1 as [|room l Hr _ IH]; cbn [find_available_async]; [done|].
  destruct (Z.ltb_spec (capacity room) (partySize dto)); [done|].
  apply upholds_pbind with (Q := λ _, True); [by apply upholds_query|].
  intros n _. case_match; [|done]. simpl. by intros ? [= <-].
Qed.

Lemma upholds_insert R dto room :
  R !! room_id room = Some room → holds_party dto room →
  (c_check_in_day dto < c_check_out_day dto)%Z →
  upholds (sound R) (λ _, True)
    (atomic (execute (λ d, reservation_create d (new_reservation dto room)))).
Proof.
  intros Hr Hp Hd. apply upholds_atomic. intros h [HR Hwf]. split; [|done].
  unfold execute. destruct (reservation_create (db h) _) as [[r|] d'] eqn:Hc;
    apply reservation_create_spec in Hc as [Hrooms Hc]; cbn [snd db]; unfold sound; cbn [db].
  - destruct Hc as (_ & _ & _ & _ & (guests & Hperm & Hrow) & Hres).
    split; [congruence|].
    pose proof (add_keeps_wf (tables (db h)) dto room (r_id r) guests Hwf) as Hk.
    rewrite <-Hrow, <-Hres, <-Hrooms in Hk. rewrite HR in Hrooms.
    replace {| rooms := _; reservations := _ |} with (tables d') in Hk
      by (destruct (tables d'); done).
    apply Hk; try done. by rewrite Hrooms.
  - split; [congruence|]. by replace (tables d') with (tables (db h))
      by (destruct (tables d'), (tables (db h)); simpl in *; congruence).
Qed.

Lemma upholds_update R id :
  upholds (sound R) (λ _, True) (atomic (execute (λ d, reservation_update d id CANCELLED))).
Proof.
  apply upholds_atomic. intros h [HR Hwf]. split; [|done].
  unfold execute. destruct (reservation_update (db h) id CANCELLED) as [[[r' room]|] d'] eqn:Hc;
    apply reservation_update_spec in Hc as [Hrooms Hc]; cbn [snd db]; unfold sound; cbn [db].
  - destruct Hc as (r & Hr & -> & _ & Hres). split; [congruence|].
    pose proof (cancel_keeps_wf _ _ _ Hwf Hr) as Hk. rewrite <-Hres, <-Hrooms in Hk.
    by destruct (tables d').
  - split; [congruence|]. by replace (tables d') with (tables (db h))
      by (destruct (tables d'), (tables (db h)); simpl in *; congruence).
Qed.

Lemma upholds_create R dto : upholds (sound R) (λ _, True) (create_async dto).
Proof.
  unfold create_async. destruct (Z.leb_spec (c_check_out_day dto) (c_check_in_day dto)); [done|].
  apply upholds_pbind with (Q := λ _, True); [apply upholds_quiet; [apply db_reject|done]|].
  intros _ _. eapply upholds_pbind.
  { apply upholds_query with (Q := Forall (λ room, R !! room_id room = Some room)).
    intros h l [HR Hwf] Hl. apply Forall_forall. intros room Hin.
    pose proof (findMany_of_type _ _ _ Hl room) as Hty.
    rewrite <-HR. eapply of_type_lookup; [done|by apply Hty]. }
  intros l Hl. case_match; [done|].
  eapply upholds_pbind; [by apply upholds_find_available|].
  intros [room|] Hroom; [|done]. destruct (Hroom room eq_refl) as [Hr Hp].
  apply upholds_pbind with (Q := λ _, True); [by apply upholds_insert|]. intros r _.
  apply upholds_pbind with (Q := λ _, True); [apply upholds_quiet; [apply db_publish|done]|].
  done.
Qed.

Lemma upholds_cancel R id : upholds (sound R) (λ _, True) (cancel_async id).
Proof.
  unfold cancel_async.
  apply upholds_pbind with (Q := λ _, True); [by apply upholds_query|].
  intros [[e room]|] _; [|done]. case_decide; [done|].
  apply upholds_pbind with (Q := λ _, True); [apply upholds_update|]. intros [r room'] _.
  apply upholds_pbind with (Q := λ _, True); [apply upholds_quiet; [apply db_publish|done]|].
  done.
Qed.

Lemma upholds_handle R rq : upholds (sound R) (λ _, True) (handle_async rq).
Proof.
  destruct rq; cbn [handle_async].
  - eapply upholds_pbind; [apply upholds_create|done].
  - apply upholds_quiet; [|done]. intros h. by rewrite hmap_snd, findActiveByGuestId_reads.
  - apply upholds_quiet; [|done]. intros h. by rewrite hmap_snd, findById_reads.
  - eapply upholds_pbind; [apply upholds_cancel|done].
Qed.

(** *** They end *)

(** The rooms a request can be given, free or not. *)
Definition candidates (R : gmap string Room) (dto : CreateReservationDto) : list Room :=
  filter (holds_party dto) (filter (λ r, type_matches (Some (c_room_type dto)) r = true) (map_to_list R).*2).

(** The turns a request takes at most: the airport, the rooms, each candidate, the
    insertion and the announcement; or the row, the update and the announcement. *)
Definition turns (R : gmap string Room) (rq : Request) : nat :=
  match rq with
  | PostReservation dto => 4 + length (candidates R dto)
  | GetActiveByGuest _ | GetReservation _ => 1
  | DeleteReservation _ => 3
  end.

Lemma ends_find_available R dto l :
  Forall (λ room, R !! room_id room = Some room) l →
  ends (sound R) (λ o, ∀ room, o = Some room → R !! room_id room = Some room ∧ holds_party dto room)
    (length (filter (holds_party dto) l)) (find_available_async dto l).
Proof.
  induction 1 as [|room l Hr _ IH]; cbn [find_available_async]; [done|].
  destruct (Z.ltb_spec (capacity room) (partySize dto)).
  { rewrite filter_cons_False by (unfold holds_party; lia). done. }
  rewrite filter_cons_True by done. apply (ends_pbind (sound R) (λ _, True) _ 1).
  { apply ends_one. by apply upholds_query. }
  intros n _. case_match; [|done]. cbn. destruct (length _); by intros ? [= <-].
Qed.

Lemma ends_create R dto :
  ends (sound R) (λ _, True) (4 + length (candidates R dto)) (create_async dto).
Proof.
  unfold create_async. destruct (Z.leb_spec (c_check_out_day dto) (c_check_in_day dto)); [done|].
  apply (ends_pbind (sound R) (λ _, True) _ 1 (3 + length (candidates R dto))).
  { apply ends_one. apply upholds_quiet; [apply db_reject|done]. }
  intros _ _. eapply (ends_pbind (sound R) _ _ 1 (2 + length (candidates R dto))).
  { apply ends_one, upholds_query with (Q := λ l, Forall (λ room, R !! room_id room = Some room) l ∧
      l ≡ₚ filter (λ r, type_matches (Some (c_room_type dto)) r = true) (map_to_list R).*2).
    intros h l [HR Hwf] Hl. split.
    - apply Forall_forall. intros room Hin. pose proof (findMany_of_type _ _ _ Hl room) as Hty.
      rewrite <-HR. eapply of_type_lookup; [done|by apply Hty].
    - rewrite <-HR. by apply room_findMany_spec. }
  intros l [Hl Hperm]. case_match; [done|].
  apply (ends_mono _ _ (length (filter (holds_party dto) l) + 2)).
  { unfold candidates. rewrite Hperm. lia. }
  eapply ends_pbind; [by apply ends_find_available|].
  intros [room|] Hroom; [|done]. destruct (Hroom room eq_refl) as [Hr Hp].
  apply (ends_pbind (sound R) (λ _, True) _ 1 1); [by apply ends_one, upholds_insert|]. intros r _.
  apply (ends_pbind (sound R) (λ _, True) _ 1 0); [|done].
  apply ends_one. apply upholds_quiet; [apply db_publish|done].
Qed.

Lemma ends_cancel R id : ends (sound R) (λ _, True) 3 (cancel_async id).
Proof.
  unfold cancel_async.
  apply (ends_pbind (sound R) (λ _, True) _ 1 2); [by apply ends_one, upholds_query|].
  intros [[e room]|] _; [|done]. case_decide; [done|].
  apply (ends_pbind (sound R) (λ _, True) _ 1 1); [apply ends_one, upholds_update|]. intros [r room'] _.
  apply (ends_pbind (sound R) (λ _, True) _ 1 0); [|done].
  apply ends_one. apply upholds_quiet; [apply db_publish|done].
Qed.

Lemma ends_handle R rq : ends (sound R) (λ _, True) (turns R rq) (handle_async rq).
Proof.
  destruct rq; cbn [handle_async turns].
  - apply (ends_mono _ _ (4 + length (candidates R dto) + 0)); [lia|].
    eapply ends_pbind; [apply ends_create|done].
  - apply ends_one, upholds_quiet; [|done]. intros h. by rewrite hmap_snd, findActiveByGuestId_reads.
  - apply ends_one, upholds_quiet; [|done]. intros h. by rewrite hmap_snd, findById_reads.
  - apply (ends_mono _ _ (3 + 0)); [lia|]. eapply ends_pbind; [apply ends_cancel|done].
Qed.

Lemma requests_budget requests h :
  hotel_wf (tables (db h)) →
  budget (sound (rooms (tables (db h)))) (λ _, True)
    (λ i, from_option (turns (rooms (tables (db h)))) 0 (requests !! i)) (handle_async <$> requests, h).
Proof.
  intros Hwf. split; [|done]. cbn. intros i p Hi.
  rewrite list_lookup_fmap in Hi. destruct (requests !! i) as [rq|]; [|done].
  injection Hi as <-. apply ends_handle.
Qed.

(** However the requests interleave, the tables stay well formed. *)
Lemma concurrent_wf requests h ps h' :
  hotel_wf (tables (db h)) →
  rtc pool_step (handle_async <$> requests, h) (ps, h') →
  hotel_wf (tables (db h')) ∧ rooms (tables (db h')) = rooms (tables (db h)).
Proof.
  intros Hwf Hsteps.
  destruct (pool_invariant (sound (rooms (tables (db h)))) (λ _, True) _ _ Hsteps)
    as [_ [Hr Hw]]; [|done|done].
  apply Forall_fmap, Forall_forall. intros rq _. apply upholds_handle.
Qed.
End handlers.

(** ** Two guests, one room

    A hotel with one suite and two guests who ask for it at the same time.
    Each request looks for overlapping reservations before the other has
    inserted its own. *)

#[local] Existing Instances MemDB.prisma MemDB.prisma_responsive.

Definition one_suite : Room :=
  {| room_id := "room-suite-01"; room_type := SUITE; capacity := 4; price_per_night := 400 |}.
Definition one_suite_hotel : Hotel Tables :=
  MkHotel {| rooms := {["room-suite-01" := one_suite]}; reservations := ∅ |} [].

Lemma one_suite_inv : hotel_inv (tables (db one_suite_hotel)).
Proof.
  apply hotel_inv_empty; [done|]. intros id room. cbn.
  intros [<- <-]%lookup_singleton_Some. done.
Qed.

Definition suite_request (guest : string) : Request := PostReservation {|
  c_guest_id := guest; c_room_type := SUITE; c_guest_count := 2; c_party_guest_ids := None;
  c_check_in_day := 3; c_check_out_day := 5
|}.
Definition no_services : HotelEnv :=
  {| AIRPORT_SERVICE_URL := None; BROADCAST_SERVICE_URL := None |}.
Definition no_network (past : list HttpRequest) (rq : HttpRequest) : FetchResult := FetchFails.

(** Airport check, rooms and overlap count of the first request, then of the
    second; then the insertion and the announcement of each. *)
Definition race : pool (Hotel Tables) Failure Reply :=
  schedule [0; 0; 0; 1; 1; 1; 0; 0; 1; 1]
    (handle_async no_services "-" no_network <$> [suite_request "tom"; suite_request "felix"],
     one_suite_hotel).

Lemma race_steps :
  rtc pool_step
    (handle_async no_services "-" no_network <$> [suite_request "tom"; suite_request "felix"],
     one_suite_hotel) race.
Proof. apply schedule_steps. Qed.

Definition booked_room (p : proc (Hotel Tables) Failure Reply) : option (string * string) :=
  match p with
  | Finished (Returned (ReservationReply o)) => Some (o_guest_id o, o_room_id o)
  | _ => None
  end.

Lemma race_answers :
  booked_room <$> race.1 =
    [Some ("tom", "room-suite-01"); Some ("felix", "room-suite-01")].
Proof. vm_compute. reflexivity. Qed.

Definition double_booked (t : Tables) : bool :=
  existsb (λ '(id1, r1), existsb (λ '(id2, r2),
      bool_decide (id1 ≠ id2 ∧ r_status r1 = CONFIRMED ∧ r_status r2 = CONFIRMED ∧
        r_room_id r1 = r_room_id r2 ∧ (r_check_in_day r1 ≤ r_check_out_day r2)%Z ∧
        (r_check_in_day r2 ≤ r_check_out_day r1)%Z)) (map_to_list (reservations t)))
    (map_to_list (reservations t)).

Lemma double_booked_sound t : double_booked t = true → ¬ no_double_booking t.
Proof.
  unfold double_booked. rewrite existsb_exists. intros ([id1 r1] & H1%list_elem_of_In & H).
  rewrite existsb_exists in H. destruct H as ([id2 r2] & H2%list_elem_of_In & Hb).
  apply bool_decide_eq_true in Hb as (Hne & Hs1 & Hs2 & Hr & Ha & Hb).
  apply elem_of_map_to_list in H1, H2. intros Hno.
  by apply (Hno id1 id2 r1 r2).
Qed.

Lemma race_double_books : double_booked (tables (db race.2)) = true.
Proof. vm_compute. reflexivity. Qed.
