(* ===== verification/HotelIsolation.v ===== *)
(** * Concurrent bookings that do not compete

    Which interleavings of requests keep the hotel from booking a room twice.
    A request to book relies on nobody confirming, between its count and its
    insertion, a stay that meets its days in a room of its type; every other
    request guarantees that unless it books the same type for days that meet.
    So a double booking takes two competing requests, and [HotelConcurrency.race]
    shows that two are enough. *)

From S2P Require Import Prelude Json JsString HotelDb HotelOutbound HotelReservation.
From S2P Require Import HotelReservationSpec HotelInvariant Interleave HotelConcurrency.

(** Two requests that may want the same room for the same day. *)
Definition competing (rq rq' : Request) : bool :=
  match rq, rq' with
  | PostReservation d, PostReservation d' =>
      bool_decide (c_room_type d = c_room_type d') &&
      bool_decide (c_check_in_day d ≤ c_check_out_day d' ∧
        c_check_in_day d' ≤ c_check_out_day d)%Z
  | _, _ => false
  end.

Section isolation.
Context {DB : Type} `{PrismaClient DB}.
Variable env : HotelEnv.
Variable request_id : string.
Variable fetch : list HttpRequest → HttpRequest → FetchResult.

(** The rooms, which no request changes. *)
Variable R : gmap string Room.

Definition inv (h : Hotel DB) : Prop :=
  rooms (tables (db h)) = R ∧ hotel_inv (tables (db h)).

(** A stay that does not matter to the request. *)
Definition harmless (dto : CreateReservationDto) (r : Reservation) : Prop :=
  (∀ room, R !! r_room_id r = Some room → room_type room ≠ c_room_type dto) ∨
  ¬ stays_meet (r_check_in_day r) (r_check_out_day r) (c_check_in_day dto) (c_check_out_day dto).

(** Every newly confirmed stay is harmless to the request. *)
Definition rely (rq : Request) (h h' : Hotel DB) : Prop :=
  match rq with
  | PostReservation dto => ∀ id r,
      reservations (tables (db h')) !! id = Some r → r_status r = CONFIRMED →
      reservations (tables (db h)) !! id = Some r ∨ harmless dto r
  | _ => True
  end.

(** What a request leaves the requests it does not compete with to rely on. *)
Definition guarantee (rq : Request) (h h' : Hotel DB) : Prop :=
  ∀ rq', competing rq rq' = false → rely rq' h h'.

#[global] Instance rely_preorder rq : PreOrder (rely rq).
Proof.
  destruct rq as [dto| | |]; split; try done; [by left|].
  intros h1 h2 h3 H12 H23 id r Hr Hs. destruct (H23 id r Hr Hs) as [Hr'|]; [|by right].
  by apply H12.
Qed.

Lemma competing_sym rq rq' : competing rq rq' = competing rq' rq.
Proof.
  destruct rq, rq'; try done. unfold competing.
  f_equal; apply bool_decide_ext; [done|lia].
Qed.

(** ** Stretches *)

Lemma rely_same rq h h' :
  reservations (tables (db h')) = reservations (tables (db h)) → rely rq h h'.
Proof. intros Heq. destruct rq; try done. intros id r. rewrite Heq. by left. Qed.

(** A stretch that leaves the tables alone. *)
Lemma safe_reading {A} rq (Q : A → Hotel DB → Prop) (m : handler (Hotel DB) Failure A) h :
  (∀ h, tables (db (m h).2) = tables (db h)) →
  (∀ h a, inv h → (m h).1 = Returned a → ∀ h', rely rq h h' → Q a h') →
  safe inv (rely rq) (guarantee rq) Q (atomic m) h.
Proof.
  intros Hm HQ. apply safe_atomic. intros h1 _ Hi.
  assert (inv (m h1).2) as Hi' by (unfold inv; by rewrite Hm).
  split_and!; [|done|].
  - intros rq' _. apply rely_same. by rewrite Hm.
  - intros a Ha h2 Hr. apply (HQ h1 a Hi Ha). destruct rq; try done.
    intros id r Hr2 Hs. destruct (Hr id r Hr2 Hs) as [Hr1|]; [left|by right]. by rewrite Hm in Hr1.
Qed.

Lemma safe_query {A} rq (Q : A → Hotel DB → Prop) (q : DB → outcome PrismaError A) h :
  (∀ h a, inv h → q (db h) = Returned a → ∀ h', rely rq h h' → Q a h') →
  safe inv (rely rq) (guarantee rq) Q (atomic (query q)) h.
Proof.
  intros HQ. apply safe_reading.
  - intros h1. unfold query. by destruct (q (db h1)).
  - intros h1 a Hi. unfold query. destruct (q (db h1)) eqn:E; [|done]. intros [= <-]. by eapply HQ.
Qed.

(** Counting no overlapping stay is still right at the insertion. *)
Lemma free_stays dto room h h' :
  R !! room_id room = Some room → room_type room = c_room_type dto →
  free_for (tables (db h)) dto room → rely (PostReservation dto) h h' →
  free_for (tables (db h')) dto room.
Proof.
  intros HR Hty Hfree Hr id r Hid Hroom Hs.
  destruct (Hr id r Hid Hs) as [Hold|[Hother|]]; [by apply (Hfree id r)| |done].
  rewrite Hroom in Hother. by destruct (Hother room HR).
Qed.

Definition chosen (dto : CreateReservationDto) (room : Room) (h : Hotel DB) : Prop :=
  R !! room_id room = Some room ∧ room_type room = c_room_type dto ∧ holds_party dto room ∧
  free_for (tables (db h)) dto room.

Lemma safe_find_available dto l h :
  Forall (λ room, R !! room_id room = Some room ∧ room_type room = c_room_type dto) l →
  safe inv (rely (PostReservation dto)) (guarantee (PostReservation dto))
    (λ o h, ∀ room, o = Some room → chosen dto room h) (find_available_async dto l) h.
Proof.
  intros Hl. revert h. induction Hl as [|room l [HR Hty] _ IH]; intros h; cbn [find_available_async];
    [by intros|].
  destruct (Z.ltb_spec (capacity room) (partySize dto)); [done|].
  apply safe_pbind with (Q := λ n h, n = 0%Z → chosen dto room h).
  - apply safe_query. intros h1 n _ Hn%reservation_count_spec h2 Hr ->.
    split_and!; [done..|]. apply (free_stays dto room h1); [done..| |done].
    apply no_overlapping_iff. lia.
  - intros n h1 Hn. case_match eqn:Hz; [|done]. apply Z.eqb_eq in Hz.
    intros h2 Hr ? [= <-]. by apply Hn.
Qed.

Lemma guarantee_insert dto room h h' id guests :
  R !! room_id room = Some room → room_type room = c_room_type dto →
  reservations (tables (db h')) =
    <[id := row_of id guests (new_reservation dto room)]> (reservations (tables (db h))) →
  guarantee (PostReservation dto) h h'.
Proof.
  intros HR Hty Heq rq' Hc. destruct rq' as [dto'| | |]; try done. intros id' r.
  rewrite Heq. intros [[<- <-]|[_ Hr]]%lookup_insert_Some _; [right|by left].
  unfold competing in Hc. apply andb_false_iff in Hc as [Hc|Hc]; apply bool_decide_eq_false in Hc.
  - left. cbn. intros room' HR'. congruence.
  - right. unfold stays_meet. cbn. lia.
Qed.

Lemma safe_insert dto room h :
  (c_check_in_day dto < c_check_out_day dto)%Z →
  (∀ h', rely (PostReservation dto) h h' → chosen dto room h') →
  safe inv (rely (PostReservation dto)) (guarantee (PostReservation dto)) (λ _ _, True)
    (atomic (execute (λ d, reservation_create d (new_reservation dto room)))) h.
Proof.
  intros Hd Hc. apply safe_atomic. intros h1 Hr [HR Hi].
  destruct (Hc h1 Hr) as (Hroom & Hty & Hsize & Hfree).
  unfold execute. destruct (reservation_create (db h1) _) as [[r|] d'] eqn:E;
    apply reservation_create_spec in E as [Hrooms E]; cbn [snd fst]; cbn [d_room_id] in *.
  - destruct E as (_ & Hex & Hnd & Hfresh & (guests & Hp & Hrow) & Hres).
    rewrite Hrow in Hres. split_and!; [by eapply guarantee_insert| |done].
    split; [by cbn; rewrite Hrooms|]. cbn.
    assert (tables d' = {| rooms := rooms (tables (db h1));
      reservations := <[r_id r := r]> (reservations (tables (db h1))) |}) as ->.
    { rewrite <-Hrooms. destruct (tables d'). cbn in *. by rewrite Hres, <-Hrow. }
    eapply (create_keeps_inv (λ _ _, True) None); [done|].
    apply (create_done _ _ _ _ r room); try done.
    + split_and!; [|done..]. exists (room_id room). by rewrite HR.
    + by left.
    + rewrite Hrow. cbn. by rewrite Hp.
    + by exists guests.
  - split_and!; [|split; cbn; [congruence|]|done].
    + intros rq' _. apply rely_same. cbn. congruence.
    + by replace (tables d') with (tables (db h1))
        by (destruct (tables d'), (tables (db h1)); cbn in *; congruence).
Qed.

Lemma safe_update rq id h :
  safe inv (rely rq) (guarantee rq) (λ _ _, True)
    (atomic (execute (λ d, reservation_update d id CANCELLED))) h.
Proof.
  apply safe_atomic. intros h1 _ [HR Hi]. unfold execute.
  destruct (reservation_update (db h1) id CANCELLED) as [[[r' room]|] d'] eqn:E;
    apply reservation_update_spec in E as [Hrooms E]; cbn [snd fst].
  - destruct E as (r & Hr & -> & _ & Hres). split_and!; [|split; cbn; [congruence|]|done].
    + intros rq' _. destruct rq' as [dto'| | |]; try done. intros id' r2. cbn. rewrite Hres.
      intros [[<- <-]|[_ Hr2]]%lookup_insert_Some Hs; [done|by left].
    + pose proof (cancelled_keeps_inv _ _ _ Hi Hr) as Hk. rewrite <-Hres, <-Hrooms in Hk.
      by destruct (tables d').
  - split_and!; [|split; cbn; [congruence|]|done].
    + intros rq' _. apply rely_same. cbn. congruence.
    + by replace (tables d') with (tables (db h1))
        by (destruct (tables d'), (tables (db h1)); cbn in *; congruence).
Qed.

(** ** Requests *)

Lemma safe_publish rq t e h :
  safe inv (rely rq) (guarantee rq) (λ _ _, True) (atomic (publishHotelEvent env request_id fetch t e)) h.
Proof. apply safe_reading; [|done]. intros h1. by rewrite db_publish. Qed.

Lemma safe_create dto h :
  safe inv (rely (PostReservation dto)) (guarantee (PostReservation dto)) (λ _ _, True)
    (create_async env request_id fetch dto) h.
Proof.
  unfold create_async. destruct (Z.leb_spec (c_check_out_day dto) (c_check_in_day dto)); [done|].
  apply safe_pbind with (Q := λ _ _, True).
  { apply safe_reading; [|done]. intros h1. by rewrite db_reject. }
  intros _ h1 _. eapply safe_pbind.
  { apply safe_query with (Q := λ l _,
      Forall (λ room, R !! room_id room = Some room ∧ room_type room = c_room_type dto) l).
    intros h2 l [HR Hi] Hl h3 _. apply Forall_forall. intros room Hin.
    apply (findMany_of_type _ _ _ Hl) in Hin as Hty. split.
    - rewrite <-HR. eapply of_type_lookup; [apply Hi|exact Hty].
    - by destruct Hty as (? & _ & ?). }
  intros l h2 Hl. specialize (Hl h2 (reflexivity h2)). case_match; [done|].
  eapply safe_pbind; [by apply safe_find_available|].
  intros [room|] h3 Hroom; [|done].
  apply safe_pbind with (Q := λ _ _, True).
  { apply safe_insert; [done|]. intros h4 Hr. by apply Hroom. }
  intros r h4 _. apply safe_pbind with (Q := λ _ _, True); [apply safe_publish|done].
Qed.

Lemma safe_cancel rq id h :
  safe inv (rely rq) (guarantee rq) (λ _ _, True) (cancel_async env request_id fetch id) h.
Proof.
  unfold cancel_async. apply safe_pbind with (Q := λ _ _, True); [by apply safe_query|].
  intros [[e room]|] h1 _; [|done]. case_decide; [done|].
  apply safe_pbind with (Q := λ _ _, True); [apply safe_update|]. intros [r room'] h2 _.
  apply safe_pbind with (Q := λ _ _, True); [apply safe_publish|done].
Qed.

Lemma safe_handle rq h :
  safe inv (rely rq) (guarantee rq) (λ _ _, True) (handle_async env request_id fetch rq) h.
Proof.
  destruct rq; cbn [handle_async].
  - eapply safe_pbind; [apply safe_create|done].
  - apply safe_reading; [|done]. intros h1. by rewrite hmap_snd, findActiveByGuestId_reads.
  - apply safe_reading; [|done]. intros h1. by rewrite hmap_snd, findById_reads.
  - eapply safe_pbind; [apply safe_cancel|done].
Qed.

Lemma isolated_inv requests h ps h' :
  (∀ i j rq rq', i ≠ j → requests !! i = Some rq → requests !! j = Some rq' →
     competing rq rq' = false) →
  rtc pool_step (handle_async env request_id fetch <$> requests, h) (ps, h') →
  inv h → inv h'.
Proof.
  intros Hc Hsteps Hi.
  refine (proj2 (pool_safe_steps inv rely guarantee (λ _ _, True) requests _ _ _ Hsteps _)).
  - intros i j b c w w' Hij Hb Hcc Hg. apply Hg. by eapply Hc.
  - split; [|done]. cbn. intros i p. rewrite list_lookup_fmap.
    intros (rq & Hrq & ->)%fmap_Some. exists rq. split; [done|]. apply safe_handle.
Qed.
End isolation.
