(* ===== verification/HotelAnnouncements.v ===== *)
(** * What the hotel announces is in its tables

    However requests interleave, every announcement the hotel has sent tells of
    a reservation that is in the tables, with the guest, the days, the party and
    the type of room of its row, and an announced cancellation is one that
    happened.  Every request relies on the others only to keep rows and never
    to take a cancellation back ([succeeds]), and guarantees the same; requests
    may arrive at any time, so the pool grows ([team_safe] of [Interleave]). *)

From S2P Require Import Prelude Json JsString HotelDb HotelOutbound HotelReservation.
From S2P Require Import HotelReservationSpec HotelInvariant Interleave HotelConcurrency.

(** ** The tables and what was said of them *)

(** The integers of a row fit their columns. *)
Definition row_fits (r : Reservation) : bool :=
  fits_int4 (r_guest_count r) && fits_int4 (r_check_in_day r) && fits_int4 (r_check_out_day r).

(** Rows are under their keys and fit their columns. *)
Record stored (t : Tables) : Prop := {
  stored_room : ∀ id room, rooms t !! id = Some room → room_id room = id;
  stored_key : ∀ id r, reservations t !! id = Some r → r_id r = id;
  stored_fits : ∀ id r, reservations t !! id = Some r → row_fits r = true;
}.

(** Later tables: the same rooms, every row still there with at most another
    status, and what was cancelled still cancelled. *)
Definition succeeds (t t' : Tables) : Prop :=
  rooms t' = rooms t ∧
  ∀ id r, reservations t !! id = Some r →
    ∃ s, reservations t' !! id = Some (set_status s r) ∧
      (r_status r = CANCELLED → s = CANCELLED).

#[export] Instance succeeds_preorder : PreOrder succeeds.
Proof.
  split.
  - intros t. split; [done|]. intros id r Hr. exists (r_status r). by rewrite set_status_same.
  - intros t1 t2 t3 [HR1 H1] [HR2 H2]. split; [congruence|]. intros id r Hr.
    destruct (H1 id r Hr) as (s & Hs & Hc). destruct (H2 id _ Hs) as (s' & Hs' & Hc').
    exists s'. split; [done|]. intros Hr'. by apply Hc', Hc.
Qed.

(** The message of an announcement. *)
Definition message_of (ty : HotelBroadcastEventType) : string :=
  match ty with
  | ReservationConfirmed => "Hotel reservation confirmed."
  | ReservationCancelled => "Hotel reservation cancelled."
  end.

(** The event tells of a row of the tables. *)
Definition told (t : Tables) (ty : HotelBroadcastEventType) (e : HotelBroadcastEvent) : Prop :=
  ∃ r room, reservations t !! r_id r = Some r ∧ rooms t !! r_room_id r = Some room ∧
    e = event_of (message_of ty) r (room_type room) ∧ row_fits r = true ∧
    (ty = ReservationCancelled → r_status r = CANCELLED).

Lemma told_succeeds t t' ty e : succeeds t t' → told t ty e → told t' ty e.
Proof.
  intros [Hrooms Hrows] (r & room & Hr & Hroom & -> & Hfit & Hc).
  destruct (Hrows _ _ Hr) as (s & Hs & Hcs).
  exists (set_status s r), room. rewrite Hrooms. split_and!; try done. intros Hty. by apply Hcs, Hc.
Qed.

Lemma stored_insert t id r :
  stored t → r_id r = id → row_fits r = true →
  stored {| rooms := rooms t; reservations := <[id := r]> (reservations t) |}.
Proof.
  intros Ht Hid Hfit. constructor; cbn; [apply (stored_room t Ht)|..];
    intros id' r' [[<- <-]|[_ Hr']]%lookup_insert_Some; try done.
  - by apply (stored_key t Ht).
  - by eapply (stored_fits t Ht).
Qed.

Lemma succeeds_fresh t id r :
  reservations t !! id = None →
  succeeds t {| rooms := rooms t; reservations := <[id := r]> (reservations t) |}.
Proof.
  intros Hid. split; [done|]. intros id' r' Hr'. exists (r_status r').
  rewrite set_status_same by done. cbn. split; [|done].
  rewrite lookup_insert_ne; [done|]. intros <-. congruence.
Qed.

Lemma succeeds_cancel t id r :
  reservations t !! id = Some r →
  succeeds t {| rooms := rooms t; reservations := <[id := set_status CANCELLED r]> (reservations t) |}.
Proof.
  intros Hr. split; [done|]. cbn. intros id' r' Hr'. destruct (decide (id = id')) as [<-|Hne].
  - exists CANCELLED. rewrite lookup_insert_eq. rewrite Hr in Hr'. injection Hr' as ->. done.
  - exists (r_status r'). by rewrite lookup_insert_ne, set_status_same by done.
Qed.

Lemma tables_eq t t' :
  rooms t' = rooms t → reservations t' = reservations t → t' = t.
Proof. destruct t, t'. cbn. congruence. Qed.

Lemma tables_insert t t' m :
  rooms t' = rooms t → reservations t' = m →
  t' = {| rooms := rooms t; reservations := m |}.
Proof. destruct t'. cbn. congruence. Qed.

Definition is_post (rq : HttpRequest) : bool := bool_decide (rq.1.1.1 = "POST").

Section announcements.
Context {DB : Type} `{PrismaClient DB}.
Variable env : HotelEnv.

(** A post is the announcement of something in the tables. *)
Definition announcement (t : Tables) (rq : HttpRequest) : Prop :=
  ∃ url request_id ty e, BROADCAST_SERVICE_URL env = Some url ∧
    rq = publish_request request_id url ty e ∧ told t ty e.

Definition honest (t : Tables) (rq : HttpRequest) : Prop := is_post rq = true → announcement t rq.

(** The tables are stored soundly and everything posted is true of them. *)
Definition announced_inv (h : Hotel DB) : Prop :=
  stored (tables (db h)) ∧ Forall (honest (tables (db h))) (sent h).

Definition onward (h h' : Hotel DB) : Prop := succeeds (tables (db h)) (tables (db h')).

#[export] Instance onward_preorder : PreOrder onward.
Proof.
  split; [intros h; apply (reflexivity (R := succeeds))|].
  intros h1 h2 h3. apply (transitivity (R := succeeds)).
Qed.

Lemma honest_succeeds t t' rq : succeeds t t' → honest t rq → honest t' rq.
Proof.
  intros Ht Hrq Hp. destruct (Hrq Hp) as (url & rid & ty & e & Hu & -> & He).
  exists url, rid, ty, e. split_and!; [done..|]. by eapply told_succeeds.
Qed.

(** A stretch to the database and back, or that sends something. *)
Lemma inv_onward (h h' : Hotel DB) l :
  announced_inv h → stored (tables (db h')) → onward h h' → sent h' = sent h ++ l →
  Forall (honest (tables (db h'))) l → announced_inv h'.
Proof.
  intros [_ Hh] Hs Ho Hl Hnew. split; [done|]. rewrite Hl. apply Forall_app. split; [|done].
  eapply Forall_impl; [exact Hh|]. intros rq. by apply honest_succeeds.
Qed.

(** Each request relies on the others to go [onward], and does so itself. *)
Abbreviation keeps Q p h := (safe announced_inv onward onward Q p h).

Lemma keeps_sending {A} (Q : A → Hotel DB → Prop) (m : handler (Hotel DB) Failure A) h :
  (∀ h1, onward h h1 → announced_inv h1 →
     tables (db (m h1).2) = tables (db h1) ∧
     (∃ l, sent (m h1).2 = sent h1 ++ l ∧ Forall (honest (tables (db h1))) l) ∧
     (∀ a, (m h1).1 = Returned a → ∀ h2, onward h1 h2 → Q a h2)) →
  keeps Q (atomic m) h.
Proof.
  intros Hm. apply safe_atomic. intros h1 Hh Hi.
  destruct (Hm h1 Hh Hi) as (Ht & (l & Hl & Hhon) & HQ).
  assert (onward h1 (m h1).2) as Ho by (unfold onward; by rewrite Ht).
  split_and!; [done| |].
  - eapply inv_onward; [exact Hi|rewrite Ht; apply Hi|done|exact Hl|by rewrite Ht].
  - intros a Ha h2 Hh2. apply (HQ a Ha). unfold onward in *. by rewrite Ht in Hh2.
Qed.

Lemma keeps_quiet {A} (m : handler (Hotel DB) Failure A) h :
  (∀ h1, (m h1).2 = h1) → keeps (λ _ _, True) (atomic m) h.
Proof.
  intros Hm. apply keeps_sending. intros h1 _ _. rewrite Hm. split_and!; [done| |done].
  exists []. by rewrite app_nil_r.
Qed.

Lemma keeps_query {A} (Q : A → Hotel DB → Prop) (q : DB → outcome PrismaError A) h :
  (∀ h1 a, announced_inv h1 → q (db h1) = Returned a → ∀ h2, onward h1 h2 → Q a h2) →
  keeps Q (atomic (query q)) h.
Proof.
  intros HQ. apply keeps_sending. intros h1 _ Hi. unfold query.
  destruct (q (db h1)) as [a|] eqn:E; cbn; (split_and!; [done|exists []; by rewrite app_nil_r|]).
  - intros a' [= <-]. by apply HQ.
  - done.
Qed.

(** A write that fails changes nothing; one that succeeds keeps the rows. *)
Lemma keeps_execute {A} (Q : A → Hotel DB → Prop) (q : DB → outcome PrismaError A * DB) h :
  (∀ h1 o d, onward h h1 → announced_inv h1 → q (db h1) = (o, d) →
     stored (tables d) ∧ succeeds (tables (db h1)) (tables d) ∧
     ∀ a, o = Returned a → ∀ h2, succeeds (tables d) (tables (db h2)) → Q a h2) →
  keeps Q (atomic (execute q)) h.
Proof.
  intros Hq. apply safe_atomic. intros h1 Hh Hi. unfold execute.
  destruct (q (db h1)) as [o d] eqn:E. destruct (Hq h1 o d Hh Hi E) as (Hs & Ho & HQ).
  assert (announced_inv (MkHotel d (sent h1))) as Hi'.
  { apply (inv_onward h1 _ []); cbn; try done. by rewrite app_nil_r. }
  destruct o as [a|]; cbn; (split_and!; [done|done|]); [|done].
  intros a' [= <-] h2 Hh2. by apply (HQ a eq_refl).
Qed.

Section request.
Variable request_id : string.
Variable fetch : list HttpRequest → HttpRequest → FetchResult.

Lemma honest_get t rq : rq.1.1.1 = "GET" → honest t rq.
Proof. unfold honest, is_post. by intros ->. Qed.

Lemma asked_honest t g : Forall (honest t) (asked env request_id g).
Proof.
  unfold asked. repeat case_match; repeat constructor. by apply honest_get.
Qed.

Lemma published_honest t ty e : told t ty e → Forall (honest t) (published env request_id ty e).
Proof.
  intros He. unfold published. destruct (BROADCAST_SERVICE_URL env) as [url|] eqn:Hu; [|done].
  case_match; [|done]. repeat constructor. intros _. by exists url, request_id, ty, e.
Qed.

Lemma keeps_publish ty e h :
  (∀ h1, onward h h1 → told (tables (db h1)) ty e) →
  keeps (λ _ _, True) (atomic (publishHotelEvent env request_id fetch ty e)) h.
Proof.
  intros He. apply keeps_sending. intros h1 Hh _. rewrite publishHotelEvent_run. cbn.
  split_and!; [done| |done]. eexists. split; [done|]. by apply published_honest, He.
Qed.

Lemma keeps_reject g h :
  keeps (λ _ _, True) (atomic (rejectIfGuestHasNotClearedAirport env request_id fetch g)) h.
Proof.
  apply keeps_sending. intros h1 _ _. rewrite reject_run. cbn.
  split_and!; [done| |done]. eexists. split; [done|]. apply asked_honest.
Qed.

(** The room is in the tables under its key. *)
Definition has_room (room : Room) (h : Hotel DB) : Prop :=
  rooms (tables (db h)) !! room_id room = Some room.

Lemma has_room_onward room h h' : has_room room h → onward h h' → has_room room h'.
Proof. unfold has_room. intros Hr [-> _]. done. Qed.

Lemma keeps_find_available dto l h :
  (∀ h1, onward h h1 → Forall (λ room, has_room room h1) l) →
  keeps (λ o h, ∀ room, o = Some room → has_room room h) (find_available_async dto l) h.
Proof.
  revert h. induction l as [|room l IH]; intros h Hl; cbn [find_available_async]; [by intros|].
  assert (∀ h1, onward h h1 → ∀ h2, onward h1 h2 → Forall (λ room, has_room room h2) l) as Hrest.
  { intros h1 H1 h2 H2. assert (onward h h2) as Hh2 by (by trans h1).
    by apply Hl, Forall_cons in Hh2 as [_ ?]. }
  case_match; [by apply IH, Hrest|].
  apply safe_pbind with (Q := λ _ h1, onward h h1).
  - apply keeps_sending. intros h1 Hh1 _. unfold query.
    destruct (reservation_count _ _); cbn;
      (split_and!; [done|exists []; by rewrite app_nil_r|]); [|done].
    intros _ _ h2 Hh2. by trans h1.
  - intros n h1 Hh1. specialize (Hh1 h1 (reflexivity h1)). case_match; [|by apply IH, Hrest].
    intros h2 Hh2 ? [= <-]. assert (onward h h2) as Hh2' by (by trans h1).
    by apply Hl, Forall_cons in Hh2' as [? _].
Qed.

Lemma keeps_insert dto room h :
  (∀ h1, onward h h1 → has_room room h1) →
  keeps (λ r h, told (tables (db h)) ReservationConfirmed
      (event_of "Hotel reservation confirmed." r (room_type room)))
    (atomic (execute (λ d, reservation_create d (new_reservation dto room)))) h.
Proof.
  intros Hroom. apply keeps_execute. intros h1 o d Hh [Hs _] Hc.
  specialize (Hroom h1 Hh). apply reservation_create_spec in Hc as [Hrooms Hc].
  destruct o as [r|].
  - destruct Hc as (Hfit & _ & _ & Hfresh & (guests & _ & Hrow) & Hres).
    pose proof (tables_insert _ _ _ Hrooms Hres) as Ht.
    assert (row_fits r = true) as Hr by (by rewrite Hrow).
    split_and!; [rewrite Ht; by apply stored_insert|rewrite Ht; by apply succeeds_fresh|].
    intros a [= <-] h2 Hh2. apply (told_succeeds _ _ _ _ Hh2).
    exists r, room. rewrite Hres, Hrooms, lookup_insert_eq. split_and!; try done.
    by rewrite Hrow.
  - rewrite (tables_eq _ _ Hrooms Hc). by split_and!.
Qed.

Lemma keeps_update id h :
  keeps (λ p h, told (tables (db h)) ReservationCancelled
      (event_of "Hotel reservation cancelled." p.1 (room_type p.2)))
    (atomic (execute (λ d, reservation_update d id CANCELLED))) h.
Proof.
  apply keeps_execute. intros h1 o d _ [Hs _] Hc.
  apply reservation_update_spec in Hc as [Hrooms Hc]. destruct o as [[r' room]|].
  - destruct Hc as (r & Hr & -> & (_ & Hroom)%with_room_Some & Hres).
    pose proof (tables_insert _ _ _ Hrooms Hres) as Ht.
    pose proof (stored_key _ Hs _ _ Hr) as Hid. pose proof (stored_fits _ Hs _ _ Hr) as Hfit.
    split_and!; [rewrite Ht; by apply stored_insert|rewrite Ht; by apply succeeds_cancel|].
    intros a [= <-] h2 Hh2. apply (told_succeeds _ _ _ _ Hh2).
    exists (set_status CANCELLED r), room. rewrite Hres, Hrooms. cbn [r_id set_status fst snd].
    by rewrite Hid, lookup_insert_eq.
  - rewrite (tables_eq _ _ Hrooms Hc). by split_and!.
Qed.

(** ** Requests *)

Lemma keeps_create dto h : keeps (λ _ _, True) (create_async env request_id fetch dto) h.
Proof.
  unfold create_async. case_match; [done|].
  eapply safe_pbind; [apply keeps_reject|]. intros _ h1 _. eapply safe_pbind.
  { apply keeps_query with (Q := λ l h, Forall (λ room, has_room room h) l).
    intros h2 l [Hs _] Hl h3 Hh3. pose proof (room_findMany_elem _ _ _ Hl) as He. apply Forall_forall.
    intros room (id & Hid & _)%He. apply (has_room_onward _ h2); [|done].
    unfold has_room. by rewrite (stored_room _ Hs _ _ Hid). }
  intros l h2 Hl. case_match; [done|].
  eapply safe_pbind; [by apply keeps_find_available|].
  intros [room|] h3 Hroom; [|done].
  eapply safe_pbind; [apply keeps_insert; auto|]. intros r h4 Hr.
  eapply safe_pbind; [by apply keeps_publish|done].
Qed.

Lemma keeps_cancel id h : keeps (λ _ _, True) (cancel_async env request_id fetch id) h.
Proof.
  unfold cancel_async.
  eapply safe_pbind; [by apply keeps_query with (Q := λ _ _, True)|].
  intros [[e room]|] h1 _; [|done]. case_decide; [done|].
  eapply safe_pbind; [apply keeps_update|]. intros [r room'] h2 Hr.
  eapply safe_pbind; [by apply keeps_publish|done].
Qed.

Lemma keeps_handle rq h : keeps (λ _ _, True) (handle_async env request_id fetch rq) h.
Proof.
  destruct rq; cbn [handle_async].
  - eapply safe_pbind; [apply keeps_create|done].
  - apply keeps_quiet. intros h1. by rewrite hmap_snd, findActiveByGuestId_reads.
  - apply keeps_quiet. intros h1. by rewrite hmap_snd, findById_reads.
  - eapply safe_pbind; [apply keeps_cancel|done].
Qed.
End request.

(** ** The hotel with requests under way *)

Definition hotel_team : pool (Hotel DB) Failure Reply → Prop :=
  team_safe announced_inv onward (λ _ _, True).

Lemma hotel_team_idle h : announced_inv h → hotel_team ([], h).
Proof. by split. Qed.

Lemma hotel_team_request ps h request_id fetch rq :
  hotel_team (ps, h) → hotel_team (ps ++ [handle_async env request_id fetch rq], h).
Proof. intros Ht. apply team_safe_join; [done|]. apply keeps_handle. Qed.

Lemma hotel_team_turn j s : hotel_team s → hotel_team (turn j s) ∧ onward s.2 (turn j s).2.
Proof. apply team_safe_turn. apply _. Qed.
End announcements.
