(* ===== verification/HotelRooms.v ===== *)
(** * Rooms and the simulation clock

    The in-game day ([simulation-clock.ts], [simulation.service.ts]) and the
    listing of the rooms with their current guests ([rooms.service.ts]).
    Time is exact: the division of JavaScript numbers is the rational one. *)

From Stdlib Require Import QArith Qround.
From S2P Require Import Prelude Json JsString HotelDb HotelOutbound HotelReservation.
From S2P Require Import HotelReservationSpec HotelInvariant.

(** ** The clock *)

(** (src/services/hotel/src/simulation/simulation-clock.ts:1-1 SECONDS_PER_DAY) *)
Definition SECONDS_PER_DAY : Z := 86400.

(** [startMs] is [Date.parse(startTime)].
    (src/services/hotel/src/simulation/simulation-clock.ts:3-10 computeElapsedGameSeconds) *)
Definition computeElapsedGameSeconds (nowMs startMs gameSpeed : Z) : Q :=
  let elapsedRealSeconds := (inject_Z (nowMs - startMs) / inject_Z 1000)%Q in
  (elapsedRealSeconds * inject_Z gameSpeed)%Q.

(** (src/services/hotel/src/simulation/simulation-clock.ts:12-20 computeCurrentDay) *)
Definition computeCurrentDay (nowMs startMs gameSpeed : Z) : Z :=
  Qfloor (computeElapsedGameSeconds nowMs startMs gameSpeed / inject_Z SECONDS_PER_DAY).

(** (src/services/hotel/src/simulation/simulation.service.ts:5-18 SimulationService) *)
Record SimulationService : Type := { simulationStartTime : Z; gameSpeed : Z }.
Definition currentDay (s : SimulationService) (now : Z) : Z :=
  computeCurrentDay now (simulationStartTime s) (gameSpeed s).

Lemma Qfloor_Qmake a (b : positive) : Qfloor (a # b) = (a / Zpos b)%Z.
Proof. reflexivity. Qed.

(** The day is the whole part of the elapsed game time over the length of a day. *)
Lemma computeCurrentDay_div nowMs startMs speed :
  computeCurrentDay nowMs startMs speed = ((nowMs - startMs) * speed / 86400000)%Z.
Proof.
  unfold computeCurrentDay, computeElapsedGameSeconds, SECONDS_PER_DAY.
  rewrite (Qfloor_comp _ (((nowMs - startMs) * speed) # 86400000)); [apply Qfloor_Qmake|].
  unfold Qdiv, Qmult, Qinv, inject_Z, Qeq. simpl. lia.
Qed.

(** Days do not run backwards. *)
Lemma computeCurrentDay_monotone now1 now2 startMs speed :
  (0 ≤ speed)%Z → (now1 ≤ now2)%Z →
  (computeCurrentDay now1 startMs speed ≤ computeCurrentDay now2 startMs speed)%Z.
Proof. intros. rewrite !computeCurrentDay_div. apply Z.div_le_mono; nia. Qed.

(** Day [n] lasts from the first moment [n] game days have passed until the
    next has. *)
Lemma computeCurrentDay_spec nowMs startMs speed n :
  computeCurrentDay nowMs startMs speed = n ↔
  (n * 86400000 ≤ (nowMs - startMs) * speed < (n + 1) * 86400000)%Z.
Proof.
  rewrite computeCurrentDay_div. split.
  - intros <-. pose proof (Z.div_mod ((nowMs - startMs) * speed) 86400000).
    pose proof (Z.mod_pos_bound ((nowMs - startMs) * speed) 86400000). lia.
  - intros. symmetry. apply Z.div_unique with (r := ((nowMs - startMs) * speed - n * 86400000)%Z); lia.
Qed.

(** ** Rooms and their guests *)

(** (src/services/hotel/src/rooms/dto/rooms-response.dto.ts:1-7 RoomResponseDto) *)
Record RoomResponseDto : Type := {
  l_id : string;
  l_type : RoomType;
  l_capacity : Z;
  l_price_per_night : Z;
  current_guests : Z;
}.

Definition occupied_on (day : Z) : list Cond :=
  [StatusIs CONFIRMED; CheckInLte day; CheckOutGt day].

(** [new Map(entries)]: a later entry for a key replaces an earlier one. *)
Definition new_Map (entries : list (string * Z)) : gmap string Z :=
  foldl (λ m e, <[e.1 := e.2]> m) ∅ entries.

Definition room_response (m : gmap string Z) (room : Room) : RoomResponseDto := {|
  l_id := room_id room; l_type := room_type room; l_capacity := capacity room;
  l_price_per_night := price_per_night room;
  current_guests := default 0%Z (m !! room_id room)
|}.

Section rooms_service.
Context {DB : Type} `{PrismaClient DB}.

(** The two queries run together; [d] and [d'] are the databases they see.
    (src/services/hotel/src/rooms/rooms.service.ts:14-48 findAll) *)
Definition findAll (currentDay : Z) (d d' : DB) :
    outcome PrismaError (list RoomResponseDto) :=
  match room_findMany d None, reservation_groupBy_room d' (occupied_on currentDay) with
  | Returned rooms, Returned occupiedRooms =>
      let currentGuestsByRoomId :=
        new_Map ((λ g, (g.1, default 0%Z g.2)) <$> occupiedRooms) in
      Returned (room_response currentGuestsByRoomId <$> rooms)
  | Thrown e, _ => Thrown e
  | _, Thrown e => Thrown e
  end.

Lemma new_Map_lookup l k v :
  NoDup l.*1 → new_Map l !! k = Some v ↔ (k, v) ∈ l.
Proof.
  unfold new_Map. induction l as [|[k' v'] l IH] using rev_ind.
  { intros _. cbn. rewrite lookup_empty. set_solver. }
  rewrite fmap_app, foldl_app. intros Hnd. simpl.
  apply NoDup_app in Hnd as (Hnd & Hd & _). rewrite lookup_insert_Some, IH by done.
  rewrite elem_of_app, list_elem_of_singleton. split.
  - intros [[<- <-]|[_ ?]]; auto.
  - intros [Hin|[= -> ->]]; [|auto]. right. split; [|done]. intros ->.
    apply (Hd k); [|set_solver]. apply list_elem_of_fmap. by exists (k, v).
Qed.

Definition staying (t : Tables) (day : Z) (room : Room) (r : Reservation) : Prop :=
  ∃ id, reservations t !! id = Some r ∧ r_room_id r = room_id room ∧
    r_status r = CONFIRMED ∧ (r_check_in_day r ≤ day < r_check_out_day r)%Z.

Lemma matches_occupied day r :
  matches (occupied_on day) r = true ↔
  r_status r = CONFIRMED ∧ (r_check_in_day r ≤ day < r_check_out_day r)%Z.
Proof.
  unfold matches, occupied_on. simpl.
  rewrite !andb_true_iff, bool_decide_eq_true, Z.leb_le, Z.ltb_lt. intuition lia.
Qed.

(** The confirmed stays of one room on one day: at most one, when no room is
    double-booked. *)
Lemma staying_group t day room :
  no_double_booking t →
  let group := filter (λ kv, r_room_id kv.2 = room_id room) (selected t (occupied_on day)) in
  match map_to_list group with
  | [] => ∀ r, ¬ staying t day room r
  | [(_, r)] => staying t day room r
  | _ => False
  end.
Proof.
  intros Hno group.
  assert (∀ id r, (id, r) ∈ map_to_list group ↔ reservations t !! id = Some r ∧
    r_room_id r = room_id room ∧ r_status r = CONFIRMED ∧
    (r_check_in_day r ≤ day < r_check_out_day r)%Z) as Hin.
  { intros id r. unfold group. rewrite elem_of_map_to_list, map_lookup_filter_Some,
      selected_lookup, matches_occupied. simpl. tauto. }
  pose proof (NoDup_fst_map_to_list group) as Hnd.
  destruct (map_to_list group) as [|[id1 r1] [|[id2 r2] l]].
  - intros r (id & Hr). apply (Hin id r) in Hr. set_solver.
  - exists id1. apply Hin. set_solver.
  - destruct (Hin id1 r1) as [H1 _]. destruct (Hin id2 r2) as [H2 _].
    destruct H1 as (H1 & Hr1 & Hs1 & Hd1); [set_solver|].
    destruct H2 as (H2 & Hr2 & Hs2 & Hd2); [set_solver|].
    apply (Hno id1 id2 r1 r2); try done; [|congruence|unfold stays_meet; lia].
    simpl in Hnd. apply NoDup_cons in Hnd as [Hnin _]. set_solver.
Qed.

Lemma staying_unique t day room r r' :
  no_double_booking t → staying t day room r → staying t day room r' → r' = r.
Proof.
  intros Hno (i1 & H1 & Hr1 & Hs1 & Hd1) (i2 & H2 & Hr2 & Hs2 & Hd2).
  destruct (decide (i1 = i2)) as [->|Hne]; [congruence|].
  destruct (Hno i1 i2 r r'); try done; [congruence|]. unfold stays_meet. lia.
Qed.

(** The number the map holds for a room. *)
Definition guests_today (t : Tables) (day : Z) (room : Room) (n : Z) : Prop :=
  (∃ r, staying t day room r ∧ n = r_guest_count r) ∨
  (∀ r, ¬ staying t day room r) ∧ n = 0%Z.

Lemma guests_today_unique t day room n n' :
  no_double_booking t → guests_today t day room n → guests_today t day room n' → n' = n.
Proof.
  intros Hno [(r & Hs & ->)|[Hn ->]] [(r' & Hs' & ->)|[Hn' ->]].
  - by rewrite (staying_unique _ _ _ _ _ Hno Hs Hs').
  - by destruct (Hn' r).
  - by destruct (Hn r').
  - done.
Qed.

Lemma groupBy_guests d day gs room :
  no_double_booking (tables d) →
  reservation_groupBy_room d (occupied_on day) = Returned gs →
  guests_today (tables d) day room
    (default 0%Z (new_Map ((λ g, (g.1, default 0%Z g.2)) <$> gs) !! room_id room)).
Proof.
  intros Hno [Hnd Hgs]%reservation_groupBy_room_spec. set (m := new_Map _).
  assert (∀ s, m !! room_id room = Some s ↔ (room_id room, Some s) ∈ gs) as Hm.
  { intros s. unfold m. rewrite new_Map_lookup by (by rewrite <-list_fmap_compose).
    rewrite list_elem_of_fmap. split.
    - intros ([k o] & [= -> ->] & Hg). apply Hgs in Hg as Hg'. simpl in Hg'.
      destruct Hg' as [_ ->]. exact Hg.
    - intros Hg. by exists (room_id room, Some s). }
  pose proof (staying_group (tables d) day room Hno) as Hst.
  set (group := filter _ _) in Hst. cbv zeta in Hst.
  specialize (Hgs (room_id room)). cbv zeta in Hgs. fold group in Hgs.
  destruct (map_to_list group) as [|[id r] [|? ?]] eqn:Hl; [| |done].
  - right. split; [done|]. apply map_to_list_empty_iff in Hl.
    destruct (m !! room_id room) as [s|] eqn:Es; [|done].
    destruct (Hm s) as [Hg _]. specialize (Hg eq_refl). apply Hgs in Hg. by destruct Hg.
  - left. exists r. split; [done|].
    assert (m !! room_id room = Some (guests_in group)) as ->.
    { apply Hm, Hgs. split; [|done]. intros He. by rewrite He, map_to_list_empty in Hl. }
    unfold guests_in. rewrite Hl. unfold sum_with. simpl. lia.
Qed.

(** Every room is listed, with the guests of the one reservation whose stay
    covers the day, or none. *)
Lemma findAll_spec day d l :
  hotel_inv (tables d) → findAll day d d = Returned l →
  ∀ o, o ∈ l ↔ ∃ room, rooms (tables d) !! l_id o = Some room ∧
    l_type o = room_type room ∧ l_capacity o = capacity room ∧
    l_price_per_night o = price_per_night room ∧
    guests_today (tables d) day room (current_guests o).
Proof.
  intros Hi. unfold findAll. destruct (room_findMany d None) as [rs|] eqn:Hrs; [|done].
  destruct (reservation_groupBy_room d _) as [gs|] eqn:Hgs; [|done]. intros [= <-] o.
  pose proof (room_findMany_elem _ _ _ Hrs) as Hel. clear Hrs. rename Hel into Hrs.
  pose proof (λ room, groupBy_guests d day gs room (inv_disjoint _ Hi) Hgs) as Hroom.
  rewrite list_elem_of_fmap. split.
  - intros (room & -> & (id & Hid & _)%Hrs). exists room. split_and!; try done.
    simpl. by rewrite (inv_room_key _ Hi _ _ Hid).
  - intros (room & Hid & Hty & Hcap & Hpr & Hg). exists room.
    pose proof (inv_room_key _ Hi _ _ Hid) as Hkey. split; [|apply Hrs; eauto].
    pose proof (guests_today_unique _ _ _ _ _ (inv_disjoint _ Hi) (Hroom room) Hg).
    destruct o as [i ty c p g]. unfold room_response. simpl in *. f_equal; congruence.
Qed.

(** When no reservation names its party, no room is listed over its capacity. *)
Lemma findAll_within_capacity day d l :
  hotel_inv (tables d) →
  (∀ id r, reservations (tables d) !! id = Some r → r_guests r = []) →
  (∀ id room, rooms (tables d) !! id = Some room → (0 ≤ capacity room)%Z) →
  findAll day d d = Returned l → ∀ o, o ∈ l → (current_guests o ≤ l_capacity o)%Z.
Proof.
  intros Hi Hparty Hcap Hl o (room & Hid & _ & -> & _ & Hg)%(findAll_spec day d l Hi Hl).
  destruct Hg as [(r & (id & Hr & Hroom & _) & ->)|[_ ->]]; [|by eapply Hcap].
  destruct (inv_room _ Hi id r Hr) as (room' & Hr' & Hle). unfold party_of in Hle.
  rewrite (Hparty _ _ Hr) in Hle. rewrite Hroom, (inv_room_key _ Hi _ _ Hid) in Hr'. congruence.
Qed.
End rooms_service.

(** ** A room over its capacity

    When a party is named, its size alone is checked against the capacity,
    and [guest_count], which the listing adds up, may be anything. *)

#[local] Existing Instances MemDB.prisma MemDB.prisma_responsive.

Definition small_room : Room :=
  {| room_id := "room-standard-01"; room_type := STANDARD; capacity := 2; price_per_night := 100 |}.
Definition crowd : CreateReservationDto := {|
  c_guest_id := "tom"; c_room_type := STANDARD; c_guest_count := 9;
  c_party_guest_ids := Some ["tom"]; c_check_in_day := 1; c_check_out_day := 4
|}.
Definition crowd_hotel : Hotel Tables :=
  (create {| AIRPORT_SERVICE_URL := None; BROADCAST_SERVICE_URL := None |} "-"
     (λ _ _, FetchFails) crowd
     (MkHotel {| rooms := {["room-standard-01" := small_room]}; reservations := ∅ |} [])).2.

Lemma crowd_listed :
  match findAll 2 (db crowd_hotel) (db crowd_hotel) with
  | Returned [o] => l_capacity o = 2%Z ∧ current_guests o = 9%Z
  | _ => False
  end.
Proof. vm_compute. done. Qed.
