(* ===== verification/BroadcastTypes.v ===== *)
(** * The broadcast service's types and payload schemas

    [types.ts] and [schemas.ts]: channels, event types, the event that
    travels to the listeners, and what every producer may send. *)

From S2P Require Import Prelude Json Zod JsString.

(** (src/services/broadcast/src/types.ts:1-18 EventType) *)
Inductive EventType : Type :=
  | AIRPORT_ARRIVAL
  | HOTEL_CONFIRM
  | HOTEL_CANCEL
  | BEACH_FULL
  | BEACH_AVAILABLE
  | CRAB_ORDER_PLACED
  | CRAB_SOLD_OUT
  | PARROT_CURSED
  | PUBLIC_ANNOUNCEMENT
  | ADMIN_ANNOUNCEMENT.

Definition show_event_type (t : EventType) : string :=
  match t with
  | AIRPORT_ARRIVAL => "airport.arrival"
  | HOTEL_CONFIRM => "hotel.reservation_confirmed"
  | HOTEL_CANCEL => "hotel.reservation_cancelled"
  | BEACH_FULL => "beach.activity_full"
  | BEACH_AVAILABLE => "beach.activity_available"
  | CRAB_ORDER_PLACED => "crab.order_placed"
  | CRAB_SOLD_OUT => "crab.sold_out"
  | PARROT_CURSED => "parrot.cursed"
  | PUBLIC_ANNOUNCEMENT => "public.announcement"
  | ADMIN_ANNOUNCEMENT => "admin.announcement"
  end.

(** (src/services/broadcast/src/types.ts:24-32 ChannelId) *)
Inductive ChannelId : Type := Airport | Hotel | Beach | Crab | Parrot | Broadcast | ResortWide.

#[global] Instance EventType_eq_dec : EqDecision EventType.
Proof. solve_decision. Defined.
#[global] Instance ChannelId_eq_dec : EqDecision ChannelId.
Proof. solve_decision. Defined.

Definition show_channel (c : ChannelId) : string :=
  match c with
  | Airport => "airport" | Hotel => "hotel" | Beach => "beach" | Crab => "crab"
  | Parrot => "parrot" | Broadcast => "broadcast" | ResortWide => "resort-wide"
  end.

(** [Object.values(ChannelId)]. *)
Definition all_channels : list ChannelId :=
  [Airport; Hotel; Beach; Crab; Parrot; Broadcast; ResortWide].

Lemma channels_all c : c ∈ all_channels.
Proof. destruct c; set_solver. Qed.

#[global] Instance show_channel_inj : Inj (=) (=) show_channel.
Proof. by intros [] []. Qed.
#[global] Instance show_event_type_inj : Inj (=) (=) show_event_type.
Proof. by intros [] []. Qed.

(** (src/services/broadcast/src/types.ts:37-46 IslandEvent) *)
Record IslandEvent : Type := {
  id : string;
  channel : ChannelId;
  event_type : EventType;
  message : string;
  sender : string;
  guest_id : option string;
  guest_name : option string;
  data : option (list (string * json));
}.

(** The event as [JSON.stringify] sees it: an undefined property is left out. *)
Definition island_event_json (e : IslandEvent) : json := JObj
  ([("id", JStr (id e)); ("channel", JStr (show_channel (channel e)));
    ("event_type", JStr (show_event_type (event_type e)));
    ("message", JStr (message e)); ("sender", JStr (sender e))] ++
   jopt "guest_id" (JStr <$> guest_id e) ++ jopt "guest_name" (JStr <$> guest_name e) ++
   jopt "data" (JObj <$> data e)).

(** ** Payload schemas *)

(** (src/services/broadcast/src/schemas.ts:7-11 BaseFields) *)
Definition BaseFields : list (string * presence * schema) :=
  [("message", Optional, ZString); ("guest_id", Optional, ZString);
   ("guest_name", Optional, ZString)].

(** (src/services/broadcast/src/schemas.ts:13-19 AirportArrivalSchema) *)
Definition AirportArrivalSchema : schema := ZObject true
  (BaseFields ++ [("gate", Optional, ZString); ("passport_type", Optional, ZString)]).

(** (src/services/broadcast/src/schemas.ts:21-30 HotelEventSchema) *)
Definition HotelEventSchema : schema := ZObject true
  (BaseFields ++
   [("reservation_id", Optional, ZString); ("room_type", Optional, ZString);
    ("guest_count", Optional, ZNumber); ("check_in_day", Optional, ZNumber);
    ("check_out_day", Optional, ZNumber)]).

(** (src/services/broadcast/src/schemas.ts:32-37 BeachEventSchema) *)
Definition BeachEventSchema : schema := ZObject true
  (BaseFields ++ [("activity", Optional, ZString)]).

(** (src/services/broadcast/src/schemas.ts:39-44 CrabOrderLineSchema) *)
Definition CrabOrderLineSchema : schema := ZObject false
  [("item_id", Required, ZString); ("name", Required, ZString);
   ("emoji", Optional, ZString); ("qty", Required, ZNumber)].

(** (src/services/broadcast/src/schemas.ts:46-53 CrabOrderSchema) *)
Definition CrabOrderSchema : schema := ZObject true
  (BaseFields ++
   [("order_id", Optional, ZString); ("items", Optional, ZArray CrabOrderLineSchema);
    ("total", Optional, ZNumber)]).

(** (src/services/broadcast/src/schemas.ts:55-61 CrabSoldOutSchema) *)
Definition CrabSoldOutSchema : schema := ZObject true
  (BaseFields ++ [("item_id", Optional, ZString); ("name", Optional, ZString)]).

(** (src/services/broadcast/src/schemas.ts:63-69 CursedEventSchema) *)
Definition CursedEventSchema : schema := ZObject true
  [("guest_id", Required, ZStringMin 1); ("message", Required, ZStringMin 1);
   ("triggered_word", Required, ZArrayMin ZString 1)].

(** (src/services/broadcast/src/schemas.ts:71-76 PublicAnnouncementSchema) *)
Definition PublicAnnouncementSchema : schema := ZObject true
  [("guestName", Required, ZStringMin 1); ("message", Required, ZStringMin 1)].

(** (src/services/broadcast/src/schemas.ts:78-83 AdminAnnouncementSchema) *)
Definition AdminAnnouncementSchema : schema := ZObject true
  [("message", Required, ZStringMin 1); ("sender", Optional, ZString)].
