(* ===== verification/BroadcastAuth.v ===== *)
(** * Who may listen, who may announce

    [serviceAuth.ts] and [adminAuth.ts].  Environment variables are read at
    every call; here they are the argument [env]. *)

From S2P Require Import Prelude JsString BroadcastTypes.

(** What the authentication reads of a request.  A query parameter that is
    repeated or nested is not a string. *)
Inductive QueryValue : Type := QString (s : string) | QOther.
Record AuthRequest : Type := {
  authorization : option string;
  x_service_token : option string;
  query_token : option QueryValue;
  x_admin_passcode : option string;
}.

(** (src/services/broadcast/src/serviceAuth.ts:4-7 ServiceIdentity) *)
Record ServiceIdentity : Type := {
  name : string;
  allowedChannels : list ChannelId;
}.

Definition registry_entry (name envVar : string) (channels : list ChannelId) :
    string * (string * list ChannelId) := (name, (envVar, channels)).

(** (src/services/broadcast/src/serviceAuth.ts:19-25 SERVICE_REGISTRY) *)
Definition SERVICE_REGISTRY : list (string * (string * list ChannelId)) :=
  [registry_entry "frontend" "FE_TOKEN" all_channels;
   registry_entry "hotel" "HOTEL_TOKEN" [];
   registry_entry "beach" "BEACH_TOKEN" [Hotel];
   registry_entry "airport" "AIRPORT_TOKEN" [];
   registry_entry "parrot" "PARROT_TOKEN" []].

(** [auth?.startsWith("Bearer ")].
    (src/services/broadcast/src/serviceAuth.ts:28-29 auth) *)
Definition bearer (auth : option string) : option string :=
  match auth with
  | Some auth => if startsWith "Bearer " auth then Some (trim (slice_from 7 auth)) else None
  | None => None
  end.

(** (src/services/broadcast/src/serviceAuth.ts:27-40 extractToken) *)
Definition extractToken (req : AuthRequest) : option string :=
  match bearer (authorization req) with
  | Some t => Some t
  | None =>
      let queryToken := match query_token req with Some (QString q) => Some q | _ => None end in
      match x_service_token req with
      | Some headerToken => if truthy headerToken then Some headerToken else queryToken
      | None => queryToken
      end
  end.

(** (src/services/broadcast/src/serviceAuth.ts:54-55 configured) *)
Definition configured_as (env : string → option string) (token envVar : string) : bool :=
  match env envVar with
  | Some configured => truthy configured && bool_decide (token = configured)
  | None => false
  end.

(** The first entry whose configured token is the one presented.
    (src/services/broadcast/src/serviceAuth.ts:53-60 for) *)
Fixpoint identify_in (env : string → option string) (token : string)
    (registry : list (string * (string * list ChannelId))) : option ServiceIdentity :=
  match registry with
  | [] => None
  | (n, (envVar, channels)) :: registry =>
      if configured_as env token envVar
      then Some {| name := n; allowedChannels := channels |}
      else identify_in env token registry
  end.

(** (src/services/broadcast/src/serviceAuth.ts:49-61 identifyService) *)
Definition identifyService (env : string → option string) (req : AuthRequest) :
    option ServiceIdentity :=
  match extractToken req with
  | Some token => if truthy token then identify_in env token SERVICE_REGISTRY else None
  | None => None
  end.

(** [true] is [next()], [false] the 401 answer.
    (src/services/broadcast/src/adminAuth.ts:5-15 requireAdmin) *)
Definition requireAdmin (env : string → option string) (req : AuthRequest) : bool :=
  match env "ADMIN_PASSCODE", x_admin_passcode req with
  | Some configured, Some provided =>
      truthy configured && truthy provided && bool_decide (provided = configured)
  | _, _ => false
  end.

(** ** Facts *)

Lemma truthy_true s : truthy s = true ↔ s ≠ "".
Proof. unfold truthy. apply bool_decide_eq_true. Qed.

Lemma configured_as_true env token envVar :
  configured_as env token envVar = true ↔ env envVar = Some token ∧ token ≠ "".
Proof.
  unfold configured_as. destruct (env envVar) as [c|]; [|naive_solver].
  rewrite andb_true_iff, truthy_true, bool_decide_eq_true. naive_solver.
Qed.

(** Every identity is a registered service whose non-empty token was
    presented; the channels are the registry's. *)
Lemma identifyService_sound env req who :
  identifyService env req = Some who →
  ∃ envVar token, (name who, (envVar, allowedChannels who)) ∈ SERVICE_REGISTRY ∧
    extractToken req = Some token ∧ env envVar = Some token ∧ token ≠ "".
Proof.
  unfold identifyService. destruct (extractToken req) as [token|]; [|done].
  destruct (truthy token); [|done]. generalize SERVICE_REGISTRY. intros registry.
  induction registry as [|[n [v cs]] registry IH]; simpl; [done|].
  destruct (configured_as env token v) eqn:Hc.
  - intros [= <-]. apply configured_as_true in Hc as [? ?]. simpl. exists v, token.
    split; [apply list_elem_of_here|done].
  - intros (v' & t & ? & ?)%IH. exists v', t.
    split; [by apply list_elem_of_further|done].
Qed.

(** A registered service that presents its own token is let in, with its own
    channels when no other service is configured with the same token. *)
Lemma identifyService_complete env req n envVar channels token :
  (n, (envVar, channels)) ∈ SERVICE_REGISTRY →
  extractToken req = Some token → token ≠ "" → env envVar = Some token →
  (∀ n' v' cs', (n', (v', cs')) ∈ SERVICE_REGISTRY → env v' = Some token → v' = envVar) →
  identifyService env req = Some {| name := n; allowedChannels := channels |}.
Proof.
  intros Hin Htok Hne Henv Huniq. unfold identifyService. rewrite Htok.
  rewrite (proj2 (truthy_true token)) by done.
  assert (NoDup (SERVICE_REGISTRY.*2.*1)) as Hnd by (apply (bool_decide_unpack _); done).
  revert Hnd Huniq Hin. generalize SERVICE_REGISTRY. intros registry.
  induction registry as [|[n' [v' cs']] registry IH]; simpl; [set_solver|].
  intros [Hv Hnd]%NoDup_cons Huniq Hin.
  destruct (configured_as env token v') eqn:Hc.
  - apply configured_as_true in Hc as [Hc _].
    assert (v' = envVar) as -> by (apply (Huniq n' v' cs'); [apply list_elem_of_here|done]).
    apply elem_of_cons in Hin as [[= -> ->]|Hin]; [done|]. destruct Hv.
    apply list_elem_of_fmap. exists (envVar, channels). split; [done|].
    apply list_elem_of_fmap. by exists (n, (envVar, channels)).
  - apply elem_of_cons in Hin as [[= -> -> ->]|Hin].
    + assert (configured_as env token v' = true) by (by apply configured_as_true). congruence.
    + apply IH; [done| |done]. intros n2 v2 cs2 Hin2. apply (Huniq n2 v2 cs2).
      by apply list_elem_of_further.
Qed.

(** Without a token, or with one nobody is configured with, there is no
    identity. *)
Lemma identifyService_None env req :
  identifyService env req = None ↔
  ∀ token, extractToken req = Some token → token ≠ "" →
  ∀ n v cs, (n, (v, cs)) ∈ SERVICE_REGISTRY → env v ≠ Some token.
Proof.
  unfold identifyService. destruct (extractToken req) as [token|]; [|naive_solver].
  destruct (truthy token) eqn:Ht.
  2: { split; [|done]. intros _ t [= <-] Hne%truthy_true. congruence. }
  apply truthy_true in Ht. trans (∀ n v cs, (n, (v, cs)) ∈ SERVICE_REGISTRY → env v ≠ Some token).
  2: { naive_solver. }
  generalize SERVICE_REGISTRY. intros registry.
  induction registry as [|[n [v cs]] registry IH]; simpl; [set_solver|].
  destruct (configured_as env token v) eqn:Hc.
  - apply configured_as_true in Hc as [Hc _]. split; [done|]. intros H. exfalso.
    apply (H n v cs); [apply list_elem_of_here|done].
  - rewrite IH. split.
    + intros H n' v' cs' [[= -> -> ->]|?]%elem_of_cons; [|eauto]. intros Hv.
      assert (configured_as env token v = true) by (by apply configured_as_true). congruence.
    + intros H n' v' cs' ?. apply (H n' v' cs').
      by apply list_elem_of_further.
Qed.

(** The administrator passes exactly with the configured, non-empty passcode;
    an unset one admits nobody. *)
Lemma requireAdmin_iff env req :
  requireAdmin env req = true ↔
  ∃ code, env "ADMIN_PASSCODE" = Some code ∧ x_admin_passcode req = Some code ∧ code ≠ "".
Proof.
  unfold requireAdmin. destruct (env _) as [c|], (x_admin_passcode req) as [p|];
    rewrite ?andb_true_iff, ?truthy_true, ?bool_decide_eq_true; naive_solver.
Qed.
