(* ===== verification/EventBus.v ===== *)
(** * The event bus

    [eventBus.ts]: the module-level list of connected clients and the three
    functions that use it.  A response object is identified by a number; what
    is written to it is appended to [written], so the stream a connection
    receives is the sequence of its chunks.  Each broadcast ends with a console
    line; [log] keeps the event it was printed for. *)

From S2P Require Import Prelude Json JsString JsonText BroadcastTypes.

(** (src/services/broadcast/src/eventBus.ts:4-7 ConnectedClient) *)
Record ConnectedClient : Type := {
  res : nat;
  allowed : list ChannelId;
}.

(** (src/services/broadcast/src/eventBus.ts:9-9 clients) *)
Record Bus : Type := MkBus {
  clients : list ConnectedClient;
  written : list (nat * string);
  log : list IslandEvent;
}.

Definition newline : string := String (chr 10) "".

(** [: connected\n\n]. *)
Definition connected_chunk : string := ": connected" +:+ newline +:+ newline.

(** [data: ${JSON.stringify(event)}\n\n]. *)
Definition frame (e : IslandEvent) : string :=
  "data: " +:+ JSON_stringify (island_event_json e) +:+ newline +:+ newline.

Definition write (r : nat) (chunk : string) (b : Bus) : Bus :=
  MkBus (clients b) (written b ++ [(r, chunk)]) (log b).

(** (src/services/broadcast/src/eventBus.ts:11-17 addClient) *)
Definition addClient (r : nat) (channels : list ChannelId) (b : Bus) : Bus :=
  let b := write r connected_chunk b in
  MkBus (clients b ++ [{| res := r; allowed := channels |}]) (written b) (log b).

(** [findIndex] of the response, then [splice] of one element. *)
Fixpoint remove_first (r : nat) (l : list ConnectedClient) : list ConnectedClient :=
  match l with
  | [] => []
  | c :: l => if decide (res c = r) then l else c :: remove_first r l
  end.

(** (src/services/broadcast/src/eventBus.ts:19-25 removeClient) *)
Definition removeClient (r : nat) (b : Bus) : Bus :=
  MkBus (remove_first r (clients b)) (written b) (log b).

(** (src/services/broadcast/src/eventBus.ts:27-40 broadcast) *)
Definition broadcast (e : IslandEvent) (b : Bus) : Bus :=
  let b := foldl (λ b c,
      if bool_decide (channel e ∈ allowed c) then write (res c) (frame e) b else b)
    b (clients b) in
  MkBus (clients b) (written b) (log b ++ [e]).

(** The stream of one connection. *)
Definition stream (r : nat) (b : Bus) : list string :=
  (filter (λ w, w.1 = r) (written b)).*2.

(** ** Facts *)

Lemma broadcast_written e b :
  broadcast e b = MkBus (clients b) (written b ++
    ((λ c, (res c, frame e)) <$> filter (λ c, channel e ∈ allowed c) (clients b))) (log b ++ [e]).
Proof.
  unfold broadcast.
  assert (∀ l b,
    foldl (λ b c, if bool_decide (channel e ∈ allowed c) then write (res c) (frame e) b else b)
      b l =
    MkBus (clients b) (written b ++
      ((λ c, (res c, frame e)) <$> filter (λ c, channel e ∈ allowed c) l)) (log b)) as H.
  { clear b. induction l as [|c l IH]; intros b; simpl; [rewrite app_nil_r; by destruct b|].
    rewrite filter_cons. case_bool_decide as Hc.
    - rewrite decide_True by done. rewrite IH. unfold write. simpl. by rewrite <-app_assoc.
    - rewrite decide_False by done. apply IH. }
  by rewrite H.
Qed.

Lemma stream_write r r' chunk b :
  stream r (write r' chunk b) = stream r b ++ (if decide (r' = r) then [chunk] else []).
Proof.
  unfold stream, write. simpl. rewrite filter_app, fmap_app, filter_cons. simpl.
  case_decide; by rewrite filter_nil.
Qed.

(** Distinct connections have distinct responses. *)
Definition distinct (b : Bus) : Prop := NoDup (res <$> clients b).

(** The connection is among the clients and may read the channel. *)
Definition listens (r : nat) (ch : ChannelId) (l : list ConnectedClient) : bool :=
  existsb (λ c, bool_decide (res c = r ∧ ch ∈ allowed c)) l.

Lemma listens_true r ch l :
  listens r ch l = true ↔ ∃ c, c ∈ l ∧ res c = r ∧ ch ∈ allowed c.
Proof.
  unfold listens. rewrite existsb_exists. setoid_rewrite bool_decide_eq_true.
  setoid_rewrite list_elem_of_In. done.
Qed.

(** A broadcast adds one frame to the stream of every client that may read the
    channel, and nothing to any other stream. *)
Lemma stream_broadcast e b r :
  distinct b →
  stream r (broadcast e b) =
  stream r b ++ (if listens r (channel e) (clients b) then [frame e] else []).
Proof.
  unfold distinct. intros Hd. rewrite broadcast_written. unfold stream. simpl.
  rewrite filter_app, fmap_app. f_equal.
  induction (clients b) as [|c l IH]; [done|].
  rewrite fmap_cons in Hd. apply NoDup_cons in Hd as [Hc Hd]. specialize (IH Hd).
  rewrite filter_cons. cbn [listens existsb].
  destruct (decide (channel e ∈ allowed c)) as [Ha|Ha].
  - rewrite fmap_cons, filter_cons. cbn [fst]. destruct (decide (res c = r)) as [<-|Hne].
    + rewrite bool_decide_true by done. rewrite fmap_cons. cbn [snd orb].
      assert (listens (res c) (channel e) l = false) as Hl.
      { apply not_true_is_false. intros (c' & Hin & Heq & _)%listens_true. apply Hc.
        apply list_elem_of_fmap. eauto. }
      by rewrite IH, Hl.
    + rewrite bool_decide_false by naive_solver. apply IH.
  - rewrite bool_decide_false by naive_solver. apply IH.
Qed.

Lemma remove_first_elem r l c :
  NoDup (res <$> l) → c ∈ remove_first r l ↔ c ∈ l ∧ res c ≠ r.
Proof.
  induction l as [|c' l IH]; simpl; [set_solver|]. intros [Hc Hd]%NoDup_cons.
  case_decide as Hr.
  - subst r. rewrite elem_of_cons. split.
    + intros Hin. split; [by right|]. intros Heq. apply Hc. rewrite <-Heq.
      by apply list_elem_of_fmap_2.
    + intros [[->|Hin] Hne]; done.
  - rewrite !elem_of_cons, IH by done. naive_solver.
Qed.

Lemma remove_first_sublist r l : sublist (res <$> remove_first r l) (res <$> l).
Proof.
  induction l as [|c l IH]; simpl; [constructor|]. case_decide.
  - by apply sublist_cons.
  - by apply sublist_skip.
Qed.

Lemma distinct_remove r b : distinct b → distinct (removeClient r b).
Proof. unfold distinct. simpl. intros. by eapply sublist_NoDup, remove_first_sublist. Qed.

(** The frame of an event: one [data:] line that carries the event's JSON text,
    without a line break of its own, closed by an empty line. *)
Lemma frame_shape e :
  ∃ text, frame e = "data: " +:+ text +:+ newline +:+ newline ∧
    Forall (λ c, (32 ≤ code c)%Z) (chars text) ∧
    (printable (island_event_json e) → JSON_parse text = Some (island_event_json e)).
Proof.
  exists (JSON_stringify (island_event_json e)). split_and!; [done| |by apply JSON_parse_stringify].
  unfold JSON_stringify. rewrite chars_of_chars. apply print_json_visible.
Qed.
