(* ===== verification/BroadcastRoutes.v ===== *)
(** * The broadcast service's routes

    [validate.ts], the routers under [routes/], and their mounting in
    [app.ts].  A publishing route takes the identifier [uuid()] will return,
    the JSON body and the bus, and gives the response and the bus after it.
    The matching of paths is Express's; a request here carries the canonical
    path of its route. *)

From S2P Require Import Prelude Json Zod JsString BroadcastTypes BroadcastAuth EventBus.

(** ** Responses and body validation *)

Record Response : Type := { status : Z; body : json }.

(** (src/services/broadcast/src/routes/crab.ts:27-27 json) *)
Definition success : Response := {| status := 200; body := JObj [("success", JBool true)] |}.
Definition error_response (st : Z) (msg : string) : Response :=
  {| status := st; body := JObj [("error", JStr msg)] |}.

(** (src/services/broadcast/src/validate.ts:19-22 details) *)
Definition issue_json (i : ZodIssue) : json :=
  JObj [("path", JStr (join "." (issue_path i))); ("message", JStr (issue_message i))].

(** (src/services/broadcast/src/validate.ts:17-23 json) *)
Definition invalid_payload (issues : list ZodIssue) : Response := {|
  status := 400;
  body := JObj [("error", JStr "Invalid payload"); ("details", JArr (issue_json <$> issues))]
|}.

Definition req_string (k : string) (d : list (string * json)) : string :=
  default "" (opt_string k d).

(** [const { message, guest_id, guest_name, ...data } = body]
    (src/services/broadcast/src/routes/crab.ts:14-14 data) *)
Definition rest_data (d : list (string * json)) : list (string * json) :=
  omit ["message"; "guest_id"; "guest_name"] d.

(** The event of the routes that forward the rest of the body as [data].
    (src/services/broadcast/src/routes/crab.ts:14-25 broadcast) *)
Definition service_event (uuid : string) (ch : ChannelId) (ty : EventType)
    (default_message from : string) (d : list (string * json)) : IslandEvent := {|
  id := uuid; channel := ch; event_type := ty;
  message := default default_message (opt_string "message" d);
  sender := from;
  guest_id := opt_string "guest_id" d; guest_name := opt_string "guest_name" d;
  data := Some (rest_data d)
|}.

Section routes.
Context `{Zod}.

(** [inl] is the answer already sent.
    (src/services/broadcast/src/validate.ts:9-28 parseBody) *)
Definition parseBody (s : schema) (body : json) : Response + list (string * json) :=
  match safeParse s body with
  | inl issues => inl (invalid_payload issues)
  | inr (JObj d) => inr d
  | inr _ => inr []
  end.

(** Validate, then broadcast the event made of the parsed body.
    (src/services/broadcast/src/routes/crab.ts:10-28 post) *)
Definition publish (s : schema) (event : list (string * json) → IslandEvent)
    (body : json) (b : Bus) : Response * Bus :=
  match parseBody s body with
  | inl response => (response, b)
  | inr d => (success, broadcast (event d) b)
  end.

(** (src/services/broadcast/src/routes/airport.ts:11-31 post_arrival) *)
Definition airport_arrival (uuid : string) : json → Bus → Response * Bus :=
  publish AirportArrivalSchema
    (service_event uuid Airport AIRPORT_ARRIVAL "A guest arrived at the airport." "airport").

(** (src/services/broadcast/src/routes/hotel.ts:12-32 post_confirm) *)
Definition hotel_confirm (uuid : string) : json → Bus → Response * Bus :=
  publish HotelEventSchema
    (service_event uuid Hotel HOTEL_CONFIRM "A reservation was confirmed." "hotel").

(** (src/services/broadcast/src/routes/hotel.ts:34-54 post_cancel) *)
Definition hotel_cancel (uuid : string) : json → Bus → Response * Bus :=
  publish HotelEventSchema
    (service_event uuid Hotel HOTEL_CANCEL "A reservation was cancelled." "hotel").

(** (src/services/broadcast/src/routes/beach.ts:10-30 post_full) *)
Definition beach_full (uuid : string) : json → Bus → Response * Bus :=
  publish BeachEventSchema
    (service_event uuid Beach BEACH_FULL "A beach activity reached capacity." "beach").

(** (src/services/broadcast/src/routes/beach.ts:32-52 post_available) *)
Definition beach_available (uuid : string) : json → Bus → Response * Bus :=
  publish BeachEventSchema
    (service_event uuid Beach BEACH_AVAILABLE "A beach activity has availability." "beach").

(** (src/services/broadcast/src/routes/crab.ts:10-28 post_order) *)
Definition crab_order (uuid : string) : json → Bus → Response * Bus :=
  publish CrabOrderSchema
    (service_event uuid Crab CRAB_ORDER_PLACED "A guest ordered at the Crusty Crab." "crab").

(** (src/services/broadcast/src/routes/crab.ts:30-48 post_sold_out) *)
Definition crab_sold_out (uuid : string) : json → Bus → Response * Bus :=
  publish CrabSoldOutSchema
    (service_event uuid Crab CRAB_SOLD_OUT "An item sold out at the Crusty Crab." "crab").

(** (src/services/broadcast/src/routes/cursed.ts:12-31 post_cursed) *)
Definition cursed (uuid : string) : json → Bus → Response * Bus :=
  publish CursedEventSchema (λ d, {|
    id := uuid; channel := Parrot; event_type := PARROT_CURSED;
    message := req_string "message" d; sender := "parrot";
    guest_id := opt_string "guest_id" d; guest_name := None;
    data := Some (jopt "triggered_word" (jget "triggered_word" d)) |}).

(** (src/services/broadcast/src/routes/public.ts:11-28 post_public) *)
Definition public_announcement (uuid : string) : json → Bus → Response * Bus :=
  publish PublicAnnouncementSchema (λ d, {|
    id := uuid; channel := Broadcast; event_type := PUBLIC_ANNOUNCEMENT;
    message := req_string "message" d; sender := req_string "guestName" d;
    guest_id := None; guest_name := None; data := None |}).

(** (src/services/broadcast/src/routes/admin.ts:11-28 post_announcement) *)
Definition admin_announcement (env : string → option string) (auth : AuthRequest)
    (uuid : string) (body : json) (b : Bus) : Response * Bus :=
  if requireAdmin env auth then
    publish AdminAnnouncementSchema (λ d, {|
      id := uuid; channel := ResortWide; event_type := ADMIN_ANNOUNCEMENT;
      message := req_string "message" d; sender := default "Admin" (opt_string "sender" d);
      guest_id := None; guest_name := None; data := None |}) body b
  else (error_response 401 "Admin authentication required", b).

(** [inr] is an open stream, whose headers are set and which closes with the
    request. (src/services/broadcast/src/routes/events.ts:7-25 get_events) *)
Definition get_events (env : string → option string) (auth : AuthRequest) (r : nat) (b : Bus) :
    (Response + ServiceIdentity) * Bus :=
  match identifyService env auth with
  | None => (inl (error_response 401 "Service authentication required"), b)
  | Some identity => (inr identity, addClient r (allowedChannels identity) b)
  end.

(** (src/services/broadcast/src/app.ts:21-23 get_health) *)
Definition get_health : Response :=
  {| status := 200; body := JObj [("status", JStr "healthy")] |}.

(** ** The mounted routes *)

(** The publishing handler of a path.
    (src/services/broadcast/src/app.ts:15-35 createApp) *)
Definition post_handler (path : string) :
    option ((string → option string) → AuthRequest → string → json → Bus → Response * Bus) :=
  if decide (path = "/airport/arrival") then Some (λ _ _, airport_arrival)
  else if decide (path = "/hotel/confirm") then Some (λ _ _, hotel_confirm)
  else if decide (path = "/hotel/cancel") then Some (λ _ _, hotel_cancel)
  else if decide (path = "/beach/full") then Some (λ _ _, beach_full)
  else if decide (path = "/beach/available") then Some (λ _ _, beach_available)
  else if decide (path = "/crab/order") then Some (λ _ _, crab_order)
  else if decide (path = "/crab/sold-out") then Some (λ _ _, crab_sold_out)
  else if decide (path = "/cursed") then Some (λ _ _, cursed)
  else if decide (path = "/public") then Some (λ _ _, public_announcement)
  else if decide (path = "/admin/announcement") then Some admin_announcement
  else None.

(** *** What a publishing route does *)

(** A body its schema rejects is answered with 400 and changes nothing. *)
Lemma publish_rejects s ev body b :
  conforms s body = false →
  ∃ issues, publish s ev body b = (invalid_payload issues, b) ∧ issues ≠ [].
Proof.
  intros Hc. destruct (safeParse_failure s body Hc) as (i & rest & Hp).
  exists (i :: rest). unfold publish, parseBody. by rewrite Hp.
Qed.

(** A body its schema accepts is answered with success and broadcast once. *)
Lemma publish_accepts strict fs ev body b :
  conforms (ZObject strict fs) body = true →
  ∃ kvs, body = JObj kvs ∧
    publish (ZObject strict fs) ev body b = (success, broadcast (ev (fields_data fs kvs)) b).
Proof.
  intros Hc. destruct (conforms_object_inv _ _ _ Hc) as (kvs & -> & _).
  exists kvs. split; [done|]. unfold publish, parseBody.
  by rewrite (safeParse_success _ _ Hc), project_object.
Qed.

(** The outcomes of any publishing route. *)
Lemma post_handler_cases path h env auth uuid body b :
  post_handler path = Some h →
  (∃ response, h env auth uuid body b = (response, b) ∧
    (status response = 400 ∨ status response = 401)%Z) ∨
  (∃ e, h env auth uuid body b = (success, broadcast e b) ∧ id e = uuid).
Proof.
  assert (∀ s ev, (∀ d, id (ev d) = uuid) →
    (∃ response, publish s ev body b = (response, b) ∧
      (status response = 400 ∨ status response = 401)%Z) ∨
    (∃ e, publish s ev body b = (success, broadcast e b) ∧ id e = uuid)) as Hpub.
  { intros s ev Hid. unfold publish, parseBody. destruct (safeParse s body) as [issues|d].
    - left. eexists. split; [done|]. by left.
    - right. destruct d; eauto. }
  unfold post_handler. intros Hh. repeat case_decide; try done; injection Hh as <-;
    try (by apply Hpub).
  unfold admin_announcement. destruct (requireAdmin env auth); [by apply Hpub|].
  left. eexists. split; [done|]. by right.
Qed.
End routes.
