(* ===== verification/BroadcastService.v ===== *)
(** * The broadcast service as a whole

    Connections open and close and events are published, in any order.  The
    stream a connection receives is determined by what it was granted when it
    opened: the greeting, then the events broadcast on its channels while it
    was open, each once, in the order of their broadcast. *)

From S2P Require Import Prelude Json Zod JsString JsonText.
From S2P Require Import BroadcastTypes BroadcastAuth EventBus BroadcastRoutes.

(** The bus, with what each response was granted: the identity behind it, and
    how many events had been broadcast when it opened. *)
Record Service : Type := MkService {
  bus : Bus;
  grants : gmap nat (ServiceIdentity * nat);
}.

Definition start : Service := MkService (MkBus [] [] []) ∅.

Section service.
Context `{Zod}.

Inductive service_step : Service → Service → Prop :=
  | step_connect s env auth r who b :
      grants s !! r = None →
      get_events env auth r (bus s) = (inr who, b) →
      service_step s (MkService b (<[r := (who, length (log (bus s)))]> (grants s)))
  | step_refuse s env auth r response b :
      get_events env auth r (bus s) = (inl response, b) →
      service_step s (MkService b (grants s))
  | step_close s r :
      service_step s (MkService (removeClient r (bus s)) (grants s))
  | step_post s path h env auth uuid body response b :
      post_handler path = Some h →
      h env auth uuid body (bus s) = (response, b) →
      service_step s (MkService b (grants s)).

Definition service_reachable : Service → Prop := reachable (λ s, s = start) service_step.

(** The frames of the events a connection was entitled to. *)
Definition entitled (who : ServiceIdentity) (events : list IslandEvent) : list string :=
  frame <$> filter (λ e, channel e ∈ allowedChannels who) events.

Lemma entitled_app who l k : entitled who (l ++ k) = entitled who l ++ entitled who k.
Proof. unfold entitled. by rewrite filter_app, fmap_app. Qed.

Lemma entitled_single who e :
  entitled who [e] = if decide (channel e ∈ allowedChannels who) then [frame e] else [].
Proof. unfold entitled. rewrite filter_cons, filter_nil. by case_decide. Qed.

Record service_inv (s : Service) : Prop := {
  si_distinct : distinct (bus s);
  (** a client was granted its channels when it connected *)
  si_granted : ∀ c, c ∈ clients (bus s) →
    ∃ who n, grants s !! res c = Some (who, n) ∧ allowed c = allowedChannels who ∧
      n ≤ length (log (bus s)) ∧
      stream (res c) (bus s) = connected_chunk :: entitled who (drop n (log (bus s)));
  (** a response that was never granted a stream has received nothing *)
  si_silent : ∀ r, grants s !! r = None → stream r (bus s) = [];
  (** any granted stream is a part of what it was entitled to *)
  si_entitled : ∀ r who n, grants s !! r = Some (who, n) →
    ∃ m, n ≤ m ≤ length (log (bus s)) ∧
      stream r (bus s) = connected_chunk :: entitled who (take (m - n) (drop n (log (bus s))));
  (** whoever was granted a stream had identified itself *)
  si_identified : ∀ r who n, grants s !! r = Some (who, n) →
    ∃ env auth, identifyService env auth = Some who;
}.

Lemma take_drop_app {A} n m (l : list A) x :
  n ≤ m ≤ length l → take (m - n) (drop n (l ++ [x])) = take (m - n) (drop n l).
Proof.
  intros Hm. rewrite drop_app_le by lia. rewrite take_app_le; [done|]. rewrite length_drop. lia.
Qed.

Lemma inv_broadcast s e :
  service_inv s → service_inv (MkService (broadcast e (bus s)) (grants s)).
Proof.
  intros Hi. pose proof (si_distinct s Hi) as Hd.
  pose proof (λ r, stream_broadcast e (bus s) r Hd) as Hstream.
  assert (clients (broadcast e (bus s)) = clients (bus s)) as Hcl
    by (by rewrite broadcast_written).
  assert (log (broadcast e (bus s)) = log (bus s) ++ [e]) as Hlog
    by (by rewrite broadcast_written).
  constructor; cbn [bus grants].
  - unfold distinct. by rewrite Hcl.
  - intros c Hc. rewrite Hcl in Hc. destruct (si_granted s Hi c Hc) as (who & n & Hg & Ha & Hn & Hs).
    exists who, n. rewrite Hlog, length_app, Hstream, Hs. split_and!; [done|done|lia|].
    rewrite drop_app_le, entitled_app, entitled_single by done.
    rewrite <-app_comm_cons. f_equal. f_equal.
    destruct (decide (channel e ∈ allowedChannels who)) as [Hch|Hch].
    + assert (listens (res c) (channel e) (clients (bus s)) = true) as ->; [|done].
      apply listens_true. exists c. by rewrite Ha.
    + assert (listens (res c) (channel e) (clients (bus s)) = false) as ->; [|done].
      apply not_true_is_false. intros (c' & Hc' & Hr & Hch')%listens_true. apply Hch.
      destruct (si_granted s Hi c' Hc') as (who' & n' & Hg' & Ha' & _).
      rewrite Hr, Hg in Hg'. injection Hg' as -> ->. by rewrite <-Ha'.
  - intros r Hr. rewrite Hstream, (si_silent s Hi r Hr).
    assert (listens r (channel e) (clients (bus s)) = false) as ->; [|done].
    apply not_true_is_false. intros (c & Hc & <- & _)%listens_true.
    destruct (si_granted s Hi c Hc) as (who & n & Hg & _). congruence.
  - intros r who n Hg. rewrite Hlog, length_app, Hstream. cbn [length].
    destruct (listens r (channel e) (clients (bus s))) eqn:Hl.
    + apply listens_true in Hl as (c & Hc & <- & Hch).
      destruct (si_granted s Hi c Hc) as (who' & n' & Hg' & Ha & Hn & Hs).
      rewrite Hg in Hg'. injection Hg' as <- <-.
      exists (S (length (log (bus s)))). split; [lia|]. rewrite Hs, <-app_comm_cons. f_equal.
      rewrite drop_app_le, take_ge by (rewrite ?length_app, ?length_drop; cbn; lia).
      rewrite entitled_app, entitled_single, decide_True by (by rewrite <-Ha).
      done.
    + destruct (si_entitled s Hi r who n Hg) as (m & Hm & ->). exists m. split; [lia|].
      rewrite app_nil_r, take_drop_app by done. done.
  - apply (si_identified s Hi).
Qed.

Lemma inv_connect s r who env auth :
  service_inv s → grants s !! r = None → identifyService env auth = Some who →
  service_inv (MkService (addClient r (allowedChannels who) (bus s))
    (<[r := (who, length (log (bus s)))]> (grants s))).
Proof.
  intros Hi Hr Hwho.
  assert (∀ r', stream r' (addClient r (allowedChannels who) (bus s)) =
    stream r' (bus s) ++ (if decide (r = r') then [connected_chunk] else [])) as Hstream.
  { intros r'. apply stream_write. }
  assert (r ∉ (res <$> clients (bus s))) as Hnew.
  { intros (c & -> & Hc)%list_elem_of_fmap. destruct (si_granted s Hi c Hc) as (? & ? & Hg & _).
    congruence. }
  constructor; cbn [bus grants clients addClient write written log].
  - unfold distinct. cbn. rewrite fmap_app. apply NoDup_app. split_and!.
    + apply (si_distinct s Hi).
    + cbn. set_solver.
    + cbn. apply NoDup_singleton.
  - intros c [Hc|Hc]%elem_of_app.
    + destruct (si_granted s Hi c Hc) as (who' & n & Hg & Ha & Hn & Hs).
      assert (r ≠ res c) as Hne by (intros ->; congruence).
      exists who', n. rewrite lookup_insert_ne, Hstream, decide_False, app_nil_r by done. done.
    + apply list_elem_of_singleton in Hc as ->. cbn [res allowed].
      exists who, (length (log (bus s))). rewrite lookup_insert_eq. split_and!; [done..|].
      rewrite Hstream, (si_silent s Hi r Hr), decide_True, drop_all by done. done.
  - intros r' [Hg Hne]%lookup_insert_None.
    rewrite Hstream, decide_False, app_nil_r by done. by apply (si_silent s Hi).
  - intros r' who' n [[<- [= <- <-]]|[Hne Hg]]%lookup_insert_Some.
    + exists (length (log (bus s))). split; [done|].
      rewrite Hstream, (si_silent s Hi r Hr), decide_True, drop_all, take_nil by done. done.
    + rewrite Hstream, decide_False, app_nil_r by done. by apply (si_entitled s Hi).
  - intros r' who' n [[<- [= <- <-]]|[Hne Hg]]%lookup_insert_Some; [by eauto|].
    by apply (si_identified s Hi r' who' n).
Qed.

Lemma inv_close s r :
  service_inv s → service_inv (MkService (removeClient r (bus s)) (grants s)).
Proof.
  intros Hi. constructor; cbn [bus grants].
  - apply distinct_remove, (si_distinct s Hi).
  - intros c [Hc _]%remove_first_elem; [|apply (si_distinct s Hi)]. apply (si_granted s Hi c Hc).
  - apply (si_silent s Hi).
  - apply (si_entitled s Hi).
  - apply (si_identified s Hi).
Qed.

Lemma service_reachable_inv s : service_reachable s → service_inv s.
Proof.
  apply invariant_reachable.
  - intros ? ->. constructor; cbn; try done. apply NoDup_nil_2. intros c. set_solver.
  - intros s1 s2 Hi Hstep.
    destruct Hstep as [s1 env auth r who b Hr Hg|s1 env auth r response b Hg|s1 r
      |s1 path h env auth uuid body response b Hh Hb].
    + unfold get_events in Hg. destruct (identifyService env auth) as [who'|] eqn:Hid; [|done].
      injection Hg as <- <-. by eapply inv_connect.
    + unfold get_events in Hg. destruct (identifyService env auth); [done|].
      injection Hg as <- <-. by destruct s1.
    + by apply inv_close.
    + destruct (post_handler_cases path h env auth uuid body (bus s1) Hh)
        as [(response' & Heq & _)|(e & Heq & _)]; rewrite Hb in Heq; injection Heq as -> ->.
      * by destruct s1.
      * by apply inv_broadcast.
Qed.
End service.
