(* ===== verification/PostedEvents.v ===== *)
(** * What a post becomes

    The event a publishing route makes of the body it was posted: it prints
    faithfully if the body did, and only the hotel's routes make the hotel's
    events. *)

From S2P Require Import Prelude Json Zod JsString JsonText JsonPretty.
From S2P Require Import BroadcastTypes BroadcastAuth EventBus BroadcastRoutes.

(** ** What a schema keeps of printable data *)

(** No object of the schema names a property twice. *)
Fixpoint names_distinct (s : schema) : Prop :=
  match s with
  | ZArray s | ZArrayMin s _ | ZNullable s | ZRecord s => names_distinct s
  | ZObject _ fs => NoDup (field_names fs) ∧ foldr (λ f P, names_distinct f.2 ∧ P) True fs
  | _ => True
  end.

Lemma printable_object fs :
  printable (JObj fs) ↔ NoDup (keys fs) ∧ Forall (λ kv, printable kv.2) fs.
Proof. cbn. by rewrite (foldr_and (λ kv : string * json, printable kv.2)). Qed.

Lemma printable_array l : printable (JArr l) ↔ Forall printable l.
Proof. cbn. by rewrite foldr_and. Qed.

Lemma printable_jget k fs v : printable (JObj fs) → jget k fs = Some v → printable v.
Proof.
  rewrite printable_object. intros [_ Hfs]. induction Hfs as [|[k' v'] fs Hv _ IH]; [done|].
  cbn. case_decide; [by intros [= <-]|done].
Qed.

Lemma printable_jopt k o : (∀ v, o = Some v → printable v) → printable (JObj (jopt k o)).
Proof. destruct o as [v|]; intros Ho; cbn; (split; [|auto]); [apply NoDup_singleton|apply NoDup_nil_2]. Qed.

Lemma printable_omit ks fs : printable (JObj fs) → printable (JObj (omit ks fs)).
Proof.
  rewrite !printable_object. intros [Hnd Hfs]. unfold omit. split.
  - eapply sublist_NoDup; [exact Hnd|]. apply fmap_sublist, sublist_filter.
  - rewrite Forall_forall in *. intros kv [_ Hkv]%list_elem_of_filter. by apply Hfs.
Qed.

Lemma field_data_cases p s o v :
  field_data p s o = Some v →
  ∃ w, o = Some w ∧ (v = project s w ∨ (w = JNull ∧ v = JNull)).
Proof.
  destruct o as [w|]; [|done]. cbn. intros Hv. exists w. split; [done|].
  destruct w; try (injection Hv as <-; by left). destruct (bool_decide _); injection Hv as <-; auto.
Qed.

Lemma keys_jopt k o : keys (jopt k o) = match o with Some _ => [k] | None => [] end.
Proof. by destruct o. Qed.

Lemma fields_data_printable fs kvs :
  NoDup (field_names fs) → printable (JObj kvs) →
  Forall (λ f, ∀ v, printable v → printable (project f.2 v)) fs →
  printable (JObj (fields_data fs kvs)).
Proof.
  intros Hnd Hkvs Hfs. apply printable_object. induction Hfs as [|[[k p] s] fs Hs _ IH].
  { split; [apply NoDup_nil_2|constructor]. }
  cbn [field_names fmap list_fmap] in Hnd. apply NoDup_cons in Hnd as [Hk Hnd].
  destruct (IH Hnd) as [IHk IHv]. cbn [fields_data].
  destruct (field_data p s (jget k kvs)) as [v|] eqn:Hv; cbn [jopt app]; [|done]. split.
  - unfold keys. cbn. apply NoDup_cons. split; [|done]. by intros [Hin _]%keys_fields_data.
  - constructor; [|done]. cbn [snd].
    apply field_data_cases in Hv as (w & Hw & [->|[-> ->]]); [|done].
    apply Hs. by eapply printable_jget.
Qed.

Lemma project_printable s : names_distinct s → ∀ v, printable v → printable (project s v).
Proof.
  revert s. fix IH 1. intros s Hs v Hv. destruct s as [| | | | | | | |s|s n|s|s|strict fs];
    try exact Hv; cbn [names_distinct] in Hs.
  - destruct v; try exact Hv. cbn [project]. rewrite printable_array in Hv |- *.
    apply Forall_fmap. eapply Forall_impl; [exact Hv|]. intros x. exact (IH s Hs x).
  - destruct v; try exact Hv. cbn [project]. rewrite printable_array in Hv |- *.
    apply Forall_fmap. eapply Forall_impl; [exact Hv|]. intros x. exact (IH s Hs x).
  - destruct v; try exact (IH s Hs _ Hv). exact Hv.
  - destruct v as [| | | | |kvs]; try exact Hv. cbn [project].
    rewrite printable_object in Hv |- *. destruct Hv as [Hnd Hv]. split.
    + unfold keys in *. by rewrite <-list_fmap_compose.
    + apply Forall_fmap. eapply Forall_impl; [exact Hv|]. intros kv. exact (IH s Hs kv.2).
  - destruct v as [| | | | |kvs]; try exact Hv. rewrite project_object. destruct Hs as [Hnd Hs].
    apply fields_data_printable; [done|done|]. clear Hnd.
    induction fs as [|[[k p] s] fs IHfs]; constructor; cbn in Hs; destruct Hs as [Hs Hrest].
    + exact (IH s Hs).
    + by apply IHfs.
Qed.

(** ** Events *)

Lemma island_event_printable e :
  (∀ d, data e = Some d → printable (JObj d)) → printable (island_event_json e).
Proof.
  intros Hd. apply printable_object. split.
  - unfold keys. rewrite !fmap_app.
    destruct (guest_id e), (guest_name e), (data e); cbn;
      apply (bool_decide_unpack _); by vm_compute.
  - repeat apply Forall_app_2; [by repeat constructor|by destruct (guest_id e); repeat constructor|
      by destruct (guest_name e); repeat constructor|].
    destruct (data e) as [d|]; [|constructor]. by constructor; [apply Hd|].
Qed.

Lemma service_event_printable uuid ch ty msg from d :
  printable (JObj d) → printable (island_event_json (service_event uuid ch ty msg from d)).
Proof. intros Hd. apply island_event_printable. intros ? [= <-]. by apply printable_omit. Qed.

(** The event of a parsed body, and of which type it is. *)
Definition faithful (ty : EventType) (event : list (string * json) → IslandEvent) : Prop :=
  ∀ d, event_type (event d) = ty ∧
    (printable (JObj d) → printable (island_event_json (event d))).

Lemma faithful_service uuid ch ty msg from : faithful ty (service_event uuid ch ty msg from).
Proof. intros d. split; [done|]. apply service_event_printable. Qed.

Section posts.
Context `{Zod}.

(** Nothing, or one event made of a printable parsed body. *)
Definition outcome_of (ty : EventType) (body : json) (b b' : Bus) : Prop :=
  b' = b ∨ ∃ e, b' = broadcast e b ∧ event_type e = ty ∧
    (printable body → printable (island_event_json e)).

Lemma publish_outcome ty strict fs event body b :
  names_distinct (ZObject strict fs) → faithful ty event →
  outcome_of ty body b (publish (ZObject strict fs) event body b).2.
Proof.
  intros Hn He. destruct (conforms (ZObject strict fs) body) eqn:Hc.
  - destruct (publish_accepts strict fs event body b Hc) as (kvs & -> & ->).
    destruct (He (fields_data fs kvs)) as [Hty Hp]. right. eexists. split; [done|].
    split; [done|]. intros Hb. apply Hp. rewrite <-(project_object strict).
    by apply project_printable.
  - destruct (publish_rejects _ event body b Hc) as (issues & -> & _). by left.
Qed.

(** The paths the hotel posts to. *)
Definition hotel_paths : list string := ["/hotel/confirm"; "/hotel/cancel"].
Definition hotel_event (ty : EventType) : bool :=
  bool_decide (ty = HOTEL_CONFIRM) || bool_decide (ty = HOTEL_CANCEL).

Lemma post_outcome path h env auth uuid body b :
  post_handler path = Some h →
  ∃ ty, outcome_of ty body b (h env auth uuid body b).2 ∧
    (path ∉ hotel_paths → hotel_event ty = false) ∧
    (ty = ADMIN_ANNOUNCEMENT → requireAdmin env auth = false → (h env auth uuid body b).2 = b).
Proof.
  assert (∀ ty strict fs event, names_distinct (ZObject strict fs) → faithful ty event →
      (path ∉ hotel_paths → hotel_event ty = false) → ty ≠ ADMIN_ANNOUNCEMENT →
      ∃ ty, outcome_of ty body b (publish (ZObject strict fs) event body b).2 ∧
        (path ∉ hotel_paths → hotel_event ty = false) ∧
        (ty = ADMIN_ANNOUNCEMENT → requireAdmin env auth = false →
         (publish (ZObject strict fs) event body b).2 = b)) as Hpub.
  { intros ty strict fs event Hn He Hty Hadm. exists ty. split_and!; [by apply publish_outcome|done|done]. }
  assert (∀ l, bool_decide (NoDup l) = true → NoDup (l : list string)) as Hnd.
  { intros l. by rewrite bool_decide_eq_true. }
  unfold post_handler. intros Hh. repeat case_decide; try done; injection Hh as <-; cbn beta;
    try (eapply Hpub;
      [cbn; split_and!; try done; apply Hnd; by vm_compute|apply faithful_service|
       |discriminate]; intros Hp; try done; exfalso; apply Hp; subst; set_solver).
  - eapply (Hpub PARROT_CURSED); [cbn; split_and!; try done; apply Hnd; by vm_compute| |done|done].
    intros d. split; [done|]. intros Hd. apply island_event_printable. intros ? [= <-].
    apply printable_jopt. intros v. by apply printable_jget.
  - eapply (Hpub PUBLIC_ANNOUNCEMENT);
      [cbn; split_and!; try done; apply Hnd; by vm_compute| |done|done].
    intros d. split; [done|]. intros Hd. by apply island_event_printable.
  - exists ADMIN_ANNOUNCEMENT. unfold admin_announcement.
    destruct (requireAdmin env auth); (split_and!; [|done|done]); [|by left].
    apply publish_outcome; [cbn; split_and!; try done; apply Hnd; by vm_compute|].
    intros d. split; [done|]. intros Hd. by apply island_event_printable.
Qed.

End posts.
