(* ===== verification/WebTypes.v ===== *)
(** * The web client's view of the services

    The Zod declarations with which the client checks every answer and every
    event ([types/broadcast.ts] and the features' [types.ts]), as schemas. *)

From S2P Require Import Prelude Json Zod JsString.

Notation "k ∷ s" := (k%string, Required, s) (at level 60, s at level 59) : island_scope.
Notation "k ∷? s" := (k%string, Optional, s) (at level 60, s at level 59) : island_scope.

(** ** Broadcast *)

(** (src/frontend/src/types/broadcast.ts:3-11 ChannelId) *)
Inductive ChannelId : Type := Airport | Hotel | Beach | Crab | Parrot | Broadcast | ResortWide.

#[global] Instance ChannelId_eq_dec : EqDecision ChannelId.
Proof. solve_decision. Defined.
#[global] Instance ChannelId_countable : Countable ChannelId.
Proof.
  refine (inj_countable'
    (λ c, match c with Airport => 0 | Hotel => 1 | Beach => 2 | Crab => 3 | Parrot => 4
                     | Broadcast => 5 | ResortWide => 6 end)
    (λ n, match n with 0 => Airport | 1 => Hotel | 2 => Beach | 3 => Crab | 4 => Parrot
                     | 5 => Broadcast | _ => ResortWide end) _).
  by intros [].
Defined.

Definition show_channel (c : ChannelId) : string :=
  match c with
  | Airport => "airport" | Hotel => "hotel" | Beach => "beach" | Crab => "crab"
  | Parrot => "parrot" | Broadcast => "broadcast" | ResortWide => "resort-wide"
  end.
Definition all_channels : list ChannelId :=
  [Airport; Hotel; Beach; Crab; Parrot; Broadcast; ResortWide].

Definition read_channel (s : string) : option ChannelId :=
  find_first (λ c, bool_decide (show_channel c = s)) all_channels.

Lemma all_channels_all c : c ∈ all_channels.
Proof. destruct c; set_solver. Qed.
#[global] Instance show_channel_inj : Inj (=) (=) show_channel.
Proof. by intros [] []. Qed.
Lemma read_show_channel c : read_channel (show_channel c) = Some c.
Proof. by destruct c. Qed.
Lemma read_channel_Some s c : read_channel s = Some c → s = show_channel c.
Proof. intros [_ H%bool_decide_eq_true]%find_first_elem. done. Qed.

(** (src/frontend/src/types/broadcast.ts:13-13 ConnectionStatus) *)
Inductive ConnectionStatus : Type := Connected | Dropped | Reconnecting.

(** (src/frontend/src/types/broadcast.ts:15-24 BroadcastEventSchema) *)
Definition BroadcastEventSchema : schema := ZObject false
  ["id" ∷ ZString; "channel" ∷ ZEnum (show_channel <$> all_channels); "event_type" ∷ ZString;
   "message" ∷ ZString; "sender" ∷ ZString; "guest_id" ∷? ZString; "guest_name" ∷? ZString;
   "data" ∷? ZRecord ZUnknown].

(** The identifier is whatever the sender put there: the schema checks that it
    is a string, [normalizeIslandEvent] does not.
    (src/frontend/src/types/broadcast.ts:26-26 BroadcastEvent) *)
Record BroadcastEvent : Type := {
  b_id : option json;
  b_channel : ChannelId;
  b_event_type : string;
  b_message : string;
  b_sender : string;
  b_guest_id : option string;
  b_guest_name : option string;
  b_data : option (list (string * json));
}.

(** The parsed data as the record TypeScript types it with. *)
Definition read_event (v : json) : option BroadcastEvent :=
  match v with
  | JObj d =>
      ch ← opt_string "channel" d; c ← read_channel ch;
      t ← opt_string "event_type" d;
      m ← opt_string "message" d;
      s ← opt_string "sender" d;
      Some {| b_id := jget "id" d; b_channel := c; b_event_type := t; b_message := m; b_sender := s;
              b_guest_id := opt_string "guest_id" d;
              b_guest_name := opt_string "guest_name" d;
              b_data := opt_object "data" d |}
  | _ => None
  end.

(** ** Airport *)

(** (src/frontend/src/features/airport/types.ts:3-3 ArrivalStatusValue) *)
Definition ArrivalStatusValue : schema := ZEnum ["queued"; "processing"; "processed"].

(** (src/frontend/src/features/airport/types.ts:6-14 PostArrivalRequestSchema) *)
Definition PostArrivalRequestSchema : schema := ZObject false
  ["guest_id" ∷ ZString; "name" ∷ ZString; "surname" ∷ ZString; "age" ∷ ZIntMin 1;
   "passport_type" ∷ ZEnum ["EU"; "non-EU"]; "priority" ∷ ZEnum ["standard"; "fast"];
   "disability" ∷ ZBool].

(** (src/frontend/src/features/airport/types.ts:16-22 PostArrivalResponseSchema) *)
Definition PostArrivalResponseSchema : schema := ZObject false
  ["guest_id" ∷ ZString; "gate" ∷ ZString; "position" ∷ ZInt; "queue_size" ∷ ZInt;
   "queued_at" ∷ ZNumber].

(** (src/frontend/src/features/airport/types.ts:24-32 ArrivalStatusSchema) *)
Definition ArrivalStatusSchema : schema := ZObject false
  ["guest_id" ∷ ZString; "status" ∷ ArrivalStatusValue; "gate" ∷ ZString;
   "position" ∷ ZNullable ZInt; "queued_at" ∷ ZNumber; "processed_at" ∷ ZNullable ZNumber;
   "wait_time_seconds" ∷ ZNullable ZNumber].

(** (src/frontend/src/features/airport/types.ts:34-46 QueuedGuestSchema) *)
Definition QueuedGuestSchema : schema := ZObject false
  ["guest_id" ∷ ZString; "name" ∷ ZString; "surname" ∷ ZString;
   "passport_type" ∷ ZEnum ["EU"; "non-EU"]; "priority" ∷ ZEnum ["standard"; "fast"];
   "disability" ∷ ZBool; "status" ∷ ArrivalStatusValue; "gate" ∷ ZString; "position" ∷ ZInt;
   "queued_at" ∷ ZNumber; "wait_time_seconds" ∷ ZNumber].

(** (src/frontend/src/features/airport/types.ts:48-53 GateStatusSchema) *)
Definition GateStatusSchema : schema := ZObject false
  ["gate_id" ∷ ZString; "gate_type" ∷ ZEnum ["EU"; "ALL"]; "queue_size" ∷ ZInt;
   "queue" ∷ ZArray QueuedGuestSchema].

(** (src/frontend/src/features/airport/types.ts:55-59 QueueResponseSchema) *)
Definition QueueResponseSchema : schema := ZObject false
  ["gates" ∷ ZArray GateStatusSchema; "total_queued" ∷ ZInt; "current_game_time" ∷ ZNumber].

(** ** Beach *)

(** (src/frontend/src/features/beach/types.ts:3-9 ActivitySchema) *)
Definition ActivitySchema : schema := ZObject false
  ["activity_id" ∷ ZString; "activity_name" ∷ ZString;
   ("description"%string, Nullish, ZString); "capacity" ∷ ZInt; "remaining" ∷ ZInt].

(** (src/frontend/src/features/beach/types.ts:11-13 ActivitiesResponseSchema) *)
Definition ActivitiesResponseSchema : schema := ZObject false
  ["activities" ∷ ZArray ActivitySchema].

(** (src/frontend/src/features/beach/types.ts:15-17 BookActivityRequestSchema) *)
Definition BookActivityRequestSchema : schema := ZObject false ["id" ∷ ZString].

(** (src/frontend/src/features/beach/types.ts:19-21 BookActivityResponseSchema) *)
Definition BookActivityResponseSchema : schema := ZObject false ["status" ∷ ZString].

(** (src/frontend/src/features/beach/types.ts:23-25 CancelActivityResponseSchema) *)
Definition CancelActivityResponseSchema : schema := ZObject false ["status" ∷ ZString].

(** (src/frontend/src/features/beach/types.ts:27-29 ActivityByGuestResponseSchema) *)
Definition ActivityByGuestResponseSchema : schema := ZObject false
  ["activity_id" ∷ ZNullable ZString].

(** (src/frontend/src/features/beach/types.ts:49-51 RemoveActivityResponseSchema) *)
Definition RemoveActivityResponseSchema : schema := ZObject false ["status" ∷ ZString].

(** ** Crab *)

(** (src/frontend/src/features/crab/types.ts:3-11 MenuItemSchema) *)
Definition MenuItemSchema : schema := ZObject false
  ["id" ∷ ZString; "name" ∷ ZString; "emoji" ∷ ZString; "description" ∷ ZString;
   "price" ∷ ZInt; "available" ∷ ZBool; "remaining" ∷ ZNullable ZInt].

(** (src/frontend/src/features/crab/types.ts:13-16 MenuResponseSchema) *)
Definition MenuResponseSchema : schema := ZObject false
  ["items" ∷ ZArray MenuItemSchema; "game_time" ∷ ZString].

(** (src/frontend/src/features/crab/types.ts:18-23 OrderLineSchema) *)
Definition OrderLineSchema : schema := ZObject false
  ["item_id" ∷ ZString; "name" ∷ ZString; "emoji" ∷ ZString; "qty" ∷ ZInt].

(** (src/frontend/src/features/crab/types.ts:25-34 OrderSchema) *)
Definition OrderSchema : schema := ZObject false
  ["id" ∷ ZString; "guest_id" ∷ ZString; "guest_name" ∷ ZString;
   "items" ∷ ZArray OrderLineSchema; "total" ∷ ZInt; "status" ∷ ZString;
   "game_time" ∷ ZString; "created_at" ∷ ZString].

(** (src/frontend/src/features/crab/types.ts:36-36 OrdersResponseSchema) *)
Definition OrdersResponseSchema : schema := ZObject false ["orders" ∷ ZArray OrderSchema].

(** ** Goat farm *)

(** (src/frontend/src/features/goat-farm/types.ts:3-8 GoatStockItemSchema) *)
Definition GoatStockItemSchema : schema := ZObject false
  ["id" ∷ ZString; "name" ∷ ZString; "stock" ∷ ZInt; "max_stock" ∷ ZInt].

(** (src/frontend/src/features/goat-farm/types.ts:10-14 GoatStockResponseSchema) *)
Definition GoatStockResponseSchema : schema := ZObject false
  ["items" ∷ ZArray GoatStockItemSchema; "next_restock_at" ∷ ZString;
   "seconds_until_restock" ∷ ZInt].

(** (src/frontend/src/features/goat-farm/types.ts:16-25 GoatPurchaseSchema) *)
Definition GoatPurchaseSchema : schema := ZObject false
  ["purchase_id" ∷ ZString; "guest_id" ∷ ZString; "item_id" ∷ ZString; "item_name" ∷ ZString;
   "remaining_stock" ∷ ZInt; "purchased_at" ∷ ZString; "next_restock_at" ∷ ZString;
   "seconds_until_restock" ∷ ZInt].

(** ** Hotel *)

(** (src/frontend/src/features/hotel/types.ts:3-3 ROOM_TYPES) *)
Definition ROOM_TYPES : list string := ["STANDARD"; "DELUXE"; "SUITE"].

(** (src/frontend/src/features/hotel/types.ts:5-5 RoomTypeSchema) *)
Definition RoomTypeSchema : schema := ZEnum ROOM_TYPES.

(** (src/frontend/src/features/hotel/types.ts:8-12 ROOM_MAX_GUESTS) *)
Definition ROOM_MAX_GUESTS : list (string * Z) :=
  [("STANDARD", 2%Z); ("DELUXE", 3%Z); ("SUITE", 4%Z)].

(** (src/frontend/src/features/hotel/types.ts:14-18 ROOM_PRICE_PER_NIGHT) *)
Definition ROOM_PRICE_PER_NIGHT : list (string * Z) :=
  [("STANDARD", 100%Z); ("DELUXE", 200%Z); ("SUITE", 400%Z)].

(** (src/frontend/src/features/hotel/types.ts:20-20 ReservationStatusSchema) *)
Definition ReservationStatusSchema : schema := ZEnum ["CONFIRMED"; "CANCELLED"].

(** The object under the transform.
    (src/frontend/src/features/hotel/types.ts:23-33 RoomSchema) *)
Definition RoomSchema : schema := ZObject false
  ["id" ∷ ZString; "type" ∷ RoomTypeSchema; "capacity" ∷ ZInt; "price_per_night" ∷ ZInt;
   "current_guests" ∷ ZInt].

(** (src/frontend/src/features/hotel/types.ts:35-37 RoomsResponseSchema) *)
Definition RoomsResponseSchema : schema := ZObject false ["rooms" ∷ ZArray RoomSchema].

(** (src/frontend/src/features/hotel/types.ts:39-48 ReservationSchema) *)
Definition ReservationSchema : schema := ZObject false
  ["id" ∷ ZString; "guest_id" ∷ ZString; "room_id" ∷ ZString; "room_type" ∷ RoomTypeSchema;
   "guest_count" ∷ ZInt; "check_in_day" ∷ ZInt; "check_out_day" ∷ ZInt;
   "status" ∷ ReservationStatusSchema].

(** (src/frontend/src/features/hotel/types.ts:50-56 PostReservationRequestSchema) *)
Definition PostReservationRequestSchema : schema := ZObject false
  ["guest_id" ∷ ZString; "room_type" ∷ RoomTypeSchema; "guest_count" ∷ ZIntMin 1;
   "check_in_day" ∷ ZIntMin 0; "check_out_day" ∷ ZIntMin 1].

(** (src/frontend/src/features/hotel/types.ts:58-61 CancelReservationResponseSchema) *)
Definition CancelReservationResponseSchema : schema := ZObject false
  ["id" ∷ ZString; "status" ∷ ZEnum ["CANCELLED"]].

(** ** Parrot *)

(** (src/frontend/src/features/parrot/types.ts:3-3 ParrotMessageRoleSchema) *)
Definition ParrotMessageRoleSchema : schema := ZEnum ["user"; "assistant"].

(** (src/frontend/src/features/parrot/types.ts:6-9 ChatHistoryMessageSchema) *)
Definition ChatHistoryMessageSchema : schema := ZObject false
  ["content" ∷ ZNullable ZString; "role" ∷ ParrotMessageRoleSchema].

(** (src/frontend/src/features/parrot/types.ts:12-15 ChatHistoryResponseSchema) *)
Definition ChatHistoryResponseSchema : schema := ZObject false
  ["guest_id" ∷ ZString; "messages" ∷ ZArray ChatHistoryMessageSchema].

(** (src/frontend/src/features/parrot/types.ts:22-24 PostChatResponseSchema) *)
Definition PostChatResponseSchema : schema := ZObject false ["reply" ∷ ZString].

(** (src/frontend/src/features/parrot/types.ts:30-30 ToolCallCountsSchema) *)
Definition ToolCallCountsSchema : schema := ZRecord ZNumber.

(** (src/frontend/src/features/parrot/types.ts:32-46 AdminMetricsResponseSchema) *)
Definition AdminMetricsResponseSchema : schema := ZObject false
  ["total_conversations" ∷ ZNumber; "max_conversations" ∷ ZNumber; "total_messages" ∷ ZNumber;
   "total_user_turns" ∷ ZNumber; "total_assistant_turns" ∷ ZNumber;
   "tool_calls_total" ∷ ZNumber; "tool_calls_by_name" ∷ ToolCallCountsSchema;
   "tool_errors_total" ∷ ZNumber; "fallback_total" ∷ ZNumber;
   "censored_messages_total" ∷ ZNumber; "conversations_with_fallback" ∷ ZNumber;
   "conversations_with_tool_error" ∷ ZNumber; "conversations_with_censored" ∷ ZNumber].

Definition conversation_stats_fields : list (string * presence * schema) :=
  ["turns" ∷ ZNumber; "censored_count" ∷ ZNumber; "total_messages" ∷ ZNumber;
   "assistant_turns" ∷ ZNumber; "tool_calls_by_name" ∷ ToolCallCountsSchema;
   "tool_calls_total" ∷ ZNumber; "tool_errors" ∷ ZNumber; "fallback_count" ∷ ZNumber;
   "has_censored" ∷ ZBool; "has_fallback" ∷ ZBool; "has_tool_error" ∷ ZBool].

(** (src/frontend/src/features/parrot/types.ts:49-61 ConversationStatsSchema) *)
Definition ConversationStatsSchema : schema := ZObject false conversation_stats_fields.

(** (src/frontend/src/features/parrot/types.ts:64-67 ConversationSummarySchema) *)
Definition ConversationSummarySchema : schema := ZObject false
  (conversation_stats_fields ++ ["guest_id" ∷ ZString; "last_accessed" ∷ ZNumber]).

(** (src/frontend/src/features/parrot/types.ts:70-73 ConversationsListResponseSchema) *)
Definition ConversationsListResponseSchema : schema := ZObject false
  ["count" ∷ ZNumber; "conversations" ∷ ZArray ConversationSummarySchema].

(** (src/frontend/src/features/parrot/types.ts:78-82 TranscriptToolCallSchema) *)
Definition TranscriptToolCallSchema : schema := ZObject false
  ["id" ∷ ZNullable ZString; "name" ∷ ZNullable ZString; "arguments" ∷ ZNullable ZString].

(** (src/frontend/src/features/parrot/types.ts:85-91 TranscriptEntrySchema) *)
Definition TranscriptEntrySchema : schema := ZObject false
  ["role" ∷ ZEnum ["user"; "assistant"; "tool"]; "content" ∷ ZNullable ZString;
   "tool_calls" ∷? ZArray TranscriptToolCallSchema; "name" ∷? ZNullable ZString;
   "tool_call_id" ∷? ZString].

(** (src/frontend/src/features/parrot/types.ts:94-99 ConversationTranscriptResponseSchema) *)
Definition ConversationTranscriptResponseSchema : schema := ZObject false
  ["guest_id" ∷ ZString; "last_accessed" ∷ ZNumber; "summary" ∷ ConversationStatsSchema;
   "transcript" ∷ ZArray TranscriptEntrySchema].

(** (src/frontend/src/features/broadcast/api/broadcast-client.ts:5-5 PostAnnouncementResponseSchema) *)
Definition PostAnnouncementResponseSchema : schema := ZObject false ["success" ∷ ZBool].

(** ** Facts *)

(** Data that satisfies the event schema reads as an event. *)
Lemma read_event_conforming v :
  conforms BroadcastEventSchema v = true → is_Some (read_event (project BroadcastEventSchema v)).
Proof.
  intros (kvs & -> & Hf & _)%conforms_object_inv. unfold BroadcastEventSchema.
  rewrite project_object. unfold read_event, opt_string, opt_object.
  assert (∀ k p s, (k, p, s) ∈ ["id" ∷ ZString; "channel" ∷ ZEnum (show_channel <$> all_channels);
    "event_type" ∷ ZString; "message" ∷ ZString; "sender" ∷ ZString; "guest_id" ∷? ZString;
    "guest_name" ∷? ZString; "data" ∷? ZRecord ZUnknown] →
    field_ok p s (jget k kvs) = true ∧
    jget k (fields_data ["id" ∷ ZString; "channel" ∷ ZEnum (show_channel <$> all_channels);
    "event_type" ∷ ZString; "message" ∷ ZString; "sender" ∷ ZString; "guest_id" ∷? ZString;
    "guest_name" ∷? ZString; "data" ∷? ZRecord ZUnknown] kvs) = field_data p s (jget k kvs)) as H.
  { intros k p s Hin. split; [by eapply fields_ok_elem|]. apply jget_fields_data; [|done].
    apply (bool_decide_unpack _). by vm_compute. }
  destruct (H "id" Required ZString) as [H1 ->]; [set_solver|].
  destruct (H "channel" Required (ZEnum (show_channel <$> all_channels))) as [H2 ->]; [set_solver|].
  destruct (H "event_type" Required ZString) as [H3 ->]; [set_solver|].
  destruct (H "message" Required ZString) as [H4 ->]; [set_solver|].
  destruct (H "sender" Required ZString) as [H5 ->]; [set_solver|].
  apply field_ok_string in H1 as [s1 ->], H3 as [s3 ->], H4 as [s4 ->], H5 as [s5 ->].
  destruct (jget "channel" kvs) as [[| | |c| |]|]; try done. cbn -[read_channel].
  assert (is_Some (read_channel c)) as [ch ->]; [|by eexists].
  apply bool_decide_eq_true in H2. apply list_elem_of_fmap in H2 as (ch & -> & _).
  rewrite read_show_channel. eauto.
Qed.
