(* ===== verification/Wire.v ===== *)
(** * Across the wire

    What one program sends is what the next one accepts: the hotel's events
    pass the broadcast service's schema, the events of the broadcast service
    pass the web client's schema and read back as they were, and the hotel's
    answers pass the web client's schemas. *)

From S2P Require Import Prelude Json Zod JsString JsonText.
From S2P Require HotelDb HotelOutbound HotelReservation HotelRooms.
From S2P Require BroadcastTypes EventBus BroadcastRoutes.
From S2P Require Import WebTypes.

(** ** Broadcast to web client *)

Definition web_channel (c : BroadcastTypes.ChannelId) : WebTypes.ChannelId :=
  match c with
  | BroadcastTypes.Airport => Airport | BroadcastTypes.Hotel => Hotel
  | BroadcastTypes.Beach => Beach | BroadcastTypes.Crab => Crab
  | BroadcastTypes.Parrot => Parrot | BroadcastTypes.Broadcast => Broadcast
  | BroadcastTypes.ResortWide => ResortWide
  end.

Lemma show_web_channel c : show_channel (web_channel c) = BroadcastTypes.show_channel c.
Proof. by destruct c. Qed.

Definition web_event (e : BroadcastTypes.IslandEvent) : BroadcastEvent := {|
  b_id := Some (JStr (BroadcastTypes.id e)); b_channel := web_channel (BroadcastTypes.channel e);
  b_event_type := BroadcastTypes.show_event_type (BroadcastTypes.event_type e);
  b_message := BroadcastTypes.message e; b_sender := BroadcastTypes.sender e;
  b_guest_id := BroadcastTypes.guest_id e; b_guest_name := BroadcastTypes.guest_name e;
  b_data := BroadcastTypes.data e
|}.

Lemma conforms_unknown_record kvs : conforms (ZRecord ZUnknown) (JObj kvs) = true.
Proof. simpl. by induction kvs. Qed.
Lemma project_unknown_record kvs : project (ZRecord ZUnknown) (JObj kvs) = JObj kvs.
Proof. simpl. f_equal. induction kvs as [|[k v] kvs IH]; simpl; [done|]. by f_equal. Qed.

Lemma island_event_fields e :
  ∃ kvs, BroadcastTypes.island_event_json e = JObj kvs ∧
    jget "id" kvs = Some (JStr (BroadcastTypes.id e)) ∧
    jget "channel" kvs = Some (JStr (show_channel (web_channel (BroadcastTypes.channel e)))) ∧
    jget "event_type" kvs =
      Some (JStr (BroadcastTypes.show_event_type (BroadcastTypes.event_type e))) ∧
    jget "message" kvs = Some (JStr (BroadcastTypes.message e)) ∧
    jget "sender" kvs = Some (JStr (BroadcastTypes.sender e)) ∧
    jget "guest_id" kvs = JStr <$> BroadcastTypes.guest_id e ∧
    jget "guest_name" kvs = JStr <$> BroadcastTypes.guest_name e ∧
    jget "data" kvs = JObj <$> BroadcastTypes.data e.
Proof.
  eexists. split; [done|]. rewrite show_web_channel.
  destruct (BroadcastTypes.guest_id e), (BroadcastTypes.guest_name e), (BroadcastTypes.data e);
    done.
Qed.

(** Every event the service broadcasts satisfies the client's schema, and the
    client reads it as it was. *)
Lemma island_event_accepted e :
  conforms BroadcastEventSchema (BroadcastTypes.island_event_json e) = true ∧
  read_event (project BroadcastEventSchema (BroadcastTypes.island_event_json e)) =
    Some (web_event e).
Proof.
  destruct (island_event_fields e) as
    (kvs & -> & H1 & H2 & H3 & H4 & H5 & H6 & H7 & H8).
  unfold BroadcastEventSchema. rewrite conforms_object, project_object. cbn [negb orb].
  rewrite andb_true_r. cbn [fields_ok fields_data]. rewrite H1, H2, H3, H4, H5, H6, H7, H8.
  split.
  - destruct (BroadcastTypes.channel e), (BroadcastTypes.guest_id e),
      (BroadcastTypes.guest_name e), (BroadcastTypes.data e);
      cbn -[conforms]; unfold field_ok; rewrite ?conforms_unknown_record; reflexivity.
  - destruct e as [i c t m s g n d]; cbn -[project]; destruct c, g, n, d as [d|];
      cbn -[project]; unfold field_data; rewrite ?project_unknown_record; reflexivity.
Qed.

(** The whole path: a frame carries one line of text, and a client that parses
    it and checks it has the event. *)
Definition client_decode (text : string) : option BroadcastEvent :=
  v ← JSON_parse text;
  if conforms BroadcastEventSchema v then read_event (project BroadcastEventSchema v) else None.

Lemma frame_decodes e :
  printable (BroadcastTypes.island_event_json e) →
  ∃ text, EventBus.frame e = "data: " +:+ text +:+ EventBus.newline +:+ EventBus.newline ∧
    Forall (λ c, 32 ≤ code c)%Z (chars text) ∧ client_decode text = Some (web_event e).
Proof.
  intros Hp. destruct (EventBus.frame_shape e) as (text & Hf & Hv & Hparse).
  exists text. split_and!; [done..|]. unfold client_decode. rewrite (Hparse Hp).
  destruct (island_event_accepted e) as [Hc Hr]. cbn [mbind option_bind]. by rewrite Hc.
Qed.

(** ** Hotel to broadcast *)

Lemma hotel_event_accepted e :
  conforms BroadcastTypes.HotelEventSchema (HotelOutbound.event_json e) = true.
Proof. reflexivity. Qed.

(** The event the broadcast service makes of what the hotel publishes. *)
Definition relayed (uuid : string) (ty : HotelOutbound.HotelBroadcastEventType)
    (e : HotelOutbound.HotelBroadcastEvent) : BroadcastTypes.IslandEvent := {|
  BroadcastTypes.id := uuid; BroadcastTypes.channel := BroadcastTypes.Hotel;
  BroadcastTypes.event_type :=
    match ty with
    | HotelOutbound.ReservationConfirmed => BroadcastTypes.HOTEL_CONFIRM
    | HotelOutbound.ReservationCancelled => BroadcastTypes.HOTEL_CANCEL
    end;
  BroadcastTypes.message := HotelOutbound.message e; BroadcastTypes.sender := "hotel";
  BroadcastTypes.guest_id := Some (HotelOutbound.guest_id e); BroadcastTypes.guest_name := None;
  BroadcastTypes.data := Some
    [("reservation_id", JStr (HotelOutbound.reservation_id e));
     ("room_type", JStr (HotelOutbound.show_room_type (HotelOutbound.ev_room_type e)));
     ("guest_count", JNum (NumZ (HotelOutbound.guest_count e)));
     ("check_in_day", JNum (NumZ (HotelOutbound.check_in_day e)));
     ("check_out_day", JNum (NumZ (HotelOutbound.check_out_day e)))]
|}.

(** Posted to the endpoint the hotel uses for it, a hotel event is accepted and
    broadcast on the hotel's channel with all its fields. *)
Lemma hotel_event_relayed `{Zod} ty e env auth uuid b :
  ∃ h, BroadcastRoutes.post_handler (HotelOutbound.getEndpointForEvent ty) = Some h ∧
    h env auth uuid (HotelOutbound.event_json e) b =
      (BroadcastRoutes.success, EventBus.broadcast (relayed uuid ty e) b).
Proof.
  destruct ty; (eexists; split; [reflexivity|]);
    unfold BroadcastRoutes.hotel_confirm, BroadcastRoutes.hotel_cancel, BroadcastRoutes.publish,
      BroadcastRoutes.parseBody;
    by rewrite (safeParse_success _ _ (hotel_event_accepted e)).
Qed.

(** *** Values that print faithfully *)

Lemma int4_printable z : HotelDb.fits_int4 z = true → printable_number (NumZ z) = true.
Proof.
  unfold HotelDb.fits_int4. rewrite bool_decide_eq_true. intros Hz. cbn.
  apply Z.ltb_lt. pose proof (Z.pow_le_mono_r 2 31 1024). lia.
Qed.

(** The integers of an event fit the columns they come from. *)
Definition int4_event (e : HotelOutbound.HotelBroadcastEvent) : Prop :=
  HotelDb.fits_int4 (HotelOutbound.guest_count e) = true ∧
  HotelDb.fits_int4 (HotelOutbound.check_in_day e) = true ∧
  HotelDb.fits_int4 (HotelOutbound.check_out_day e) = true.

Lemma hotel_event_printable e : int4_event e → printable (HotelOutbound.event_json e).
Proof.
  intros (H1%int4_printable & H2%int4_printable & H3%int4_printable).
  cbn -[printable_number]. split; [apply (bool_decide_unpack _); by vm_compute|].
  by rewrite H1, H2, H3.
Qed.

Lemma relayed_printable uuid ty e :
  int4_event e → printable (BroadcastTypes.island_event_json (relayed uuid ty e)).
Proof.
  intros (H1%int4_printable & H2%int4_printable & H3%int4_printable).
  cbn -[printable_number]. split; [apply (bool_decide_unpack _); by vm_compute|].
  rewrite H1, H2, H3. split_and!; try done. apply (bool_decide_unpack _). by vm_compute.
Qed.

(** ** Hotel to web client *)

(** The object literals the controllers answer with. *)
Definition reservation_json (o : HotelReservation.ReservationResponseDto) : json := JObj
  [("id", JStr (HotelReservation.o_id o)); ("guest_id", JStr (HotelReservation.o_guest_id o));
   ("room_id", JStr (HotelReservation.o_room_id o));
   ("room_type", JStr (HotelOutbound.show_room_type (HotelReservation.o_room_type o)));
   ("guest_count", JNum (NumZ (HotelReservation.o_guest_count o)));
   ("party_guest_ids", JArr (JStr <$> HotelReservation.o_party_guest_ids o));
   ("check_in_day", JNum (NumZ (HotelReservation.o_check_in_day o)));
   ("check_out_day", JNum (NumZ (HotelReservation.o_check_out_day o)));
   ("status", JStr (HotelOutbound.show_status (HotelReservation.o_status o)))].

Definition cancelled_json (o : HotelReservation.CancelReservationResponseDto) : json := JObj
  [("id", JStr (HotelReservation.x_id o));
   ("status", JStr (HotelOutbound.show_status (HotelReservation.x_status o)))].

Definition room_json (o : HotelRooms.RoomResponseDto) : json := JObj
  [("id", JStr (HotelRooms.l_id o));
   ("type", JStr (HotelOutbound.show_room_type (HotelRooms.l_type o)));
   ("capacity", JNum (NumZ (HotelRooms.l_capacity o)));
   ("price_per_night", JNum (NumZ (HotelRooms.l_price_per_night o)));
   ("current_guests", JNum (NumZ (HotelRooms.current_guests o)))].

Definition safe (z : Z) : Prop := (- max_safe_integer ≤ z ≤ max_safe_integer)%Z.

Lemma conforms_safe_int z : safe z → conforms ZInt (JNum (NumZ z)) = true.
Proof. intros. simpl. by apply bool_decide_eq_true. Qed.

Lemma fits_int4_safe z : HotelDb.fits_int4 z = true → safe z.
Proof.
  unfold HotelDb.fits_int4. rewrite bool_decide_eq_true. unfold safe, max_safe_integer. lia.
Qed.

Lemma conforms_room_type ty :
  conforms RoomTypeSchema (JStr (HotelOutbound.show_room_type ty)) = true.
Proof. by destruct ty. Qed.
Lemma conforms_status st :
  conforms ReservationStatusSchema (JStr (HotelOutbound.show_status st)) = true.
Proof. by destruct st. Qed.

Lemma reservation_accepted o :
  safe (HotelReservation.o_guest_count o) → safe (HotelReservation.o_check_in_day o) →
  safe (HotelReservation.o_check_out_day o) →
  conforms ReservationSchema (reservation_json o) = true.
Proof.
  intros H1%conforms_safe_int H2%conforms_safe_int H3%conforms_safe_int.
  assert (conforms ReservationSchema (reservation_json o) =
    conforms RoomTypeSchema (JStr (HotelOutbound.show_room_type (HotelReservation.o_room_type o))) &&
    (conforms ZInt (JNum (NumZ (HotelReservation.o_guest_count o))) &&
    (conforms ZInt (JNum (NumZ (HotelReservation.o_check_in_day o))) &&
    (conforms ZInt (JNum (NumZ (HotelReservation.o_check_out_day o))) &&
    (conforms ReservationStatusSchema
       (JStr (HotelOutbound.show_status (HotelReservation.o_status o))) && true)))) && true)
    as -> by reflexivity.
  by rewrite H1, H2, H3, conforms_room_type, conforms_status.
Qed.

Lemma room_accepted o :
  safe (HotelRooms.l_capacity o) → safe (HotelRooms.l_price_per_night o) →
  safe (HotelRooms.current_guests o) → conforms RoomSchema (room_json o) = true.
Proof.
  intros H1%conforms_safe_int H2%conforms_safe_int H3%conforms_safe_int.
  assert (conforms RoomSchema (room_json o) =
    conforms RoomTypeSchema (JStr (HotelOutbound.show_room_type (HotelRooms.l_type o))) &&
    (conforms ZInt (JNum (NumZ (HotelRooms.l_capacity o))) &&
    (conforms ZInt (JNum (NumZ (HotelRooms.l_price_per_night o))) &&
    (conforms ZInt (JNum (NumZ (HotelRooms.current_guests o))) && true))) && true)
    as -> by reflexivity.
  by rewrite H1, H2, H3, conforms_room_type.
Qed.

Lemma rooms_accepted l :
  Forall (λ o, safe (HotelRooms.l_capacity o) ∧ safe (HotelRooms.l_price_per_night o) ∧
    safe (HotelRooms.current_guests o)) l →
  conforms RoomsResponseSchema (JObj [("rooms", JArr (room_json <$> l))]) = true.
Proof.
  intros Hl.
  assert (conforms RoomsResponseSchema (JObj [("rooms", JArr (room_json <$> l))]) =
    forallb (conforms RoomSchema) (room_json <$> l) && true && true) as -> by reflexivity.
  rewrite !andb_true_r. apply forallb_forall. intros v Hv%list_elem_of_In.
  apply list_elem_of_fmap in Hv as (o & -> & Ho). rewrite Forall_forall in Hl.
  destruct (Hl o Ho) as (? & ? & ?). by apply room_accepted.
Qed.
