(* ===== verification/WebApi.v ===== *)
(** * The web client's API layer

    [lib/api-client.ts] and the features' [*-client.ts]: what is asked of the
    gateway, how an answer is checked, and the message an error is shown with.
    The HTTP client (axios) is the parameter [axios]. *)

From S2P Require Import Prelude Json Zod JsString JsonText WebTypes.

(** ** Error messages *)

(** [String(v)] of a JSON value: an array is the text of its elements joined
    with commas ([null] is empty there), an object is [[object Object]]. *)
Fixpoint js_String (v : json) : string :=
  match v with
  | JNull => "null"
  | JBool true => "true"
  | JBool false => "false"
  | JNum NumNaN => "NaN"
  | JNum (NumInf false) => "Infinity"
  | JNum (NumInf true) => "-Infinity"
  | JNum n => of_chars (print_number n)
  | JStr s => s
  | JArr l => join "," ((λ x, match x with JNull => "" | _ => js_String x end) <$> l)
  | JObj _ => "[object Object]"
  end.

(** [s || null]. *)
Definition non_empty (s : string) : option string := if truthy s then Some s else None.

(** [item && typeof item === "object" && "msg" in item]. *)
Definition item_text (item : json) : string :=
  match item with
  | JObj fs => match jget "msg" fs with Some msg => js_String msg | None => js_String item end
  | _ => js_String item
  end.

(** (src/frontend/src/lib/api-client.ts:12-27 extractField) *)
Definition extractField (value : option json) : option string :=
  match value with
  | Some (JStr s) => non_empty s
  | Some (JArr l) => non_empty (join "; " (item_text <$> l))
  | _ => None
  end.

(** [a ?? b]. *)
Definition nullish_or {A} (a b : option A) : option A := match a with Some _ => a | None => b end.

(** (src/frontend/src/lib/api-client.ts:29-45 getErrorMessage) *)
Definition getErrorMessage (data : option json) (fallback : string) : string :=
  let field :=
    match data with
    | Some (JObj fs) =>
        nullish_or (extractField (jget "detail" fs))
          (nullish_or (extractField (jget "message" fs)) (extractField (jget "error" fs)))
    | _ => None
    end in
  match field with
  | Some field => field
  | None =>
      match data with
      | Some (JStr s) => if truthy s then s else or_else (Some fallback) "Request failed"
      | _ => or_else (Some fallback) "Request failed"
      end
  end.

(** ** Requests *)

Record AxiosRequest : Type := {
  base_url : string;
  url : string;
  method : string;
  request_data : option json;
  headers : list (string * string);
}.

Inductive AxiosResult : Type :=
  | AxiosData (data : json)
  | AxiosFailure (response_data : option json) (message : string)
  | OtherFailure.

(** What [request] throws: an [Error] with a message for the user, the schema's
    error, or whatever else was thrown.
    (src/frontend/src/lib/api-client.ts:57-63 catch) *)
Inductive RequestError : Type :=
  | ErrorMessage (message : string)
  | SchemaError (issues : list ZodIssue)
  | Rethrown.

(** The bases of the services. (src/frontend/src/lib/api-client.ts:86-94 api) *)
Inductive Api : Type := airport | beach | crab | goatFarm | hotel | parrot | broadcast.
(** (src/frontend/src/lib/api-client.ts:86-94 api) *)
Definition basePath (a : Api) : string :=
  match a with
  | airport => "/api/airport" | beach => "/api/beach" | crab => "/api/crab"
  | goatFarm => "/api/goat-farm" | hotel => "/api/hotel" | parrot => "/api/parrot"
  | broadcast => "/api/broadcast"
  end.

(** A call: the answer's schema and the request. *)
Record Call : Type := {
  call_api : Api;
  call_schema : schema;
  call_url : string;
  call_method : string;
  call_data : option json;
  call_headers : list (string * string);
}.

(** (src/frontend/src/lib/api-client.ts:67-71 get) *)
Definition get (a : Api) (s : schema) (u : string) (hs : list (string * string)) : Call :=
  {| call_api := a; call_schema := s; call_url := u; call_method := "GET"; call_data := None;
     call_headers := hs |}.
(** (src/frontend/src/lib/api-client.ts:72-77 post) *)
Definition post (a : Api) (s : schema) (u : string) (d : json) (hs : list (string * string)) :
    Call :=
  {| call_api := a; call_schema := s; call_url := u; call_method := "POST"; call_data := Some d;
     call_headers := hs |}.
(** (src/frontend/src/lib/api-client.ts:78-82 delete) *)
Definition delete (a : Api) (s : schema) (u : string) (hs : list (string * string)) : Call :=
  {| call_api := a; call_schema := s; call_url := u; call_method := "DELETE"; call_data := None;
     call_headers := hs |}.

Section requests.
Context `{Zod}.
Variable gatewayUrl : string.
Variable axios : AxiosRequest → AxiosResult.

(** (src/frontend/src/lib/api-client.ts:48-55 request) *)
Definition axios_request (c : Call) : AxiosRequest :=
  {| base_url := gatewayUrl +:+ basePath (call_api c); url := call_url c;
     method := call_method c; request_data := call_data c; headers := call_headers c |}.

(** (src/frontend/src/lib/api-client.ts:47-84 createJsonApi) *)
Definition request (c : Call) : outcome RequestError json :=
  match axios (axios_request c) with
  | AxiosData data =>
      match safeParse (call_schema c) data with
      | inr parsed => Returned parsed
      | inl issues => Thrown (SchemaError issues)
      end
  | AxiosFailure response_data message =>
      Thrown (ErrorMessage (getErrorMessage response_data message))
  | OtherFailure => Thrown Rethrown
  end.

(** Data reaches the caller only after its schema accepted it. *)
Lemma request_checked c v :
  request c = Returned v ↔
  ∃ raw, axios (axios_request c) = AxiosData raw ∧
    conforms (call_schema c) raw = true ∧ v = project (call_schema c) raw.
Proof.
  unfold request. destruct (axios _) as [raw| |]; [|naive_solver..].
  destruct (safeParse (call_schema c) raw) as [issues|parsed] eqn:Hp.
  - assert (conforms (call_schema c) raw = false) by (apply safeParse_inl_iff; eauto).
    split; [done|]. intros (raw' & [= <-] & Hc & _). congruence.
  - apply safeParse_inr_iff in Hp as [Hc ->]. naive_solver.
Qed.
End requests.

(** ** The clients *)

(** (src/frontend/src/features/airport/api/airport-client.ts:12-16 postArrival) *)
Definition postArrival (body : json) : Call :=
  post airport PostArrivalResponseSchema "/arrivals" body [].
(** (src/frontend/src/features/airport/api/airport-client.ts:18-20 getArrivalStatus) *)
Definition getArrivalStatus (guestId : string) : Call :=
  get airport ArrivalStatusSchema ("/arrivals/" +:+ guestId) [].
(** (src/frontend/src/features/airport/api/airport-client.ts:22-24 getQueue) *)
Definition getQueue : Call := get airport QueueResponseSchema "/queue" [].

(** (src/frontend/src/features/beach/api/beach-client.ts:18-20 getActivities) *)
Definition getActivities : Call := get beach ActivitiesResponseSchema "/activities" [].
(** (src/frontend/src/features/beach/api/beach-client.ts:22-24 getActivity) *)
Definition getActivity (activityId : string) : Call :=
  get beach ActivitySchema ("/activity/" +:+ activityId) [].
(** (src/frontend/src/features/beach/api/beach-client.ts:26-37 bookActivity) *)
Definition bookActivity (activityId guestId : string) : Call :=
  post beach BookActivityResponseSchema ("/activity/book/" +:+ activityId)
    (JObj [("id", JStr guestId)]) [].
(** (src/frontend/src/features/beach/api/beach-client.ts:39-48 cancelActivity) *)
Definition cancelActivity (activityId guestId : string) : Call :=
  post beach CancelActivityResponseSchema ("/activity/cancel/" +:+ activityId)
    (JObj [("id", JStr guestId)]) [].
(** (src/frontend/src/features/beach/api/beach-client.ts:50-57 getActivityByGuest) *)
Definition getActivityByGuest (guestId : string) : Call :=
  get beach ActivityByGuestResponseSchema ("/activity/by-guest/" +:+ guestId) [].
(** (src/frontend/src/features/beach/api/beach-client.ts:59-66 createActivity) *)
Definition createActivity (body : json) (adminSecret : string) : Call :=
  post beach ActivitySchema "/activity" body [("X-Admin-Secret", adminSecret)].
(** (src/frontend/src/features/beach/api/beach-client.ts:68-77 removeActivity) *)
Definition removeActivity (activityId adminSecret : string) : Call :=
  delete beach RemoveActivityResponseSchema ("/activity/" +:+ activityId)
    [("X-Admin-Secret", adminSecret)].

(** (src/frontend/src/features/broadcast/api/broadcast-client.ts:7-14 postAnnouncement) *)
Definition postAnnouncement (message passcode : string) : Call :=
  post broadcast PostAnnouncementResponseSchema "/admin/announcement"
    (JObj [("message", JStr message)]) [("X-Admin-Passcode", passcode)].

(** (src/frontend/src/features/crab/api/crab-client.ts:11-13 getMenu) *)
Definition getMenu : Call := get crab MenuResponseSchema "/menu" [].
Definition order_item (i : string * Z) : json :=
  JObj [("item_id", JStr i.1); ("qty", JNum (NumZ i.2))].
(** (src/frontend/src/features/crab/api/crab-client.ts:15-25 placeOrder) *)
Definition placeOrder (guestId guestName : string) (items : list (string * Z)) : Call :=
  post crab OrderSchema "/orders"
    (JObj [("guest_id", JStr guestId); ("guest_name", JStr guestName);
           ("items", JArr (order_item <$> items))]) [].
(** (src/frontend/src/features/crab/api/crab-client.ts:27-29 getGuestOrders) *)
Definition getGuestOrders (guestId : string) : Call :=
  get crab OrdersResponseSchema ("/orders?guest_id=" +:+ guestId) [].

(** (src/frontend/src/features/goat-farm/api/goat-farm-client.ts:9-11 getGoatFarmStock) *)
Definition getGoatFarmStock : Call := get goatFarm GoatStockResponseSchema "/stock" [].
(** (src/frontend/src/features/goat-farm/api/goat-farm-client.ts:13-21 buyGoatFarmItem) *)
Definition buyGoatFarmItem (guestId itemId : string) : Call :=
  post goatFarm GoatPurchaseSchema "/purchase"
    (JObj [("guest_id", JStr guestId); ("item_id", JStr itemId)]) [].

(** (src/frontend/src/features/hotel/api/hotel-client.ts:12-14 getRooms) *)
Definition getRooms : Call := get hotel RoomsResponseSchema "/rooms" [].
(** (src/frontend/src/features/hotel/api/hotel-client.ts:16-20 postReservation) *)
Definition postReservation (body : json) : Call :=
  post hotel ReservationSchema "/reservation" body [].
(** (src/frontend/src/features/hotel/api/hotel-client.ts:22-24 getReservationByGuest) *)
Definition getReservationByGuest (guestId : string) : Call :=
  get hotel ReservationSchema ("/reservation/by-guest/" +:+ guestId) [].
(** (src/frontend/src/features/hotel/api/hotel-client.ts:26-30 cancelReservation) *)
Definition cancelReservation (id : string) : Call :=
  delete hotel CancelReservationResponseSchema ("/reservation/" +:+ id) [].

(** (src/frontend/src/features/parrot/api/parrot-client.ts:17-19 getChatHistory) *)
Definition getChatHistory (guestId : string) : Call :=
  get parrot ChatHistoryResponseSchema ("/history/" +:+ guestId) [].
(** (src/frontend/src/features/parrot/api/parrot-client.ts:21-23 postChat) *)
Definition postChat (body : json) : Call := post parrot PostChatResponseSchema "/chat" body [].
(** (src/frontend/src/features/parrot/api/parrot-client.ts:28-29 adminHeaders) *)
Definition adminHeaders (adminPasscode : string) : list (string * string) :=
  if truthy adminPasscode then [("X-Admin-Passcode", adminPasscode)] else [].
(** (src/frontend/src/features/parrot/api/parrot-client.ts:31-33 getAdminMetrics) *)
Definition getAdminMetrics (adminPasscode : string) : Call :=
  get parrot AdminMetricsResponseSchema "/admin/metrics" (adminHeaders adminPasscode).
(** (src/frontend/src/features/parrot/api/parrot-client.ts:35-41 getConversations) *)
Definition getConversations (adminPasscode : string) : Call :=
  get parrot ConversationsListResponseSchema "/admin/conversations" (adminHeaders adminPasscode).
(** (src/frontend/src/features/parrot/api/parrot-client.ts:43-51 getConversationTranscript) *)
Definition getConversationTranscript (adminPasscode guestId : string) : Call :=
  get parrot ConversationTranscriptResponseSchema ("/admin/conversations/" +:+ guestId)
    (adminHeaders adminPasscode).

(** ** Facts about error messages *)

Lemma non_empty_Some s t : non_empty s = Some t ↔ s = t ∧ t ≠ "".
Proof.
  unfold non_empty, truthy. case_bool_decide; naive_solver.
Qed.

Lemma extractField_non_empty v t : extractField v = Some t → t ≠ "".
Proof. destruct v as [[]|]; simpl; try done; by intros [_ ?]%non_empty_Some. Qed.

(** The user is never shown an empty message. *)
Lemma getErrorMessage_non_empty data fallback : getErrorMessage data fallback ≠ "".
Proof.
  assert (or_else (Some fallback) "Request failed" ≠ "") as Hf.
  { unfold or_else, truthy. by case_bool_decide. }
  unfold getErrorMessage. case_match eqn:Hfield.
  - destruct data as [[]|]; try done.
    unfold nullish_or in Hfield.
    repeat case_match; simplify_eq; by eapply extractField_non_empty.
  - destruct data as [[]|]; try done. unfold truthy. by case_bool_decide.
Qed.

(** An error body with a non-empty [error] text and neither [detail] nor
    [message] - as the hotel and the broadcast service send - is shown as is. *)
Lemma getErrorMessage_error_field fs msg fallback :
  jget "detail" fs = None → jget "message" fs = None →
  jget "error" fs = Some (JStr msg) → msg ≠ "" →
  getErrorMessage (Some (JObj fs)) fallback = msg.
Proof.
  intros Hd Hm He Hne. unfold getErrorMessage. rewrite Hd, Hm, He. cbn.
  unfold non_empty, truthy. by rewrite bool_decide_true.
Qed.
