(* ===== verification/EventsStore.v ===== *)
(** * The web client's event store

    [stores/events-store.ts]: the last events of every channel and a counter
    per channel that ticks with each arrival.  A JavaScript record with a
    fixed key for every channel is a function of the channel.  The identifiers
    [crypto.randomUUID()] returns, in the order of the calls, are [uuid 0],
    [uuid 1], and so on. *)

From stdpp Require Import functions.
From S2P Require Import Prelude Json JsString WebTypes.

(** (src/frontend/src/stores/events-store.ts:6-6 MAX_EVENTS) *)
Definition MAX_EVENTS : nat := 100.
(** (src/frontend/src/stores/events-store.ts:7-7 ADMIN_ANNOUNCEMENT_EVENT_TYPE) *)
Definition ADMIN_ANNOUNCEMENT_EVENT_TYPE : string := "admin.announcement".
(** (src/frontend/src/stores/events-store.ts:8-8 ALL_CHANNELS) *)
Definition ALL_CHANNELS : list ChannelId := all_channels.

(** (src/frontend/src/stores/events-store.ts:14-19 EventsState) *)
Record EventsState : Type := MkEvents {
  events : ChannelId → list BroadcastEvent;
  activityTick : ChannelId → Z;
}.

(** (src/frontend/src/stores/events-store.ts:21-31 createEmptyChannelEvents) *)
Definition createEmptyChannelEvents : ChannelId → list BroadcastEvent := λ _, [].
(** (src/frontend/src/stores/events-store.ts:33-43 createEmptyActivityTicks) *)
Definition createEmptyActivityTicks : ChannelId → Z := λ _, 0%Z.

(** (src/frontend/src/stores/events-store.ts:45-53 prependEvent) *)
Definition prependEvent (l : list BroadcastEvent) (e : BroadcastEvent) : list BroadcastEvent :=
  let next := e :: l in
  if (MAX_EVENTS <? length next) then take MAX_EVENTS next else next.

(** [{ ...event, id, channel }].
    (src/frontend/src/stores/events-store.ts:94-98 mirroredEvent) *)
Definition with_channel (e : BroadcastEvent) (new_id : option json) (ch : ChannelId) :
    BroadcastEvent := {|
  b_id := new_id; b_channel := ch; b_event_type := b_event_type e; b_message := b_message e;
  b_sender := b_sender e; b_guest_id := b_guest_id e; b_guest_name := b_guest_name e;
  b_data := b_data e
|}.

(** One turn of the loop over the channels: reads the old state, writes the new.
    (src/frontend/src/stores/events-store.ts:70-75 for) *)
Definition fan_out_step (uuid : nat → string) (e : BroadcastEvent) (old : EventsState)
    (next : EventsState) (i : nat) (ch : ChannelId) : EventsState :=
  MkEvents
    (<[ch := prependEvent (events old ch) (with_channel e (Some (JStr (uuid i))) ch)]> (events next))
    (<[ch := (activityTick old ch + 1)%Z]> (activityTick next)).

(** (src/frontend/src/stores/events-store.ts:69-76 for) *)
Fixpoint fan_out (uuid : nat → string) (e : BroadcastEvent) (old next : EventsState)
    (i : nat) (chs : list ChannelId) : EventsState :=
  match chs with
  | [] => next
  | ch :: chs => fan_out uuid e old (fan_out_step uuid e old next i ch) (S i) chs
  end.

(** (src/frontend/src/stores/events-store.ts:59-112 ingestEvent) *)
Definition ingestEvent (uuid : nat → string) (e : BroadcastEvent) (mirrorToResortWide : bool)
    (state : EventsState) : EventsState :=
  if decide (b_event_type e = ADMIN_ANNOUNCEMENT_EVENT_TYPE) then
    fan_out uuid e state state 0 ALL_CHANNELS
  else
    let nextEvents :=
      <[b_channel e := prependEvent (events state (b_channel e)) e]> (events state) in
    let nextActivityTick :=
      <[b_channel e := (activityTick state (b_channel e) + 1)%Z]> (activityTick state) in
    let shouldMirrorToResortWide :=
      mirrorToResortWide && bool_decide (b_channel e ≠ ResortWide) in
    if shouldMirrorToResortWide then
      MkEvents
        (<[ResortWide := prependEvent (events state ResortWide)
             (with_channel e (Some (JStr (uuid 0))) ResortWide)]> nextEvents)
        (<[ResortWide := (activityTick state ResortWide + 1)%Z]> nextActivityTick)
    else MkEvents nextEvents nextActivityTick.

(** (src/frontend/src/stores/events-store.ts:114-117 clearEvents) *)
Definition clearEvents (ch : ChannelId) (state : EventsState) : EventsState :=
  MkEvents (<[ch := []]> (events state)) (activityTick state).

(** (src/frontend/src/stores/events-store.ts:55-57 useEventsStore) *)
Definition empty_events : EventsState := MkEvents createEmptyChannelEvents createEmptyActivityTicks.

(** ** Facts *)

Lemma prependEvent_take l e : prependEvent l e = take MAX_EVENTS (e :: l).
Proof.
  unfold prependEvent. destruct (Nat.ltb_spec MAX_EVENTS (length (e :: l))); [done|].
  by rewrite take_ge.
Qed.

Lemma fan_out_lookup uuid e old next i chs ch :
  NoDup chs →
  let s := fan_out uuid e old next i chs in
  (ch ∈ chs → ∃ k, events s ch = prependEvent (events old ch) (with_channel e (Some (JStr (uuid k))) ch) ∧
     activityTick s ch = (activityTick old ch + 1)%Z) ∧
  (ch ∉ chs → events s ch = events next ch ∧ activityTick s ch = activityTick next ch).
Proof.
  revert next i. induction chs as [|c chs IH]; intros next i Hnd; simpl.
  { split; [set_solver|done]. }
  apply NoDup_cons in Hnd as [Hc Hnd].
  destruct (IH (fan_out_step uuid e old next i c) (S i) Hnd) as [IH1 IH2]. split.
  - intros [->|Hin]%elem_of_cons; [|auto]. destruct (IH2 Hc) as [-> ->]. exists i.
    simpl. by rewrite !fn_lookup_insert.
  - intros [Hne Hnin]%not_elem_of_cons. destruct (IH2 Hnin) as [-> ->].
    simpl. by rewrite !fn_lookup_insert_ne by done.
Qed.

(** The channels an event arrives in. *)
Definition arrives (e : BroadcastEvent) (mirror : bool) (ch : ChannelId) : bool :=
  bool_decide (b_event_type e = ADMIN_ANNOUNCEMENT_EVENT_TYPE) ||
  bool_decide (b_channel e = ch) || (mirror && bool_decide (ch = ResortWide)).

Lemma ingestEvent_channel uuid e mirror s ch :
  let s' := ingestEvent uuid e mirror s in
  if arrives e mirror ch then
    (∃ e', events s' ch = take MAX_EVENTS (e' :: events s ch) ∧
       b_channel e' = ch ∧ (∃ i, e' = with_channel e i ch)) ∧
    activityTick s' ch = (activityTick s ch + 1)%Z
  else events s' ch = events s ch ∧ activityTick s' ch = activityTick s ch.
Proof.
  unfold arrives, ingestEvent. case_decide as Ha; cbv zeta.
  - rewrite bool_decide_true by done. cbn [orb].
    destruct (fan_out_lookup uuid e s s 0 ALL_CHANNELS ch) as [H _].
    { apply (bool_decide_unpack _). by vm_compute. }
    destruct (H (all_channels_all ch)) as (k & -> & ->). split; [|done].
    rewrite prependEvent_take. eexists. split_and!; [done|done|]. by eexists.
  - rewrite bool_decide_false by done. cbn [orb].
    assert (e = with_channel e (b_id e) (b_channel e)) as Hself by (by destruct e).
    destruct (decide (b_channel e = ch)) as [<-|Hne].
    + rewrite bool_decide_true by done. cbn [orb].
      assert (∀ (f : ChannelId → list BroadcastEvent) (g : ChannelId → Z),
        f (b_channel e) = prependEvent (events s (b_channel e)) e →
        g (b_channel e) = (activityTick s (b_channel e) + 1)%Z →
        (∃ e', f (b_channel e) = take MAX_EVENTS (e' :: events s (b_channel e)) ∧
          b_channel e' = b_channel e ∧ ∃ i, e' = with_channel e i (b_channel e)) ∧
        g (b_channel e) = (activityTick s (b_channel e) + 1)%Z) as Hown.
      { intros f g -> ->. split; [|done]. rewrite prependEvent_take. exists e. eauto. }
      destruct (mirror && _) eqn:Hm; cbn [events activityTick].
      * apply andb_prop in Hm as [_ Hm]. apply bool_decide_eq_true in Hm.
        apply Hown; by rewrite fn_lookup_insert_ne, fn_lookup_insert by done.
      * apply Hown; by rewrite fn_lookup_insert.
    + rewrite (bool_decide_false (b_channel e = ch)) by done. cbn [orb].
      destruct (decide (ch = ResortWide)) as [->|Hch].
      * rewrite (bool_decide_true (b_channel e ≠ ResortWide)), (bool_decide_true (_ = _)) by done.
        rewrite !andb_true_r. destruct mirror; cbn [events activityTick].
        -- rewrite !fn_lookup_insert, prependEvent_take. split; [|done]. eauto.
        -- by rewrite !fn_lookup_insert_ne by done.
      * rewrite (bool_decide_false (ch = ResortWide)), andb_false_r by done.
        destruct (mirror && _); cbn [events activityTick];
          rewrite !fn_lookup_insert_ne by done; done.
Qed.

(** Feeds are bounded and hold events of their own channel only. *)
Definition events_wf (s : EventsState) : Prop :=
  ∀ ch, length (events s ch) ≤ MAX_EVENTS ∧ Forall (λ e, b_channel e = ch) (events s ch) ∧
    (0 ≤ activityTick s ch)%Z.

Lemma empty_events_wf : events_wf empty_events.
Proof. intros ch. cbn. split_and!; [lia|constructor|done]. Qed.

Lemma ingestEvent_wf uuid e mirror s : events_wf s → events_wf (ingestEvent uuid e mirror s).
Proof.
  intros Hs ch. destruct (Hs ch) as (Hlen & Hch & Ht).
  pose proof (ingestEvent_channel uuid e mirror s ch) as H. cbv zeta in H.
  destruct (arrives e mirror ch).
  - destruct H as [(e' & -> & He' & _) ->]. split_and!; [|by apply Forall_take; constructor|lia].
    rewrite length_take. lia.
  - by destruct H as [-> ->].
Qed.

Lemma clearEvents_wf ch s : events_wf s → events_wf (clearEvents ch s).
Proof.
  intros Hs ch'. destruct (Hs ch') as (Hlen & Hch & Ht). cbn [clearEvents events activityTick].
  destruct (decide (ch' = ch)) as [->|]; [rewrite fn_lookup_insert|rewrite fn_lookup_insert_ne by done];
    split_and!; try done; cbn; lia.
Qed.

(** The operations of the store, as its users call them. *)
Inductive EventsOp : Type :=
  | Ingest (uuid : nat → string) (e : BroadcastEvent) (mirror : bool)
  | Clear (ch : ChannelId).
Definition run_events_op (o : EventsOp) (s : EventsState) : EventsState :=
  match o with
  | Ingest uuid e mirror => ingestEvent uuid e mirror s
  | Clear ch => clearEvents ch s
  end.

Lemma run_events_wf ops : events_wf (foldl (λ s o, run_events_op o s) empty_events ops).
Proof.
  induction ops as [|o ops IH] using rev_ind; [apply empty_events_wf|].
  rewrite foldl_app. cbn [foldl]. destruct o; [by apply ingestEvent_wf|by apply clearEvents_wf].
Qed.

(** The tick of a channel counts the arrivals, whatever is cleared or dropped. *)
Definition arrivals (ch : ChannelId) (ops : list EventsOp) : Z :=
  sum_with (λ o, match o with
    | Ingest _ e mirror => if arrives e mirror ch then 1 else 0
    | Clear _ => 0
    end)%Z ops.

Lemma activityTick_counts ops ch s :
  activityTick (foldl (λ s o, run_events_op o s) s ops) ch =
  (activityTick s ch + arrivals ch ops)%Z.
Proof.
  revert s. induction ops as [|o ops IH]; intros s; [cbn; lia|].
  cbn [foldl]. rewrite IH. unfold arrivals, sum_with in *. cbn [foldr].
  destruct o as [uuid e mirror|c]; cbn [run_events_op clearEvents activityTick]; [|lia].
  pose proof (ingestEvent_channel uuid e mirror s ch) as H. cbv zeta in H.
  destruct (arrives e mirror ch); destruct H as [_ ->]; lia.
Qed.
