(* ===== verification/IslandEvent.v ===== *)
(** * Island events in the web client

    [features/broadcast/lib/island-event.ts]: the older event shape
    ([source]/[type]/[payload]) normalised to a broadcast event, and the
    availability a beach event carries. *)

From S2P Require Import Prelude Json JsString JsonText WebTypes.

(** The parsed activity of the cache.
    (src/frontend/src/features/beach/types.ts:31-31 Activity) *)
Record Activity : Type := {
  activity_id : string;
  activity_name : string;
  description : option json;
  act_capacity : number;
  act_remaining : number;
}.

(** (src/frontend/src/features/broadcast/lib/island-event.ts:13-18 BeachAvailabilityPayload) *)
Record BeachAvailabilityPayload : Type := {
  p_activityId : string;
  p_activityName : option string;
  p_capacity : option number;
  p_remaining : number;
}.

(** (src/frontend/src/features/broadcast/lib/island-event.ts:20-23 BEACH_ACTIVITY_EVENT_TYPES) *)
Definition BEACH_ACTIVITY_EVENT_TYPES : list string :=
  ["beach.activity_full"; "beach.activity_available"].

Definition as_number (v : json) : option number :=
  match v with JNum n => Some n | _ => None end.
Definition opt_number (k : string) (fs : list (string * json)) : option number :=
  match jget k fs with Some v => as_number v | None => None end.

(** [typeof v === "number" ? v : NaN] and the [Number.isFinite] test on it.
    (src/frontend/src/features/broadcast/lib/island-event.ts:58-63 remaining) *)
Definition finite_number (k : string) (fs : list (string * json)) : option number :=
  match opt_number k fs with
  | Some n => if num_is_finite n then Some n else None
  | None => None
  end.

(** An array is an object too, without the properties read here.
    (src/frontend/src/features/broadcast/lib/island-event.ts:128-134 getPayloadObject) *)
Definition getPayloadObject (payload : option json) : option (list (string * json)) :=
  match payload with
  | Some (JObj fs) => Some fs
  | Some (JArr _) => Some []
  | _ => None
  end.

(** The [data] of a normalised event.
    (src/frontend/src/features/broadcast/lib/island-event.ts:119-124 data) *)
Definition beach_data (activityId activityName : string) (capacity : option json)
    (remaining : number) : list (string * json) :=
  [("activityId", JStr activityId); ("activityName", JStr activityName)] ++
  jopt "capacity" capacity ++ [("remaining", JNum remaining)].

(** (src/frontend/src/features/broadcast/lib/island-event.ts:85-126 normalizeBeachEvent) *)
Definition normalizeBeachEvent (event : json) : option BroadcastEvent :=
  match jprop "type" event with
  | Some (JStr type) =>
      if decide (type ∈ BEACH_ACTIVITY_EVENT_TYPES) then
        payload ← getPayloadObject (jprop "payload" event);
        activityId ← opt_string "activityId" payload;
        let activityName := default activityId (opt_string "activityName" payload) in
        remaining ← finite_number "remaining" payload;
        Some {|
          b_id := jprop "id" event; b_channel := Beach; b_event_type := type;
          b_message :=
            if decide (type = "beach.activity_full") then activityName +:+ " is now full."
            else "A space opened up for " +:+ activityName +:+ ".";
          b_sender := "beach-service"; b_guest_id := None; b_guest_name := None;
          b_data := Some (beach_data activityId activityName (jget "capacity" payload) remaining)
        |}
      else None
  | _ => None
  end.

(** (src/frontend/src/features/broadcast/lib/island-event.ts:25-31 normalizeIslandEvent) *)
Definition normalizeIslandEvent (event : json) : option BroadcastEvent :=
  if decide (jprop "source" event = Some (JStr "beach")) then normalizeBeachEvent event else None.

(** Reading a property of a parsed [null] throws, like ill-formed text, and
    both are caught.
    (src/frontend/src/features/broadcast/lib/island-event.ts:33-39 parseIslandEventMessage) *)
Definition parseIslandEventMessage (data : string) : option BroadcastEvent :=
  match JSON_parse data with
  | None | Some JNull => None
  | Some event => normalizeIslandEvent event
  end.

(** (src/frontend/src/features/broadcast/lib/island-event.ts:41-72 getBeachAvailabilityPayload) *)
Definition getBeachAvailabilityPayload (event : BroadcastEvent) :
    option BeachAvailabilityPayload :=
  if decide (b_channel event ≠ Beach ∨ b_event_type event ∉ BEACH_ACTIVITY_EVENT_TYPES) then None
  else
    data ← b_data event;
    activityId ← opt_string "activityId" data;
    remaining ← finite_number "remaining" data;
    Some {| p_activityId := activityId; p_activityName := opt_string "activityName" data;
            p_capacity := opt_number "capacity" data; p_remaining := remaining |}.

(** (src/frontend/src/features/broadcast/lib/island-event.ts:80-80 map) *)
Definition set_remaining (n : number) (a : Activity) : Activity := {|
  activity_id := activity_id a; activity_name := activity_name a; description := description a;
  act_capacity := act_capacity a; act_remaining := n
|}.

(** (src/frontend/src/features/broadcast/lib/island-event.ts:74-83 updateActivitiesFromBeachEvent) *)
Definition updateActivitiesFromBeachEvent (activities : list Activity)
    (payload : BeachAvailabilityPayload) : list Activity :=
  (λ a, if decide (activity_id a = p_activityId payload)
        then set_remaining (p_remaining payload) a else a) <$> activities.

(** ** Facts *)

Lemma beach_data_fields a n c r :
  opt_string "activityId" (beach_data a n c r) = Some a ∧
  opt_string "activityName" (beach_data a n c r) = Some n ∧
  jget "capacity" (beach_data a n c r) = c ∧
  opt_number "remaining" (beach_data a n c r) = Some r.
Proof. by destruct c. Qed.

(** A normalised event carries an availability: its payload's own. *)
Lemma normalizeIslandEvent_payload event e :
  normalizeIslandEvent event = Some e →
  ∃ type payload activityId remaining,
    jprop "source" event = Some (JStr "beach") ∧
    jprop "type" event = Some (JStr type) ∧ type ∈ BEACH_ACTIVITY_EVENT_TYPES ∧
    getPayloadObject (jprop "payload" event) = Some payload ∧
    opt_string "activityId" payload = Some activityId ∧
    finite_number "remaining" payload = Some remaining ∧
    b_channel e = Beach ∧ b_event_type e = type ∧
    getBeachAvailabilityPayload e = Some {|
      p_activityId := activityId;
      p_activityName := Some (default activityId (opt_string "activityName" payload));
      p_capacity := opt_number "capacity" payload; p_remaining := remaining |}.
Proof.
  unfold normalizeIslandEvent, normalizeBeachEvent. case_decide as Hs; [|done].
  destruct (jprop "type" event) as [[| | |type| |]|] eqn:Ht; try done.
  case_decide as Hin; [|done].
  destruct (getPayloadObject (jprop "payload" event)) as [payload|] eqn:Hp; [|done].
  cbn [mbind option_bind]. destruct (opt_string "activityId" payload) as [aid|] eqn:Ha; [|done].
  cbn [mbind option_bind]. destruct (finite_number "remaining" payload) as [rem|] eqn:Hr; [|done].
  cbn [mbind option_bind]. intros [= <-]. exists type, payload, aid, rem. split_and!; try done.
  unfold getBeachAvailabilityPayload. cbn [b_channel b_event_type b_data].
  rewrite decide_False by tauto. cbn [mbind option_bind].
  assert (num_is_finite rem = true) as Hfin.
  { unfold finite_number in Hr. repeat case_match; naive_solver. }
  destruct (beach_data_fields aid (default aid (opt_string "activityName" payload))
    (jget "capacity" payload) rem) as (H1 & H2 & H3 & H4).
  unfold finite_number. rewrite H1, H4, Hfin. cbn [mbind option_bind]. rewrite H2.
  unfold opt_number. by rewrite H3.
Qed.

(** Updating keeps the list of activities and changes only what remains of the
    one the event names. *)
Lemma updateActivities_spec activities payload :
  activity_id <$> updateActivitiesFromBeachEvent activities payload = activity_id <$> activities ∧
  (∀ i a, activities !! i = Some a →
    updateActivitiesFromBeachEvent activities payload !! i =
      Some (if decide (activity_id a = p_activityId payload)
            then set_remaining (p_remaining payload) a else a)).
Proof.
  unfold updateActivitiesFromBeachEvent. split.
  - rewrite <-list_fmap_compose. apply list_fmap_ext. intros i a _. simpl. by case_decide.
  - intros i a Hi. by rewrite list_lookup_fmap, Hi.
Qed.

Lemma updateActivities_idempotent activities payload :
  updateActivitiesFromBeachEvent (updateActivitiesFromBeachEvent activities payload) payload =
  updateActivitiesFromBeachEvent activities payload.
Proof.
  unfold updateActivitiesFromBeachEvent. rewrite <-list_fmap_compose.
  apply list_fmap_ext. intros i a _. simpl.
  destruct (decide (activity_id a = p_activityId payload)); [|by rewrite decide_False].
  by rewrite decide_True by done.
Qed.
