(* ===== verification/UseBroadcast.v ===== *)
(** * The event stream of the web client

    [features/broadcast/hooks/use-broadcast.ts]: one connection to the event
    stream, reopened with an exponential back-off for as long as the component
    is mounted, and what a message does to the event store and to the cached
    beach activities.  The browser's [EventSource]s and timers are numbered;
    [sources] are those not closed, [pending] the timers that are set. *)

From S2P Require Import Prelude Json Zod JsString JsonText Uri.
From S2P Require Import WebTypes EventsStore IslandEvent.

(** (src/frontend/src/features/broadcast/hooks/use-broadcast.ts:18-18 BACKOFF_INITIAL_MS) *)
Definition BACKOFF_INITIAL_MS : Z := 1000.
(** (src/frontend/src/features/broadcast/hooks/use-broadcast.ts:19-19 BACKOFF_MAX_MS) *)
Definition BACKOFF_MAX_MS : Z := 30000.
(** (src/frontend/src/features/broadcast/hooks/use-broadcast.ts:21-21 BROADCAST_PATH) *)
Definition BROADCAST_PATH : string := "/api/broadcast/events".

(** The hook's state and references, and the browser's.
    (src/frontend/src/features/broadcast/hooks/use-broadcast.ts:25-37 useBroadcast) *)
Record HookState : Type := {
  connection_status : ConnectionStatus;
  connectionRef : option nat;
  backoffRef : Z;
  timerRef : option nat;
  activeRef : bool;
  sources : list nat;
  pending : list (nat * Z);
  next_handle : nat;
}.

(** [url.replace(/\/+$/, "")]. *)
Definition strip_trailing_slashes (s : string) : string :=
  of_chars (reverse (drop_while (λ c, bool_decide (c = "/"%char)) (reverse (chars s)))).

(** The address [connect] opens.
    (src/frontend/src/features/broadcast/hooks/use-broadcast.ts:47-49 connect) *)
Definition stream_url (gatewayUrl feToken : string) : string :=
  strip_trailing_slashes gatewayUrl +:+ BROADCAST_PATH +:+
  (if truthy feToken then "?token=" +:+ encodeURIComponent feToken else "").

(** (src/frontend/src/features/broadcast/hooks/use-broadcast.ts:25-37 useState) *)
Definition initial_hook (gatewayUrl : string) : HookState := {|
  connection_status := if truthy gatewayUrl then Reconnecting else Dropped;
  connectionRef := None; backoffRef := BACKOFF_INITIAL_MS; timerRef := None; activeRef := true;
  sources := []; pending := []; next_handle := 0
|}.

(** (src/frontend/src/features/broadcast/hooks/use-broadcast.ts:44-50 connect) *)
Definition connect (s : HookState) : HookState :=
  if negb (activeRef s) then s else {|
    connection_status := connection_status s; connectionRef := Some (next_handle s);
    backoffRef := backoffRef s; timerRef := timerRef s; activeRef := activeRef s;
    sources := sources s ++ [next_handle s]; pending := pending s;
    next_handle := S (next_handle s)
  |}.

(** (src/frontend/src/features/broadcast/hooks/use-broadcast.ts:39-128 useEffect) *)
Definition mount (gatewayUrl : string) (s : HookState) : HookState :=
  if negb (truthy gatewayUrl) then s else
  connect {|
    connection_status := connection_status s; connectionRef := connectionRef s;
    backoffRef := backoffRef s; timerRef := timerRef s; activeRef := true;
    sources := sources s; pending := pending s; next_handle := next_handle s
  |}.

(** (src/frontend/src/features/broadcast/hooks/use-broadcast.ts:52-55 onopen) *)
Definition onopen (s : HookState) : HookState := {|
  connection_status := Connected; connectionRef := connectionRef s;
  backoffRef := BACKOFF_INITIAL_MS; timerRef := timerRef s; activeRef := activeRef s;
  sources := sources s; pending := pending s; next_handle := next_handle s
|}.

Definition close (es : nat) (l : list nat) : list nat := filter (λ x, x ≠ es) l.
Definition clear (t : nat) (l : list (nat * Z)) : list (nat * Z) := filter (λ x, x.1 ≠ t) l.

(** (src/frontend/src/features/broadcast/hooks/use-broadcast.ts:112-125 onerror) *)
Definition onerror (es : nat) (s : HookState) : HookState :=
  if negb (activeRef s) then {|
    connection_status := Reconnecting; connectionRef := None; backoffRef := backoffRef s;
    timerRef := timerRef s; activeRef := activeRef s; sources := close es (sources s);
    pending := pending s; next_handle := next_handle s
  |} else
  let current := backoffRef s in {|
    connection_status := Reconnecting; connectionRef := None;
    backoffRef := Z.min (current * 2) BACKOFF_MAX_MS;
    timerRef := Some (next_handle s); activeRef := activeRef s;
    sources := close es (sources s); pending := pending s ++ [(next_handle s, current)];
    next_handle := S (next_handle s)
  |}.

(** The callback of a timer that has run out.
    (src/frontend/src/features/broadcast/hooks/use-broadcast.ts:122-124 setTimeout) *)
Definition fire (t : nat) (s : HookState) : HookState :=
  let s := {|
    connection_status := connection_status s; connectionRef := connectionRef s;
    backoffRef := backoffRef s; timerRef := timerRef s; activeRef := activeRef s;
    sources := sources s; pending := clear t (pending s); next_handle := next_handle s
  |} in
  if activeRef s then connect s else s.

(** (src/frontend/src/features/broadcast/hooks/use-broadcast.ts:130-138 cleanup) *)
Definition cleanup (s : HookState) : HookState := {|
  connection_status := connection_status s; connectionRef := None; backoffRef := backoffRef s;
  timerRef := None; activeRef := false;
  sources := match connectionRef s with Some es => close es (sources s) | None => sources s end;
  pending := match timerRef s with Some t => clear t (pending s) | None => pending s end;
  next_handle := next_handle s
|}.

(** ** The life of the hook *)

(** React mounts the effect and cleans it up in turn; the browser delivers
    events of connections that are not closed and of timers that are set.
    [mounted] tells the two phases apart. *)
Inductive hook_step (gatewayUrl : string) : bool * HookState → bool * HookState → Prop :=
  | step_mount s : hook_step gatewayUrl (false, s) (true, mount gatewayUrl s)
  | step_open m s es : es ∈ sources s → hook_step gatewayUrl (m, s) (m, onopen s)
  | step_error m s es : es ∈ sources s → hook_step gatewayUrl (m, s) (m, onerror es s)
  | step_fire m s t d : (t, d) ∈ pending s → hook_step gatewayUrl (m, s) (m, fire t s)
  | step_unmount s : truthy gatewayUrl = true → hook_step gatewayUrl (true, s) (false, cleanup s).

Definition hook_reachable (gatewayUrl : string) : bool * HookState → Prop :=
  reachable (λ s, s = (false, initial_hook gatewayUrl)) (hook_step gatewayUrl).

(** Nothing is open and nothing is set, or one connection is open, which the
    reference names, or one timer is set, which the reference names. *)
Inductive activity (s : HookState) : Prop :=
  | idle : sources s = [] → pending s = [] → connectionRef s = None → activity s
  | streaming es : sources s = [es] → pending s = [] → connectionRef s = Some es → activity s
  | waiting t d : sources s = [] → pending s = [(t, d)] → timerRef s = Some t →
      connectionRef s = None → (BACKOFF_INITIAL_MS ≤ d ≤ BACKOFF_MAX_MS)%Z → activity s.

Record hook_inv (gatewayUrl : string) (ms : bool * HookState) : Prop := {
  hi_activity : activity ms.2;
  (** it never gives up: while mounted it streams or waits *)
  hi_mounted : ms.1 = true → truthy gatewayUrl = true →
    activeRef ms.2 = true ∧ length (sources ms.2) + length (pending ms.2) = 1;
  (** unmounted, it holds no connection and no timer *)
  hi_unmounted : ms.1 = false → sources ms.2 = [] ∧ pending ms.2 = [];
  hi_no_gateway : truthy gatewayUrl = false → sources ms.2 = [] ∧ pending ms.2 = [];
  hi_backoff : (BACKOFF_INITIAL_MS ≤ backoffRef ms.2 ≤ BACKOFF_MAX_MS)%Z;
}.

Lemma close_single es : close es [es] = [].
Proof. unfold close. by rewrite filter_cons, decide_False, filter_nil by tauto. Qed.
Lemma clear_single t d : clear t [(t, d)] = [].
Proof. unfold clear. by rewrite filter_cons, decide_False, filter_nil by (simpl; tauto). Qed.

Lemma hook_step_inv gatewayUrl ms ms' :
  hook_inv gatewayUrl ms → hook_step gatewayUrl ms ms' → hook_inv gatewayUrl ms'.
Proof.
  intros [Hact Hm Hu Hg Hb] Hstep.
  assert (1000 ≤ 30000)%Z by lia.
  destruct Hstep as [s|m s es Hes|m s es Hes|m s t d Ht|s Hgw]; cbn [fst snd] in *.
  - destruct (Hu eq_refl) as [Hs Hp]. unfold mount. destruct (truthy gatewayUrl) eqn:Hgw; cbn.
    + constructor; cbn; rewrite ?Hs, ?Hp; try done; try congruence.
      eapply streaming; cbn; by rewrite ?Hs.
    + constructor; cbn; try done. congruence.
  - constructor; cbn; try done.
    destruct Hact as [? ? ?|es' ? ? ?|t d ? ? ? ? ?]; [by apply idle|by eapply streaming|by eapply waiting].
  - destruct Hact as [Hs Hp Hc|es' Hs Hp Hc|t d Hs Hp Ht Hc Hd]; rewrite Hs in Hes; [set_solver| |set_solver].
    apply list_elem_of_singleton in Hes as ->.
    destruct m; [|destruct (Hu eq_refl); congruence].
    destruct (truthy gatewayUrl) eqn:Hgw; [|destruct (Hg eq_refl); congruence].
    destruct (Hm eq_refl eq_refl) as [Ha _]. unfold onerror. rewrite Ha. cbn [negb].
    constructor; cbn [fst snd connection_status connectionRef backoffRef timerRef activeRef sources
      pending next_handle]; rewrite ?Hs, ?Hp, ?close_single; try done; try congruence.
    + eapply waiting; cbn; rewrite ?Hs, ?Hp, ?close_single; try done.
    + unfold BACKOFF_INITIAL_MS, BACKOFF_MAX_MS in *. lia.
  - destruct Hact as [Hs Hp Hc|es' Hs Hp Hc|t' d' Hs Hp Htr Hc Hd]; rewrite Hp in Ht; [set_solver..|].
    apply list_elem_of_singleton in Ht as [= -> ->].
    destruct m; [|destruct (Hu eq_refl); congruence].
    destruct (truthy gatewayUrl) eqn:Hgw; [|destruct (Hg eq_refl); congruence].
    destruct (Hm eq_refl eq_refl) as [Ha _]. unfold fire, connect. cbn [activeRef]. rewrite Ha. cbn.
    rewrite Hp, clear_single, Hs. constructor; cbn; try done; try congruence. by eapply streaming.
  - assert (sources (cleanup s) = [] ∧ pending (cleanup s) = []) as [Hs' Hp'].
    { destruct Hact as [Hs Hp Hc|es' Hs Hp Hc|t d Hs Hp Ht Hc Hd]; unfold cleanup; cbn;
        rewrite ?Hs, ?Hp, ?Hc, ?Ht, ?close_single, ?clear_single; try done;
        destruct (timerRef s); done. }
    constructor; cbn [fst snd]; try done; [by apply idle].
Qed.

Lemma hook_reachable_inv gatewayUrl ms : hook_reachable gatewayUrl ms → hook_inv gatewayUrl ms.
Proof.
  apply invariant_reachable.
  - intros ? ->. constructor; cbn; try done. by apply idle.
  - intros s s'. apply hook_step_inv.
Qed.

(** *** The delays of successive failures *)

(** The connection fails and the timer it sets runs out. *)
Definition fail_and_retry (s : HookState) : HookState :=
  match connectionRef s with
  | Some es => let s := onerror es s in
      match timerRef s with Some t => fire t s | None => s end
  | None => s
  end.

(** Connected, with nothing pending. *)
Definition streaming_state (s : HookState) : Prop :=
  activeRef s = true ∧ pending s = [] ∧ ∃ es, connectionRef s = Some es ∧ sources s = [es].

Lemma fail_and_retry_step s :
  streaming_state s →
  streaming_state (fail_and_retry s) ∧
  backoffRef (fail_and_retry s) = Z.min (backoffRef s * 2) BACKOFF_MAX_MS.
Proof.
  intros (Ha & Hp & es & Hc & Hs). unfold fail_and_retry, streaming_state, onerror, fire, connect.
  rewrite Hc, Ha. cbn. rewrite ?Ha. cbn. rewrite ?Ha, ?Hs, ?Hp. cbn.
  rewrite !decide_False by tauto. split; [|done]. split_and!; [done..|]. by eexists.
Qed.

Lemma backoff_after n s :
  streaming_state s → backoffRef s = BACKOFF_INITIAL_MS →
  streaming_state (Nat.iter n fail_and_retry s) ∧
  backoffRef (Nat.iter n fail_and_retry s) =
    Z.min (BACKOFF_INITIAL_MS * 2 ^ Z.of_nat n) BACKOFF_MAX_MS.
Proof.
  intros Hs Hb. induction n as [|n [IH1 IH2]].
  - split; [done|]. cbn. rewrite Hb. done.
  - rewrite Nat.iter_succ. destruct (fail_and_retry_step _ IH1) as [H1 H2]. split; [done|].
    rewrite H2, IH2, Nat2Z.inj_succ, Z.pow_succ_r by lia.
    unfold BACKOFF_INITIAL_MS, BACKOFF_MAX_MS. lia.
Qed.

(** ** Messages *)

(** The client's data: the event store, and the query cache of the beach
    activities ([None] before the first answer) with the number of times it
    was invalidated. *)
Record ClientData : Type := {
  store : EventsState;
  cached_activities : option (list Activity);
  invalidations : nat;
}.

(** (src/frontend/src/features/broadcast/hooks/use-broadcast.ts:57-87 ingestBroadcastEvent) *)
Definition ingestBroadcastEvent (uuid : nat → string) (event : BroadcastEvent)
    (d : ClientData) : ClientData :=
  let store := ingestEvent uuid event true (store d) in
  match getBeachAvailabilityPayload event with
  | None => {| store := store; cached_activities := cached_activities d;
               invalidations := invalidations d |}
  | Some beachPayload =>
      match cached_activities d with
      | Some activities =>
          {| store := store;
             cached_activities := Some (updateActivitiesFromBeachEvent activities beachPayload);
             invalidations := invalidations d |}
      | None => {| store := store; cached_activities := None;
                   invalidations := S (invalidations d) |}
      end
  end.

Section messages.
Context `{Zod}.

(** The event a message is taken for: the older shape first, then the
    schema's. *)
Definition decode_message (rawData : string) : option BroadcastEvent :=
  match parseIslandEventMessage rawData with
  | Some islandEvent => Some islandEvent
  | None =>
      match JSON_parse rawData with
      | None => None
      | Some v =>
          match safeParse BroadcastEventSchema v with
          | inr parsed => read_event parsed
          | inl _ => None
          end
      end
  end.

(** (src/frontend/src/features/broadcast/hooks/use-broadcast.ts:89-105 handleMessage) *)
Definition handleMessage (uuid : nat → string) (rawData : string) (d : ClientData) : ClientData :=
  match decode_message rawData with
  | Some event => ingestBroadcastEvent uuid event d
  | None => d
  end.

(** A malformed message changes nothing. *)
Lemma handleMessage_malformed uuid raw d : JSON_parse raw = None → handleMessage uuid raw d = d.
Proof.
  intros Hp. unfold handleMessage, decode_message, parseIslandEventMessage. by rewrite Hp.
Qed.

(** A message never breaks the store, and keeps the activities' identities. *)
Lemma handleMessage_sound uuid raw d :
  events_wf (store d) →
  events_wf (store (handleMessage uuid raw d)) ∧
  option_map (λ l, activity_id <$> l) (cached_activities (handleMessage uuid raw d)) =
    option_map (λ l, activity_id <$> l) (cached_activities d).
Proof.
  intros Hw. unfold handleMessage. destruct (decode_message raw) as [e|]; [|done].
  assert (events_wf (ingestEvent uuid e true (store d))) by (by apply ingestEvent_wf).
  unfold ingestBroadcastEvent. destruct (getBeachAvailabilityPayload e) as [p|]; [|done].
  destruct (cached_activities d) as [l|] eqn:Hc; [|done]. split; [done|].
  cbn [cached_activities]. simpl. f_equal. apply updateActivities_spec.
Qed.
End messages.
