(* ===== verification/WebWire.v ===== *)
(** * From a producer's post to the web client's screen

    A post to the broadcast service, the frame it becomes, and what the web
    client does with the frame's text. *)

From S2P Require Import Prelude Json Zod JsString JsonText.
From S2P Require BroadcastTypes BroadcastAuth EventBus BroadcastRoutes.
From S2P Require Import WebTypes EventsStore IslandEvent UseBroadcast Wire.

Section web_wire.
Context `{Zod}.

(** The text of an event's frame is decoded to the event, through the schema:
    it has no [source], so it is not taken for the older shape. *)
Lemma decode_island_event e :
  printable (BroadcastTypes.island_event_json e) →
  decode_message (JSON_stringify (BroadcastTypes.island_event_json e)) = Some (web_event e).
Proof.
  intros Hp. unfold decode_message, parseIslandEventMessage.
  rewrite (JSON_parse_stringify _ Hp).
  destruct (island_event_accepted e) as [Hc Hr].
  assert (normalizeIslandEvent (BroadcastTypes.island_event_json e) = None) as Hn.
  { unfold normalizeIslandEvent. rewrite decide_False; [done|].
    destruct e as [? ? ? ? ? g n d]. by destruct g, n, d. }
  change (match BroadcastTypes.island_event_json e with
          | JNull => None | event => normalizeIslandEvent event end)
    with (normalizeIslandEvent (BroadcastTypes.island_event_json e)).
  by rewrite Hn, (safeParse_success _ _ Hc).
Qed.

(** A posted event that the service accepts reaches the feed of its channel
    in every client, as the newest entry. *)
Lemma posted_event_shown e uuid d :
  printable (BroadcastTypes.island_event_json e) →
  BroadcastTypes.event_type e ≠ BroadcastTypes.ADMIN_ANNOUNCEMENT →
  let ch := web_channel (BroadcastTypes.channel e) in
  ∃ e', head (events (store (handleMessage uuid
      (JSON_stringify (BroadcastTypes.island_event_json e)) d)) ch) = Some e' ∧
    b_channel e' = ch ∧ b_message e' = BroadcastTypes.message e ∧
    b_sender e' = BroadcastTypes.sender e ∧ b_data e' = BroadcastTypes.data e.
Proof.
  intros Hp Hty ch. unfold handleMessage. rewrite decode_island_event by done.
  assert (store (ingestBroadcastEvent uuid (web_event e) d) =
    ingestEvent uuid (web_event e) true (store d)) as ->.
  { unfold ingestBroadcastEvent. destruct (getBeachAvailabilityPayload _); [|done].
    by destruct (cached_activities d). }
  pose proof (ingestEvent_channel uuid (web_event e) true (store d) ch) as Hch.
  cbv zeta in Hch. unfold arrives in Hch. cbn [web_event b_channel] in Hch.
  rewrite (bool_decide_true (web_channel (BroadcastTypes.channel e) = ch)) in Hch by done.
  rewrite orb_true_r in Hch. destruct Hch as [(e' & -> & He' & i & ->) _].
  eexists. split; [done|]. done.
Qed.

(** No event that the beach can post carries an availability: its schema
    admits neither [activityId] nor [remaining], so the cached activities
    stay as they were. *)
Lemma opt_string_rest_data fs kvs k :
  k ∉ field_names fs → opt_string k (BroadcastRoutes.rest_data (fields_data fs kvs)) = None.
Proof.
  intros Hk. unfold opt_string. assert (jget k (BroadcastRoutes.rest_data (fields_data fs kvs)) = None)
    as ->; [|done].
  apply jget_None. unfold BroadcastRoutes.rest_data. rewrite keys_omit.
  intros [Hin _]. by apply keys_fields_data in Hin as [? _].
Qed.

Definition beach_fields : list (string * presence * schema) :=
  BroadcastTypes.BaseFields ++ [("activity", Optional, ZString)].

Lemma beach_event_no_payload uuid ty msg kvs :
  getBeachAvailabilityPayload (web_event (BroadcastRoutes.service_event uuid
    BroadcastTypes.Beach ty msg "beach" (fields_data beach_fields kvs))) = None.
Proof.
  unfold getBeachAvailabilityPayload. case_decide; [done|].
  cbn [web_event b_data BroadcastRoutes.service_event BroadcastTypes.data mbind option_bind].
  rewrite (opt_string_rest_data _ _ "activityId"); [done|].
  apply (bool_decide_unpack _). by vm_compute.
Qed.

Lemma beach_post_leaves_activities path h env auth uuid body b response b' client_uuid d :
  path = "/beach/full" ∨ path = "/beach/available" →
  BroadcastRoutes.post_handler path = Some h →
  h env auth uuid body b = (response, b') → BroadcastRoutes.status response = 200%Z →
  ∃ e, b' = EventBus.broadcast e b ∧
    (printable (BroadcastTypes.island_event_json e) →
     let d' := handleMessage client_uuid
       (JSON_stringify (BroadcastTypes.island_event_json e)) d in
     cached_activities d' = cached_activities d ∧ invalidations d' = invalidations d).
Proof.
  intros Hpath Hh Hb Hst.
  assert (∃ ty msg kvs, b' = EventBus.broadcast (BroadcastRoutes.service_event uuid
    BroadcastTypes.Beach ty msg "beach" (fields_data beach_fields kvs)) b) as (ty & msg & kvs & ->).
  { assert (∀ ty msg, BroadcastRoutes.publish BroadcastTypes.BeachEventSchema
        (BroadcastRoutes.service_event uuid BroadcastTypes.Beach ty msg "beach") body b =
        (response, b') →
      ∃ kvs, b' = EventBus.broadcast (BroadcastRoutes.service_event uuid
        BroadcastTypes.Beach ty msg "beach" (fields_data beach_fields kvs)) b) as Hpub.
    { intros ty msg. destruct (conforms BroadcastTypes.BeachEventSchema body) eqn:Hc.
      - destruct (BroadcastRoutes.publish_accepts true beach_fields
          (BroadcastRoutes.service_event uuid BroadcastTypes.Beach ty msg "beach") body b Hc)
          as (kvs & -> & Hp).
        change BroadcastTypes.BeachEventSchema with (ZObject true beach_fields).
        rewrite Hp. intros [= _ <-]. by exists kvs.
      - destruct (BroadcastRoutes.publish_rejects _
          (BroadcastRoutes.service_event uuid BroadcastTypes.Beach ty msg "beach") body b Hc)
          as (issues & -> & _). intros [= <- _]. done. }
    destruct Hpath as [->| ->]; injection Hh as <-.
    - destruct (Hpub _ _ Hb) as (kvs & ->). eauto.
    - destruct (Hpub _ _ Hb) as (kvs & ->). eauto. }
  eexists. split; [done|]. intros Hp. cbv zeta. unfold handleMessage.
  rewrite decode_island_event by done. unfold ingestBroadcastEvent.
  by rewrite beach_event_no_payload.
Qed.
End web_wire.
