(* ===== verification/FeedHistory.v ===== *)
(** * What a page reads of its stream, and what its feeds keep

    The browser's [EventSource] takes the bytes of a stream apart into
    messages; it is the class [EventSource], with the documented treatment of
    comments and of [data:] lines.  A page hands every message to the stream
    hook's handler; after any number of them each feed holds, newest first and
    up to [MAX_EVENTS], what arrived in its channel. *)

From S2P Require Import Prelude Json Zod JsString JsonText.
From S2P Require BroadcastTypes EventBus BroadcastRoutes.
From S2P Require Import WebTypes EventsStore IslandEvent UseBroadcast Wire WebWire.

(** ** Reading a stream *)

(** Text without a line break or any other control character. *)
Definition one_line (text : string) : Prop := Forall (λ c, 32 ≤ code c)%Z (chars text).

(** The messages that one chunk of a stream, closed by an empty line, gives. *)
Class EventSource := {
  messages : string → list string;
  messages_comment text : one_line text →
    messages (":" +:+ text +:+ EventBus.newline +:+ EventBus.newline) = [];
  messages_data text : one_line text → text ≠ "" →
    messages ("data: " +:+ text +:+ EventBus.newline +:+ EventBus.newline) = [text];
}.

(** A reader of single [data:] lines, for the instances. *)
Definition data_line (chunk : string) : list string :=
  match strip_prefix (chars "data: ") (chars chunk) with
  | Some rest => [of_chars (take (length rest - 2) rest)]
  | None => []
  end.

#[program] Definition event_source_reference : EventSource := {| messages := data_line |}.
Next Obligation. done. Qed.
Next Obligation.
  intros text _ _. unfold data_line. rewrite !chars_app. cbn. rewrite !decide_True by done.
  rewrite length_app, Nat.add_sub, take_app_length. by rewrite of_chars_chars.
Qed.

Section reading.
Context `{Zod} `{EventSource}.

(** [es.onmessage] for every message of the chunk.
    (src/frontend/src/features/broadcast/hooks/use-broadcast.ts:107-110 onmessage) *)
Definition receive (uuid : nat → string) (chunk : string) (d : ClientData) : ClientData :=
  foldl (λ d text, handleMessage uuid text d) d (messages chunk).

(** The greeting is a comment. *)
Lemma receive_greeting uuid d : receive uuid EventBus.connected_chunk d = d.
Proof.
  unfold receive. change EventBus.connected_chunk with
    (":" +:+ " connected" +:+ EventBus.newline +:+ EventBus.newline).
  rewrite messages_comment; [done|]. by apply (bool_decide_unpack _).
Qed.

Lemma receive_frame uuid e d :
  printable (BroadcastTypes.island_event_json e) →
  receive uuid (EventBus.frame e) d = ingestBroadcastEvent uuid (web_event e) d.
Proof.
  intros Hp. unfold receive, EventBus.frame. rewrite messages_data.
  - cbn [foldl]. unfold handleMessage. by rewrite decode_island_event.
  - unfold one_line, JSON_stringify. rewrite chars_of_chars. apply print_json_visible.
  - intros He. apply JSON_parse_stringify in Hp. by rewrite He in Hp.
Qed.
End reading.

Lemma store_ingestBroadcastEvent uuid e d :
  store (ingestBroadcastEvent uuid e d) = ingestEvent uuid e true (store d).
Proof.
  unfold ingestBroadcastEvent. destruct (getBeachAvailabilityPayload e); [|done].
  by destruct (cached_activities d).
Qed.

(** ** Feeds *)

(** The entry of an event in the feed of a channel: the event, perhaps under
    another identifier. *)
Definition shown_as (ch : ChannelId) (e e' : BroadcastEvent) : Prop :=
  ∃ i, e' = with_channel e i ch.

Definition arrived (ch : ChannelId) (l : list BroadcastEvent) : list BroadcastEvent :=
  filter (λ e, arrives e true ch = true) l.

(** The feeds after the events [l] were taken in, the oldest first. *)
Definition feeds_of (l : list BroadcastEvent) (s : EventsState) : Prop :=
  ∀ ch, ∃ entries, Forall2 (shown_as ch) (reverse (arrived ch l)) entries ∧
    events s ch = take MAX_EVENTS entries.

Lemma feeds_of_empty : feeds_of [] empty_events.
Proof. intros ch. exists []. by split; [constructor|]. Qed.

Lemma take_cons_take {A} n (x : A) l : take n (x :: take n l) = take n (x :: l).
Proof. destruct n as [|n]; cbn; [done|]. f_equal. rewrite take_take. f_equal. lia. Qed.

Lemma feeds_of_ingest l s uuid e : feeds_of l s → feeds_of (l ++ [e]) (ingestEvent uuid e true s).
Proof.
  intros Hl ch. destruct (Hl ch) as (entries & He & Hs).
  pose proof (ingestEvent_channel uuid e true s ch) as Hi. cbv zeta in Hi.
  unfold arrived. rewrite filter_app, filter_cons, filter_nil.
  destruct (arrives e true ch) eqn:Ha.
  - destruct Hi as [(e' & Hev & _ & Hsh) _]. rewrite decide_True by done.
    rewrite reverse_app. exists (e' :: entries). split; [by constructor|].
    rewrite Hev, Hs. apply take_cons_take.
  - rewrite decide_False, app_nil_r by done. exists entries. split; [done|].
    by destruct Hi as [-> _].
Qed.

(** Every entry shows an event that was taken in. *)
Lemma feeds_of_elem l s ch e' :
  feeds_of l s → e' ∈ events s ch → ∃ e, e ∈ l ∧ shown_as ch e e'.
Proof.
  intros Hl Hin. destruct (Hl ch) as (entries & He & Hs). rewrite Hs in Hin.
  apply elem_of_take in Hin as (i & Hi & _).
  destruct (Forall2_lookup_r _ _ _ _ _ He Hi) as (e & Hle & Hsh).
  exists e. split; [|done]. apply list_elem_of_lookup_2 in Hle.
  rewrite elem_of_reverse in Hle. by apply list_elem_of_filter in Hle as [_ ?].
Qed.
