(* ===== verification/Island.v ===== *)
(** * The island as a whole

    The hotel with any number of requests under way, the broadcast service with
    its open streams, and the pages of the web client, as one system.  Every
    action is an operation of the component's own file; between them the network
    may lose, delay, repeat and reorder what the hotel posts, connections may
    end at either side, both services may restart, and pages read their streams
    at their own pace.

    The broadcast service takes a post from anyone, to any path; [permitted] says
    what is relied on of the environment: that a posted body prints faithfully,
    which a JSON body does whose numbers a double holds. *)

From S2P Require Import Prelude Json Zod JsString JsonText Interleave.
From S2P Require HotelDb HotelOutbound HotelReservation HotelConcurrency HotelAnnouncements.
From S2P Require BroadcastTypes BroadcastAuth EventBus BroadcastRoutes PostedEvents.
From S2P Require Import BroadcastService.
From S2P Require Import WebTypes EventsStore IslandEvent UseBroadcast Wire WebWire FeedHistory.

(** ** State *)

(** A page: the response its event source reads, how many chunks it has read of
    it, and the client's data. *)
Record Page : Type := MkPage { link : option (nat * nat); client : ClientData }.

Definition new_page : Page := {|
  link := None;
  client := {| store := empty_events; cached_activities := None; invalidations := 0 |}
|}.

Record Island (DB : Type) : Type := MkIsland {
  requests : list (proc (HotelOutbound.Hotel DB) HotelOutbound.Failure HotelReservation.Reply);
  hotel : HotelOutbound.Hotel DB;
  service : Service;
  pages : list Page;
  (** what was broadcast before the service last started *)
  past : list BroadcastTypes.IslandEvent;
}.
Arguments MkIsland {DB} requests hotel service pages past.
Arguments requests {DB} i.
Arguments hotel {DB} i.
Arguments service {DB} i.
Arguments pages {DB} i.
Arguments past {DB} i.

Inductive Action : Type :=
  | RequestArrives (request_id : string)
      (fetch : list HotelOutbound.HttpRequest → HotelOutbound.HttpRequest → HotelOutbound.FetchResult)
      (rq : HotelReservation.Request)
  | RequestContinues (j : nat)
  | HotelRestarts
  | BroadcastRestarts
  | AnnouncementArrives (k : nat) (auth : BroadcastAuth.AuthRequest) (uuid : string)
  | EventPosted (path : string) (auth : BroadcastAuth.AuthRequest) (uuid : string) (body : json)
  | PageOpens
  | PageConnects (p r : nat) (auth : BroadcastAuth.AuthRequest)
  | PageReads (p : nat) (uuid : nat → string)
  | PageDisconnects (p : nat)
  | ConnectionEnds (r : nat)
  | ActivitiesFetched (p : nat) (activities : list Activity).

Section island.
Context {DB : Type} `{HotelDb.PrismaClient DB} `{Zod} `{EventSource}.
Variable env : HotelOutbound.HotelEnv.
Variable service_env : string → option string.
Implicit Types (i : Island DB).

(** ** Actions *)

(** The path and the parsed body of a post to the service at its address. *)
Definition posted_to (rq : HotelOutbound.HttpRequest) : option (string * json) :=
  match rq with
  | ("POST", url, _, Some text) =>
      base ← HotelOutbound.BROADCAST_SERVICE_URL env;
      path ← strip_prefix (chars base) (chars url);
      body ← JSON_parse text;
      Some (of_chars path, body)
  | _ => None
  end.

Definition post (path : string) (auth : BroadcastAuth.AuthRequest) (uuid : string) (body : json)
    (s : Service) : Service :=
  match BroadcastRoutes.post_handler path with
  | Some h => MkService (h service_env auth uuid body (bus s)).2 (grants s)
  | None => s
  end.

(** The responses of two requests are two objects. *)
Definition open_stream (auth : BroadcastAuth.AuthRequest) (r : nat) (s : Service) :
    option Service :=
  match grants s !! r, BroadcastRoutes.get_events service_env auth r (bus s) with
  | None, (inr who, b) => Some (MkService b (<[r := (who, length (EventBus.log (bus s)))]> (grants s)))
  | _, _ => None
  end.

(** The page takes in the next chunk of its stream, if there is one. *)
Definition read_chunk (uuid : nat → string) (s : Service) (p : Page) : Page :=
  match link p with
  | Some (r, k) =>
      match EventBus.stream r (bus s) !! k with
      | Some chunk => {| link := Some (r, S k); client := receive uuid chunk (client p) |}
      | None => p
      end
  | None => p
  end.

(** [onerror] of the page's event source, or its leaving.
    (src/frontend/src/features/broadcast/hooks/use-broadcast.ts:112-114 onerror) *)
Definition disconnect (p : Page) : Page := {| link := None; client := client p |}.

Definition fetched_activities (l : list Activity) (p : Page) : Page := {|
  link := link p;
  client := {| store := store (client p); cached_activities := Some l;
               invalidations := invalidations (client p) |}
|}.

Definition act (a : Action) (i : Island DB) : Island DB :=
  match a with
  | RequestArrives request_id fetch rq =>
      MkIsland (requests i ++ [HotelConcurrency.handle_async env request_id fetch rq])
        (hotel i) (service i) (pages i) (past i)
  | RequestContinues j =>
      let '(ps, h) := turn j (requests i, hotel i) in MkIsland ps h (service i) (pages i) (past i)
  | HotelRestarts => MkIsland [] (hotel i) (service i) (pages i) (past i)
  | BroadcastRestarts =>
      MkIsland (requests i) (hotel i) start (disconnect <$> pages i)
        (past i ++ EventBus.log (bus (service i)))
  | AnnouncementArrives k auth uuid =>
      match HotelOutbound.sent (hotel i) !! k ≫= posted_to with
      | Some (path, body) =>
          MkIsland (requests i) (hotel i) (post path auth uuid body (service i)) (pages i) (past i)
      | None => i
      end
  | EventPosted path auth uuid body =>
      MkIsland (requests i) (hotel i) (post path auth uuid body (service i)) (pages i) (past i)
  | PageOpens => MkIsland (requests i) (hotel i) (service i) (pages i ++ [new_page]) (past i)
  | PageConnects p r auth =>
      match open_stream auth r (service i) with
      | Some s => MkIsland (requests i) (hotel i) s
          (alter (λ page, {| link := Some (r, 0); client := client page |}) p (pages i)) (past i)
      | None => i
      end
  | PageReads p uuid =>
      MkIsland (requests i) (hotel i) (service i)
        (alter (read_chunk uuid (service i)) p (pages i)) (past i)
  | PageDisconnects p =>
      MkIsland (requests i) (hotel i) (service i)
        (alter disconnect p (pages i)) (past i)
  | ConnectionEnds r =>
      MkIsland (requests i) (hotel i)
        (MkService (EventBus.removeClient r (bus (service i))) (grants (service i))) (pages i)
        (past i)
  | ActivitiesFetched p l =>
      MkIsland (requests i) (hotel i) (service i) (alter (fetched_activities l) p (pages i)) (past i)
  end.

(** What is relied on of the environment. *)
Definition permitted (a : Action) : Prop :=
  match a with
  | EventPosted _ _ _ body => printable body
  | _ => True
  end.

Definition island_step (i i' : Island DB) : Prop := ∃ a, permitted a ∧ i' = act a i.

(** Nothing is under way; the tables hold whatever was stored before. *)
Definition island_start (i : Island DB) : Prop :=
  ∃ d, HotelAnnouncements.stored (HotelDb.tables d) ∧
    i = MkIsland [] (HotelOutbound.MkHotel d []) start [] [].

Definition island_reachable : Island DB → Prop := reachable island_start island_step.

Fixpoint acts (l : list Action) (i : Island DB) : Island DB :=
  match l with [] => i | a :: l => acts l (act a i) end.
Definition all_permitted (l : list Action) : Prop := Forall permitted l.

Lemma acts_reach l i : all_permitted l → rtc island_step i (acts l i).
Proof.
  intros Hl. revert i. induction Hl as [|a l Ha _ IH]; intros i; [apply rtc_refl|].
  eapply rtc_l; [by exists a|]. by apply IH.
Qed.
End island.
