(* ===== verification/IslandInvariant.v ===== *)
(** * What always holds of the island

    The invariant of every reachable state of [Island]: the hotel's requests
    keep its announcements true, the broadcast service keeps its streams, every
    event in its log prints faithfully, and every page has taken in a part of
    the log, in order.  And along any sequence of actions, the post that each
    event of the log was made of; an announcement of the hotel tells of a row
    of its tables, then and later. *)

From S2P Require Import Prelude Json Zod JsString JsonText Interleave.
From S2P Require HotelDb HotelOutbound HotelReservation HotelConcurrency HotelAnnouncements.
From S2P Require BroadcastTypes BroadcastAuth EventBus BroadcastRoutes PostedEvents.
From S2P Require Import BroadcastService.
From S2P Require Import WebTypes EventsStore IslandEvent UseBroadcast Wire WebWire FeedHistory.
From S2P Require Import Island.

#[local] Existing Instance HotelAnnouncements.succeeds_preorder.

(** ** The service from one action to the next *)

(** The log and the streams only grow, and no grant is taken back. *)
Record grows (s s' : Service) : Prop := {
  grows_log : ∃ l, EventBus.log (bus s') = EventBus.log (bus s) ++ l;
  grows_grants : ∀ r x, grants s !! r = Some x → grants s' !! r = Some x;
  grows_stream : ∀ r, length (EventBus.stream r (bus s)) ≤ length (EventBus.stream r (bus s'));
}.

Lemma grows_refl s : grows s s.
Proof. constructor; [exists []; by rewrite app_nil_r|done|done]. Qed.

(** The events of the log that a connection is entitled to. *)
Definition due (who : BroadcastAuth.ServiceIdentity) (l : list BroadcastTypes.IslandEvent) :
    list BroadcastTypes.IslandEvent :=
  filter (λ e, BroadcastTypes.channel e ∈ BroadcastAuth.allowedChannels who) l.

Lemma due_take who m l : ∃ j, due who (take m l) = take j (due who l).
Proof.
  exists (length (due who (take m l))). rewrite <-(take_drop m l) at 3. unfold due.
  by rewrite filter_app, take_app_length.
Qed.

(** What is written to a response: the greeting, then a prefix of what is due. *)
Lemma stream_due `{Zod} s r who n :
  service_inv s → grants s !! r = Some (who, n) →
  ∃ j, EventBus.stream r (bus s) =
    EventBus.connected_chunk :: (EventBus.frame <$> take j (due who (drop n (EventBus.log (bus s))))).
Proof.
  intros Hs Hr. destruct (si_entitled s Hs r who n Hr) as (m & _ & ->).
  destruct (due_take who (m - n) (drop n (EventBus.log (bus s)))) as [j Hj].
  exists j. unfold entitled. by rewrite <-Hj.
Qed.

(** ** Pages *)

(** How far a page is: what it took in, [shown], is what earlier connections
    gave it, then what was due and read on this one. *)
Definition position (past : list BroadcastTypes.IslandEvent) (s : Service) (shown : list BroadcastTypes.IslandEvent)
    (l : option (nat * nat)) : Prop :=
  match l with
  | None => True
  | Some (r, k) => ∃ who n before,
      grants s !! r = Some (who, n) ∧ n ≤ length (EventBus.log (bus s)) ∧
      k ≤ length (EventBus.stream r (bus s)) ∧
      sublist before (past ++ take n (EventBus.log (bus s))) ∧
      shown = before ++ take (pred k) (due who (drop n (EventBus.log (bus s))))
  end.

Record page_shows (past : list BroadcastTypes.IslandEvent) (s : Service) (p : Page)
    (shown : list BroadcastTypes.IslandEvent) : Prop := {
  ps_sublist : sublist shown (past ++ EventBus.log (bus s));
  ps_feeds : feeds_of (web_event <$> shown) (store (client p));
  ps_position : position past s shown (link p);
}.

Definition page_inv (past : list BroadcastTypes.IslandEvent) (s : Service) (p : Page) : Prop :=
  ∃ shown, page_shows past s p shown.

Lemma page_inv_new past s : page_inv past s new_page.
Proof. exists []. constructor; [apply sublist_nil_l|apply feeds_of_empty|done]. Qed.

Section invariant.
Context {DB : Type} `{HotelDb.PrismaClient DB} `{Zod} `{EventSource}.
Variable env : HotelOutbound.HotelEnv.
Variable service_env : string → option string.
Implicit Types (i : Island DB) (s : Service) (past : list BroadcastTypes.IslandEvent).

Lemma position_grows past s s' shown l :
  service_inv s → grows s s' → position past s shown l → position past s' shown l.
Proof.
  intros Hs [[new Hlog] Hg Hst] Hp. destruct l as [[r k]|]; [|done].
  destruct Hp as (who & n & before & Hr & Hn & Hk & Hb & ->).
  exists who, n, before. rewrite Hlog, length_app. split_and!; [auto|lia|..].
  - etrans; [exact Hk|apply Hst].
  - by rewrite take_app_le.
  - f_equal. rewrite drop_app_le by done. unfold due at 2. rewrite filter_app.
    destruct (stream_due s r who n Hs Hr) as [j Hj]. rewrite Hj in Hk. cbn in Hk.
    rewrite length_fmap, length_take in Hk. rewrite take_app_le; [done|].
    unfold due in Hk. lia.
Qed.

Lemma page_inv_grows past s s' p :
  service_inv s → grows s s' → page_inv past s p → page_inv past s' p.
Proof.
  intros Hs Hg (shown & [Hsub Hf Hp]). exists shown. constructor; [|done|by eapply position_grows].
  destruct (grows_log _ _ Hg) as [l ->]. rewrite app_assoc. by apply sublist_inserts_r.
Qed.

(** A new connection: everything shown so far was there before it. *)
Lemma page_inv_connect past s p r who :
  page_inv past s p → grants s !! r = Some (who, length (EventBus.log (bus s))) →
  page_inv past s {| link := Some (r, 0); client := client p |}.
Proof.
  intros (shown & [Hsub Hf _]) Hr. exists shown. constructor; [done|done|]. cbn.
  exists who, (length (EventBus.log (bus s))), shown. rewrite take_ge, app_nil_r by done.
  split_and!; try done. lia.
Qed.

Lemma page_inv_disconnect past s p : page_inv past s p → page_inv past s (disconnect p).
Proof. intros (shown & [Hsub Hf _]). by exists shown. Qed.

(** When the service starts again, what it broadcast is past. *)
Lemma page_inv_restart past s p :
  page_inv past s p → page_inv (past ++ EventBus.log (bus s)) start (disconnect p).
Proof. intros (shown & [Hsub Hf _]). exists shown. constructor; cbn; [by rewrite app_nil_r|done|done]. Qed.

Lemma page_inv_fetched past s l p : page_inv past s p → page_inv past s (fetched_activities l p).
Proof. intros (shown & [Hsub Hf Hp]). by exists shown. Qed.

(** The next chunk is the greeting, or the frame of the next event that is due. *)
Lemma next_chunk s r who n k chunk :
  service_inv s → grants s !! r = Some (who, n) → EventBus.stream r (bus s) !! k = Some chunk →
  (k = 0 ∧ chunk = EventBus.connected_chunk) ∨
  ∃ j e, k = S j ∧ chunk = EventBus.frame e ∧
    due who (drop n (EventBus.log (bus s))) !! j = Some e.
Proof.
  intros Hs Hr. destruct (stream_due s r who n Hs Hr) as [m ->].
  destruct k as [|j]; [intros [= <-]; by left|]. rewrite lookup_cons_ne_0 by done. cbn [pred].
  rewrite list_lookup_fmap. intros (e & He & ->)%fmap_Some. right. exists j, e.
  split_and!; [done|done|]. by apply lookup_take_Some in He as [? _].
Qed.

Lemma page_inv_read past s uuid p :
  service_inv s →
  Forall (λ e, printable (BroadcastTypes.island_event_json e)) (EventBus.log (bus s)) →
  page_inv past s p → page_inv past s (read_chunk uuid s p).
Proof.
  intros Hs Hprint Hpage. unfold read_chunk. destruct (link p) as [[r k]|] eqn:Hl; [|done].
  destruct (EventBus.stream r (bus s) !! k) as [chunk|] eqn:Hc; [|done].
  apply lookup_lt_Some in Hc as Hk.
  destruct Hpage as (shown & [Hsub Hf Hp]). rewrite Hl in Hp.
  destruct Hp as (who & n & before & Hr & Hn & _ & Hb & Hsh).
  destruct (next_chunk s r who n k chunk Hs Hr Hc) as [[-> ->]|(j & e & -> & -> & He)].
  - exists shown. constructor; cbn [link client]; [done|by rewrite receive_greeting|].
    exists who, n, before. by split_and!.
  - exists (before ++ take (S j) (due who (drop n (EventBus.log (bus s))))).
    assert (e ∈ EventBus.log (bus s)) as Hin.
    { apply list_elem_of_lookup_2, list_elem_of_filter in He as [_ He].
      eapply elem_of_sublist; [exact He|apply sublist_drop]. }
    rewrite Forall_forall in Hprint. constructor; cbn [link client].
    + rewrite <-(take_drop n (EventBus.log (bus s))) at 2. rewrite app_assoc.
      apply sublist_app; [done|].
      etrans; [apply sublist_take|]. apply sublist_filter.
    + rewrite receive_frame, store_ingestBroadcastEvent by auto.
      rewrite (take_S_r _ _ e), app_assoc, fmap_app by done. cbn [pred] in Hsh. rewrite <-Hsh.
      by apply feeds_of_ingest.
    + exists who, n, before. by split_and!.
Qed.

(** ** The log *)

(** An event that prints faithfully. *)
Definition faithful_event (e : BroadcastTypes.IslandEvent) : Prop :=
  printable (BroadcastTypes.island_event_json e).

(** A post adds nothing to the log, or one event that satisfies [P]. *)
Lemma post_service path auth uuid body s (P : BroadcastTypes.IslandEvent → Prop) :
  service_inv s → Forall P (EventBus.log (bus s)) →
  (∀ h, BroadcastRoutes.post_handler path = Some h →
     (h service_env auth uuid body (bus s)).2 = bus s ∨
     ∃ e, (h service_env auth uuid body (bus s)).2 = EventBus.broadcast e (bus s) ∧ P e) →
  let s' := post service_env path auth uuid body s in
  service_inv s' ∧ grows s s' ∧ Forall P (EventBus.log (bus s')).
Proof.
  intros Hs HP Hh. cbv zeta. unfold post.
  destruct (BroadcastRoutes.post_handler path) as [h|]; [|by split_and!; [..|apply grows_refl|]].
  destruct (Hh h eq_refl) as [->|(e & -> & He)].
  - destruct s. cbn. split_and!; [done|apply grows_refl|done].
  - split_and!; [by apply inv_broadcast| |].
    + constructor; cbn [bus grants].
      * exists [e]. by rewrite EventBus.broadcast_written.
      * done.
      * intros r. rewrite (EventBus.stream_broadcast e _ r (si_distinct s Hs)), length_app. lia.
    + cbn [bus]. rewrite EventBus.broadcast_written. cbn. apply Forall_app. by repeat constructor.
Qed.

Lemma posted_event_faithful path auth uuid body s h :
  printable body → BroadcastRoutes.post_handler path = Some h →
  (h service_env auth uuid body (bus s)).2 = bus s ∨
  ∃ e, (h service_env auth uuid body (bus s)).2 = EventBus.broadcast e (bus s) ∧ faithful_event e.
Proof.
  intros Hbody Hh.
  destruct (PostedEvents.post_outcome path h service_env auth uuid body (bus s) Hh)
    as (ty & [Hb|(e & Hb & Hty & Hp)] & _); [by left|right].
  exists e. split; [done|]. by apply Hp.
Qed.

Lemma strip_prefix_app p l : strip_prefix p (p ++ l) = Some l.
Proof. induction p as [|c p IH]; cbn; [done|]. by rewrite decide_True. Qed.

Lemma told_int4 t ty e : HotelAnnouncements.told t ty e → int4_event e.
Proof.
  intros (r & room & _ & _ & -> & Hfit & _). unfold HotelAnnouncements.row_fits in Hfit.
  rewrite !andb_true_iff in Hfit. destruct Hfit as [[? ?] ?]. by split_and!.
Qed.

(** An announcement is posted to the path of its event, with its object. *)
Lemma posted_to_publish url request_id t ty e :
  HotelOutbound.BROADCAST_SERVICE_URL env = Some url → HotelAnnouncements.told t ty e →
  posted_to env (HotelOutbound.publish_request request_id url ty e) =
    Some (HotelOutbound.getEndpointForEvent ty, HotelOutbound.event_json e).
Proof.
  intros Hurl He.
  pose proof (JSON_parse_stringify _ (hotel_event_printable e (told_int4 _ _ _ He))) as Htext.
  unfold posted_to, HotelOutbound.publish_request. rewrite Hurl.
  revert Htext. generalize (JSON_stringify (HotelOutbound.event_json e)). intros text Htext.
  cbn. rewrite chars_app, strip_prefix_app. cbn. rewrite Htext. cbn. by rewrite of_chars_chars.
Qed.

Lemma posted_to_announcement t rq path body :
  HotelAnnouncements.honest env t rq → posted_to env rq = Some (path, body) →
  ∃ ty e, path = HotelOutbound.getEndpointForEvent ty ∧ body = HotelOutbound.event_json e ∧
    HotelAnnouncements.told t ty e.
Proof.
  intros Hrq Hp. assert (HotelAnnouncements.is_post rq = true) as Hpost.
  { unfold HotelAnnouncements.is_post. apply bool_decide_eq_true.
    destruct rq as [[[m ?] ?] ?]. cbn. unfold posted_to in Hp. by repeat case_match. }
  destruct (Hrq Hpost) as (url & request_id & ty & e & Hurl & -> & He). exists ty, e.
  rewrite (posted_to_publish _ _ _ _ _ Hurl He) in Hp. by injection Hp as <- <-.
Qed.

(** What an announcement becomes. *)
Lemma announcement_becomes ty e auth uuid s h :
  BroadcastRoutes.post_handler (HotelOutbound.getEndpointForEvent ty) = Some h →
  h service_env auth uuid (HotelOutbound.event_json e) (bus s) =
    (BroadcastRoutes.success, EventBus.broadcast (relayed uuid ty e) (bus s)).
Proof.
  intros Hh. destruct (hotel_event_relayed ty e service_env auth uuid (bus s)) as (h' & Hh' & Hr).
  rewrite Hh in Hh'. by injection Hh' as <-.
Qed.

Lemma open_stream_service auth r s s' :
  service_inv s → open_stream service_env auth r s = Some s' →
  service_inv s' ∧ grows s s' ∧ EventBus.log (bus s') = EventBus.log (bus s) ∧
  ∃ who, grants s' !! r = Some (who, length (EventBus.log (bus s))).
Proof.
  intros Hs Ho. unfold open_stream, BroadcastRoutes.get_events in Ho.
  destruct (grants s !! r) eqn:Hr; [done|].
  destruct (BroadcastAuth.identifyService service_env auth) as [who|] eqn:Hwho; [|done].
  injection Ho as <-. split_and!; [by eapply inv_connect| |done|].
  - constructor; cbn [bus grants].
    + exists []. by rewrite app_nil_r.
    + intros r' x Hx. rewrite lookup_insert_ne; [done|]. intros <-. congruence.
    + intros r'. unfold EventBus.addClient.
      change (EventBus.stream r' _) with
        (EventBus.stream r' (EventBus.write r EventBus.connected_chunk (bus s))) at 2.
      rewrite EventBus.stream_write, length_app. lia.
  - exists who. cbn. by rewrite lookup_insert_eq.
Qed.

(** ** The invariant *)

Record island_inv (i : Island DB) : Prop := {
  ii_hotel : HotelAnnouncements.hotel_team env (requests i, hotel i);
  ii_service : service_inv (service i);
  ii_log : Forall faithful_event (EventBus.log (bus (service i)));
  ii_pages : Forall (page_inv (past i) (service i)) (pages i);
}.

(** An action on the service, with perhaps one on a page. *)
Lemma inv_service i s' ps :
  island_inv i → service_inv s' → grows (service i) s' →
  Forall faithful_event (EventBus.log (bus s')) →
  Forall (page_inv (past i) s') ps →
  island_inv (MkIsland (requests i) (hotel i) s' ps (past i)).
Proof.
  intros Hi Hs' Hg Hl Hps.
  constructor; [apply (ii_hotel i Hi)|done..].
Qed.

Lemma pages_grow i s' :
  island_inv i → grows (service i) s' → Forall (page_inv (past i) s') (pages i).
Proof.
  intros Hi Hg. eapply Forall_impl; [apply (ii_pages i Hi)|].
  intros p. apply page_inv_grows; [apply (ii_service i Hi)|done].
Qed.

Lemma inv_page i p f :
  island_inv i →
  (∀ page, page_inv (past i) (service i) page → page_inv (past i) (service i) (f page)) →
  island_inv (MkIsland (requests i) (hotel i) (service i) (alter f p (pages i)) (past i)).
Proof.
  intros Hi Hf. destruct Hi as [Hh Hs Hl Hps]. constructor; try done. cbn.
  apply Forall_alter; [done|]. intros page _. apply Hf.
Qed.

Lemma inv_post i path auth uuid body :
  island_inv i → printable body →
  island_inv (MkIsland (requests i) (hotel i) (post service_env path auth uuid body (service i))
    (pages i) (past i)).
Proof.
  intros Hi Hbody.
  destruct (post_service path auth uuid body _ _ (ii_service i Hi) (ii_log i Hi)) as (Hs & Hg & Hl).
  { intros h. by apply posted_event_faithful. }
  apply inv_service; [done..|]. by apply pages_grow.
Qed.

(** Whatever the hotel sent that arrives tells of a row of its tables. *)
Lemma arriving_told i k path body :
  island_inv i → HotelOutbound.sent (hotel i) !! k ≫= posted_to env = Some (path, body) →
  ∃ ty e, path = HotelOutbound.getEndpointForEvent ty ∧ body = HotelOutbound.event_json e ∧
    HotelAnnouncements.told (HotelDb.tables (HotelOutbound.db (hotel i))) ty e.
Proof.
  intros Hi (rq & Hrq & Hp)%bind_Some.
  destruct (ii_hotel i Hi) as [_ [_ Hhon]]. cbn in Hhon. rewrite Forall_forall in Hhon.
  eapply posted_to_announcement; [|exact Hp]. by eapply Hhon, list_elem_of_lookup_2.
Qed.

Lemma inv_announcement i k auth uuid :
  island_inv i → island_inv (act env service_env (AnnouncementArrives k auth uuid) i).
Proof.
  intros Hi. cbn [act].
  destruct (HotelOutbound.sent (hotel i) !! k ≫= posted_to env) as [[path body]|] eqn:Hp; [|done].
  destruct (arriving_told _ _ _ _ Hi Hp) as (ty & e & -> & -> & He).
  apply inv_post; [done|]. apply hotel_event_printable. by eapply told_int4.
Qed.

Lemma inv_connect_page i p r auth :
  island_inv i → island_inv (act env service_env (PageConnects p r auth) i).
Proof.
  intros Hi. cbn [act]. destruct (open_stream service_env auth r (service i)) as [s'|] eqn:Ho; [|done].
  destruct (open_stream_service _ _ _ _ (ii_service i Hi) Ho) as (Hs & Hg & Hlog & who & Hwho).
  apply inv_service; [done..| |].
  - rewrite Hlog. apply (ii_log i Hi).
  - apply Forall_alter; [by apply pages_grow|]. intros page _ Hpage.
    apply page_inv_connect with who; [done|by rewrite Hlog].
Qed.

Lemma inv_request i j :
  island_inv i →
  let i' := act env service_env (RequestContinues j) i in
  island_inv i' ∧ HotelAnnouncements.succeeds (HotelDb.tables (HotelOutbound.db (hotel i)))
    (HotelDb.tables (HotelOutbound.db (hotel i'))).
Proof.
  intros Hi. cbn [act].
  destruct (HotelAnnouncements.hotel_team_turn _ j _ (ii_hotel i Hi)) as [Ht Ho].
  destruct (turn j (requests i, hotel i)) as [ps h]. destruct Hi as [_ Hs Hl Hps]. by split.
Qed.

Lemma inv_end i r : island_inv i → island_inv (act env service_env (ConnectionEnds r) i).
Proof.
  intros Hi. cbn [act].
  assert (grows (service i) (MkService (EventBus.removeClient r (bus (service i))) (grants (service i))))
    as Hg.
  { constructor; cbn; [exists []; by rewrite app_nil_r|done|done]. }
  apply inv_service; [done|apply inv_close, (ii_service i Hi)|done|apply (ii_log i Hi)|].
  by apply pages_grow.
Qed.

Lemma inv_restart i : island_inv i → island_inv (act env service_env BroadcastRestarts i).
Proof.
  intros Hi. constructor; cbn.
  - apply (ii_hotel i Hi).
  - apply service_reachable_inv. eexists. split; [done|apply rtc_refl].
  - constructor.
  - apply Forall_fmap. eapply Forall_impl; [apply (ii_pages i Hi)|]. intros p. apply page_inv_restart.
Qed.

Lemma island_step_inv i i' : island_step env service_env i i' → island_inv i → island_inv i'.
Proof.
  intros (a & Ha & ->) Hi. destruct a as [request_id fetch rq|j| | |k auth uuid|path auth uuid body|
    |p r auth|p uuid|p|r|p l]; cbn [permitted] in Ha.
  - destruct Hi as [Hh Hs Hl Hps]. constructor; try done. cbn.
    by apply HotelAnnouncements.hotel_team_request.
  - by apply inv_request.
  - destruct Hi as [[_ Hh] Hs Hl Hps]. by constructor.
  - by apply inv_restart.
  - by apply inv_announcement.
  - by apply inv_post.
  - destruct Hi as [Hh Hs Hl Hps]. constructor; try done. cbn. apply Forall_app.
    split; [done|]. constructor; [apply page_inv_new|done].
  - by apply inv_connect_page.
  - apply inv_page; [done|]. intros page. apply page_inv_read; [apply (ii_service i Hi)|].
    apply (ii_log i Hi).
  - apply inv_page; [done|]. intros page. apply page_inv_disconnect.
  - by apply inv_end.
  - apply inv_page; [done|]. intros page. apply page_inv_fetched.
Qed.

(** The hotel's tables only move on. *)
Lemma island_step_onward i i' :
  island_step env service_env i i' → island_inv i →
  HotelAnnouncements.succeeds (HotelDb.tables (HotelOutbound.db (hotel i)))
    (HotelDb.tables (HotelOutbound.db (hotel i'))).
Proof.
  intros (a & _ & ->) Hi. destruct a as [request_id fetch rq|j| | |k auth uuid|path auth uuid body|
    |p r auth|p uuid|p|r|p l]; try (cbn [act hotel]; reflexivity).
  - by apply inv_request.
  - cbn [act]. by destruct (_ ≫= _) as [[]|].
  - cbn [act]. by destruct (open_stream _ _ _ _).
Qed.

Lemma island_reachable_inv i : island_reachable env service_env i → island_inv i.
Proof.
  apply invariant_reachable.
  - intros ? (d & Hd & ->). constructor; [by apply HotelAnnouncements.hotel_team_idle| |constructor..].
    apply service_reachable_inv. eexists. split; [done|apply rtc_refl].
  - intros i1 i2 Hi Hstep. by eapply island_step_inv.
Qed.
End invariant.

(** ** Where a broadcast event comes from

    Along any sequence of actions every event that was ever broadcast was made by
    an accepted post among them. *)

Section trace.
Context {DB : Type} `{HotelDb.PrismaClient DB} `{Zod} `{EventSource}.
Variable env : HotelOutbound.HotelEnv.
Variable service_env : string → option string.
Implicit Types (i : Island DB).

(** The post an action delivers: path, credentials, identifier and body. *)
Definition post_of (i : Island DB) (a : Action) :
    option (string * BroadcastAuth.AuthRequest * string * json) :=
  match a with
  | AnnouncementArrives k auth uuid =>
      '(path, body) ← HotelOutbound.sent (hotel i) !! k ≫= posted_to env;
      Some (path, auth, uuid, body)
  | EventPosted path auth uuid body => Some (path, auth, uuid, body)
  | _ => None
  end.

(** The post is accepted and becomes the event. *)
Definition became (i : Island DB) (a : Action) (e : BroadcastTypes.IslandEvent) : Prop :=
  ∃ path auth uuid body h,
    post_of i a = Some (path, auth, uuid, body) ∧ BroadcastRoutes.post_handler path = Some h ∧
    h service_env auth uuid body (bus (service i)) =
      (BroadcastRoutes.success, EventBus.broadcast e (bus (service i))).

(** Everything that was ever broadcast. *)
Definition all_broadcast (i : Island DB) : list BroadcastTypes.IslandEvent :=
  past i ++ EventBus.log (bus (service i)).

Lemma post_broadcasts path auth uuid body s :
  EventBus.log (bus (post service_env path auth uuid body s)) = EventBus.log (bus s) ∨
  ∃ e h, EventBus.log (bus (post service_env path auth uuid body s)) = EventBus.log (bus s) ++ [e] ∧
    BroadcastRoutes.post_handler path = Some h ∧
    h service_env auth uuid body (bus s) = (BroadcastRoutes.success, EventBus.broadcast e (bus s)).
Proof.
  unfold post. destruct (BroadcastRoutes.post_handler path) as [h|] eqn:Hh; [|by left].
  destruct (BroadcastRoutes.post_handler_cases path h service_env auth uuid body (bus s) Hh)
    as [(response & -> & _)|(e & Hrun & _)]; [by left|right].
  exists e, h. rewrite Hrun. cbn [snd bus]. by rewrite EventBus.broadcast_written.
Qed.

Lemma post_became i a path auth uuid body ps :
  post_of i a = Some (path, auth, uuid, body) →
  let i' := MkIsland (requests i) (hotel i) (post service_env path auth uuid body (service i)) ps
    (past i) in
  all_broadcast i' = all_broadcast i ∨ ∃ e, all_broadcast i' = all_broadcast i ++ [e] ∧ became i a e.
Proof.
  intros Ha. unfold all_broadcast. cbn [past service].
  destruct (post_broadcasts path auth uuid body (service i)) as [->|(e & h & -> & Hh & Hrun)]; [by left|].
  right. exists e. split; [by rewrite app_assoc|]. by exists path, auth, uuid, body, h.
Qed.

(** An action broadcasts nothing, or the event of its post. *)
Lemma act_broadcasts a i :
  all_broadcast (act env service_env a i) = all_broadcast i ∨
  ∃ e, all_broadcast (act env service_env a i) = all_broadcast i ++ [e] ∧ became i a e.
Proof.
  destruct a as [request_id fetch rq|j| | |k auth uuid|path auth uuid body|
    |p r auth|p uuid|p|r|p l]; cbn [act]; try by left.
  - left. by destruct (turn j (requests i, hotel i)).
  - left. unfold all_broadcast. cbn. by rewrite app_nil_r.
  - destruct (HotelOutbound.sent (hotel i) !! k ≫= posted_to env) as [[path body]|] eqn:Hp; [|by left].
    apply post_became. cbn. by rewrite Hp.
  - by apply post_became.
  - left. unfold open_stream, BroadcastRoutes.get_events.
    destruct (grants (service i) !! r); [done|].
    by destruct (BroadcastAuth.identifyService service_env auth).
Qed.

(** The event was made by one of the actions. *)
Definition posted_in (i0 : Island DB) (l : list Action) (e : BroadcastTypes.IslandEvent) : Prop :=
  ∃ l1 a l2, l = l1 ++ a :: l2 ∧ became (acts env service_env l1 i0) a e.

Lemma acts_snoc l a i : acts env service_env (l ++ [a]) i = act env service_env a (acts env service_env l i).
Proof. revert i. induction l as [|b l IH]; intros i; [done|]. cbn. by rewrite IH. Qed.

Lemma acts_app l l' i : acts env service_env (l ++ l') i = acts env service_env l' (acts env service_env l i).
Proof. revert i. induction l as [|b l IH]; intros i; [done|]. apply IH. Qed.

Lemma posted_in_snoc i0 l a e : posted_in i0 l e → posted_in i0 (l ++ [a]) e.
Proof.
  intros (l1 & b & l2 & -> & He). exists l1, b, (l2 ++ [a]). by rewrite <-app_assoc.
Qed.

Lemma broadcast_posted l i0 :
  all_broadcast i0 = [] →
  Forall (posted_in i0 l) (all_broadcast (acts env service_env l i0)).
Proof.
  intros Hnone. induction l as [|a l IH] using rev_ind; [by cbn [acts]; rewrite Hnone; constructor|].
  rewrite acts_snoc.
  assert (Forall (posted_in i0 (l ++ [a])) (all_broadcast (acts env service_env l i0))) as Hold.
  { eapply Forall_impl; [exact IH|]. intros e. apply posted_in_snoc. }
  destruct (act_broadcasts a (acts env service_env l i0)) as [->|(e & -> & He)]; [done|].
  apply Forall_app. split; [done|]. constructor; [|done]. by exists l, a, [].
Qed.

(** *** Whose post it was *)

Lemma broadcast_cancel e e' b : EventBus.broadcast e b = EventBus.broadcast e' b → e = e'.
Proof.
  intros Hb. apply (f_equal EventBus.log) in Hb. rewrite !EventBus.broadcast_written in Hb. cbn in Hb.
  by apply app_inj_tail in Hb as [_ ?].
Qed.

Lemma broadcast_not_same e b : EventBus.broadcast e b ≠ b.
Proof.
  intros Hb. apply (f_equal (λ b, length (EventBus.log b))) in Hb.
  rewrite EventBus.broadcast_written in Hb. cbn in Hb. rewrite length_app in Hb. cbn in Hb. lia.
Qed.

Lemma became_outcome i e path auth uuid body h :
  BroadcastRoutes.post_handler path = Some h →
  h service_env auth uuid body (bus (service i)) =
    (BroadcastRoutes.success, EventBus.broadcast e (bus (service i))) →
  (path ∉ PostedEvents.hotel_paths → PostedEvents.hotel_event (BroadcastTypes.event_type e) = false) ∧
  (BroadcastTypes.event_type e = BroadcastTypes.ADMIN_ANNOUNCEMENT →
   BroadcastAuth.requireAdmin service_env auth = true).
Proof.
  intros Hh Hrun.
  destruct (PostedEvents.post_outcome path h service_env auth uuid body (bus (service i)) Hh)
    as (ty & Hout & Hhotel & Hadmin).
  rewrite Hrun in Hout, Hadmin. cbn [snd] in Hout, Hadmin.
  destruct Hout as [Hsame|(e' & ->%broadcast_cancel & Hty & _)]; [by apply broadcast_not_same in Hsame|].
  rewrite Hty. split; [done|]. intros Ha. apply not_false_iff_true. intros Hf.
  by apply (broadcast_not_same e' (bus (service i))), Hadmin.
Qed.
(** The hotel's tables along a sequence of actions. *)
Lemma acts_onward l i :
  island_inv env i → all_permitted l →
  HotelAnnouncements.succeeds (HotelDb.tables (HotelOutbound.db (hotel i)))
    (HotelDb.tables (HotelOutbound.db (hotel (acts env service_env l i)))).
Proof.
  intros Hi Hl. revert i Hi. induction Hl as [|a l Ha _ IH]; intros i Hi; [reflexivity|].
  assert (island_step env service_env i (act env service_env a i)) as Hs by (by exists a).
  etrans; [by eapply island_step_onward|]. apply IH. by eapply island_step_inv.
Qed.

(** An event of the hotel's: an announcement that tells of a row, or what
    somebody else posted to one of the hotel's paths. *)
Lemma hotel_event_source i a e :
  island_inv env i → became i a e →
  PostedEvents.hotel_event (BroadcastTypes.event_type e) = true →
  (∃ k auth uuid ty he, a = AnnouncementArrives k auth uuid ∧ e = relayed uuid ty he ∧
     HotelAnnouncements.told (HotelDb.tables (HotelOutbound.db (hotel i))) ty he) ∨
  (∃ path auth uuid body, a = EventPosted path auth uuid body ∧ path ∈ PostedEvents.hotel_paths).
Proof.
  intros Hi (path & auth & uuid & body & h & Hpost & Hh & Hrun) Hty.
  destruct (became_outcome i e path auth uuid body h Hh Hrun) as [Hhotel _].
  destruct a as [| | | |k auth' uuid'|path' auth' uuid' body'| | | | | |]; try done; cbn in Hpost.
  - left. destruct (HotelOutbound.sent (hotel i) !! k ≫= posted_to env) as [[path' body']|] eqn:Hp; [|done].
    injection Hpost as -> -> -> ->.
    destruct (arriving_told env _ _ _ _ Hi Hp) as (ty & he & -> & -> & Htold).
    exists k, auth, uuid, ty, he. split_and!; [done| |done].
    rewrite (announcement_becomes service_env ty he auth uuid _ h Hh) in Hrun.
    apply (f_equal snd) in Hrun. by apply broadcast_cancel in Hrun as <-.
  - right. injection Hpost as -> -> -> ->. exists path, auth, uuid, body. split; [done|].
    destruct (decide (path ∈ PostedEvents.hotel_paths)) as [|Hn]; [done|].
    rewrite (Hhotel Hn) in Hty. done.
Qed.
End trace.
