(* ===== verification/Session.v ===== *)
(** * The session store

    [stores/session-store.ts] and its selectors: who is using the client, kept
    in the browser's session storage and restored from it. *)

From S2P Require Import Prelude.

(** (src/frontend/src/types/guest.ts:1-1 GuestPriority) *)
Inductive GuestPriority : Type := standard | fast.
(** (src/frontend/src/types/guest.ts:2-2 GuestPassport) *)
Inductive GuestPassport : Type := EU | non_EU.

(** (src/frontend/src/types/guest.ts:4-14 GuestProfile) *)
Record GuestProfile : Type := {
  g_id : string;
  g_name : string;
  g_surname : string;
  g_age : Z;
  g_passport : GuestPassport;
  g_priority : GuestPriority;
  g_disability : bool;
  g_avatar : string;
  g_personality : string;
}.

(** (src/frontend/src/stores/session-store.ts:6-17 AppSession) *)
Inductive AppSession : Type :=
  | GuestSession (guest : GuestProfile)
  | AdminSession (displayName passcode : string).

(** What the storage may hold: an older version of the client kept [guest]
    instead of [session].
    (src/frontend/src/stores/session-store.ts:19-22 PersistedSessionState) *)
Record PersistedSessionState : Type := {
  p_session : option AppSession;
  p_guest : option GuestProfile;
}.

(** (src/frontend/src/stores/session-store.ts:24-32 SessionState) *)
Record SessionState : Type := {
  session : option AppSession;
  guest : option GuestProfile;
  isAdmin : bool;
}.

(** (src/frontend/src/stores/session-store.ts:34-38 EMPTY_SESSION_STATE) *)
Definition EMPTY_SESSION_STATE : SessionState :=
  {| session := None; guest := None; isAdmin := false |}.

(** (src/frontend/src/stores/session-store.ts:40-48 guestSessionState) *)
Definition guestSessionState (g : GuestProfile) : SessionState :=
  {| session := Some (GuestSession g); guest := Some g; isAdmin := false |}.

(** (src/frontend/src/stores/session-store.ts:50-56 adminSessionState) *)
Definition adminSessionState (displayName passcode : string) : SessionState :=
  {| session := Some (AdminSession displayName passcode); guest := None; isAdmin := true |}.

(** (src/frontend/src/stores/session-store.ts:58-60 deriveGuest) *)
Definition deriveGuest (s : option AppSession) : option GuestProfile :=
  match s with Some (GuestSession g) => Some g | _ => None end.

Definition is_admin_session (s : AppSession) : bool :=
  match s with AdminSession _ _ => true | GuestSession _ => false end.

(** The three fields of the state are all present in the result.
    (src/frontend/src/stores/session-store.ts:62-79 migrateSessionState) *)
Definition migrateSessionState (persisted : option PersistedSessionState) : SessionState :=
  match persisted ≫= p_session with
  | Some s => {| session := Some s; guest := deriveGuest (Some s); isAdmin := is_admin_session s |}
  | None =>
      match persisted ≫= p_guest with
      | Some g => guestSessionState g
      | None => EMPTY_SESSION_STATE
      end
  end.

(** (src/frontend/src/stores/session-store.ts:86-86 selectGuest) *)
Definition selectGuest (g : GuestProfile) (s : SessionState) : SessionState := guestSessionState g.
(** (src/frontend/src/stores/session-store.ts:88-89 loginAdmin) *)
Definition loginAdmin (passcode : string) (displayName : option string) (s : SessionState) :
    SessionState := adminSessionState (default "Admin" displayName) passcode.
(** (src/frontend/src/stores/session-store.ts:91-91 clearSession) *)
Definition clearSession (s : SessionState) : SessionState := EMPTY_SESSION_STATE.
(** (src/frontend/src/stores/session-store.ts:93-93 clearGuest) *)
Definition clearGuest (s : SessionState) : SessionState := EMPTY_SESSION_STATE.

(** (src/frontend/src/stores/session-store.ts:98-98 partialize) *)
Definition partialize (s : SessionState) : PersistedSessionState :=
  {| p_session := session s; p_guest := None |}.
(** (src/frontend/src/stores/session-store.ts:99-102 merge) *)
Definition merge (persisted : option PersistedSessionState) (current : SessionState) :
    SessionState := migrateSessionState persisted.

(** ** Selectors *)

Inductive Role : Type := RoleGuest | RoleAdmin.
Definition role (s : AppSession) : Role :=
  match s with GuestSession _ => RoleGuest | AdminSession _ _ => RoleAdmin end.

(** (src/frontend/src/stores/session-selectors.ts:5-7 useSession) *)
Definition useSession (s : SessionState) : option AppSession := session s.
(** (src/frontend/src/stores/session-selectors.ts:9-11 useSessionRole) *)
Definition useSessionRole (s : SessionState) : option Role := role <$> session s.
(** (src/frontend/src/stores/session-selectors.ts:13-15 useIsAdmin) *)
Definition useIsAdmin (s : SessionState) : bool :=
  match session s with Some a => is_admin_session a | None => false end.
(** (src/frontend/src/stores/session-selectors.ts:17-21 useGuestSession) *)
Definition useGuestSession (s : SessionState) : option AppSession :=
  match session s with Some (GuestSession g) => Some (GuestSession g) | _ => None end.
(** (src/frontend/src/stores/session-selectors.ts:23-27 useAdminSession) *)
Definition useAdminSession (s : SessionState) : option AppSession :=
  match session s with Some (AdminSession d p) => Some (AdminSession d p) | _ => None end.
(** (src/frontend/src/stores/session-selectors.ts:29-31 useGuest) *)
Definition useGuest (s : SessionState) : option GuestProfile := guest s.

(** ** Facts *)

(** [guest] and [isAdmin] are what the session says. *)
Definition coherent (s : SessionState) : Prop :=
  guest s = deriveGuest (session s) ∧
  isAdmin s = match session s with Some a => is_admin_session a | None => false end.

Inductive SessionOp : Type :=
  | SelectGuest (g : GuestProfile)
  | LoginAdmin (passcode : string) (displayName : option string)
  | ClearSession
  | ClearGuest
  | Reload (persisted : option PersistedSessionState).
Definition run_session_op (o : SessionOp) (s : SessionState) : SessionState :=
  match o with
  | SelectGuest g => selectGuest g s
  | LoginAdmin p d => loginAdmin p d s
  | ClearSession => clearSession s
  | ClearGuest => clearGuest s
  | Reload persisted => merge persisted s
  end.

Lemma migrate_coherent persisted : coherent (migrateSessionState persisted).
Proof.
  unfold migrateSessionState. destruct (persisted ≫= p_session) as [a|]; [done|].
  by destruct (persisted ≫= p_guest).
Qed.

Lemma run_session_coherent ops s :
  coherent s → coherent (foldl (λ s o, run_session_op o s) s ops).
Proof.
  intros Hs. induction ops as [|o ops IH] using rev_ind; [done|].
  rewrite foldl_app. cbn [foldl]. destruct o; try done. apply migrate_coherent.
Qed.

(** A reload restores a coherent state from what was stored of it. *)
Lemma reload_restores s current : coherent s → merge (Some (partialize s)) current = s.
Proof.
  destruct s as [[[g|d p]|] g' a]; intros [Hg Ha]; cbn in *; subst; done.
Qed.

(** At most one of the two roles; never an admin with a guest. *)
Lemma coherent_exclusive s :
  coherent s → isAdmin s = true → guest s = None ∧ useGuestSession s = None.
Proof. by destruct s as [[[g|d p]|] g' a]; intros [Hg Ha]; cbn in *; subst. Qed.
