(* ===== verification/SyntheticGuests.v ===== *)
(** * The synthetic guests

    The guests the traffic generator plays
    ([features/simulation/data/synthetic-guests.ts]). *)

From S2P Require Import Prelude Session.

Definition synthetic (id name surname : string) (age : Z) (passport : GuestPassport)
    (priority : GuestPriority) (disability : bool) (avatar personality : string) :
    GuestProfile := {|
  g_id := id; g_name := name; g_surname := surname; g_age := age; g_passport := passport;
  g_priority := priority; g_disability := disability; g_avatar := avatar;
  g_personality := personality
|}.

(** (src/frontend/src/features/simulation/data/synthetic-guests.ts:3-183 syntheticGuests) *)
Definition syntheticGuests : list GuestProfile := [
  synthetic "sim-guest-mango-0001" "Mango" "Marin" 29 EU standard false
    "avatar-mango.png"
    "Arrives with a camera and asks everyone for the best sunset spot.";
  synthetic "sim-guest-coral-0002" "Coral" "Vale" 34 non_EU fast false
    "avatar-coral.png"
    "Plans every resort activity before unpacking.";
  synthetic "sim-guest-palm-0003" "Palm" "Ionescu" 41 EU standard true
    "avatar-palm.png"
    "Looks for quiet corners and accessible routes around the island.";
  synthetic "sim-guest-lagoon-0004" "Lagoon" "Reef" 25 non_EU standard false
    "avatar-lagoon.png"
    "Only came for water sports and fresh pineapple juice.";
  synthetic "sim-guest-sunny-0005" "Sunny" "Popescu" 52 EU fast false
    "avatar-sunny.png"
    "Asks practical questions and always books early.";
  synthetic "sim-guest-breeze-0006" "Breeze" "Costa" 31 non_EU standard false
    "avatar-breeze.png"
    "Changes plans often and follows whatever looks fun nearby.";
  synthetic "sim-guest-coconut-0007" "Coconut" "Dima" 38 EU standard false
    "avatar-coconut.png"
    "Travels light, books late, and trusts the parrot too much.";
  synthetic "sim-guest-pearl-0008" "Pearl" "Nistor" 46 EU standard false
    "avatar-pearl.png"
    "Wants a calm suite and one perfect beach activity.";
  synthetic "sim-guest-tide-0009" "Tide" "Lupu" 33 non_EU standard false
    "avatar-tide.png"
    "Arrives late, leaves early, always has a good time.";
  synthetic "sim-guest-dune-0010" "Dune" "Florescu" 27 EU fast false
    "avatar-dune.png"
    "First-timer who photographs everything and asks lots of questions.";
  synthetic "sim-guest-wave-0011" "Wave" "Barbu" 39 EU standard true
    "avatar-wave.png"
    "Methodical planner who confirms every booking twice.";
  synthetic "sim-guest-shell-0012" "Shell" "Oprea" 44 non_EU standard false
    "avatar-shell.png"
    "Collects beach memories and always tips the parrot.";
  synthetic "sim-guest-reef-0013" "Reef" "Stan" 22 non_EU standard false
    "avatar-reef.png"
    "Impulsive traveller who switches activities on a whim.";
  synthetic "sim-guest-cove-0014" "Cove" "Gheorghe" 55 EU fast false
    "avatar-cove.png"
    "Veteran resort guest who knows the best spots already.";
  synthetic "sim-guest-gale-0015" "Gale" "Matei" 30 EU standard false
    "avatar-gale.png"
    "Spontaneous and always up for something new.";
  synthetic "sim-guest-drift-0016" "Drift" "Popa" 48 non_EU standard false
    "avatar-drift.png"
    "Quiet observer who lets the island come to them."
].

Lemma syntheticGuests_ids : NoDup (g_id <$> syntheticGuests).
Proof. apply (bool_decide_unpack _). by vm_compute. Qed.
