(* ===== verification/Avatar.v ===== *)
(** * Critter avatars

    [lib/avatar.ts]: a face drawn from a hash of the guest's id.  The hash
    runs on JavaScript numbers: the product stays below 2^53 and is exact,
    [^] is the exclusive or of 32-bit integers and [>>> 0] reads the result
    as unsigned. *)

From S2P Require Import Prelude JsString JsonText Uri.

(** [ToInt32] and [ToUint32]. *)
Definition to_int32 (z : Z) : Z := ((z + 2 ^ 31) mod 2 ^ 32 - 2 ^ 31)%Z.
Definition to_uint32 (z : Z) : Z := (z mod 2 ^ 32)%Z.
Definition xor32 (a b : Z) : Z := to_int32 (Z.lxor (to_int32 a) (to_int32 b)).

(** (src/frontend/src/lib/avatar.ts:3-10 PALETTES) *)
Definition PALETTES : list (string * string) :=
  [("#FDE68A", "#F59E0B"); ("#A7F3D0", "#10B981"); ("#BFDBFE", "#3B82F6");
   ("#FBCFE8", "#EC4899"); ("#DDD6FE", "#8B5CF6"); ("#FCA5A5", "#EF4444")].

(** (src/frontend/src/lib/avatar.ts:15-15 hash) *)
Definition hash_step (hash : Z) (unit : Z) : Z := xor32 (hash * 33) unit.

(** (src/frontend/src/lib/avatar.ts:12-18 hashSeed) *)
Definition hashSeed (seed : string) : Z := to_uint32 (foldl hash_step 5381%Z (code_units seed)).

(** An attribute of an element: a blank, the name, and the quoted value. *)
Definition attr (name value : string) : string :=
  " " +:+ name +:+ "=" +:+ String quote value +:+ String quote "".
Definition tag (name : string) (attrs : list (string * string)) : string :=
  foldl (λ s a, s +:+ attr a.1 a.2) ("<" +:+ name) attrs +:+ "/>".

Definition circle (cx cy r : string) (rest : list (string * string)) : string :=
  tag "circle" ([("cx", cx); ("cy", cy); ("r", r)] ++ rest).

(** What the hash decides of a face.
    (src/frontend/src/lib/avatar.ts:21-27 features) *)
Record Features : Type := {
  skin : string;
  accent : string;
  hasEars : bool;
  hasBlush : bool;
  eyeSpacing : Z;
  smiling : bool;
}.

(** [Math.floor(hash / k) % m] on a non-negative hash. *)
Definition bits (hash k m : Z) : Z := ((hash / k) mod m)%Z.

(** [PALETTES[hash % PALETTES.length]]; [None] is the [TypeError] of taking
    [undefined] apart.
    (src/frontend/src/lib/avatar.ts:21-27 getAvatarDataUri) *)
Definition features (hash : Z) : option Features :=
  '(skin, accent) ← PALETTES !! Z.to_nat (hash mod Z.of_nat (length PALETTES))%Z;
  Some {| skin := skin; accent := accent; hasEars := (bits hash 8 2 =? 0)%Z;
          hasBlush := (bits hash 32 2 =? 0)%Z; eyeSpacing := (8 + bits hash 128 4)%Z;
          smiling := (bits hash 512 2 =? 0)%Z |}.

(** (src/frontend/src/lib/avatar.ts:29-46 svg) *)
Definition svg (f : Features) : string :=
  let mouthY := if smiling f then 62%Z else 46%Z in
  let ears :=
    if hasEars f then
      tag "path" [("d", "M20 24 L12 6 L30 17 Z"); ("fill", skin f)] +:+
      tag "path" [("d", "M80 24 L88 6 L70 17 Z"); ("fill", skin f)]
    else "" in
  let blush :=
    if hasBlush f then
      circle (show_int (50 - eyeSpacing f - 7)) "60" "5"
        [("fill", accent f); ("opacity", "0.35")] +:+
      circle (show_int (50 + eyeSpacing f + 7)) "60" "5"
        [("fill", accent f); ("opacity", "0.35")]
    else "" in
  "<svg" +:+ attr "xmlns" "http://www.w3.org/2000/svg" +:+ attr "viewBox" "0 0 100 100" +:+ ">" +:+
  ears +:+
  circle "50" "52" "38" [("fill", skin f)] +:+
  circle "50" "52" "38"
    [("fill", "none"); ("stroke", accent f); ("stroke-width", "3"); ("opacity", "0.5")] +:+
  blush +:+
  circle (show_int (50 - eyeSpacing f)) "48" "4.5" [("fill", "#1f2937")] +:+
  circle (show_int (50 + eyeSpacing f)) "48" "4.5" [("fill", "#1f2937")] +:+
  tag "path"
    [("d", "M" +:+ show_int (50 - 9) +:+ " 52 Q50 " +:+ show_int mouthY +:+ " " +:+
           show_int (50 + 9) +:+ " 52");
     ("fill", "none"); ("stroke", "#1f2937"); ("stroke-width", "3"); ("stroke-linecap", "round")] +:+
  "</svg>".

(** (src/frontend/src/lib/avatar.ts:20-49 getAvatarDataUri) *)
Definition getAvatarDataUri (seed : string) : option string :=
  f ← features (hashSeed (or_else (Some seed) "guest"));
  Some ("data:image/svg+xml;utf8," +:+ encodeURIComponent (svg f)).

(** ** Facts *)

Lemma to_int32_range z : (- 2 ^ 31 ≤ to_int32 z < 2 ^ 31)%Z.
Proof. unfold to_int32. pose proof (Z.mod_pos_bound (z + 2 ^ 31) (2 ^ 32)). lia. Qed.

Lemma to_int32_id z : (- 2 ^ 31 ≤ z < 2 ^ 31)%Z → to_int32 z = z.
Proof. intros. unfold to_int32. rewrite Z.mod_small; lia. Qed.

Lemma to_int32_mod z : (to_int32 z mod 2 ^ 32 = z mod 2 ^ 32)%Z.
Proof.
  unfold to_int32. rewrite Zminus_mod_idemp_l. f_equal. lia.
Qed.

(** The running hash is an int32, so its product with 33 is a safe integer and
    the machine computes it without rounding. *)
Lemma hash_exact s h :
  (- 2 ^ 31 ≤ h < 2 ^ 31)%Z → Forall (λ z, - 2 ^ 53 < z * 33 < 2 ^ 53)%Z
    ((λ k, foldl hash_step h (take k (code_units s))) <$> seq 0 (S (length (code_units s)))).
Proof.
  intros Hh. apply Forall_fmap, Forall_forall. intros k _. simpl.
  assert (∀ l h, (- 2 ^ 31 ≤ h < 2 ^ 31)%Z → (- 2 ^ 31 ≤ foldl hash_step h l < 2 ^ 31)%Z) as H.
  { induction l as [|c l IH]; intros g Hg; [done|]. apply IH. apply to_int32_range. }
  specialize (H (take k (code_units s)) h Hh). lia.
Qed.

Lemma hashSeed_range seed : (0 ≤ hashSeed seed < 2 ^ 32)%Z.
Proof. unfold hashSeed, to_uint32. apply Z.mod_pos_bound. lia. Qed.

(** Every hash has a palette, and eyes in the face. *)
Lemma features_total hash :
  (0 ≤ hash)%Z → ∃ f, features hash = Some f ∧ (8 ≤ eyeSpacing f ≤ 11)%Z ∧
    (skin f, accent f) ∈ PALETTES.
Proof.
  intros Hh. unfold features.
  destruct (lookup_lt_is_Some_2 PALETTES
    (Z.to_nat (hash mod Z.of_nat (length PALETTES)))) as [[sk ac] Hp].
  { pose proof (Z.mod_pos_bound hash (Z.of_nat (length PALETTES))) as H.
    cbn [length PALETTES] in *. lia. }
  rewrite Hp. cbn [mbind option_bind]. eexists. split; [done|]. cbn [eyeSpacing skin accent].
  split; [|by eapply list_elem_of_lookup_2].
  unfold bits. pose proof (Z.mod_pos_bound (hash / 128) 4). lia.
Qed.

(** Every seed, the empty one included, has an avatar, and its data URI has no
    character that would end the attribute or the URI it is placed in. *)
Lemma getAvatarDataUri_total seed :
  ∃ body, getAvatarDataUri seed = Some ("data:image/svg+xml;utf8," +:+ body) ∧
    Forall (λ c, uri_char c = true) (chars body) ∧
    ∃ f, decodeURIComponent body = Some (svg f).
Proof.
  unfold getAvatarDataUri. pose proof (hashSeed_range (or_else (Some seed) "guest")) as [Hh _].
  destruct (features_total _ Hh) as (f & -> & _). cbn [mbind option_bind].
  exists (encodeURIComponent (svg f)). split_and!; [done|apply encodeURIComponent_safe|].
  exists f. apply decode_encode.
Qed.

Example hashSeed_tom : hashSeed "tom" = 193422131%Z.
Proof. vm_compute. reflexivity. Qed.
