(* ===== verification/WebLib.v ===== *)
(** * Small libraries of the web client

    [lib/format.ts], [lib/guest.ts], [lib/simulation-time.ts] and
    [config/env.ts].  Dates are days since the Unix epoch in local time; the
    conversions of [date-fns] and of [Date] between instants and days are
    parameters. *)

From Stdlib Require Import QArith Qround.
From S2P Require Import Prelude Json Zod JsString Session SyntheticGuests.
From S2P Require HotelRooms.

(** ** format.ts *)

(** [s.split(sep)] for a one-character separator. *)
Fixpoint split_chars (sep : ascii) (cur : list ascii) (l : list ascii) : list string :=
  match l with
  | [] => [of_chars cur]
  | c :: l => if decide (c = sep) then of_chars cur :: split_chars sep [] l
              else split_chars sep (cur ++ [c]) l
  end.
Definition split (sep : ascii) (s : string) : list string := split_chars sep [] (chars s).

(** [word.charAt(0) + word.slice(1).toLowerCase()]. *)
Definition capitalise (word : string) : string :=
  of_chars (take 1 (chars word)) +:+ toLowerCase (slice_from 1 word).

(** (src/frontend/src/lib/format.ts:13-18 formatRoomType) *)
Definition formatRoomType (roomType : string) : string :=
  join " " (capitalise <$> split "_" roomType).

(** A number below a hundred as two digits. *)
Definition two_digits (z : Z) : string := if (z <? 10)%Z then "0" +:+ show_int z else show_int z.

(** [HH:mm:ss] of the local time, in milliseconds; [Date_parse] gives it for
    the text of an instant, and a text that is none is refused.
    (src/frontend/src/lib/format.ts:3-5 formatTime) *)
Definition formatTime (Date_parse : string → option Z) (iso : string) : outcome string string :=
  match Date_parse iso with
  | None => Thrown "Invalid time value"
  | Some ms =>
      let seconds := ((ms / 1000) mod 86400)%Z in
      Returned (two_digits (seconds / 3600) +:+ ":" +:+ two_digits (seconds / 60 mod 60) +:+ ":" +:+
        two_digits (seconds mod 60))
  end.

(** Two digits are read back, so the text tells the second of the day. *)
Lemma two_digits_inj a b :
  (0 ≤ a < 60)%Z → (0 ≤ b < 60)%Z → two_digits a = two_digits b → a = b.
Proof.
  assert (Forall (λ a, Forall (λ b, two_digits (Z.of_nat a) = two_digits (Z.of_nat b) → a = b)
    (seq 0 60)) (seq 0 60)) as Hall by (apply (bool_decide_unpack _); by vm_compute).
  intros Ha Hb Heq. rewrite Forall_forall in Hall.
  specialize (Hall (Z.to_nat a)). rewrite elem_of_seq, Forall_forall in Hall.
  specialize (Hall ltac:(lia) (Z.to_nat b)). rewrite elem_of_seq, !Z2Nat.id in Hall by lia.
  specialize (Hall ltac:(lia) Heq). lia.
Qed.

(** ** guest.ts *)

(** [s[0] ?? ""]. *)
Definition first_char (s : string) : string :=
  match code_units s with u :: _ => of_chars (utf8 u) | [] => "" end.

(** (src/frontend/src/lib/guest.ts:9-11 getInitials) *)
Definition getInitials (g : option GuestProfile) : string :=
  match g with Some g => first_char (g_name g) +:+ first_char (g_surname g) | None => "" end.

Section guests.
(** The profiles of [data/guests.json]. *)
Variable guests : list GuestProfile.

(** The later of two entries with one key stays.
    (src/frontend/src/lib/guest.ts:5-7 guestsById) *)
Definition guestsById : gmap string GuestProfile :=
  foldl (λ m g, <[g_id g := g]> m) ∅ (guests ++ syntheticGuests).

(** (src/frontend/src/lib/guest.ts:13-17 findGuestName) *)
Definition findGuestName (guestId : option string) : option string :=
  match guestId with
  | None => None
  | Some guestId =>
      if truthy guestId then
        (λ g, g_name g +:+ " " +:+ g_surname g) <$> guestsById !! guestId
      else None
  end.

(** (src/frontend/src/lib/guest.ts:19-21 resolveGuestName) *)
Definition resolveGuestName (guestId : string) : string :=
  default guestId (findGuestName (Some guestId)).

Lemma foldl_insert_lookup (l : list GuestProfile) m k :
  foldl (λ m g, <[g_id g := g]> m) m l !! k =
  match find_first (λ g, bool_decide (g_id g = k)) (reverse l) with
  | Some g => Some g
  | None => (m : gmap string GuestProfile) !! k
  end.
Proof.
  induction l as [|g l IH] using rev_ind; [done|].
  rewrite foldl_app, reverse_app. cbn [foldl reverse rev_append app find_first].
  case_bool_decide as Hk; [by rewrite Hk, lookup_insert_eq|].
  by rewrite lookup_insert_ne, IH by done.
Qed.

(** A known guest is called by name, the synthetic ones in any case; an
    unknown id stands for itself. *)
Lemma resolveGuestName_spec guestId :
  guestId ≠ "" →
  match find_first (λ g, bool_decide (g_id g = guestId)) (reverse (guests ++ syntheticGuests)) with
  | Some g => g_id g = guestId ∧ resolveGuestName guestId = g_name g +:+ " " +:+ g_surname g
  | None => resolveGuestName guestId = guestId
  end.
Proof.
  intros Hne. unfold resolveGuestName, findGuestName, guestsById, truthy.
  rewrite bool_decide_true by done. rewrite foldl_insert_lookup, lookup_empty.
  destruct (find_first _ _) as [g|] eqn:Hf; [|done].
  apply find_first_elem in Hf as [_ Hg%bool_decide_eq_true]. done.
Qed.
End guests.

(** ** simulation-time.ts *)

Section simulation_time.
(** The local calendar day of an instant, and the instant a calendar day
    starts: the anchor is [new Date(env.simulationStartTime)]. *)
Variable anchorMs : Z.
Variable GAME_SPEED : Z.
Variable calendar_day : Z → Z.
Variable startOfDay : Z → Z.
Hypothesis calendar_day_start : ∀ d, calendar_day (startOfDay d) = d.

(** (src/frontend/src/lib/simulation-time.ts:9-13 getCurrentSimulationDay) *)
Definition getCurrentSimulationDay (now : Z) : Z :=
  let elapsedRealSeconds := (inject_Z (now - anchorMs) / inject_Z 1000)%Q in
  let elapsedGameSeconds := (elapsedRealSeconds * inject_Z GAME_SPEED)%Q in
  Qfloor (elapsedGameSeconds / inject_Z 86400).

(** (src/frontend/src/lib/simulation-time.ts:15-17 dateToSimulationDay) *)
Definition dateToSimulationDay (date : Z) : Z :=
  (calendar_day date - calendar_day anchorMs)%Z.

(** (src/frontend/src/lib/simulation-time.ts:19-23 simulationDayToDate) *)
Definition simulationDayToDate (day : Z) : Z := startOfDay (calendar_day anchorMs + day)%Z.

(** Configured alike, the client and the hotel are on the same day. *)
Lemma getCurrentSimulationDay_hotel now :
  getCurrentSimulationDay now = HotelRooms.computeCurrentDay now anchorMs GAME_SPEED.
Proof. reflexivity. Qed.

(** A day picked in the calendar is the day that is sent. *)
Lemma dateToSimulationDay_inverse day : dateToSimulationDay (simulationDayToDate day) = day.
Proof. unfold dateToSimulationDay, simulationDayToDate. rewrite calendar_day_start. lia. Qed.
End simulation_time.

(** ** env.ts *)

(** [z.coerce.number().int().positive().catch(d)], given [Number(value)]. *)
Definition positive_int_or (d : Z) (n : number) : Z :=
  match n with
  | NumZ z => if conforms (ZIntMin 1) (JNum n) then z else d
  | _ => d
  end.

(** [z.coerce.number().positive().catch(d)]. *)
Definition positive_or (d : Z) (n : number) : number :=
  match n with
  | NumZ z => if (0 <? z)%Z then n else NumZ d
  | NumDec z _ => if (0 <? z)%Z then n else NumZ d
  | NumInf _ | NumNaN => NumZ d
  end.

(** (src/frontend/src/config/env.ts:16-28 env) *)
Record Env : Type := {
  gatewayUrl : string;
  mock : bool;
  adminPasscode : string;
  trafficGeneratorEnabled : bool;
  parrotChatCooldownMs : Z;
  simulationStartTime : string;
  gameSpeed : number;
  feToken : string;
}.

(** [vars] are the build's variables, [Number] the coercion of one.
    (src/frontend/src/config/env.ts:3-14 EnvSchema) *)
Definition parse_env (vars : string → option string) (Number : option string → number) : Env := {|
  gatewayUrl := default "" (vars "VITE_GATEWAY_URL");
  mock := bool_decide (default "false" (vars "VITE_MOCK") = "true");
  adminPasscode := default "" (vars "VITE_ADMIN_PASSCODE");
  trafficGeneratorEnabled := bool_decide (default "on" (vars "VITE_TRAFFIC_GENERATOR") ≠ "off");
  parrotChatCooldownMs := positive_int_or 30000 (Number (vars "VITE_PARROT_CHAT_COOLDOWN_MS"));
  simulationStartTime := default "2026-06-20T00:00:00Z" (vars "VITE_SIMULATION_START_TIME");
  gameSpeed := positive_or 300 (Number (vars "VITE_GAME_SPEED"));
  feToken := default "" (vars "VITE_FE_TOKEN")
|}.

(** Whatever the variables hold, the two numbers are positive. *)
Lemma parse_env_positive vars Number :
  (0 < parrotChatCooldownMs (parse_env vars Number))%Z ∧
  match gameSpeed (parse_env vars Number) with
  | NumZ z | NumDec z _ => (0 < z)%Z
  | _ => False
  end.
Proof.
  cbn. split.
  - unfold positive_int_or. destruct (Number _); try lia.
    destruct (conforms (ZIntMin 1) _) eqn:Hc; [|lia].
    cbn in Hc. apply andb_prop in Hc as [_ Hc]. apply bool_decide_eq_true in Hc. lia.
  - unfold positive_or. destruct (Number _) as [z|z p| |]; try lia;
      destruct (Z.ltb_spec 0 z); lia.
Qed.
