(* ===== verification/Simulation.v ===== *)
(** * The traffic generator's guests

    [features/simulation/actions.ts] and [machine.ts]: what a synthetic guest
    asks of the services and the stages it goes through.  [Math.random] and
    [Date.now] are streams ([random], [clock]) read in order; the answers of
    the services are a function of the calls made so far.  Every [await] and
    every change of the shared state is a step, so that several guests can act
    at once. *)

From Stdlib Require Import QArith Qround.
From S2P Require Import Prelude Json Zod JsString WebTypes WebApi.
From S2P Require Import Session SyntheticGuests Interleave.
Close Scope Q_scope.

(** ** State *)

(** (src/frontend/src/features/simulation/machine.ts:13-19 STAGES) *)
Inductive SimGuestStage : Type := NewStage | ArrivedStage | HotelBookedStage | BeachBookedStage.
(** (src/frontend/src/features/simulation/machine.ts:13-19 STAGES) *)
Definition STAGES : list SimGuestStage :=
  [NewStage; ArrivedStage; HotelBookedStage; BeachBookedStage].

(** (src/frontend/src/features/simulation/machine.ts:21-30 SimGuestState) *)
Inductive SimGuestState : Type :=
  | New
  | Arrived (gate : string)
  | HotelBooked (gate reservationId : string)
  | BeachBooked (gate reservationId activityId : string).

#[global] Instance SimGuestState_eq_dec : EqDecision SimGuestState.
Proof. solve_decision. Defined.

(** The shared state: every guest's stage, the time of the last parrot chat,
    the calls made, and how far the two streams have been read. *)
Record Sim : Type := MkSim {
  guest_states : gmap string SimGuestState;
  lastParrotChatAt : Z;
  calls : list Call;
  draws : nat;
  reads : nat;
}.

Definition set_guest (g : string) (st : SimGuestState) (s : Sim) : Sim :=
  MkSim (<[g := st]> (guest_states s)) (lastParrotChatAt s) (calls s) (draws s) (reads s).

(** (src/frontend/src/features/simulation/actions.ts:18-23 PARROT_QUESTIONS) *)
Definition PARROT_QUESTIONS : list string :=
  ["What should I do first on the island?"; "Can you suggest a beach activity?";
   "What should I know before checking in?"; "What is the resort like this afternoon?"].

(** [a < b] on numbers. *)
Definition less (a b : Q) : bool := negb (Qle_bool b a).

(** [Math.floor(r * n)]. *)
Definition floor_times (r : Q) (n : Z) : Z := Qfloor (r * inject_Z n)%Q.

Definition passport_text (p : GuestPassport) : string :=
  match p with EU => "EU" | non_EU => "non-EU" end.
Definition priority_text (p : GuestPriority) : string :=
  match p with standard => "standard" | fast => "fast" end.

(** (src/frontend/src/features/simulation/actions.ts:35-45 guestToArrivalBody) *)
Definition guestToArrivalBody (g : GuestProfile) : json := JObj
  [("guest_id", JStr (g_id g)); ("name", JStr (g_name g)); ("surname", JStr (g_surname g));
   ("age", JNum (NumZ (g_age g))); ("passport_type", JStr (passport_text (g_passport g)));
   ("priority", JStr (priority_text (g_priority g))); ("disability", JBool (g_disability g))].

(** The body of a reservation request. *)
Record ReservationBody : Type := {
  q_guest_id : string;
  q_room_type : string;
  q_guest_count : Z;
  q_check_in_day : Z;
  q_check_out_day : Z;
}.
Definition reservation_body_json (b : ReservationBody) : json := JObj
  [("guest_id", JStr (q_guest_id b)); ("room_type", JStr (q_room_type b));
   ("guest_count", JNum (NumZ (q_guest_count b)));
   ("check_in_day", JNum (NumZ (q_check_in_day b)));
   ("check_out_day", JNum (NumZ (q_check_out_day b)))].

(** Lookup in a literal record. *)
Definition max_guests (ty : string) : Z :=
  default 0%Z (snd <$> find_first (λ e, bool_decide (e.1 = ty)) ROOM_MAX_GUESTS).

Section simulation.
(** The n-th value of [Math.random], of [Date.now], the simulation day at a
    time, the configured cool-down, and the services. *)
Variable random : nat → Q.
Variable clock : nat → Z.
Variable simulation_day : Z → Z.
Variable parrotChatCooldownMs : Z.
Variable perform : list Call → Call → outcome RequestError json.

(** A synthetic guest never fails with more than an exception that the
    generator logs. *)
Abbreviation run A := (handler Sim () A).
Abbreviation async A := (proc Sim () A).

(** *** Chance and time *)

Definition draw : run Q := λ s,
  (Returned (random (draws s)),
   MkSim (guest_states s) (lastParrotChatAt s) (calls s) (S (draws s)) (reads s)).
Definition now : run Z := λ s,
  (Returned (clock (reads s)),
   MkSim (guest_states s) (lastParrotChatAt s) (calls s) (draws s) (S (reads s))).

(** (src/frontend/src/features/simulation/actions.ts:27-29 randomInt) *)
Definition randomInt (min max : Z) : run Z :=
  let! r := draw in hret (floor_times r (max - min + 1) + min)%Z.

(** [items[i]!]: [undefined] when out of range.
    (src/frontend/src/features/simulation/actions.ts:31-33 sample) *)
Definition sample {A} (items : list A) : run (option A) :=
  let! r := draw in hret (items !! Z.to_nat (floor_times r (Z.of_nat (length items)))).

(** (src/frontend/src/features/simulation/machine.ts:40-42 roll) *)
Definition roll (chance : Q) : run bool := let! r := draw in hret (less r chance).

(** *** Actions *)

(** Sending a request and receiving its answer. *)
Definition call (c : Call) : async (outcome RequestError json) := atomic (λ s,
  (Returned (perform (calls s) c),
   MkSim (guest_states s) (lastParrotChatAt s) (calls s ++ [c]) (draws s) (reads s))).

Definition string_field (k : string) (r : outcome RequestError json) : option string :=
  match r with Returned (JObj d) => opt_string k d | _ => None end.

(** (src/frontend/src/features/simulation/actions.ts:60-67 arrive) *)
Definition arrive (g : GuestProfile) : async (option string) :=
  await! r := call (postArrival (guestToArrivalBody g)) in
  Finished (Returned (string_field "gate" r)).

(** The check of the cool-down and the note of the time are one stretch.
    (src/frontend/src/features/simulation/actions.ts:69-81 askParrot) *)
Definition askParrot (g : GuestProfile) : async () :=
  await! question := atomic (
    let! t := now in
    let! last := hget lastParrotChatAt in
    if (t - last <? parrotChatCooldownMs)%Z then hret None
    else
      do! hmodify (λ s, MkSim (guest_states s) t (calls s) (draws s) (reads s));
      let! q := sample PARROT_QUESTIONS in
      hret (Some (default "undefined" q))) in
  match question with
  | None => Finished (Returned tt)
  | Some q =>
      await! r := call (postChat (JObj [("guest_id", JStr (g_id g)); ("message", JStr q)])) in
      Finished (Returned tt)
  end.

(** (src/frontend/src/features/simulation/actions.ts:47-58 randomReservationBody) *)
Definition randomReservationBody (g : GuestProfile) : run ReservationBody :=
  let! t := now in
  let today := Z.max 0 (simulation_day t) in
  let! ahead := randomInt 0 2 in
  let checkIn := (today + ahead)%Z in
  let! roomType := sample ROOM_TYPES in
  let roomType := default "undefined" roomType in
  let! count := randomInt 1 (max_guests roomType) in
  let! nights := randomInt 1 3 in
  hret {| q_guest_id := g_id g; q_room_type := roomType; q_guest_count := count;
          q_check_in_day := checkIn; q_check_out_day := (checkIn + nights)%Z |}.

(** (src/frontend/src/features/simulation/actions.ts:83-96 bookHotel) *)
Definition bookHotel (g : GuestProfile) : async (option string) :=
  await! body := atomic (randomReservationBody g) in
  await! r := call (postReservation (reservation_body_json body)) in
  match r with
  | Returned _ => Finished (Returned (string_field "id" r))
  | Thrown _ =>
      await! existing := call (getReservationByGuest (g_id g)) in
      Finished (Returned (string_field "id" existing))
  end.

Definition number_positive (n : number) : bool :=
  match n with
  | NumZ z | NumDec z _ => (0 <? z)%Z
  | NumInf negative => negb negative
  | NumNaN => false
  end.

(** [a.remaining > 0]. *)
Definition has_room (a : json) : bool :=
  match jprop "remaining" a with Some (JNum n) => number_positive n | _ => false end.

Definition activities_of (r : outcome RequestError json) : option (list json) :=
  match r with
  | Returned (JObj d) => match jget "activities" d with Some (JArr l) => Some l | _ => None end
  | _ => None
  end.

(** (src/frontend/src/features/simulation/actions.ts:98-113 bookRandomActivity) *)
Definition bookRandomActivity (g : GuestProfile) : async (option string) :=
  await! activities := call getActivities in
  match activities_of activities with
  | None => Finished (Returned None)
  | Some l =>
      let available := filter (λ a, has_room a = true) l in
      if decide (available = []) then Finished (Returned None)
      else
        await! activity := atomic (sample available) in
        match activity with
        | Some (JObj d) =>
            let activityId := default "undefined" (opt_string "activity_id" d) in
            await! r := call (bookActivity activityId (g_id g)) in
            match r with
            | Returned _ => Finished (Returned (Some activityId))
            | Thrown _ => Finished (Returned None)
            end
        | _ => Finished (Returned None)
        end
  end.

(** (src/frontend/src/features/simulation/actions.ts:115-124 cancelBeachActivity) *)
Definition cancelBeachActivity (activityId : string) (g : GuestProfile) : async () :=
  await! r := call (cancelActivity activityId (g_id g)) in Finished (Returned tt).

(** (src/frontend/src/features/simulation/actions.ts:126-134 cancelHotelReservation) *)
Definition cancelHotelReservation (reservationId : string) : async () :=
  await! r := call (cancelReservation reservationId) in Finished (Returned tt).

(** *** The machine *)

Definition setState (g : GuestProfile) (st : SimGuestState) : async () :=
  atomic (hmodify (set_guest (g_id g) st)).

(** [if (s) ...] for a string or [null]. *)
Definition when_truthy (o : option string) (k : string → async ()) : async () :=
  match o with
  | Some s => if truthy s then k s else Finished (Returned tt)
  | None => Finished (Returned tt)
  end.

(** (src/frontend/src/features/simulation/machine.ts:44-49 handleNew) *)
Definition handleNew (g : GuestProfile) : async () :=
  await! gate := arrive g in
  when_truthy gate (λ gate, setState g (Arrived gate)).

(** (src/frontend/src/features/simulation/machine.ts:51-65 handleArrived) *)
Definition handleArrived (g : GuestProfile) (gate : string) : async () :=
  await! b := atomic (roll (4 # 5)) in
  if (b : bool) then
    await! reservationId := bookHotel g in
    when_truthy reservationId (λ reservationId, setState g (HotelBooked gate reservationId))
  else askParrot g.

(** (src/frontend/src/features/simulation/machine.ts:67-89 handleHotelBooked) *)
Definition handleHotelBooked (g : GuestProfile) (gate reservationId : string) : async () :=
  await! action := atomic draw in
  if less action (1 # 4) then
    await! activityId := bookRandomActivity g in
    when_truthy activityId (λ activityId, setState g (BeachBooked gate reservationId activityId))
  else if less action (13 # 20) then askParrot g
  else Finished (Returned tt).

(** (src/frontend/src/features/simulation/machine.ts:91-116 handleBeachBooked) *)
Definition handleBeachBooked (g : GuestProfile) (gate reservationId activityId : string) :
    async () :=
  await! action := atomic draw in
  if less action (1 # 10) then
    await_! cancelBeachActivity activityId g;
    await_! cancelHotelReservation reservationId;
    setState g New
  else if less action (1 # 4) then
    await_! cancelBeachActivity activityId g;
    setState g (HotelBooked gate reservationId)
  else if less action (9 # 20) then askParrot g
  else Finished (Returned tt).

(** (src/frontend/src/features/simulation/machine.ts:118-126 STAGE_HANDLERS) *)
Definition STAGE_HANDLERS (g : GuestProfile) (st : SimGuestState) : async () :=
  match st with
  | New => handleNew g
  | Arrived gate => handleArrived g gate
  | HotelBooked gate reservationId => handleHotelBooked g gate reservationId
  | BeachBooked gate reservationId activityId =>
      handleBeachBooked g gate reservationId activityId
  end.

(** A guest without a state is a [TypeError].
    (src/frontend/src/features/simulation/machine.ts:149-159 runGuestStep) *)
Definition runGuestStep : async () :=
  await! picked := atomic (
    let! g := sample syntheticGuests in
    let! states := hget guest_states in
    hret (g ← g; st ← states !! g_id g; Some (g, st))) in
  match picked with
  | None => Finished (Thrown tt)
  | Some (g, st) => STAGE_HANDLERS g st
  end.
End simulation.

(** (src/frontend/src/features/simulation/machine.ts:128-138 seedState) *)
Definition seedState (stage : SimGuestStage) : SimGuestState :=
  match stage with
  | NewStage => New
  | ArrivedStage => Arrived ""
  | HotelBookedStage | BeachBookedStage => HotelBooked "" ""
  end.

(** (src/frontend/src/features/simulation/machine.ts:140-147 createInitialState) *)
Definition createInitialState : gmap string SimGuestState :=
  list_to_map (imap (λ i g, (g_id g,
    seedState (default NewStage (STAGES !! (i mod length STAGES))))) syntheticGuests).
