(* ===== verification/SimulationFacts.v ===== *)
(** * What the traffic generator does

    The requests the synthetic guests make are well formed, one step takes a
    guest along the stages, the cool-down of the parrot holds, and two steps
    for one guest at once can leave it in a stage its reservation is not in. *)

From Stdlib Require Import QArith Qround Lqa.
From S2P Require Import Prelude Json Zod JsString WebTypes WebApi.
From S2P Require Import Session SyntheticGuests Interleave Simulation.
From S2P Require HotelDb HotelOutbound HotelSeed.
Close Scope Q_scope.

(** [Math.random] is at least 0 and below 1. *)
Definition unit_interval (random : nat → Q) : Prop := ∀ n, (0 <= random n)%Q ∧ (random n < 1)%Q.

Lemma floor_times_range r n :
  (0 <= r)%Q → (r < 1)%Q → (0 < n)%Z → (0 ≤ floor_times r n < n)%Z.
Proof.
  intros H0 H1 Hn. unfold floor_times.
  assert (0 < inject_Z n)%Q as Hq by (change 0%Q with (inject_Z 0); by rewrite <-Zlt_Qlt).
  assert (0 <= r * inject_Z n)%Q as Hlo by nra.
  assert (r * inject_Z n < inject_Z n)%Q as Hhi by nra.
  split.
  - rewrite Zle_Qle. apply (Qle_trans _ (inject_Z (Qfloor 0))); [by vm_compute|].
    rewrite <-Zle_Qle. by apply Qfloor_resp_le.
  - rewrite Zlt_Qlt. eapply Qle_lt_trans; [apply Qfloor_le|done].
Qed.

Section random.
Context (random : nat → Q) (Hrandom : unit_interval random).

Lemma randomInt_range min max s :
  (min ≤ max)%Z →
  ∃ z s', randomInt random min max s = (Returned z, s') ∧ (min ≤ z ≤ max)%Z ∧
    guest_states s' = guest_states s ∧ calls s' = calls s.
Proof.
  intros Hm. unfold randomInt, draw. run_handler. destruct (Hrandom (draws s)) as [H0 H1].
  pose proof (floor_times_range (random (draws s)) (max - min + 1) H0 H1).
  do 2 eexists. split_and!; [done|lia..|done|done].
Qed.

Lemma sample_elem {A} (l : list A) s :
  l ≠ [] →
  ∃ x s', sample random l s = (Returned (Some x), s') ∧ x ∈ l ∧
    guest_states s' = guest_states s ∧ calls s' = calls s.
Proof.
  intros Hl. unfold sample, draw. run_handler. destruct (Hrandom (draws s)) as [H0 H1].
  assert (0 < Z.of_nat (length l))%Z by (destruct l; [done|simpl; lia]).
  pose proof (floor_times_range (random (draws s)) (Z.of_nat (length l)) H0 H1) as Hr.
  destruct (lookup_lt_is_Some_2 l (Z.to_nat (floor_times (random (draws s)) (Z.of_nat (length l)))))
    as [x Hx]; [lia|].
  exists x. eexists. rewrite Hx. split_and!; [done| |done|done]. by eapply list_elem_of_lookup_2.
Qed.
End random.

(** A reservation body the hotel cannot refuse as malformed: the days are in
    order from day 0 on and the guests fit a room of the type. *)
Definition well_formed_body (g : GuestProfile) (b : ReservationBody) : Prop :=
  q_guest_id b = g_id g ∧ q_room_type b ∈ ROOM_TYPES ∧
  (1 ≤ q_guest_count b ≤ max_guests (q_room_type b))%Z ∧
  (0 ≤ q_check_in_day b < q_check_out_day b)%Z.

Lemma randomReservationBody_well_formed random clock simulation_day g s :
  unit_interval random →
  ∃ b s', randomReservationBody random clock simulation_day g s = (Returned b, s') ∧
    well_formed_body g b ∧ guest_states s' = guest_states s ∧ calls s' = calls s.
Proof.
  intros Hr. unfold randomReservationBody.
  erewrite (hbind_step (now clock)) by reflexivity. cbv zeta.
  set (s1 := MkSim _ _ _ _ _). set (today := Z.max 0 _).
  assert (0 ≤ today)%Z as Ht by lia. clearbody today.
  destruct (randomInt_range random Hr 0 2 s1) as (a & s2 & Ha & Har & Hg2 & Hc2); [lia|].
  change (guest_states s1) with (guest_states s) in Hg2. change (calls s1) with (calls s) in Hc2.
  rewrite (hbind_step _ _ _ _ _ Ha).
  destruct (sample_elem random Hr ROOM_TYPES s2) as (ty & s3 & Hs & Hty & Hg3 & Hc3); [done|].
  rewrite (hbind_step _ _ _ _ _ Hs). change (default "undefined" (Some ty)) with ty.
  assert (1 ≤ max_guests ty)%Z as Hmax by
    (by apply list_elem_of_In in Hty as [<-|[<-|[<-|[]]]]; vm_compute).
  destruct (randomInt_range random Hr 1 (max_guests ty) s3) as (c & s4 & Hc & Hcr & Hg4 & Hc4);
    [lia|].
  rewrite (hbind_step _ _ _ _ _ Hc).
  destruct (randomInt_range random Hr 1 3 s4) as (n & s5 & Hn & Hnr & Hg5 & Hc5); [lia|].
  rewrite (hbind_step _ _ _ _ _ Hn). unfold hret. do 2 eexists.
  split_and!; [done| |congruence|congruence].
  unfold well_formed_body.
  cbn [q_guest_id q_room_type q_guest_count q_check_in_day q_check_out_day]. split_and!; [done|done|lia..].
Qed.

(** The room sizes the client reckons with are those of the seeded rooms. *)
Lemma max_guests_seeded room :
  room ∈ HotelSeed.seed_rooms →
  max_guests (HotelOutbound.show_room_type (HotelDb.room_type room)) = HotelDb.capacity room.
Proof.
  assert (forallb (λ room, bool_decide
    (max_guests (HotelOutbound.show_room_type (HotelDb.room_type room)) = HotelDb.capacity room))
    HotelSeed.seed_rooms = true) as H by (by vm_compute).
  rewrite forallb_forall in H. intros Hin%list_elem_of_In.
  apply H in Hin. by apply bool_decide_eq_true in Hin.
Qed.

(** ** The stages *)

(** Where one step can take a guest. *)
Definition next_stage (st st' : SimGuestState) : Prop :=
  st' = st ∨
  match st, st' with
  | New, Arrived gate => gate ≠ ""
  | Arrived gate, HotelBooked gate' r => gate' = gate ∧ r ≠ ""
  | HotelBooked gate r, BeachBooked gate' r' a => gate' = gate ∧ r' = r ∧ a ≠ ""
  | BeachBooked gate r _, HotelBooked gate' r' => gate' = gate ∧ r' = r
  | BeachBooked _ _ _, New => True
  | _, _ => False
  end.

Section steps.
Variable random : nat → Q.
Variable clock : nat → Z.
Variable simulation_day : Z → Z.
Variable cooldown : Z.
Variable perform : list Call → Call → outcome RequestError json.

(** A function that leaves the guests' states alone. *)
Definition quiet {A} (p : proc Sim () A) : Prop :=
  ∀ s, guest_states (run p s).2 = guest_states s ∧ ∃ a, (run p s).1 = Returned a.

Lemma quiet_bind {A B} (p : proc Sim () A) (f : A → proc Sim () B) :
  quiet p → (∀ a, quiet (f a)) → quiet (pbind p f).
Proof.
  intros Hp Hf s. rewrite run_pbind. unfold hbind.
  destruct (Hp s) as [H1 (a & H2)]. destruct (run p s) as [o s']. cbn in *. subst o.
  destruct (Hf a s') as [H3 H4]. split; [congruence|done].
Qed.

Lemma quiet_finished {A} (a : A) : quiet (Finished (Returned a)).
Proof. intros s. eauto. Qed.

Lemma quiet_atomic {A} (m : handler Sim () A) :
  (∀ s, guest_states (m s).2 = guest_states s ∧ ∃ a, (m s).1 = Returned a) → quiet (atomic m).
Proof. intros Hm s. rewrite run_atomic. apply Hm. Qed.

Lemma quiet_call c : quiet (call perform c).
Proof. intros s. cbn. eauto. Qed.

Lemma quiet_draw {A} (f : Q → A) : quiet (atomic (hbind (draw random) (λ r, hret (f r)))).
Proof. apply quiet_atomic. intros s. cbn. eauto. Qed.

Hint Resolve quiet_bind quiet_finished quiet_call : island.

Lemma quiet_arrive g : quiet (arrive perform g).
Proof. apply quiet_bind; auto with island. Qed.
Lemma quiet_askParrot g : quiet (askParrot random clock cooldown perform g).
Proof.
  apply quiet_bind.
  - apply quiet_atomic. intros s. unfold hbind, now, hget. cbn.
    destruct (_ <? _)%Z; cbn; eauto.
  - intros [q|]; [|apply quiet_finished]. apply quiet_bind; auto with island.
Qed.
Lemma quiet_body g : quiet (atomic (randomReservationBody random clock simulation_day g)).
Proof. apply quiet_atomic. intros s. cbn. eauto. Qed.
Lemma quiet_bookHotel g : quiet (bookHotel random clock simulation_day perform g).
Proof.
  apply quiet_bind; [apply quiet_body|]. intros b. apply quiet_bind; [apply quiet_call|].
  intros [v|e]; [apply quiet_finished|]. apply quiet_bind; auto with island.
Qed.
Lemma quiet_bookRandomActivity g : quiet (bookRandomActivity random perform g).
Proof.
  apply quiet_bind; [apply quiet_call|]. intros r.
  destruct (activities_of r) as [l|]; [|apply quiet_finished].
  cbv zeta. case_decide; [apply quiet_finished|].
  apply quiet_bind; [apply quiet_draw|].
  intros [[]|]; try apply quiet_finished. apply quiet_bind; [apply quiet_call|].
  intros []; apply quiet_finished.
Qed.
Lemma quiet_cancelBeach a g : quiet (cancelBeachActivity perform a g).
Proof. apply quiet_bind; auto with island. Qed.
Lemma quiet_cancelHotel r : quiet (cancelHotelReservation perform r).
Proof. apply quiet_bind; auto with island. Qed.

(** [p] either leaves the states alone or gives one guest a state [P] allows. *)
Definition moves (g : GuestProfile) (P : SimGuestState → Prop) (p : proc Sim () ()) : Prop :=
  ∀ s, (run p s).1 = Returned tt ∧
    (guest_states (run p s).2 = guest_states s ∨
     ∃ st, P st ∧ guest_states (run p s).2 = <[g_id g := st]> (guest_states s)).

Lemma moves_quiet g P p : quiet p → moves g P p.
Proof. intros Hp s. destruct (Hp s) as [H1 [[] H2]]. auto. Qed.

Lemma moves_bind {A} g P (p : proc Sim () A) f :
  quiet p → (∀ a, moves g P (f a)) → moves g P (pbind p f).
Proof.
  intros Hp Hf s. rewrite run_pbind. unfold hbind.
  destruct (Hp s) as [H1 (a & H2)]. destruct (run p s) as [o s']. cbn in *. subst o.
  destruct (Hf a s') as [H3 H4]. rewrite <-H1. done.
Qed.

Lemma moves_setState g (P : SimGuestState → Prop) st : P st → moves g P (setState g st).
Proof. intros HP s. cbn. split; [done|]. right. eauto. Qed.

Lemma moves_when_truthy g (P : SimGuestState → Prop) o k :
  (∀ x, x ≠ "" → moves g P (k x)) → moves g P (when_truthy o k).
Proof.
  intros Hk. unfold when_truthy. destruct o as [x|]; [|apply moves_quiet, quiet_finished].
  unfold truthy. case_bool_decide; [by apply Hk|apply moves_quiet, quiet_finished].
Qed.

Lemma quiet_roll c : quiet (atomic (roll random c)).
Proof. apply quiet_draw. Qed.
Lemma quiet_draw_itself : quiet (atomic (draw random)).
Proof. apply quiet_atomic. intros s. cbn. eauto. Qed.

(** A handler takes its guest to a next stage, or nowhere. *)
Lemma STAGE_HANDLERS_moves g st :
  moves g (next_stage st) (STAGE_HANDLERS random clock simulation_day cooldown perform g st).
Proof.
  destruct st as [|gate|gate r|gate r a]; cbn [STAGE_HANDLERS].
  - apply moves_bind; [apply quiet_arrive|]. intros gate. apply moves_when_truthy.
    intros x Hx. apply moves_setState. by right.
  - apply moves_bind; [apply quiet_roll|]. intros [].
    + apply moves_bind; [apply quiet_bookHotel|]. intros r. apply moves_when_truthy.
      intros x Hx. apply moves_setState. by right.
    + apply moves_quiet, quiet_askParrot.
  - apply moves_bind; [apply quiet_draw_itself|]. intros q. case_match.
    + apply moves_bind; [apply quiet_bookRandomActivity|]. intros a. apply moves_when_truthy.
      intros x Hx. apply moves_setState. by right.
    + case_match; apply moves_quiet; [apply quiet_askParrot|apply quiet_finished].
  - apply moves_bind; [apply quiet_draw_itself|]. intros q. case_match; [|case_match].
    + apply moves_bind; [apply quiet_cancelBeach|]. intros _.
      apply moves_bind; [apply quiet_cancelHotel|]. intros _. apply moves_setState. by right.
    + apply moves_bind; [apply quiet_cancelBeach|]. intros _. apply moves_setState. by right.
    + case_match; apply moves_quiet; [apply quiet_askParrot|apply quiet_finished].
Qed.

(** Every guest has a state from the start. *)
Definition all_known (m : gmap string SimGuestState) : Prop :=
  ∀ g, g ∈ syntheticGuests → is_Some (m !! g_id g).

(** One step, alone: it never fails, takes at most one guest to a next stage,
    and leaves the others. *)
Lemma runGuestStep_spec s :
  unit_interval random → all_known (guest_states s) →
  let '(o, s') := run (runGuestStep random clock simulation_day cooldown perform) s in
  o = Returned tt ∧ all_known (guest_states s') ∧
  ∃ g st, g ∈ syntheticGuests ∧ guest_states s !! g_id g = Some st ∧
    (guest_states s' = guest_states s ∨
     ∃ st', next_stage st st' ∧ guest_states s' = <[g_id g := st']> (guest_states s)).
Proof.
  intros Hr Hk. unfold runGuestStep. rewrite run_pbind. unfold hbind at 1. rewrite run_atomic.
  destruct (sample_elem random Hr syntheticGuests s) as (g & s1 & Hs & Hg & Hg1 & _); [done|].
  unfold hbind. rewrite Hs. cbn [hget hret].
  destruct (Hk g Hg) as [st Hst]. rewrite Hg1. cbn [mbind option_bind]. rewrite Hst.
  pose proof (STAGE_HANDLERS_moves g st s1) as [Ho Hm].
  destruct (run _ s1) as [o s']. cbn in *. rewrite Hg1 in Hm. split; [done|]. split.
  - destruct Hm as [->|(st' & _ & ->)]; [done|]. intros g' Hg'.
    destruct (decide (g_id g' = g_id g)) as [->|]; [by rewrite lookup_insert_eq; eauto|].
    rewrite lookup_insert_ne by done. by apply Hk.
  - exists g, st. done.
Qed.

(** The parrot is not asked again before the cool-down has passed. *)
Lemma askParrot_cooldown g s :
  let s' := (run (askParrot random clock cooldown perform g) s).2 in
  (calls s' = calls s ∧ lastParrotChatAt s' = lastParrotChatAt s ∧
     (clock (reads s) - lastParrotChatAt s < cooldown)%Z) ∨
  ((cooldown ≤ clock (reads s) - lastParrotChatAt s)%Z ∧
   lastParrotChatAt s' = clock (reads s) ∧ ∃ c, calls s' = calls s ++ [c]).
Proof.
  unfold askParrot. rewrite run_pbind. unfold hbind at 1. rewrite run_atomic.
  unfold hbind at 1, now. cbn. unfold hbind at 1. cbn.
  destruct (Z.ltb_spec (clock (reads s) - lastParrotChatAt s) cooldown); cbn.
  - left. done.
  - right. eauto.
Qed.
End steps.

Lemma createInitialState_known : all_known createInitialState.
Proof.
  assert (forallb (λ g, match createInitialState !! g_id g with Some _ => true | None => false end)
    syntheticGuests = true) as H by (by vm_compute).
  intros g Hg%list_elem_of_In. rewrite forallb_forall in H. specialize (H g Hg). cbv beta in H.
  destruct (createInitialState !! g_id g); [eauto|done].
Qed.

(** ** Two steps for one guest

    A guest with a reservation and an activity; one step cancels both while
    another, begun before, cancels the activity only and then writes back the
    stage it saw. *)

Definition booked_guest : GuestProfile := default
  {| g_id := ""; g_name := ""; g_surname := ""; g_age := 0; g_passport := EU;
     g_priority := standard; g_disability := false; g_avatar := ""; g_personality := "" |}
  (head syntheticGuests).
Definition booked_sim : Sim :=
  MkSim {[g_id booked_guest := BeachBooked "gate-1" "reservation-1" "snorkel"]} 0 [] 0 0.
(** The guest, the guest again, 0.05 for the first and 0.2 for the second. *)
Definition race_random (n : nat) : Q :=
  match n with 2 => 5 # 100 | 3 => 20 # 100 | _ => 0 # 1 end.
Definition all_succeed (past : list Call) (c : Call) : outcome RequestError json :=
  Returned (JObj []).
Definition one_step : proc Sim () () :=
  runGuestStep race_random (λ _, 0%Z) (λ _, 0%Z) 0 all_succeed.

(** Both pick and draw; the first cancels the activity and the reservation and
    writes its stage; the second cancels the activity and writes its own. *)
Definition sim_race : pool Sim () () :=
  schedule [0; 1; 0; 1; 0; 0; 0; 1; 1] ([one_step; one_step], booked_sim).

Lemma sim_race_steps : rtc pool_step ([one_step; one_step], booked_sim) sim_race.
Proof. apply schedule_steps. Qed.

Definition finished (p : proc Sim () ()) : bool :=
  match p with Finished (Returned _) => true | _ => false end.

Lemma sim_race_end :
  forallb finished sim_race.1 = true ∧
  guest_states sim_race.2 !! g_id booked_guest = Some (HotelBooked "gate-1" "reservation-1") ∧
  call_url <$> calls sim_race.2 =
    ["/activity/cancel/snorkel"; "/reservation/reservation-1"; "/activity/cancel/snorkel"].
Proof. vm_compute. done. Qed.
