(* ===== verification/TrafficGenerator.v ===== *)
(** * The traffic generator's loops

    [features/simulation/hooks/use-traffic-generator.ts]: three loops, each a
    timer that runs one step of the simulation and then sets the next timer.
    Timers are numbered; a step that has begun and not ended is in flight.  The
    map's page mounts the hook anew on every visit, each time with refs of its
    own; what an earlier visit left in flight keeps that visit's refs. *)

From Stdlib Require Import QArith.
From S2P Require Import Prelude Simulation SimulationFacts.

(** (src/frontend/src/features/simulation/hooks/use-traffic-generator.ts:12-12 MIN_DELAY_MS) *)
Definition MIN_DELAY_MS : Z := 1500.
(** (src/frontend/src/features/simulation/hooks/use-traffic-generator.ts:13-13 MAX_DELAY_MS) *)
Definition MAX_DELAY_MS : Z := 4000.
(** (src/frontend/src/features/simulation/hooks/use-traffic-generator.ts:14-14 CONCURRENT_GUESTS) *)
Definition CONCURRENT_GUESTS : nat := 3.

(** The refs of one mount, the timers it has set (with their delays) that have
    not fired, and its steps in flight.
    (src/frontend/src/features/simulation/hooks/use-traffic-generator.ts:17-18 refs) *)
Record Generator : Type := {
  ticksRef : list nat;
  runningRef : bool;
  timers : list (nat * Z);
  in_flight : nat;
  next_timer : nat;
}.

(** (src/frontend/src/features/simulation/hooks/use-traffic-generator.ts:17-18 useRef) *)
Definition initial_generator : Generator :=
  {| ticksRef := []; runningRef := false; timers := []; in_flight := 0; next_timer := 0 |}.

(** The delay of a timer, from a draw of [Math.random].
    (src/frontend/src/features/simulation/hooks/use-traffic-generator.ts:39-39 delay) *)
Definition delay (u : Q) : Z := (floor_times u (MAX_DELAY_MS - MIN_DELAY_MS + 1) + MIN_DELAY_MS)%Z.

(** (src/frontend/src/features/simulation/hooks/use-traffic-generator.ts:26-42 scheduleNext) *)
Definition scheduleNext (u : Q) (s : Generator) : Generator :=
  if negb (runningRef s) then s else {|
    ticksRef := ticksRef s ++ [next_timer s]; runningRef := runningRef s;
    timers := timers s ++ [(next_timer s, delay u)]; in_flight := in_flight s;
    next_timer := S (next_timer s)
  |}.

(** (src/frontend/src/features/simulation/hooks/use-traffic-generator.ts:21-46 useEffect) *)
Definition mount_generator (enabled : bool) (us : nat → Q) (s : Generator) : Generator :=
  if negb enabled then s else
  foldl (λ s i, scheduleNext (us i) s) {|
    ticksRef := ticksRef s; runningRef := true; timers := timers s; in_flight := in_flight s;
    next_timer := next_timer s
  |} (seq 0 CONCURRENT_GUESTS).

(** (src/frontend/src/features/simulation/hooks/use-traffic-generator.ts:48-52 cleanup) *)
Definition unmount_generator (s : Generator) : Generator := {|
  ticksRef := []; runningRef := false;
  timers := filter (λ t, t.1 ∉ ticksRef s) (timers s);
  in_flight := in_flight s; next_timer := next_timer s
|}.

(** The timer's callback begins its step, and ends it, whether it fails or not.
    (src/frontend/src/features/simulation/hooks/use-traffic-generator.ts:30-32 callback) *)
Definition begin_step (t : nat) (s : Generator) : Generator := {|
  ticksRef := ticksRef s; runningRef := runningRef s;
  timers := filter (λ x, x.1 ≠ t) (timers s);
  in_flight := S (in_flight s); next_timer := next_timer s
|}.
(** (src/frontend/src/features/simulation/hooks/use-traffic-generator.ts:33-37 finally) *)
Definition end_step (u : Q) (s : Generator) : Generator :=
  scheduleNext u {|
    ticksRef := ticksRef s; runningRef := runningRef s; timers := timers s;
    in_flight := pred (in_flight s); next_timer := next_timer s
  |}.

(** ** Visits *)

(** A visit's first effect; strict mode runs the effect, its clean-up and the
    effect again at once, with the same refs. *)
Definition visit (strict enabled : bool) (us us' : nat → Q) : Generator :=
  let s := mount_generator enabled us initial_generator in
  if strict then mount_generator enabled us' (unmount_generator s) else s.

(** What one mounted or unmounted generator does on its own. *)
Inductive loop_step (s : Generator) : Generator → Prop :=
  | loop_begin t d : (t, d) ∈ timers s → loop_step s (begin_step t s)
  | loop_end us : unit_interval us → in_flight s ≠ 0 → loop_step s (end_step (us 0) s).

(** All visits there were, the mounted one flagged. *)
Inductive visit_step (strict : bool) (hs : list (bool * Generator)) :
    list (bool * Generator) → Prop :=
  | page_mounts us us' :
      Forall (λ h, h.1 = false) hs → unit_interval us → unit_interval us' →
      visit_step strict hs (hs ++ [(true, visit strict true us us')])
  | page_unmounts i s :
      hs !! i = Some (true, s) → visit_step strict hs (<[i := (false, unmount_generator s)]> hs)
  | generator_runs i m s s' :
      hs !! i = Some (m, s) → loop_step s s' → visit_step strict hs (<[i := (m, s')]> hs).

Definition visits_reachable (strict : bool) : list (bool * Generator) → Prop :=
  reachable (λ hs, hs = []) (visit_step strict).

(** ** Invariant *)

(** The loops under way. *)
Definition loops (s : Generator) : nat := length (timers s) + in_flight s.

Definition delay_ok (t : nat * Z) : Prop := (MIN_DELAY_MS ≤ t.2 ≤ MAX_DELAY_MS)%Z.

(** A generator runs while it is mounted, and its clean-up knows every timer. *)
Record generator_inv (m : bool) (s : Generator) : Prop := {
  gi_running : runningRef s = m;
  gi_known : ∀ t, t ∈ (timers s).*1 → t ∈ ticksRef s ∧ t < next_timer s;
  gi_nodup : NoDup (timers s).*1;
  gi_delays : Forall delay_ok (timers s);
}.

Lemma delay_range u : (0 <= u)%Q → (u < 1)%Q → (MIN_DELAY_MS ≤ delay u ≤ MAX_DELAY_MS)%Z.
Proof.
  intros H0 H1. unfold delay.
  pose proof (floor_times_range u (MAX_DELAY_MS - MIN_DELAY_MS + 1) H0 H1 eq_refl). lia.
Qed.

Lemma scheduleNext_inv m u s :
  (0 <= u)%Q → (u < 1)%Q → generator_inv m s → generator_inv m (scheduleNext u s).
Proof.
  intros H0 H1 [Hr Hk Hn Hd]. unfold scheduleNext. destruct (runningRef s) eqn:E; cbn;
    [|constructor; cbn; congruence || done].
  constructor; cbn; rewrite ?fmap_app; cbn.
  - congruence.
  - intros t [Ht|Ht%list_elem_of_singleton]%elem_of_app.
    + destruct (Hk t Ht). split; [set_solver|lia].
    + subst t. split; [set_solver|lia].
  - apply NoDup_app. split_and!; [done| |apply NoDup_singleton].
    intros t Ht ->%list_elem_of_singleton. destruct (Hk _ Ht). lia.
  - apply Forall_app_2; [done|]. repeat constructor; by apply delay_range.
Qed.

Lemma loops_scheduleNext u s :
  loops (scheduleNext u s) = loops s + (if runningRef s then 1 else 0).
Proof.
  unfold scheduleNext, loops. destruct (runningRef s); cbn; [|lia]. rewrite length_app. cbn. lia.
Qed.

Lemma filter_ne_keys (t : nat) (l : list (nat * Z)) :
  (filter (λ x, x.1 ≠ t) l).*1 = filter (λ x, x ≠ t) l.*1.
Proof.
  induction l as [|x l IH]; [done|]. rewrite fmap_cons, !filter_cons.
  destruct (decide (x.1 ≠ t)); [by rewrite fmap_cons, IH|done].
Qed.

Lemma filter_ne_id (t : nat) (l : list nat) : t ∉ l → filter (λ x, x ≠ t) l = l.
Proof.
  induction l as [|x l IH]; [done|]. intros [Hx Hl]%not_elem_of_cons.
  by rewrite filter_cons, decide_True, IH by done.
Qed.

Lemma length_filter_ne (t : nat) (l : list nat) :
  NoDup l → t ∈ l → length (filter (λ x, x ≠ t) l) + 1 = length l.
Proof.
  induction l as [|x l IH]; [set_solver|]. intros [Hx Hn]%NoDup_cons [->|Ht]%elem_of_cons.
  - rewrite filter_cons, decide_False by tauto.
    rewrite filter_ne_id by done. simpl. lia.
  - rewrite filter_cons, decide_True by (by intros ->). simpl. specialize (IH Hn Ht). lia.
Qed.

(** A loop that ends a step begins anew, while its visit lasts; afterwards it
    ends, and no timer is left. *)
Lemma loop_step_inv m s s' :
  generator_inv m s → loop_step s s' →
  generator_inv m s' ∧ (if m then loops s' = loops s else loops s' ≤ loops s).
Proof.
  intros [Hr Hk Hn Hd] [t d Ht|us Hu Hf].
  - assert (t ∈ (timers s).*1) as Ht1 by (apply list_elem_of_fmap; by exists (t, d)).
    assert (loops (begin_step t s) = loops s) as Hl.
    { unfold loops, begin_step. cbn. rewrite <-!(length_fmap fst), filter_ne_keys.
      pose proof (length_filter_ne t _ Hn Ht1). lia. }
    split; [|destruct m; lia]. constructor; cbn; rewrite ?filter_ne_keys.
    + done.
    + intros t' [_ Ht']%list_elem_of_filter. by apply Hk.
    + by apply NoDup_filter.
    + apply Forall_forall. intros x [_ Hx]%list_elem_of_filter. rewrite Forall_forall in Hd. by apply Hd.
  - destruct (Hu 0) as [H0 H1]. split.
    + by apply scheduleNext_inv.
    + unfold end_step. rewrite loops_scheduleNext. cbn. rewrite Hr. unfold loops. cbn.
      destruct m; lia.
Qed.

(** A visit that was left sets no timer again. *)
Lemma left_step s s' :
  generator_inv false s → timers s = [] → loop_step s s' →
  timers s' = [] ∧ S (in_flight s') = in_flight s.
Proof.
  intros Hv Ht [t d Htd|us _ Hf]; [rewrite Ht in Htd; set_solver|].
  unfold end_step, scheduleNext. cbn. rewrite (gi_running _ _ Hv). cbn. split; [done|lia].
Qed.

Lemma mount_inv enabled us s :
  unit_interval us → generator_inv false s → enabled = true →
  generator_inv true (mount_generator enabled us s) ∧
  loops (mount_generator enabled us s) = CONCURRENT_GUESTS + loops s.
Proof.
  intros Hu [Hr Hk Hn Hd] ->. unfold mount_generator. cbn [negb CONCURRENT_GUESTS seq foldl]. split.
  - do 3 (apply scheduleNext_inv; [apply Hu..|]). by constructor.
  - set (s0 := Build_Generator _ _ _ _ _). change (loops s) with (loops s0).
    assert (runningRef s0 = true) as Hs0 by done. clearbody s0.
    assert (∀ u s, runningRef s = true → runningRef (scheduleNext u s) = true ∧
      loops (scheduleNext u s) = S (loops s)) as Hnext.
    { intros u s1 H1. rewrite loops_scheduleNext, H1. split; [|lia].
      unfold scheduleNext. by rewrite H1. }
    pose proof (Hnext (us 0) s0 Hs0) as [H1 L1]. pose proof (Hnext (us 1) _ H1) as [H2 L2].
    pose proof (Hnext (us 2) _ H2) as [_ L3]. rewrite L3, L2, L1. done.
Qed.

Lemma unmount_inv s :
  generator_inv true s →
  generator_inv false (unmount_generator s) ∧ timers (unmount_generator s) = [] ∧
  loops (unmount_generator s) ≤ loops s.
Proof.
  intros [Hr Hk Hn Hd]. assert (timers (unmount_generator s) = []) as Ht.
  { cbn. apply elem_of_nil_inv. intros t [Hnt Ht]%list_elem_of_filter.
    apply Hnt, Hk. apply list_elem_of_fmap. by exists t. }
  split_and!; [|done|unfold loops; rewrite Ht; cbn; lia].
  constructor; rewrite ?Ht; cbn; [done|set_solver|constructor|constructor].
Qed.

Lemma visit_inv strict us us' :
  unit_interval us → unit_interval us' →
  generator_inv true (visit strict true us us') ∧ loops (visit strict true us us') = CONCURRENT_GUESTS.
Proof.
  intros Hu Hu'. assert (generator_inv false initial_generator) as Hi
    by (constructor; cbn; [done|set_solver|constructor|constructor]).
  destruct (mount_inv true us _ Hu Hi eq_refl) as [Hm Hl]. unfold visit. destruct strict; [|by rewrite Hl].
  destruct (unmount_inv _ Hm) as (Hx & Ht & _).
  destruct (mount_inv true us' _ Hu' Hx eq_refl) as [Hm' Hl']. split; [done|].
  by rewrite Hl'.
Qed.

(** Whether a visit is the mounted one, and what is left of it. *)
Definition visit_ok (h : bool * Generator) : Prop :=
  generator_inv h.1 h.2 ∧
  if h.1 then loops h.2 = CONCURRENT_GUESTS
  else timers h.2 = [] ∧ in_flight h.2 ≤ CONCURRENT_GUESTS.
Definition visits_ok (hs : list (bool * Generator)) : Prop :=
  Forall visit_ok hs ∧ length (filter (λ h, h.1 = true) hs) ≤ 1.

(** At most one visit is mounted, also when one is replaced by its later self. *)
Lemma mounted_insert (hs : list (bool * Generator)) i h h' :
  hs !! i = Some h → (h'.1 = true → h.1 = true) →
  length (filter (λ h, h.1 = true) (<[i := h']> hs)) ≤ length (filter (λ h, h.1 = true) hs).
Proof.
  intros Hi Hh. rewrite (insert_take_drop hs i h') by (by eapply lookup_lt_Some).
  rewrite <-(take_drop_middle hs i h Hi) at 3. rewrite !filter_app, !length_app, !filter_cons.
  repeat case_decide; cbn; lia || tauto.
Qed.

Lemma visit_step_ok strict hs hs' : visits_ok hs → visit_step strict hs hs' → visits_ok hs'.
Proof.
  intros [Hok Hone] [us us' Hun Hu Hu'|i s Hi|i m s s' Hi Hs].
  - split.
    + apply Forall_app_2; [done|]. repeat constructor; by apply visit_inv.
    + rewrite filter_app. assert (filter (λ h, h.1 = true) hs = []) as ->; [|done].
      apply elem_of_nil_inv. intros h [Ht Hh]%list_elem_of_filter.
      rewrite Forall_forall in Hun. specialize (Hun h Hh). congruence.
  - destruct (Forall_lookup_1 _ _ _ _ Hok Hi) as [Hv Hl]. cbn in Hv, Hl.
    destruct (unmount_inv s Hv) as (Hv' & Ht & Hle). split.
    + apply Forall_insert; [done|]. split; [done|]. split; [done|].
      unfold loops in Hle, Hl. rewrite Ht in Hle. cbn in *. lia.
    + etrans; [|exact Hone]. by eapply mounted_insert.
  - destruct (Forall_lookup_1 _ _ _ _ Hok Hi) as [Hv Hl]. cbn in Hv, Hl.
    destruct (loop_step_inv m s s' Hv Hs) as [Hv' Hl']. split.
    + apply Forall_insert; [done|]. split; [done|]. cbn. destruct m; [by rewrite Hl'|].
      destruct Hl as [Ht Hf]. destruct (left_step s s' Hv Ht Hs). split; [done|lia].
    + etrans; [|exact Hone]. by eapply mounted_insert.
Qed.

Lemma visits_reachable_ok strict hs : visits_reachable strict hs → visits_ok hs.
Proof.
  apply invariant_reachable; [|apply visit_step_ok]. intros ? ->. split; [constructor|cbn; lia].
Qed.

(** The timers of all visits are those of the mounted one. *)
Lemma all_timers hs :
  visits_ok hs → length (hs ≫= (λ h, timers h.2)) ≤ CONCURRENT_GUESTS ∧
    Forall delay_ok (hs ≫= (λ h, timers h.2)).
Proof.
  intros [Hok Hone]. split.
  - assert (length (hs ≫= (λ h, timers h.2)) ≤
      CONCURRENT_GUESTS * length (filter (λ h, h.1 = true) hs)); [|nia].
    unfold CONCURRENT_GUESTS in *. clear Hone. induction Hok as [|[m s] hs [_ Hl] _ IH]; [done|].
    rewrite bind_cons, length_app, filter_cons. destruct m; cbn [fst snd] in *.
    + rewrite decide_True by done. cbn [length]. unfold loops, CONCURRENT_GUESTS in Hl. lia.
    + rewrite decide_False by done. destruct Hl as [-> _]. cbn [length]. lia.
  - apply Forall_bind. eapply Forall_impl; [exact Hok|]. intros h [Hv _]. apply (gi_delays _ _ Hv).
Qed.
