(* ===== verification/BeachMock.v ===== *)
(** * The mocked beach

    [mocks/handlers/beach.ts]: a beach service in the browser for development
    without the gateway, kept in session storage.  The seed list is a module
    constant that the first request after an empty storage works on in place,
    so the seed itself is part of the state.  A value in storage is what was
    last written to it (reading it back is the round trip of [JsonText]). *)

From S2P Require Import Prelude Json JsString.

(** (src/frontend/src/mocks/handlers/beach.ts:3-3 Activity) *)
Record Activity : Type := {
  activity_id : string;
  activity_name : string;
  description : string;
  capacity : Z;
  remaining : Z;
}.

(** (src/frontend/src/mocks/handlers/beach.ts:9-53 SEED) *)
Definition SEED : list Activity := [
  {| activity_id := "activity-sunset-cruise"; activity_name := "Sunset Cruise";
     description := "Sail along the coast and watch the sun dip below the horizon.";
     capacity := 10; remaining := 2 |};
  {| activity_id := "activity-snorkeling"; activity_name := "Snorkeling";
     description := "Explore the coral reef with our guided snorkeling tour.";
     capacity := 8; remaining := 0 |};
  {| activity_id := "activity-glass-bottom-boat"; activity_name := "Glass-Bottom Boat";
     description := "See the underwater world without getting wet.";
     capacity := 12; remaining := 3 |};
  {| activity_id := "activity-beach-volleyball"; activity_name := "Beach Volleyball";
     description := "Join a casual game on the main beach court.";
     capacity := 20; remaining := 14 |};
  {| activity_id := "activity-kayaking"; activity_name := "Kayaking";
     description := "Paddle through the lagoon at your own pace.";
     capacity := 6; remaining := 4 |};
  {| activity_id := "activity-beach-yoga"; activity_name := "Beach Yoga";
     description := "Morning yoga session on the shoreline.";
     capacity := 15; remaining := 11 |}].

(** A booking is an activity or [null]; a guest that never booked has none. *)
Abbreviation Bookings := (gmap string (option string)).

(** What the storage has for a guest; storages of old have a list of activities.
    (src/frontend/src/mocks/handlers/beach.ts:76-79 parsed) *)
Inductive StoredBooking : Type :=
  | OneBooking (activity : option string)
  | BookingList (activities : list string).

(** [None]: the storage has no text, or one that cannot be parsed. *)
Record Beach : Type := {
  stored_activities : option (list Activity);
  stored_bookings : option (gmap string StoredBooking);
  seed : list Activity;
}.

(** The module as it is loaded, over an empty storage. *)
Definition fresh_beach : Beach :=
  {| stored_activities := None; stored_bookings := None; seed := SEED |}.

(** The list, and whether it is the seed itself.
    (src/frontend/src/mocks/handlers/beach.ts:55-65 loadActivities) *)
Definition loadActivities (b : Beach) : list Activity * bool * Beach :=
  match stored_activities b with
  | Some l => (l, false, b)
  | None => (seed b, true,
      {| stored_activities := Some (seed b); stored_bookings := stored_bookings b;
         seed := seed b |})
  end.

(** Writing back a list changed in place; when it was the seed, the seed has
    changed with it.
    (src/frontend/src/mocks/handlers/beach.ts:67-69 saveActivities) *)
Definition saveActivities (l : list Activity) (is_seed : bool) (b : Beach) : Beach :=
  {| stored_activities := Some l; stored_bookings := stored_bookings b;
     seed := if is_seed then l else seed b |}.

(** (src/frontend/src/mocks/handlers/beach.ts:71-90 loadBookings) *)
Definition loadBookings (b : Beach) : Bookings :=
  match stored_bookings b with
  | None => ∅
  | Some parsed =>
      (λ value, match value with OneBooking a => a | BookingList l => last l end) <$> parsed
  end.

(** (src/frontend/src/mocks/handlers/beach.ts:92-94 saveBookings) *)
Definition saveBookings (m : Bookings) (b : Beach) : Beach :=
  {| stored_activities := stored_activities b; stored_bookings := Some (OneBooking <$> m); seed := seed b |}.

Record Reply : Type := { status : Z; body : json }.
Definition ok_status (s : string) : Reply :=
  {| status := 200; body := JObj [("status", JStr s)] |}.
Definition refuse (st : Z) (msg : string) : Reply :=
  {| status := st; body := JObj [("message", JStr msg)] |}.

Definition activity_json (a : Activity) : json := JObj
  [("activity_id", JStr (activity_id a)); ("activity_name", JStr (activity_name a));
   ("description", JStr (description a)); ("capacity", JNum (NumZ (capacity a)));
   ("remaining", JNum (NumZ (remaining a)))].

Definition find_activity (id : string) (l : list Activity) : option Activity :=
  find_first (λ a, bool_decide (activity_id a = id)) l.

(** [activity.remaining += d] on the object [find] returned. *)
Fixpoint add_remaining (id : string) (d : Z) (l : list Activity) : list Activity :=
  match l with
  | [] => []
  | a :: l =>
      if decide (activity_id a = id) then
        {| activity_id := activity_id a; activity_name := activity_name a;
           description := description a; capacity := capacity a;
           remaining := remaining a + d |} :: l
      else a :: add_remaining id d l
  end.

(** [bookings[guestId] ?? null]. *)
Definition current_booking (m : Bookings) (guestId : string) : option string :=
  default None (m !! guestId).

(** (src/frontend/src/mocks/handlers/beach.ts:97-99 get_activities) *)
Definition get_activities (b : Beach) : Reply * Beach :=
  let '(l, _, b) := loadActivities b in
  ({| status := 200; body := JObj [("activities", JArr (activity_json <$> l))] |}, b).

(** (src/frontend/src/mocks/handlers/beach.ts:101-113 get_activity) *)
Definition get_activity (activityId : string) (b : Beach) : Reply * Beach :=
  let '(l, _, b) := loadActivities b in
  match find_activity activityId l with
  | None => (refuse 404 "Activity not found", b)
  | Some a => ({| status := 200; body := activity_json a |}, b)
  end.

(** (src/frontend/src/mocks/handlers/beach.ts:115-162 book) *)
Definition book (activityId guestId : string) (b : Beach) : Reply * Beach :=
  let '(activities, is_seed, b) := loadActivities b in
  match find_activity activityId activities with
  | None => (refuse 404 "Activity not found", b)
  | Some activity =>
      let bookings := loadBookings b in
      let currentActivityId := current_booking bookings guestId in
      if decide (currentActivityId = Some activityId) then (ok_status "booked", b)
      else if (remaining activity =? 0)%Z then (refuse 409 "Activity is full", b)
      else
        let activities :=
          match currentActivityId with
          | Some current =>
              if truthy current then add_remaining current 1 activities else activities
          | None => activities
          end in
        let activities := add_remaining activityId (-1) activities in
        let bookings := <[guestId := Some activityId]> bookings in
        (ok_status "booked", saveBookings bookings (saveActivities activities is_seed b))
  end.

(** (src/frontend/src/mocks/handlers/beach.ts:164-193 cancel) *)
Definition cancel (activityId guestId : string) (b : Beach) : Reply * Beach :=
  let bookings := loadBookings b in
  let currentActivityId := current_booking bookings guestId in
  if decide (currentActivityId ≠ Some activityId) then (refuse 409 "Activity not booked", b)
  else
    let b := saveBookings (<[guestId := None]> bookings) b in
    let '(activities, is_seed, b) := loadActivities b in
    match find_activity activityId activities with
    | Some _ =>
        (ok_status "cancelled", saveActivities (add_remaining activityId 1 activities) is_seed b)
    | None => (ok_status "cancelled", b)
    end.

(** (src/frontend/src/mocks/handlers/beach.ts:195-200 by_guest) *)
Definition by_guest (guestId : string) (b : Beach) : Reply * Beach :=
  ({| status := 200; body := JObj
      [("activity_id", match current_booking (loadBookings b) guestId with
                       | Some a => JStr a | None => JNull end)] |}, b).

(** ** Conservation of places *)

Lemma load_saved_bookings m b : loadBookings (saveBookings m b) = m.
Proof.
  unfold loadBookings, saveBookings. cbn. rewrite <-map_fmap_compose. by rewrite map_fmap_id.
Qed.

(** The activities a request will work on. *)
Definition activities_of (b : Beach) : list Activity := default (seed b) (stored_activities b).

(** How many guests hold a booking for an activity. *)
Definition booked (m : Bookings) (id : string) : Z :=
  sum_with (λ kv, if decide (kv.2 = Some id) then 1 else 0)%Z (map_to_list m).

(** The free places of an activity, if it exists. *)
Definition free_places (l : list Activity) (id : string) : Z :=
  match find_activity id l with Some a => remaining a | None => 0 end.

(** The places of an activity, free and taken. *)
Definition places (b : Beach) (id : string) : Z :=
  (free_places (activities_of b) id + booked (loadBookings b) id)%Z.

Lemma sum_with_insert (f : string * option string → Z) (m : Bookings) k v :
  sum_with f (map_to_list (<[k := v]> m)) =
  (sum_with f (map_to_list m) + f (k, v) - match m !! k with Some o => f (k, o) | None => 0 end)%Z.
Proof.
  assert (∀ (m : Bookings) k v, m !! k = None →
    sum_with f (map_to_list (<[k := v]> m)) = (f (k, v) + sum_with f (map_to_list m))%Z) as Hnew.
  { intros m0 k0 v0 Hm. by rewrite (map_to_list_insert m0 k0 v0 Hm). }
  destruct (m !! k) as [o|] eqn:Hk.
  - pose proof (Hnew (delete k m) k v (lookup_delete_eq m k)) as H1.
    pose proof (Hnew (delete k m) k o (lookup_delete_eq m k)) as H2.
    rewrite (insert_delete_eq (M := gmap string)) in H1.
    rewrite (insert_delete_id (M := gmap string)) in H2 by done. lia.
  - rewrite Hnew by done. lia.
Qed.

Lemma booked_insert m g v id :
  booked (<[g := v]> m) id =
  (booked m id + (if decide (v = Some id) then 1 else 0)
   - (if decide (current_booking m g = Some id) then 1 else 0))%Z.
Proof.
  unfold booked, current_booking. rewrite sum_with_insert. simpl.
  destruct (m !! g) as [o|] eqn:E; simpl; [done|]. lia.
Qed.

Lemma find_add_remaining id id' d l :
  find_activity id (add_remaining id' d l) =
  match find_activity id l with
  | Some a => Some (if decide (id = id') then
      {| activity_id := activity_id a; activity_name := activity_name a;
         description := description a; capacity := capacity a; remaining := remaining a + d |}
      else a)
  | None => None
  end.
Proof.
  unfold find_activity. induction l as [|a l IH]; simpl; [done|].
  destruct (decide (activity_id a = id')) as [Ha|Ha]; simpl.
  - case_bool_decide as Hid; [by rewrite decide_True by congruence|].
    destruct (find_first _ l) as [a'|] eqn:Hf; [|done].
    rewrite decide_False; [done|congruence].
  - case_bool_decide as Hid; [by rewrite decide_False by congruence|]. apply IH.
Qed.

Lemma free_places_add id id' d l :
  free_places (add_remaining id' d l) id =
  (free_places l id + (if decide (id = id') then match find_activity id l with
     | Some _ => d | None => 0 end else 0))%Z.
Proof.
  unfold free_places. rewrite find_add_remaining.
  destruct (find_activity id l) as [a|]; [|case_decide; lia]. case_decide; simpl; lia.
Qed.

(** Activities are those that were there, and every booking is of one. *)
Record beach_inv (b : Beach) : Prop := {
  bi_free : ∀ a, a ∈ activities_of b → (0 ≤ remaining a)%Z;
  bi_booked : ∀ g id, current_booking (loadBookings b) g = Some id →
    is_Some (find_activity id (activities_of b)) ∧ id ≠ "";
}.

Lemma activities_of_load b l is_seed b' :
  loadActivities b = (l, is_seed, b') →
  l = activities_of b ∧ activities_of b' = l ∧ loadBookings b' = loadBookings b.
Proof.
  unfold loadActivities, activities_of. destruct b as [[l0|] m sd]; cbn; intros [= <- <- <-]; done.
Qed.

Lemma add_remaining_elem id d l a :
  a ∈ add_remaining id d l →
  a ∈ l ∨ ∃ a0, find_activity id l = Some a0 ∧ remaining a = (remaining a0 + d)%Z.
Proof.
  unfold find_activity. induction l as [|a1 l IH]; simpl; [set_solver|].
  case_decide as Hid.
  - rewrite bool_decide_true by done. intros [->|Hin]%elem_of_cons; [|set_solver].
    right. exists a1. done.
  - rewrite bool_decide_false by done. intros [->|Hin]%elem_of_cons; [set_solver|].
    destruct (IH Hin) as [?|?]; [set_solver|by right].
Qed.

Lemma find_activity_elem id l a : find_activity id l = Some a → a ∈ l ∧ activity_id a = id.
Proof. intros [? ?%bool_decide_eq_true]%find_first_elem. done. Qed.

Lemma is_Some_find_add id id' d l :
  is_Some (find_activity id (add_remaining id' d l)) ↔ is_Some (find_activity id l).
Proof. rewrite find_add_remaining. destruct (find_activity id l); split; intros []; eauto; done. Qed.

(** The list after a booking: the current activity, if any, gains a place and
    the booked one loses one. *)
Definition rebooked (current : option string) (id : string) (l : list Activity) : list Activity :=
  add_remaining id (-1)
    (match current with
     | Some c => if truthy c then add_remaining c 1 l else l
     | None => l
     end).

Lemma book_cases id g b :
  let r := book id g b in
  let current := current_booking (loadBookings b) g in
  (loadBookings r.2 = loadBookings b ∧ activities_of r.2 = activities_of b ∧
    (status r.1 = 404%Z ∧ find_activity id (activities_of b) = None ∨
     status r.1 = 200%Z ∧ current = Some id ∨
     status r.1 = 409%Z ∧ free_places (activities_of b) id = 0%Z)) ∨
  (r.1 = ok_status "booked" ∧ current ≠ Some id ∧
    (∃ a, find_activity id (activities_of b) = Some a ∧ remaining a ≠ 0%Z) ∧
    loadBookings r.2 = <[g := Some id]> (loadBookings b) ∧
    activities_of r.2 = rebooked current id (activities_of b)).
Proof.
  cbv zeta. unfold book. destruct (loadActivities b) as [[l is_seed] b'] eqn:Hload.
  destruct (activities_of_load _ _ _ _ Hload) as (-> & Ha & Hm).
  rewrite Hm. unfold free_places.
  destruct (find_activity id (activities_of b)) as [a|] eqn:Hf; [|by left; auto].
  case_decide as Hc; [left; cbn; split_and!; auto|].
  destruct (Z.eqb_spec (remaining a) 0) as [Hz|Hz]; [left; cbn; split_and!; auto|].
  right. cbn [fst snd]. rewrite load_saved_bookings. split_and!; try done. by exists a.
Qed.

(** Booking keeps the places of every activity: the guest's old place is freed
    and the new one taken. *)
Lemma book_places id g b k :
  beach_inv b → places (book id g b).2 k = places b k.
Proof.
  intros Hi. destruct (book_cases id g b) as [(Hm & Ha & _)|(_ & Hc & (a & Hf & Hz) & Hm & Ha)];
    unfold places; rewrite Hm, Ha; [done|].
  rewrite booked_insert. unfold rebooked. set (cur := current_booking (loadBookings b) g) in *.
  assert (∀ c, cur = Some c → is_Some (find_activity c (activities_of b)) ∧ truthy c = true) as Hcur.
  { intros c Hcc. destruct (bi_booked b Hi g c Hcc) as [? ?]. split; [done|].
    unfold truthy. by apply bool_decide_eq_true. }
  destruct cur as [c|] eqn:Ecur.
  - destruct (Hcur c eq_refl) as [[ac Hac] ->].
    rewrite !free_places_add, find_add_remaining.
    repeat case_decide; simplify_eq; rewrite ?Hf, ?Hac; try congruence; lia.
  - rewrite free_places_add. repeat case_decide; simplify_eq; rewrite ?Hf; try congruence; lia.
Qed.

Lemma book_inv id g b : id ≠ "" → beach_inv b → beach_inv (book id g b).2.
Proof.
  intros Hid Hi. destruct (book_cases id g b) as [(Hm & Ha & _)|(_ & Hc & (a & Hf & Hz) & Hm & Ha)].
  { constructor; rewrite ?Hm, ?Ha; apply Hi. }
  assert (∀ a', a' ∈ (match current_booking (loadBookings b) g with
     | Some c => if truthy c then add_remaining c 1 (activities_of b) else activities_of b
     | None => activities_of b end) → (0 ≤ remaining a')%Z) as Hpos.
  { intros a'. destruct (current_booking _ g) as [c|]; [|apply (bi_free b Hi)].
    destruct (truthy c); [|apply (bi_free b Hi)].
    intros [?|(a0 & [Hin _]%find_activity_elem & ->)]%add_remaining_elem; [by apply (bi_free b Hi)|].
    pose proof (bi_free b Hi a0 Hin). lia. }
  assert (∀ k, is_Some (find_activity k (activities_of (book id g b).2)) ↔
    is_Some (find_activity k (activities_of b))) as Hsome.
  { intros k. rewrite Ha. unfold rebooked. rewrite is_Some_find_add.
    destruct (current_booking _ g) as [c|]; [|done]. destruct (truthy c); [|done].
    apply is_Some_find_add. }
  constructor.
  - intros a'. rewrite Ha. unfold rebooked.
    intros [Hin|(a0 & Ha0 & ->)]%add_remaining_elem; [by apply Hpos|].
    assert (remaining a ≤ remaining a0)%Z as Hle.
    { revert Ha0. destruct (current_booking _ g) as [c|]; [|by rewrite Hf; intros [= ->]].
      destruct (truthy c); [|by rewrite Hf; intros [= ->]].
      rewrite find_add_remaining, Hf. case_decide; intros [= <-]; simpl; lia. }
    pose proof (bi_free b Hi a (proj1 (find_activity_elem _ _ _ Hf))). lia.
  - intros g' k. rewrite Hm. unfold current_booking. rewrite Hsome.
    destruct (decide (g' = g)) as [->|Hne].
    + rewrite lookup_insert_eq. cbn. intros [= <-]. split; [by exists a|done].
    + rewrite lookup_insert_ne by done. apply (bi_booked b Hi g').
Qed.

Lemma cancel_cases id g b :
  let r := cancel id g b in
  (status r.1 = 409%Z ∧ r.2 = b ∧ current_booking (loadBookings b) g ≠ Some id) ∨
  (r.1 = ok_status "cancelled" ∧ current_booking (loadBookings b) g = Some id ∧
   loadBookings r.2 = <[g := None]> (loadBookings b) ∧
   activities_of r.2 = add_remaining id 1 (activities_of b)).
Proof.
  cbv zeta. unfold cancel. case_decide as Hc; [left; done|].
  right.
  set (b1 := saveBookings _ b). assert (activities_of b1 = activities_of b) as Hb1 by done.
  assert (loadBookings b1 = <[g := None]> (loadBookings b)) as Hm1 by apply load_saved_bookings. clearbody b1.
  destruct (loadActivities b1) as [[l is_seed] b'] eqn:Hload.
  destruct (activities_of_load _ _ _ _ Hload) as (-> & Ha & Hm). rewrite Hb1 in *.
  destruct (find_activity id (activities_of b)) as [a|] eqn:Hf; cbn; split_and!; try done;
    try (by rewrite <-Hm1, <-Hm); try congruence. rewrite Ha. clear -Hf. unfold find_activity in Hf.
  induction (activities_of b) as [|x l IH]; simpl in *; [done|].
  case_bool_decide; [done|]. rewrite decide_False by done. f_equal. auto.
Qed.

Lemma cancel_places id g b k : beach_inv b → places (cancel id g b).2 k = places b k.
Proof.
  intros Hi. destruct (cancel_cases id g b) as [(_ & -> & _)|(_ & Hc & Hm & Ha)]; [done|].
  unfold places. rewrite Hm, Ha, booked_insert, free_places_add, Hc.
  destruct (bi_booked b Hi g id Hc) as [[a Hf] _].
  rewrite (decide_False (P := None = Some k)) by done.
  repeat case_decide; simplify_eq; rewrite ?Hf; try congruence; lia.
Qed.

Lemma cancel_inv id g b : beach_inv b → beach_inv (cancel id g b).2.
Proof.
  intros Hi. destruct (cancel_cases id g b) as [(_ & -> & _)|(_ & Hc & Hm & Ha)]; [done|].
  constructor.
  - intros a'. rewrite Ha.
    intros [?|(a0 & [Hin _]%find_activity_elem & ->)]%add_remaining_elem; [by apply (bi_free b Hi)|].
    pose proof (bi_free b Hi a0 Hin). lia.
  - intros g' k. rewrite Hm, Ha, is_Some_find_add. unfold current_booking.
    destruct (decide (g' = g)) as [->|Hne]; [by rewrite lookup_insert_eq|].
    rewrite lookup_insert_ne by done. apply (bi_booked b Hi g').
Qed.

(** Requests in sequence. *)
Inductive BeachOp : Type := Book (id g : string) | Cancel (id g : string) | List | ByGuest (g : string).
Definition run_beach (b : Beach) (o : BeachOp) : Beach :=
  match o with
  | Book id g => (book id g b).2
  | Cancel id g => (cancel id g b).2
  | List => (get_activities b).2
  | ByGuest g => (by_guest g b).2
  end.

Lemma fresh_beach_inv : beach_inv fresh_beach.
Proof.
  constructor.
  - intros a Ha%list_elem_of_In.
    assert (forallb (λ a, 0 <=? remaining a)%Z SEED = true) as H by done.
    rewrite forallb_forall in H. specialize (H a Ha). lia.
  - done.
Qed.

Lemma run_beach_spec ops b :
  (∀ id g, Book id g ∈ ops → id ≠ "") → beach_inv b →
  beach_inv (foldl run_beach b ops) ∧ ∀ k, places (foldl run_beach b ops) k = places b k.
Proof.
  revert b. induction ops as [|o ops IH]; intros b Hid Hi; [done|]. cbn [foldl].
  assert (beach_inv (run_beach b o) ∧ ∀ k, places (run_beach b o) k = places b k) as [Hi' Hp'].
  { destruct o as [id g|id g| |g]; cbn [run_beach].
    - split; [apply book_inv; [apply (Hid id g); set_solver|done]|]. intros. by apply book_places.
    - split; [by apply cancel_inv|]. intros. by apply cancel_places.
    - unfold get_activities. destruct (loadActivities b) as [[l is_seed] b'] eqn:Hload.
      destruct (activities_of_load _ _ _ _ Hload) as (-> & Ha & Hm). cbn. split.
      + constructor; rewrite ?Ha, ?Hm; apply Hi.
      + intros k. unfold places. by rewrite Ha, Hm.
    - done. }
  destruct (IH (run_beach b o)) as [Hi'' Hp'']; [set_solver|done|]. split; [done|].
  intros k. by rewrite Hp'', Hp'.
Qed.
