(* ===== verification/OctopusOracle.v ===== *)
(** * The octopus oracle

    [features/octopus-oracle]: the rules of the two trials
    ([lib/octopus-oracle.ts]) and the panel that runs them
    ([components/octopus-oracle-panel.tsx]) as a machine whose steps are the
    buttons the panel shows in each mode. *)

From S2P Require Import Prelude JsString.

(** ** Rules *)

(** (src/frontend/src/features/octopus-oracle/lib/octopus-oracle.ts:1-1 OracleColor) *)
Inductive OracleColor : Type := Blue | Red | Violet | Amber.

#[global] Instance OracleColor_eq_dec : EqDecision OracleColor.
Proof. solve_decision. Defined.

(** (src/frontend/src/features/octopus-oracle/lib/octopus-oracle.ts:3-8 OracleQuestion) *)
Record OracleQuestion : Type := {
  question_id : string;
  question : string;
  options : list string;
  correctIndex : nat;
}.

(** (src/frontend/src/features/octopus-oracle/lib/octopus-oracle.ts:10-29 BLUE_TRIAL_QUESTIONS) *)
Definition BLUE_TRIAL_QUESTIONS : list OracleQuestion := [
  {| question_id := "pineapple-home";
     question := "Who lives in a pineapple under the sea?";
     options := ["Sandy Cheeks"; "SpongeBob SquarePants"; "Patrick Star"];
     correctIndex := 1 |};
  {| question_id := "moon-landing";
     question := "In what year did humans first land on the Moon?";
     options := ["1969"; "1977"; "1984"];
     correctIndex := 0 |};
  {| question_id := "octopus-arms";
     question := "How many arms does an octopus have?";
     options := ["Six"; "Eight"; "Ten"];
     correctIndex := 1 |}].

(** (src/frontend/src/features/octopus-oracle/lib/octopus-oracle.ts:31-31 RED_TRIAL_SEQUENCE) *)
Definition RED_TRIAL_SEQUENCE : list OracleColor := [Blue; Red; Violet; Amber].

(** (src/frontend/src/features/octopus-oracle/lib/octopus-oracle.ts:36-39 evaluateQuiz) *)
Record QuizResult : Type := { quiz_passed : bool; correct : nat }.

(** (src/frontend/src/features/octopus-oracle/lib/octopus-oracle.ts:33-40 evaluateQuiz) *)
Definition evaluateQuiz (results : list bool) : QuizResult :=
  let correct := length (filter (λ b : bool, b = true) results) in
  {| quiz_passed := 2 <=? correct; correct := correct |}.

(** [expected.every((color, index) => color === actual[index])].
    (src/frontend/src/features/octopus-oracle/lib/octopus-oracle.ts:48-48 every) *)
Definition every_at (expected actual : list OracleColor) : bool :=
  forallb (λ '(i, c), bool_decide (actual !! i = Some c)) (imap pair expected).

(** (src/frontend/src/features/octopus-oracle/lib/octopus-oracle.ts:42-50 evaluateSequence) *)
Definition evaluateSequence (expected actual : list OracleColor) : bool :=
  (length expected =? length actual)%nat && every_at expected actual.

(** ** The panel *)

(** (src/frontend/src/features/octopus-oracle/components/octopus-oracle-panel.tsx:20-20 OracleMode) *)
Inductive OracleMode : Type := Choice | BlueTrial | RedTrial | Result.

#[global] Instance OracleMode_eq_dec : EqDecision OracleMode.
Proof. solve_decision. Defined.

(** (src/frontend/src/features/octopus-oracle/components/octopus-oracle-panel.tsx:28-32 ResultState) *)
Record ResultState : Type := { passed : bool; title : string; message : string }.

(** The component's state.
    (src/frontend/src/features/octopus-oracle/components/octopus-oracle-panel.tsx:50-53 useState) *)
Record Panel : Type := {
  mode : OracleMode;
  answers : gmap string nat;
  sequenceInput : list OracleColor;
  result : option ResultState;
}.

(** What the panel calls back. *)
Inductive Callback : Type := OnTrialResult (passed : bool) | OnClose.

Definition color_name (c : OracleColor) : string :=
  match c with Blue => "blue" | Red => "red" | Violet => "violet" | Amber => "amber" end.

(** [c.toUpperCase()] on a lower-case letter. *)
Definition upper_char (c : ascii) : ascii :=
  if between 97 122 c then ascii_of_N (N_of_ascii c - 32) else c.

(** (src/frontend/src/features/octopus-oracle/components/octopus-oracle-panel.tsx:41-43 colorLabel) *)
Definition colorLabel (c : OracleColor) : string :=
  of_chars (upper_char <$> take 1 (chars (color_name c))) +:+ slice_from 1 (color_name c).

(** (src/frontend/src/features/octopus-oracle/components/octopus-oracle-panel.tsx:59-64 resetToChoice) *)
Definition resetToChoice (s : Panel) : Panel :=
  {| mode := Choice; answers := ∅; sequenceInput := []; result := None |}.

(** (src/frontend/src/features/octopus-oracle/components/octopus-oracle-panel.tsx:66-69 closePanel) *)
Definition closePanel (s : Panel) : Panel * list Callback := (resetToChoice s, [OnClose]).

(** The answers as the quiz reads them: a question not answered is wrong. *)
Definition quiz_answers (answers : gmap string nat) : list bool :=
  (λ q, bool_decide (answers !! question_id q = Some (correctIndex q))) <$> BLUE_TRIAL_QUESTIONS.

(** (src/frontend/src/features/octopus-oracle/components/octopus-oracle-panel.tsx:71-93 finishBlueTrial) *)
Definition finishBlueTrial (s : Panel) : Panel * list Callback :=
  let quizResult := evaluateQuiz (quiz_answers (answers s)) in
  let count := show_int (Z.of_nat (correct quizResult)) in
  let result :=
    if quiz_passed quizResult then
      {| passed := true; title := "Kiki keeps a clear mind";
         message := "The oracle accepts " +:+ count
           +:+ " of 3 answers and lets Kiki pass through the tide gate." |}
    else
      {| passed := false; title := "The oracle clouds Kiki's thoughts";
         message := "Only " +:+ count
           +:+ " of 3 answers were right. The tide whispers in circles. Try again when Kiki is ready." |} in
  ({| mode := Result; answers := answers s; sequenceInput := sequenceInput s;
      result := Some result |},
   [OnTrialResult (quiz_passed quizResult)]).

(** (src/frontend/src/features/octopus-oracle/components/octopus-oracle-panel.tsx:95-121 chooseColor) *)
Definition chooseColor (color : OracleColor) (s : Panel) : Panel * list Callback :=
  let nextInput := sequenceInput s ++ [color] in
  if negb (length nextInput =? length RED_TRIAL_SEQUENCE)%nat then
    ({| mode := mode s; answers := answers s; sequenceInput := nextInput; result := result s |}, [])
  else
    let ok := evaluateSequence RED_TRIAL_SEQUENCE nextInput in
    let result :=
      if ok then
        {| passed := true; title := "Kiki reads the current";
           message := "The red pill sharpens Kiki's reflexes. The octopus opens a bright path through the waves." |}
      else
        {| passed := false; title := "Ink everywhere";
           message := "Kiki lost the pattern, and the oracle fills the water with harmless ink. Reset the sequence and try again." |} in
    ({| mode := Result; answers := answers s; sequenceInput := nextInput; result := Some result |},
     [OnTrialResult ok]).

(** (src/frontend/src/features/octopus-oracle/components/octopus-oracle-panel.tsx:123-123 answeredCount) *)
Definition answeredCount (s : Panel) : nat := size (answers s).

(** The buttons. *)
Inductive Click : Type :=
  | BluePill | RedPill
  | Answer (q : OracleQuestion) (optionIndex : nat)
  | AskTheOracle
  | Pearl (c : OracleColor)
  | ResetSequence
  | Back
  | TryAnotherPill
  | Close.

(** The buttons of the choice, blue, red and result blocks of the panel.
    (src/frontend/src/features/octopus-oracle/components/octopus-oracle-panel.tsx:156-348 panel) *)
Definition shown (s : Panel) (c : Click) : Prop :=
  match c with
  | BluePill | RedPill => mode s = Choice
  | Answer q i => mode s = BlueTrial ∧ q ∈ BLUE_TRIAL_QUESTIONS ∧ i < length (options q)
  | AskTheOracle => mode s = BlueTrial ∧ ¬ answeredCount s < length BLUE_TRIAL_QUESTIONS
  | Pearl _ | ResetSequence => mode s = RedTrial
  | Back => mode s = BlueTrial ∨ mode s = RedTrial
  | TryAnotherPill => mode s = Result ∧ is_Some (result s)
  | Close => True
  end.

#[global] Instance OracleQuestion_eq_dec : EqDecision OracleQuestion.
Proof. solve_decision. Defined.

#[global] Instance shown_decision s c : Decision (shown s c).
Proof. destruct c; simpl; apply _. Defined.

(** (src/frontend/src/features/octopus-oracle/components/octopus-oracle-panel.tsx:50-50 setMode) *)
Definition set_mode (m : OracleMode) (s : Panel) : Panel :=
  {| mode := m; answers := answers s; sequenceInput := sequenceInput s; result := result s |}.

(** The panel's [onClick] handlers.
    (src/frontend/src/features/octopus-oracle/components/octopus-oracle-panel.tsx:206-348 onClick) *)
Definition click (c : Click) (s : Panel) : Panel * list Callback :=
  match c with
  | BluePill => (set_mode BlueTrial s, [])
  | RedPill => (set_mode RedTrial s, [])
  | Answer q i =>
      ({| mode := mode s; answers := <[question_id q := i]> (answers s);
          sequenceInput := sequenceInput s; result := result s |}, [])
  | AskTheOracle => finishBlueTrial s
  | Pearl c => chooseColor c s
  | ResetSequence =>
      ({| mode := mode s; answers := answers s; sequenceInput := []; result := result s |}, [])
  | Back | TryAnotherPill => (resetToChoice s, [])
  | Close => closePanel s
  end.

(** (src/frontend/src/features/octopus-oracle/components/octopus-oracle-panel.tsx:50-53 useState) *)
Definition initial_panel : Panel :=
  {| mode := Choice; answers := ∅; sequenceInput := []; result := None |}.

Inductive panel_step : Panel → Panel → Prop :=
  | panel_click c s : shown s c → panel_step s (click c s).1.

(** ** The rules decide what they say *)

Lemma every_at_spec expected actual :
  length expected = length actual →
  every_at expected actual = true ↔ expected = actual.
Proof.
  intros Hlen. unfold every_at. rewrite forallb_forall. split.
  - intros H. apply list_eq. intros i. destruct (expected !! i) as [c|] eqn:Hi.
    + symmetry. assert ((i, c) ∈ imap pair expected) as Hin.
      { apply list_elem_of_lookup. exists i. by rewrite list_lookup_imap, Hi. }
      apply list_elem_of_In, H, bool_decide_eq_true in Hin. done.
    + symmetry. apply lookup_ge_None in Hi. apply lookup_ge_None. lia.
  - intros -> [i c] (j & Hj)%list_elem_of_In%list_elem_of_lookup.
    rewrite list_lookup_imap in Hj.
    destruct (actual !! j) as [c'|] eqn:E; simplify_eq/=. by apply bool_decide_eq_true.
Qed.

Lemma evaluateSequence_spec expected actual :
  evaluateSequence expected actual = true ↔ expected = actual.
Proof.
  unfold evaluateSequence. rewrite andb_true_iff, Nat.eqb_eq. split.
  - intros [Hlen H]. by apply every_at_spec.
  - intros ->. split; [done|]. by apply every_at_spec.
Qed.

(** A quiz passes exactly when at most one answer is wrong, for three answers. *)
Lemma evaluateQuiz_three a b c :
  quiz_passed (evaluateQuiz [a; b; c]) = a && b || b && c || a && c.
Proof. by destruct a, b, c. Qed.

(** ** What the panel reaches *)

Record panel_inv (s : Panel) : Prop := {
  pi_choice : mode s = Choice → s = initial_panel;
  pi_blue : mode s = BlueTrial → sequenceInput s = [] ∧ result s = None;
  pi_red : mode s = RedTrial →
    answers s = ∅ ∧ result s = None ∧ length (sequenceInput s) < length RED_TRIAL_SEQUENCE;
  pi_result : mode s = Result → is_Some (result s);
  pi_answers : ∀ id i, answers s !! id = Some i →
    ∃ q, q ∈ BLUE_TRIAL_QUESTIONS ∧ id = question_id q ∧ i < length (options q);
}.

Lemma initial_panel_inv : panel_inv initial_panel.
Proof. by constructor. Qed.

Lemma chooseColor_cases c s :
  (chooseColor c s = ({| mode := mode s; answers := answers s;
      sequenceInput := sequenceInput s ++ [c]; result := result s |}, []) ∧
    length (sequenceInput s) ≠ 3) ∨
  (∃ r, chooseColor c s = ({| mode := Result; answers := answers s;
      sequenceInput := sequenceInput s ++ [c]; result := Some r |}, [OnTrialResult (passed r)]) ∧
    (passed r = true ↔ sequenceInput s ++ [c] = RED_TRIAL_SEQUENCE)).
Proof.
  unfold chooseColor.
  destruct (Nat.eqb_spec (length (sequenceInput s ++ [c])) (length RED_TRIAL_SEQUENCE))
    as [Hl|Hl]; cbn [negb].
  - right. destruct (evaluateSequence RED_TRIAL_SEQUENCE (sequenceInput s ++ [c])) eqn:E;
      eexists {| passed := _; title := _; message := _ |}; (split; [reflexivity|]); simpl.
    + apply evaluateSequence_spec in E. by rewrite E.
    + split; [done|]. intros Heq. rewrite <-Heq in E.
      assert (evaluateSequence (sequenceInput s ++ [c]) (sequenceInput s ++ [c]) = true) as Ht
        by by apply evaluateSequence_spec.
      congruence.
  - left. split; [done|]. rewrite length_app in Hl. simpl in Hl. lia.
Qed.

Lemma finishBlueTrial_cases s :
  ∃ r, finishBlueTrial s = ({| mode := Result; answers := answers s;
      sequenceInput := sequenceInput s; result := Some r |}, [OnTrialResult (passed r)]) ∧
    passed r = quiz_passed (evaluateQuiz (quiz_answers (answers s))).
Proof. unfold finishBlueTrial. destruct (quiz_passed _);
    eexists {| passed := _; title := _; message := _ |}; done. Qed.

Lemma click_inv c s : panel_inv s → shown s c → panel_inv (click c s).1.
Proof.
  intros Hi Hs. destruct c as [| |q i| |c| | | |]; cbn [click shown fst] in *.
  - rewrite (pi_choice s Hi Hs). by constructor.
  - rewrite (pi_choice s Hi Hs). constructor; simpl; try done. intros _. split_and!; [done..|lia].
  - destruct Hs as (Hm & Hq & Hlt). destruct (pi_blue s Hi Hm) as [Hseq Hres].
    constructor; simpl; try congruence; [done|].
    intros id j. destruct (decide (id = question_id q)) as [->|Hne].
    + rewrite lookup_insert_eq. intros [= <-]. by exists q.
    + rewrite lookup_insert_ne by done. apply (pi_answers s Hi).
  - destruct (finishBlueTrial_cases s) as (r & -> & _).
    constructor; simpl; try done. apply (pi_answers s Hi).
  - destruct (pi_red s Hi Hs) as (Ha & Hr & Hlen).
    destruct (chooseColor_cases c s) as [[-> Hl]|(r & -> & _)]; constructor; simpl;
      rewrite ?Hs; try done; try apply (pi_answers s Hi).
    intros _. split_and!; [done..|]. rewrite length_app. simpl in *. lia.
  - destruct (pi_red s Hi Hs) as (Ha & Hr & Hlen).
    constructor; simpl; rewrite ?Hs; try done; try apply (pi_answers s Hi).
    intros _. split_and!; [done..|lia].
  - by constructor.
  - by constructor.
  - by constructor.
Qed.

Lemma panel_reachable_inv s : reachable (eq initial_panel) panel_step s → panel_inv s.
Proof.
  apply invariant_reachable; [intros ? <-; apply initial_panel_inv|].
  intros s1 s2 Hi Hs. destruct Hs. by apply click_inv.
Qed.

(** [Ask the oracle] can be clicked only when every question has an answer
    among its options. *)
Lemma ask_when_answered s q :
  panel_inv s → shown s AskTheOracle → q ∈ BLUE_TRIAL_QUESTIONS →
  ∃ i, answers s !! question_id q = Some i ∧ i < length (options q).
Proof.
  intros Hi [_ Hsize] Hq. unfold answeredCount in Hsize.
  set (ids := list_to_set (question_id <$> BLUE_TRIAL_QUESTIONS) : gset string).
  assert (dom (answers s) ⊆ ids) as Hsub.
  { intros id [i Hid]%elem_of_dom. destruct (pi_answers s Hi id i Hid) as (q' & Hq' & -> & _).
    apply elem_of_list_to_set, list_elem_of_fmap. by exists q'. }
  assert (dom (answers s) = ids) as Hdom.
  { apply leibniz_equiv, set_subseteq_size_equiv; [done|]. rewrite size_dom.
    etrans; [|apply Nat.nlt_ge, Hsize]. done. }
  assert (question_id q ∈ dom (answers s)) as [i Hid]%elem_of_dom.
  { rewrite Hdom. apply elem_of_list_to_set, list_elem_of_fmap. by exists q. }
  exists i. split; [done|].
  destruct (pi_answers s Hi _ i Hid) as (q' & Hq' & Heq & Hlt).
  assert (q' = q) as ->; [|done].
  clear -Hq Hq' Heq. repeat (apply elem_of_cons in Hq as [->|Hq]);
    repeat (apply elem_of_cons in Hq' as [->|Hq']); try done; set_solver.
Qed.

(** A trial reports once: the click that reports a result puts that result on
    the panel, where no button reports another. *)
Lemma click_reports c s p :
  OnTrialResult p ∈ (click c s).2 →
  mode (click c s).1 = Result ∧ passed <$> result (click c s).1 = Some p ∧
  (c = AskTheOracle ∧ p = quiz_passed (evaluateQuiz (quiz_answers (answers s))) ∨
   ∃ k, c = Pearl k ∧ (p = true ↔ sequenceInput s ++ [k] = RED_TRIAL_SEQUENCE)).
Proof.
  intros Hin. destruct c as [| |q i| |c| | | |]; cbn [click fst snd] in *;
    try by inversion Hin.
  - destruct (finishBlueTrial_cases s) as (r & Hf & Hp). rewrite Hf in *. simpl in *.
    apply list_elem_of_singleton in Hin as [= ->]. split_and!; [done..|]. left. done.
  - destruct (chooseColor_cases c s) as [[Hf _]|(r & Hf & Hp)]; rewrite Hf in *; simpl in *.
    { set_solver. }
    apply list_elem_of_singleton in Hin as [= ->]. split_and!; [done..|]. right. by exists c.
  - by apply list_elem_of_singleton in Hin.
Qed.
