(* ===== verification/KikiQuest.v ===== *)
(** * Kiki's burger quest

    [features/kiki-burger-quest]: the rules of the purse
    ([lib/kiki-burger-quest.ts]) and the component
    ([components/kiki-burger-quest.tsx]) as a machine over its phase, its purse
    and the oracle's panel.  Steps are the timers its effects set and the
    buttons it shows. *)

From S2P Require Import Prelude JsString OctopusOracle.

(** ** Rules *)

(** (src/frontend/src/features/kiki-burger-quest/lib/kiki-burger-quest.ts:1-1 BURGER_PRICE_MEOWS) *)
Definition BURGER_PRICE_MEOWS : Z := 100.
(** (src/frontend/src/features/kiki-burger-quest/lib/kiki-burger-quest.ts:2-2 ORACLE_REWARD_MEOWS) *)
Definition ORACLE_REWARD_MEOWS : Z := 100.

(** (src/frontend/src/features/kiki-burger-quest/lib/kiki-burger-quest.ts:4-6 rewardForOracleResult) *)
Definition rewardForOracleResult (passed : bool) : Z := if passed then ORACLE_REWARD_MEOWS else 0.

(** (src/frontend/src/features/kiki-burger-quest/lib/kiki-burger-quest.ts:8-10 canBuyBurger) *)
Definition canBuyBurger (meows : Z) : bool := (BURGER_PRICE_MEOWS <=? meows)%Z.

(** (src/frontend/src/features/kiki-burger-quest/lib/kiki-burger-quest.ts:12-14 spendBurgerMeows) *)
Definition spendBurgerMeows (meows : Z) : Z :=
  if canBuyBurger meows then meows - BURGER_PRICE_MEOWS else meows.

(** ** Confetti *)

(** (src/frontend/src/features/kiki-burger-quest/components/kiki-burger-quest.tsx:34-48 CONFETTI_COLORS) *)
Definition CONFETTI_COLORS : list string :=
  ["#f472b6"; "#fde047"; "#34d399"; "#60a5fa"; "#fb7185"; "#facc15"; "#2dd4bf"; "#c084fc";
   "#fb923c"; "#38bdf8"; "#f9a8d4"; "#a3e635"; "#f97316"].

Record Confetti : Type := {
  c_left : string; c_top : string; c_delay : string; c_duration : string; c_color : string;
  c_rotate : string; c_width : string; c_height : string; c_drift : string;
}.

(** [`${n}unit`]. *)
Definition with_unit (n : nat) (unit : string) : string := show_int (Z.of_nat n) +:+ unit.

(** (src/frontend/src/features/kiki-burger-quest/components/kiki-burger-quest.tsx:49-59 CONFETTI_PIECES) *)
Definition CONFETTI_PIECES : list Confetti :=
  (λ index, {|
    c_left := with_unit ((index * 37) mod 100) "%";
    c_top := with_unit ((index * 23) mod 96) "%";
    c_delay := with_unit ((index * 29) mod 260) "ms";
    c_duration := with_unit (2600 + (index * 41) mod 420) "ms";
    c_color := default "" (CONFETTI_COLORS !! (index mod length CONFETTI_COLORS));
    c_rotate := with_unit ((index * 47) mod 360) "deg";
    c_width := with_unit (10 + (index mod 4) * 4) "px";
    c_height := with_unit (16 + (index mod 5) * 5) "px";
    c_drift := (if (index mod 2 =? 0)%nat then "1" else "-1")
      +:+ with_unit (18 + (index mod 7) * 7) "px" |}) <$> seq 0 120.

(** The React key of a piece.
    (src/frontend/src/features/kiki-burger-quest/components/kiki-burger-quest.tsx:278-293 key) *)
Definition confetti_key (p : Confetti) : string :=
  c_left p +:+ "-" +:+ c_top p +:+ "-" +:+ c_color p.

(** Pieces that are drawn together have distinct keys. *)
Lemma confetti_keys_distinct : NoDup (confetti_key <$> CONFETTI_PIECES).
Proof. apply (bool_decide_unpack _). by vm_compute. Qed.

(** ** State *)

(** (src/frontend/src/features/kiki-burger-quest/components/kiki-burger-quest.tsx:14-23 QuestPhase) *)
Inductive QuestPhase : Type :=
  | idle_at_crab | needs_meows | walking_to_octopus | at_octopus | failed_task
  | earned_meows | walking_to_crab | ready_to_buy | burger_received.

#[global] Instance QuestPhase_eq_dec : EqDecision QuestPhase.
Proof. solve_decision. Defined.

(** (src/frontend/src/features/kiki-burger-quest/components/kiki-burger-quest.tsx:30-30 CRAB_POSITION) *)
Definition CRAB_POSITION : Z * Z := (1220, 1250)%Z.
(** (src/frontend/src/features/kiki-burger-quest/components/kiki-burger-quest.tsx:31-31 OCTOPUS_POSITION) *)
Definition OCTOPUS_POSITION : Z * Z := (2825, 450)%Z.

Inductive Direction : Type := FacingLeft | FacingRight.

(** (src/frontend/src/features/kiki-burger-quest/components/kiki-burger-quest.tsx:85-91 useState) *)
Record Quest : Type := {
  phase : QuestPhase;
  position : Z * Z;
  direction : Direction;
  meows : Z;
  oracleOpen : bool;
  lastTrialPassed : option bool;
  showConfetti : bool;
  panel : Panel;
}.

(** (src/frontend/src/features/kiki-burger-quest/components/kiki-burger-quest.tsx:85-91 useState) *)
Definition initial_quest : Quest :=
  {| phase := idle_at_crab; position := CRAB_POSITION; direction := FacingRight; meows := 0;
     oracleOpen := false; lastTrialPassed := None; showConfetti := false;
     panel := initial_panel |}.

(** (src/frontend/src/features/kiki-burger-quest/components/kiki-burger-quest.tsx:85-85 setPhase) *)
Definition set_phase (p : QuestPhase) (s : Quest) : Quest :=
  {| phase := p; position := position s; direction := direction s; meows := meows s;
     oracleOpen := oracleOpen s; lastTrialPassed := lastTrialPassed s;
     showConfetti := showConfetti s; panel := panel s |}.

Definition set_oracle (open : bool) (last : option bool) (m : Z) (p : Panel) (s : Quest) : Quest :=
  {| phase := phase s; position := position s; direction := direction s; meows := m;
     oracleOpen := open; lastTrialPassed := last; showConfetti := showConfetti s; panel := p |}.

(** (src/frontend/src/features/kiki-burger-quest/components/kiki-burger-quest.tsx:61-82 phaseMessage) *)
Definition phaseMessage (p : QuestPhase) (meows : Z) : string :=
  match p with
  | idle_at_crab => "Kiki wants a burger."
  | needs_meows => "Kiki needs 100 meows first. The octopus has a task."
  | walking_to_octopus => "Kiki is going to the Octopus Oracle."
  | at_octopus => "Complete an oracle task to earn 100 meows."
  | failed_task => "Kiki did not earn the meows yet. Try again."
  | earned_meows => "Kiki earned " +:+ show_int meows +:+ " meows. Time to buy the burger."
  | walking_to_crab => "Kiki is going back to The Crusty Crab."
  | ready_to_buy => "Kiki has 100 meows and can buy the burger."
  | burger_received => "Burger received. Kiki is delighted."
  end.

(** (src/frontend/src/features/kiki-burger-quest/components/kiki-burger-quest.tsx:100-100 canRequestBurger) *)
Definition canRequestBurger (s : Quest) : bool :=
  bool_decide (phase s = idle_at_crab) || bool_decide (phase s = burger_received).
(** (src/frontend/src/features/kiki-burger-quest/components/kiki-burger-quest.tsx:101-101 canRetryTask) *)
Definition canRetryTask (s : Quest) : bool := bool_decide (phase s = failed_task).
(** (src/frontend/src/features/kiki-burger-quest/components/kiki-burger-quest.tsx:102-102 canPayForBurger) *)
Definition canPayForBurger (s : Quest) : bool :=
  bool_decide (phase s = ready_to_buy) && canBuyBurger (meows s).

(** ** Handlers *)

(** (src/frontend/src/features/kiki-burger-quest/components/kiki-burger-quest.tsx:106-116 startWalkToOctopus) *)
Definition walk (d : Direction) (p : QuestPhase) (pos : Z * Z) (s : Quest) : Quest :=
  {| phase := p; position := pos; direction := d; meows := meows s; oracleOpen := oracleOpen s;
     lastTrialPassed := lastTrialPassed s; showConfetti := showConfetti s; panel := panel s |}.

(** (src/frontend/src/features/kiki-burger-quest/components/kiki-burger-quest.tsx:106-110 startWalkToOctopus) *)
Definition startWalkToOctopus : Quest → Quest :=
  walk FacingRight walking_to_octopus OCTOPUS_POSITION.
(** (src/frontend/src/features/kiki-burger-quest/components/kiki-burger-quest.tsx:112-116 startWalkToCrab) *)
Definition startWalkToCrab : Quest → Quest := walk FacingLeft walking_to_crab CRAB_POSITION.

(** (src/frontend/src/features/kiki-burger-quest/components/kiki-burger-quest.tsx:118-122 requestBurger) *)
Definition requestBurger (s : Quest) : Quest :=
  set_phase needs_meows (set_oracle (oracleOpen s) None 0 (panel s) s).

(** (src/frontend/src/features/kiki-burger-quest/components/kiki-burger-quest.tsx:124-128 buyBurger) *)
Definition buyBurger (s : Quest) : Quest :=
  {| phase := burger_received; position := position s; direction := direction s;
     meows := spendBurgerMeows (meows s); oracleOpen := oracleOpen s;
     lastTrialPassed := lastTrialPassed s; showConfetti := true; panel := panel s |}.

(** The timer of the phase, when the phase sets one; leaving the phase clears
    it.
    (src/frontend/src/features/kiki-burger-quest/components/kiki-burger-quest.tsx:130-155 useEffect) *)
Definition phase_timer (s : Quest) : option Quest :=
  match phase s with
  | needs_meows => Some (startWalkToOctopus s)
  | walking_to_octopus =>
      Some (set_phase at_octopus (set_oracle true (lastTrialPassed s) (meows s) (panel s) s))
  | earned_meows => Some (startWalkToCrab s)
  | walking_to_crab => Some (set_phase ready_to_buy s)
  | _ => None
  end.

(** (src/frontend/src/features/kiki-burger-quest/components/kiki-burger-quest.tsx:157-167 useEffect) *)
Definition confetti_timer (s : Quest) : option Quest :=
  if showConfetti s then
    Some {| phase := phase s; position := position s; direction := direction s;
            meows := meows s; oracleOpen := oracleOpen s; lastTrialPassed := lastTrialPassed s;
            showConfetti := false; panel := panel s |}
  else None.

(** (src/frontend/src/features/kiki-burger-quest/components/kiki-burger-quest.tsx:169-180 handleOracleClose) *)
Definition handleOracleClose (s : Quest) : Quest :=
  let s' := set_oracle false (lastTrialPassed s) (meows s) (panel s) s in
  match lastTrialPassed s with
  | Some true => set_phase earned_meows s'
  | Some false => set_phase failed_task s'
  | None => s'
  end.

(** (src/frontend/src/features/kiki-burger-quest/components/kiki-burger-quest.tsx:182-187 handleTrialResult) *)
Definition handleTrialResult (passed : bool) (s : Quest) : Quest :=
  set_oracle (oracleOpen s) (Some passed)
    (if passed then meows s + rewardForOracleResult true else meows s)%Z (panel s) s.

Definition handle_callback (s : Quest) (c : Callback) : Quest :=
  match c with
  | OnTrialResult p => handleTrialResult p s
  | OnClose => handleOracleClose s
  end.

(** The retry button.
    (src/frontend/src/features/kiki-burger-quest/components/kiki-burger-quest.tsx:222-235 onClick) *)
Definition tryTaskAgain (s : Quest) : Quest :=
  set_phase at_octopus (set_oracle true None (meows s) (panel s) s).

(** What can happen: a timer fires, a button is clicked, or the panel, which
    is on the screen only while it is open. *)
Inductive QuestEvent : Type :=
  | PhaseTimer | ConfettiTimer | RequestBurger | TryTaskAgain | PayMeows | OracleClick (c : Click).

(** (src/frontend/src/features/kiki-burger-quest/components/kiki-burger-quest.tsx:189-253 render) *)
Definition quest_step (e : QuestEvent) (s : Quest) : option Quest :=
  match e with
  | PhaseTimer => phase_timer s
  | ConfettiTimer => confetti_timer s
  | RequestBurger => if canRequestBurger s then Some (requestBurger s) else None
  | TryTaskAgain => if canRetryTask s then Some (tryTaskAgain s) else None
  | PayMeows => if canPayForBurger s then Some (buyBurger s) else None
  | OracleClick c =>
      if oracleOpen s && bool_decide (shown (panel s) c) then
        let '(p, callbacks) := click c (panel s) in
        Some (foldl handle_callback
          (set_oracle (oracleOpen s) (lastTrialPassed s) (meows s) p s) callbacks)
      else None
  end.

Fixpoint quest_run (s : Quest) (es : list QuestEvent) : option Quest :=
  match es with
  | [] => Some s
  | e :: es => s' ← quest_step e s; quest_run s' es
  end.

Inductive quest_steps : Quest → Quest → Prop :=
  | quest_event e s s' : quest_step e s = Some s' → quest_steps s s'.

(** ** The quest keeps its books *)

Record quest_inv (s : Quest) : Prop := {
  qi_hundreds : ∃ k, (0 ≤ k ∧ meows s = 100 * k)%Z;
  qi_open : oracleOpen s = true → phase s = at_octopus;
  qi_passed : phase s = at_octopus → lastTrialPassed s = Some true → (100 ≤ meows s)%Z;
  qi_paid : phase s ∈ [earned_meows; walking_to_crab; ready_to_buy] → (100 ≤ meows s)%Z;
  qi_start : phase s ∈ [idle_at_crab; needs_meows; walking_to_octopus] →
    lastTrialPassed s = None ∧ meows s = 0%Z;
  qi_stuck : phase s = at_octopus → oracleOpen s = false → lastTrialPassed s = None;
  qi_closed : oracleOpen s = false → panel s = initial_panel;
  qi_panel : panel_inv (panel s);
}.

Ltac not_in_phase :=
  repeat match goal with
  | H : _ ∈ [] |- _ => by inversion H
  | H : _ ∈ _ :: _ |- _ => apply elem_of_cons in H as [H|H]
  end; try congruence.

Lemma initial_quest_inv : quest_inv initial_quest.
Proof.
  constructor; try done; [by exists 0%Z|..]; simpl; intros; first [by split | not_in_phase].
Qed.

(** The callbacks of one click: none, one result, or one close that leaves the
    panel as it was at first. *)
Lemma click_callbacks c s :
  (click c s).2 = [] ∨ (∃ p, (click c s).2 = [OnTrialResult p]) ∨
  ((click c s).2 = [OnClose] ∧ (click c s).1 = initial_panel).
Proof.
  destruct c as [| |q i| |k| | | |]; cbn [click fst snd]; eauto.
  destruct (chooseColor_cases k s) as [[-> _]|(r & -> & _)]; eauto.
Qed.

Lemma oracle_click_inv c s s' :
  quest_inv s → quest_step (OracleClick c) s = Some s' → quest_inv s'.
Proof.
  intros Hi Hs. cbn [quest_step] in Hs. destruct (oracleOpen s) eqn:Hopen; [|done].
  case_bool_decide as Hshown; [|done]. cbn [andb] in Hs.
  pose proof (qi_open s Hi Hopen) as Hph.
  pose proof (click_inv c (panel s) (qi_panel s Hi) Hshown) as Hpanel.
  destruct (qi_hundreds s Hi) as (k & Hk & Hm).
  destruct (click_callbacks c (panel s)) as [Hc|[[p Hc]|[Hc Hp]]];
    destruct (click c (panel s)) as [pan cbs]; cbn [fst snd] in *; subst cbs;
    injection Hs as <-.
  - constructor; simpl; try done; try apply Hi; congruence.
  - constructor; simpl; try done; try (intros; not_in_phase); destruct p; unfold rewardForOracleResult, ORACLE_REWARD_MEOWS; try lia;
      try done.
    + exists (k + 1)%Z. lia.
    + exists k. lia.
  - cbn [foldl handle_callback]. unfold handleOracleClose. cbn [lastTrialPassed set_oracle].
    destruct (lastTrialPassed s) as [[]|] eqn:Hl; constructor; simpl; try done;
      try (intros; not_in_phase); try (by exists k); try by apply (qi_passed s Hi).
Qed.

Lemma quest_step_inv e s s' : quest_inv s → quest_step e s = Some s' → quest_inv s'.
Proof.
  intros Hi. destruct e as [| | | | |c]; [..|by apply oracle_click_inv]; cbn [quest_step].
  - unfold phase_timer. pose proof (qi_open s Hi) as Ho.
    destruct (phase s) eqn:Hph; intros [= <-]; constructor; simpl; try done; try apply Hi;
      try (intros; not_in_phase);
      first [apply (qi_start s Hi); rewrite Hph; set_solver
        | apply (qi_paid s Hi); rewrite Hph; set_solver
        | destruct (qi_start s Hi) as [? _]; [rewrite Hph; set_solver|congruence]
        | destruct (oracleOpen s); [by specialize (Ho eq_refl)|done]].
  - unfold confetti_timer. destruct (showConfetti s); intros [= <-].
    constructor; simpl; apply Hi.
  - unfold canRequestBurger. destruct (_ || _) eqn:E; intros [= <-].
    apply orb_true_iff in E as [E|E]; apply bool_decide_eq_true in E; pose proof (qi_open s Hi).
    all: constructor; simpl; try done; try apply Hi; try (by exists 0%Z);
      intros; not_in_phase; naive_solver congruence.
  - unfold canRetryTask. case_bool_decide as E; intros [= <-].
    constructor; simpl; try done; try apply Hi; intros; not_in_phase.
  - unfold canPayForBurger, canBuyBurger. destruct (_ && _) eqn:E; intros [= <-].
    apply andb_true_iff in E as [E Hm]. apply bool_decide_eq_true in E.
    pose proof (qi_open s Hi). destruct (qi_hundreds s Hi) as (k & Hk & Hmeows).
    constructor; simpl; try done; try apply Hi; intros; not_in_phase; try naive_solver congruence.
    unfold spendBurgerMeows, canBuyBurger. rewrite Hm. exists (k - 1)%Z.
    unfold BURGER_PRICE_MEOWS in *. lia.
Qed.

Lemma quest_reachable_inv s : reachable (eq initial_quest) quest_steps s → quest_inv s.
Proof.
  apply invariant_reachable; [intros ? <-; apply initial_quest_inv|].
  intros s1 s2 Hi Hs. destruct Hs as [e t t' Hs].
  by apply (quest_step_inv e t).
Qed.

(** At the crab's counter with a paid trial, the purse covers the burger. *)
Lemma ready_can_pay s : quest_inv s → phase s = ready_to_buy → canPayForBurger s = true.
Proof.
  intros Hi Hph. unfold canPayForBurger, canBuyBurger, BURGER_PRICE_MEOWS. rewrite Hph.
  pose proof (qi_paid s Hi). rewrite Hph in *. apply andb_true_iff. split; [done|].
  apply Z.leb_le. set_solver.
Qed.

(** The quest goes on, except where the oracle was closed without a result. *)
Lemma quest_progress s :
  quest_inv s →
  (∃ e s', e ≠ ConfettiTimer ∧ quest_step e s = Some s') ∨
  (phase s = at_octopus ∧ oracleOpen s = false ∧ lastTrialPassed s = None).
Proof.
  intros Hi. destruct (phase s) eqn:Hph.
  - left. exists RequestBurger. cbn [quest_step]. unfold canRequestBurger. rewrite Hph. eauto.
  - left. exists PhaseTimer. cbn [quest_step]. unfold phase_timer. rewrite Hph. eauto.
  - left. exists PhaseTimer. cbn [quest_step]. unfold phase_timer. rewrite Hph. eauto.
  - destruct (oracleOpen s) eqn:Ho; [|right; split_and!; try done; by apply (qi_stuck s Hi)].
    left. exists (OracleClick Close). cbn [quest_step]. rewrite Ho.
    rewrite bool_decide_true by done. cbn [andb click closePanel]. eauto.
  - left. exists TryTaskAgain. cbn [quest_step]. unfold canRetryTask. rewrite Hph. eauto.
  - left. exists PhaseTimer. cbn [quest_step]. unfold phase_timer. rewrite Hph. eauto.
  - left. exists PhaseTimer. cbn [quest_step]. unfold phase_timer. rewrite Hph. eauto.
  - left. exists PayMeows. cbn [quest_step]. rewrite (ready_can_pay s) by done. eauto.
  - left. exists RequestBurger. cbn [quest_step]. unfold canRequestBurger. rewrite Hph. eauto.
Qed.

(** ** Runs *)

Definition quest_after (es : list QuestEvent) : Quest :=
  default initial_quest (quest_run initial_quest es).

(** Three right answers, in the order of the questions. *)
Definition answer_right : list QuestEvent :=
  ((λ q, OracleClick (Answer q (correctIndex q))) <$> BLUE_TRIAL_QUESTIONS)
  ++ [OracleClick AskTheOracle].

Definition to_the_oracle : list QuestEvent := [RequestBurger; PhaseTimer; PhaseTimer].

(** From the request to the burger, with one trial passed. *)
Definition burger_run : list QuestEvent :=
  to_the_oracle ++ [OracleClick BluePill] ++ answer_right
  ++ [OracleClick Close; PhaseTimer; PhaseTimer; PayMeows].

Lemma burger_run_ends :
  ∃ s, quest_run initial_quest burger_run = Some s ∧
    phase s = burger_received ∧ meows s = 0%Z ∧ panel s = initial_panel.
Proof. eexists. split; [vm_compute; reflexivity|]. done. Qed.

(** The trial can be passed again before the panel is closed, and pays again. *)
Definition double_run : list QuestEvent :=
  to_the_oracle ++ [OracleClick BluePill] ++ answer_right
  ++ [OracleClick TryAnotherPill; OracleClick RedPill]
  ++ (OracleClick ∘ Pearl <$> RED_TRIAL_SEQUENCE)
  ++ [OracleClick Close; PhaseTimer; PhaseTimer].

Lemma double_run_ends :
  ∃ s, quest_run initial_quest double_run = Some s ∧ phase s = ready_to_buy ∧ meows s = 200%Z ∧
    phaseMessage (phase s) (meows s) = "Kiki has 100 meows and can buy the burger.".
Proof. eexists. split; [vm_compute; reflexivity|]. done. Qed.

(** Closing the panel before a trial ends leaves no step to take. *)
Definition abandon_run : list QuestEvent := to_the_oracle ++ [OracleClick Close].

Lemma abandon_run_sticks :
  ∃ s, quest_run initial_quest abandon_run = Some s ∧ ∀ e, quest_step e s = None.
Proof. eexists. split; [vm_compute; reflexivity|]. by intros []. Qed.
