(* ===== verification/ParrotChat.v ===== *)
(** * The parrot's chat

    [features/parrot]: the hook [hooks/use-parrot-chat.ts] as a machine over
    the cached histories, the pending turn, the failed turn and the request in
    flight; the composer and the panel that drive it; and the thread it shows. *)

From S2P Require Import Prelude JsString.

(** ** Data *)

(** (src/frontend/src/features/parrot/types.ts:3-4 ParrotMessageRole) *)
Inductive Role : Type := User | Assistant.

#[global] Instance Role_eq_dec : EqDecision Role.
Proof. solve_decision. Defined.

(** (src/frontend/src/features/parrot/types.ts:6-10 ChatHistoryMessage) *)
Record ChatMessage : Type := { content : option string; role : Role }.

(** (src/frontend/src/features/parrot/types.ts:12-15 ChatHistoryResponse) *)
Record ChatHistory : Type := { history_guest : string; messages : list ChatMessage }.

(** (src/frontend/src/features/parrot/hooks/use-parrot-chat.ts:12-16 PendingTurn) *)
Record PendingTurn : Type := { turn_guest : string; turn_message : string; localId : string }.

#[global] Instance PendingTurn_eq_dec : EqDecision PendingTurn.
Proof. solve_decision. Defined.

(** (src/frontend/src/features/parrot/hooks/use-parrot-chat.ts:18-20 FailedTurn) *)
Record FailedTurn : Type := { failed_turn : PendingTurn; turn_error : string }.

(** (src/frontend/src/features/parrot/hooks/use-parrot-chat.ts:22-37 ParrotThreadItem) *)
Inductive ThreadItem : Type :=
  | MessageItem (key : string) (message : ChatMessage)
  | ThinkingItem (key : string)
  | ErrorItem (key : string) (prompt message : string).

Definition item_key (i : ThreadItem) : string :=
  match i with MessageItem k _ | ThinkingItem k | ErrorItem k _ _ => k end.

(** [participantId], the query cache by guest, the hook's state, the variables
    of the mutation while it is pending, and every request posted so far.
    (src/frontend/src/features/parrot/hooks/use-parrot-chat.ts:64-73 useParrotChat) *)
Record Chat : Type := {
  participantId : option string;
  histories : gmap string ChatHistory;
  pendingTurn : option PendingTurn;
  failedTurn : option FailedTurn;
  in_flight : option PendingTurn;
  posted : list PendingTurn;
}.

(** (src/frontend/src/features/parrot/hooks/use-parrot-chat.ts:67-71 useState) *)
Definition initial_chat : Chat :=
  {| participantId := None; histories := ∅; pendingTurn := None; failedTurn := None;
     in_flight := None; posted := [] |}.

(** ** The hook *)

(** (src/frontend/src/features/parrot/hooks/use-parrot-chat.ts:39-58 appendMessagesToHistory) *)
Definition appendMessagesToHistory (previous : option ChatHistory) (pendingTurn : PendingTurn)
    (reply : string) : ChatHistory :=
  {| history_guest := match previous with
       | Some h => history_guest h | None => turn_guest pendingTurn end;
     messages := match previous with Some h => messages h | None => [] end
       ++ [{| content := Some (turn_message pendingTurn); role := User |};
           {| content := Some reply; role := Assistant |}] |}.

Definition role_name (r : Role) : string :=
  match r with User => "user" | Assistant => "assistant" end.

(** A [null] content prints as [null] in a template.
    (src/frontend/src/features/parrot/hooks/use-parrot-chat.ts:60-62 getMessageKey) *)
Definition getMessageKey (m : ChatMessage) (index : nat) : string :=
  role_name (role m) +:+ ":" +:+ default "null" (content m) +:+ ":" +:+ show_int (Z.of_nat index).

(** [history.messages] of the guest.
    (src/frontend/src/features/parrot/hooks/use-parrot-history.ts:5-20 useParrotHistory) *)
Definition history_messages (s : Chat) : list ChatMessage :=
  match participantId s ≫= λ g, histories s !! g with Some h => messages h | None => [] end.

Definition isHistoryReady (s : Chat) : bool :=
  bool_decide (is_Some (participantId s ≫= λ g, histories s !! g)).

Definition isSending (s : Chat) : bool := bool_decide (is_Some (in_flight s)).

Definition set_turns (p : option PendingTurn) (f : option FailedTurn) (s : Chat) : Chat :=
  {| participantId := participantId s; histories := histories s; pendingTurn := p;
     failedTurn := f; in_flight := in_flight s; posted := posted s |}.

(** [mutation.mutate(turn)]: the request is posted.
    (src/frontend/src/features/parrot/hooks/use-parrot-chat.ts:73-81 mutationFn) *)
Definition mutate (t : PendingTurn) (s : Chat) : Chat :=
  {| participantId := participantId s; histories := histories s; pendingTurn := pendingTurn s;
     failedTurn := failedTurn s; in_flight := Some t; posted := posted s ++ [t] |}.

(** The mutation's [onSuccess].
    (src/frontend/src/features/parrot/hooks/use-parrot-chat.ts:73-96 onSuccess) *)
Definition onSuccess (reply : string) (variables : PendingTurn) (s : Chat) : Chat :=
  {| participantId := participantId s;
     histories := <[turn_guest variables :=
       appendMessagesToHistory (histories s !! turn_guest variables) variables reply]> (histories s);
     pendingTurn := None; failedTurn := None; in_flight := None; posted := posted s |}.

(** (src/frontend/src/features/parrot/hooks/use-parrot-chat.ts:97-106 onError) *)
Definition onError (error : string) (variables : PendingTurn) (s : Chat) : Chat :=
  {| participantId := participantId s; histories := histories s; pendingTurn := None;
     failedTurn := Some {| failed_turn := variables; turn_error := error |};
     in_flight := None; posted := posted s |}.

(** (src/frontend/src/features/parrot/hooks/use-parrot-chat.ts:108-150 threadItems) *)
Definition threadItems (s : Chat) : list ThreadItem :=
  imap (λ index m, MessageItem (getMessageKey m index) m) (history_messages s)
  ++ match pendingTurn s with
     | Some t =>
         if decide (Some (turn_guest t) = participantId s) then
           [MessageItem ("pending:" +:+ localId t)
              {| content := Some (turn_message t); role := User |};
            ThinkingItem ("thinking:" +:+ localId t)]
         else []
     | None => []
     end
  ++ match failedTurn s with
     | Some f =>
         let t := failed_turn f in
         if decide (Some (turn_guest t) = participantId s) then
           [MessageItem ("failed:" +:+ localId t)
              {| content := Some (turn_message t); role := User |};
            ErrorItem ("error:" +:+ localId t) (turn_message t) (turn_error f)]
         else []
     | None => []
     end.

(** [!participantId] of a session: no guest, or an empty id. *)
Definition signed_in (s : Chat) : option string :=
  match participantId s with Some g => if truthy g then Some g else None | None => None end.

(** (src/frontend/src/features/parrot/hooks/use-parrot-chat.ts:152-166 sendMessage) *)
Definition sendMessage (message localId : string) (s : Chat) : Chat :=
  let trimmed := trim message in
  match signed_in s with
  | Some guestId =>
      if negb (truthy trimmed) || isSending s then s
      else
        let turn := {| turn_guest := guestId; turn_message := trimmed; localId := localId |} in
        mutate turn (set_turns (Some turn) None s)
  | None => s
  end.

(** (src/frontend/src/features/parrot/hooks/use-parrot-chat.ts:168-182 retryFailedMessage) *)
Definition retryFailedMessage (s : Chat) : Chat :=
  match signed_in s, failedTurn s with
  | Some guestId, Some f =>
      if isSending s then s
      else
        let turn := {| turn_guest := guestId; turn_message := turn_message (failed_turn f);
                       localId := localId (failed_turn f) |} in
        mutate turn (set_turns (Some turn) None s)
  | _, _ => s
  end.

(** ** The composer and the panel *)

(** [composerDisabled]; [isLoading] is the history's first load.
    (src/frontend/src/features/parrot/components/parrot-panel.tsx:38-38 composerDisabled) *)
Definition composerDisabled (isLoadingHistory : bool) (s : Chat) : bool :=
  isLoadingHistory || negb (isHistoryReady s) || isSending s.

(** What [submit] hands to [onSend], if anything.
    (src/frontend/src/features/parrot/components/chat-composer.tsx:15-21 submit) *)
Definition submit (disabled : bool) (value : string) : option string :=
  let trimmed := trim value in
  if negb (truthy trimmed) || disabled then None else Some trimmed.

(** The pressed key submits, or is left to the text area.
    (src/frontend/src/features/parrot/components/chat-composer.tsx:23-28 handleKeyDown) *)
Definition handleKeyDown (key : string) (shiftKey : bool) : bool :=
  bool_decide (key = "Enter") && negb shiftKey.

(** What the panel shows. *)
Inductive PanelView : Type :=
  | AdminView | NotLandedView
  | ChatView (body : ChatBody) (composer_disabled : bool)
with ChatBody : Type :=
  | Loading | LoadError (message : string) (retry_disabled : bool) | Thread (items : list ThreadItem).

(** (src/frontend/src/features/parrot/components/parrot-panel.tsx:12-71 ParrotPanel) *)
Definition ParrotPanel (isAdmin landed isLoadingHistory : bool) (errorMessage : option string)
    (s : Chat) : PanelView :=
  if isAdmin then AdminView
  else if bool_decide (is_Some (participantId s)) && negb landed then NotLandedView
  else
    ChatView
      (if isLoadingHistory then Loading
       else match errorMessage with
            | Some m => if truthy m then LoadError m (isSending s) else Thread (threadItems s)
            | None => Thread (threadItems s)
            end)
      (composerDisabled isLoadingHistory s).

(** ** Steps *)

Inductive ChatEvent : Type :=
  | SignIn (guest : option string)
  | HistoryLoaded (guest : string) (history : ChatHistory)
  | Submit (value localId : string)
  | Retry
  | Replied (reply : string)
  | Failed (error : string).

(** The retry button is on the error item, which only its guest sees. *)
Definition retry_shown (s : Chat) : bool :=
  existsb (λ i, match i with ErrorItem _ _ _ => true | _ => false end) (threadItems s)
  && negb (isSending s).

Definition chat_step (e : ChatEvent) (s : Chat) : Chat :=
  match e with
  | SignIn g =>
      {| participantId := g; histories := histories s; pendingTurn := pendingTurn s;
         failedTurn := failedTurn s; in_flight := in_flight s; posted := posted s |}
  | HistoryLoaded g h =>
      {| participantId := participantId s; histories := <[g := h]> (histories s);
         pendingTurn := pendingTurn s; failedTurn := failedTurn s; in_flight := in_flight s;
         posted := posted s |}
  | Submit value id =>
      match submit (composerDisabled false s) value with
      | Some m => sendMessage m id s
      | None => s
      end
  | Retry => if retry_shown s then retryFailedMessage s else s
  | Replied reply => match in_flight s with Some t => onSuccess reply t s | None => s end
  | Failed error => match in_flight s with Some t => onError error t s | None => s end
  end.

Definition chat_run (s : Chat) (es : list ChatEvent) : Chat := foldl (flip chat_step) s es.

(** ** The turns of a chat *)

(** What is sent has text and a guest. *)
Definition sound_turn (t : PendingTurn) : Prop :=
  turn_guest t ≠ "" ∧ turn_message t ≠ "" ∧ trim (turn_message t) = turn_message t.

Record chat_inv (s : Chat) : Prop := {
  ci_pending : pendingTurn s = in_flight s;
  ci_one : pendingTurn s = None ∨ failedTurn s = None;
  ci_flight : ∀ t, in_flight s = Some t → sound_turn t;
  ci_failed : ∀ f, failedTurn s = Some f → sound_turn (failed_turn f);
  ci_posted : ∀ t, t ∈ posted s → sound_turn t;
}.

Lemma initial_chat_inv : chat_inv initial_chat.
Proof. constructor; simpl; [done|by left|done|done|]. intros t Ht. by inversion Ht. Qed.

Lemma signed_in_Some s g : signed_in s = Some g → participantId s = Some g ∧ g ≠ "".
Proof.
  unfold signed_in, truthy. destruct (participantId s) as [g'|]; [|done].
  case_bool_decide; [|done]. by intros [= ->].
Qed.

Lemma isSending_false s : isSending s = false ↔ in_flight s = None.
Proof.
  unfold isSending. rewrite bool_decide_eq_false. destruct (in_flight s); split; try done.
  intros H. exfalso. apply H. by eexists.
Qed.

(** The two ways a turn is posted: nothing happens, or an idle chat posts one
    turn of the guest signed in. *)
Definition posts (t : PendingTurn) (s s' : Chat) : Prop :=
  in_flight s = None ∧ participantId s = Some (turn_guest t) ∧ turn_guest t ≠ "" ∧
  s' = mutate t (set_turns (Some t) None s).

Lemma sendMessage_cases m id s :
  sendMessage m id s = s ∨
  ∃ t, posts t s (sendMessage m id s) ∧ turn_message t = trim m ∧ trim m ≠ "" ∧ localId t = id.
Proof.
  unfold sendMessage. destruct (signed_in s) as [g|] eqn:Hg; [|by left].
  apply signed_in_Some in Hg as [Hp Hne].
  destruct (truthy (trim m)) eqn:Ht; cbn [negb orb]; [|by left].
  destruct (isSending s) eqn:Hs; [by left|right].
  apply isSending_false in Hs. apply bool_decide_eq_true in Ht.
  by exists {| turn_guest := g; turn_message := trim m; localId := id |}.
Qed.

Lemma retry_cases s :
  retryFailedMessage s = s ∨
  ∃ t f, posts t s (retryFailedMessage s) ∧ failedTurn s = Some f ∧
    turn_message t = turn_message (failed_turn f) ∧ localId t = localId (failed_turn f).
Proof.
  unfold retryFailedMessage. destruct (signed_in s) as [g|] eqn:Hg; [|by left].
  apply signed_in_Some in Hg as [Hp Hne].
  destruct (failedTurn s) as [f|] eqn:Hf; [|by left].
  destruct (isSending s) eqn:Hs; [by left|right]. apply isSending_false in Hs.
  by exists {| turn_guest := g; turn_message := turn_message (failed_turn f);
    localId := localId (failed_turn f) |}, f.
Qed.

Lemma posts_inv t s s' :
  chat_inv s → sound_turn t → posts t s s' → chat_inv s'.
Proof.
  intros Hi Ht (Hf & Hp & Hne & ->). constructor; simpl; [done|by right|..].
  - by intros ? [= <-].
  - done.
  - intros t'. rewrite elem_of_app, list_elem_of_singleton. intros [?| ->]; [by apply (ci_posted s Hi)|done].
Qed.

Lemma chat_step_inv e s : chat_inv s → chat_inv (chat_step e s).
Proof.
  intros Hi. destruct e as [g|g h|value id| |reply|error]; cbn [chat_step].
  - by destruct Hi; constructor.
  - by destruct Hi; constructor.
  - destruct (submit _ _) as [m|] eqn:Hm; [|done].
    destruct (sendMessage_cases m id s) as [-> |(t & Ht & Hmsg & Hne & _)]; [done|].
    apply (posts_inv t s); [done| |done]. destruct Ht as (_ & _ & ? & _).
    split_and!; [done|by rewrite Hmsg|]. by rewrite Hmsg, trim_idempotent.
  - destruct (retry_shown s); [|done].
    destruct (retry_cases s) as [-> |(t & f & Ht & Hf & Hmsg & _)]; [done|].
    apply (posts_inv t s); [done| |done]. destruct Ht as (_ & _ & ? & _).
    destruct (ci_failed s Hi f Hf) as (_ & ? & ?). by split_and!; rewrite ?Hmsg.
  - destruct (in_flight s) as [t|] eqn:Ht; [|done].
    constructor; simpl; [done|by left|done|done|apply Hi].
  - destruct (in_flight s) as [t|] eqn:Ht; [|done].
    constructor; simpl; [done|by left|done| |apply Hi].
    intros f [= <-]. by apply (ci_flight s Hi).
Qed.

Lemma chat_run_inv es s : chat_inv s → chat_inv (chat_run s es).
Proof.
  revert s. induction es as [|e es IH]; intros s Hi; [done|].
  apply IH. by apply chat_step_inv.
Qed.

(** A request is posted only by an idle chat, for the guest signed in; there is
    never a second one in flight. *)
Lemma posted_once e s :
  posted (chat_step e s) = posted s ∨
  ∃ t, posted (chat_step e s) = posted s ++ [t] ∧ in_flight s = None ∧
    in_flight (chat_step e s) = Some t ∧ participantId s = Some (turn_guest t).
Proof.
  destruct e as [g|g h|value id| |reply|error]; cbn [chat_step]; try by left.
  - destruct (submit _ _) as [m|]; [|by left].
    destruct (sendMessage_cases m id s) as [-> |(t & (? & ? & ? & ->) & _)]; [by left|].
    right. by exists t.
  - destruct (retry_shown s); [|by left].
    destruct (retry_cases s) as [-> |(t & f & (? & ? & ? & ->) & _)]; [by left|].
    right. by exists t.
  - left. by destruct (in_flight s).
  - left. by destruct (in_flight s).
Qed.

(** ** Histories *)

Definition messages_of (s : Chat) (g : string) : list ChatMessage :=
  match histories s !! g with Some h => messages h | None => [] end.

(** What an event adds to a guest's history. *)
Definition exchange (e : ChatEvent) (s : Chat) (g : string) : list ChatMessage :=
  match e, in_flight s with
  | Replied reply, Some t =>
      if decide (turn_guest t = g) then
        [{| content := Some (turn_message t); role := User |};
         {| content := Some reply; role := Assistant |}]
      else []
  | _, _ => []
  end.

Definition is_load (e : ChatEvent) : bool := match e with HistoryLoaded _ _ => true | _ => false end.

Lemma posts_histories t s s' : posts t s s' → histories s' = histories s.
Proof. by intros (_ & _ & _ & ->). Qed.

Lemma chat_step_messages e s g :
  is_load e = false → messages_of (chat_step e s) g = messages_of s g ++ exchange e s g.
Proof.
  intros He. unfold messages_of.
  destruct e as [g'|g' h|value id| |reply|error]; try done; cbn [chat_step exchange];
    rewrite ?app_nil_r; try done.
  - destruct (submit _ _) as [m|]; [|done].
    by destruct (sendMessage_cases m id s) as [-> |(t & ->%posts_histories & _)].
  - destruct (retry_shown s); [|done].
    by destruct (retry_cases s) as [-> |(t & f & ->%posts_histories & _)].
  - destruct (in_flight s) as [t|] eqn:Ht; [|by rewrite app_nil_r]. cbn [onSuccess histories].
    case_decide as Hg; [subst g|].
    + rewrite lookup_insert_eq. cbn. by destruct (histories s !! turn_guest t).
    + by rewrite lookup_insert_ne, app_nil_r.
  - by destruct (in_flight s).
Qed.

(** The exchanges of a run, in order. *)
Fixpoint exchanges (es : list ChatEvent) (s : Chat) (g : string) : list ChatMessage :=
  match es with
  | [] => []
  | e :: es => exchange e s g ++ exchanges es (chat_step e s) g
  end.

Lemma chat_run_messages es s g :
  Forall (λ e, is_load e = false) es →
  messages_of (chat_run s es) g = messages_of s g ++ exchanges es s g.
Proof.
  revert s. induction es as [|e es IH]; intros s Hes; [by rewrite app_nil_r|].
  apply Forall_cons_1 in Hes as [He Hes]. cbn [exchanges].
  rewrite app_assoc, <-chat_step_messages by done. by apply IH.
Qed.

(** ** Keys of the thread *)

(** The text of an integer has no colon. *)
Lemma pretty_N_char_no_colon x : pretty_N_char x ≠ ":"%char.
Proof. unfold pretty_N_char. repeat case_match; done. Qed.

Lemma pretty_N_go_no_colon x s :
  ":"%char ∉ chars s → ":"%char ∉ chars (pretty_N_go x s).
Proof.
  revert s. induction (N.lt_wf_0 x) as [x _ IH]; intros s Hs.
  destruct (decide (0 < x)%N) as [Hx|Hx].
  - rewrite pretty_N_go_step by done. apply IH; [by apply N.div_lt|].
    cbn. intros [Heq|Hin]%elem_of_cons; [|done]. by apply (pretty_N_char_no_colon (x `mod` 10)%N).
  - assert (x = 0%N) as -> by lia. by rewrite pretty_N_go_0.
Qed.

Lemma show_index_no_colon (n : nat) : ":"%char ∉ chars (show_int (Z.of_nat n)).
Proof.
  unfold show_int, pretty, pretty_Z. destruct (Z.of_nat n) as [|p|p] eqn:E; [..|lia].
  - cbn. set_solver.
  - change (":"%char ∉ chars (pretty (Npos p))). unfold pretty, pretty_N.
    rewrite decide_False by done. apply pretty_N_go_no_colon. cbn. set_solver.
Qed.

(** What follows the last separator is determined. *)
Lemma after_last_sep {A} (c : A) l1 l2 x y :
  c ∉ x → c ∉ y → l1 ++ c :: x = l2 ++ c :: y → l1 = l2 ∧ x = y.
Proof.
  intros Hx Hy. revert l2. induction l1 as [|a l1 IH]; intros [|b l2] H; cbn in H.
  - by injection H.
  - injection H as -> ->. set_solver.
  - injection H as -> <-. set_solver.
  - injection H as -> H. by destruct (IH l2 H) as [-> ->].
Qed.

Lemma getMessageKey_index m1 i1 m2 i2 :
  getMessageKey m1 i1 = getMessageKey m2 i2 → i1 = i2.
Proof.
  unfold getMessageKey. intros H. apply (f_equal chars) in H.
  rewrite !chars_app in H.
  assert (∀ (a b d : list ascii), a ++ chars ":" ++ b ++ chars ":" ++ d =
    (a ++ chars ":" ++ b) ++ ":"%char :: d) as Hsep.
  { intros. change (chars ":") with [":"%char]. by rewrite <-!app_assoc. }
  rewrite !Hsep in H.
  apply after_last_sep in H as [_ H]; [|apply show_index_no_colon..].
  apply (inj chars) in H. apply (inj pretty) in H. lia.
Qed.

(** The first letter tells the groups of the thread apart. *)
Definition initial_of (k : string) : option ascii := head (chars k).

Lemma initial_app c s t : initial_of (String c s +:+ t) = Some c.
Proof. done. Qed.

Lemma message_keys_NoDup (ms : list ChatMessage) :
  NoDup (item_key <$> imap (λ i m, MessageItem (getMessageKey m i) m) ms).
Proof.
  apply NoDup_alt. intros i j k Hi Hj.
  rewrite list_lookup_fmap, list_lookup_imap in Hi, Hj.
  destruct (ms !! i) as [mi|]; [|done]. destruct (ms !! j) as [mj|]; [|done].
  simplify_eq/=. by eapply getMessageKey_index.
Qed.

Lemma message_key_initial (ms : list ChatMessage) k :
  k ∈ (item_key <$> imap (λ i m, MessageItem (getMessageKey m i) m) ms) →
  initial_of k = Some "u"%char ∨ initial_of k = Some "a"%char.
Proof.
  intros (i & -> & Hi)%list_elem_of_fmap. apply list_elem_of_lookup in Hi as [j Hj].
  rewrite list_lookup_imap in Hj. destruct (ms !! j) as [[c []]|]; simplify_eq/=; auto.
Qed.

(** Keys never repeat: a pending and a failed turn are not shown together. *)
Lemma thread_keys_NoDup s : chat_inv s → NoDup (item_key <$> threadItems s).
Proof.
  intros Hi. unfold threadItems. rewrite !fmap_app.
  apply NoDup_app. split; [apply message_keys_NoDup|]. split.
  - intros k [Hk|Hk]%message_key_initial; rewrite elem_of_app;
      destruct (pendingTurn s), (failedTurn s); repeat case_decide; cbn;
      rewrite ?elem_of_cons, ?elem_of_nil; intros Hin; destruct_or?; subst; by inversion Hk.
  - destruct (ci_one s Hi) as [-> | ->]; [|rewrite app_nil_r].
    + destruct (failedTurn s); [|constructor]. case_decide; [|constructor]. cbn.
      apply NoDup_cons. split; [|apply NoDup_singleton].
      rewrite list_elem_of_singleton. by intros Hkey%(f_equal initial_of).
    + destruct (pendingTurn s); [|constructor]. case_decide; [|constructor]. cbn.
      apply NoDup_cons. split; [|apply NoDup_singleton].
      rewrite list_elem_of_singleton. by intros Hkey%(f_equal initial_of).
Qed.

(** ** The composer *)

(** A disabled composer sends nothing: no second message while one is on its
    way, and none before the history is known. *)
Lemma submit_sends value s m :
  submit (composerDisabled false s) value = Some m ↔
  m = trim value ∧ m ≠ "" ∧ isHistoryReady s = true ∧ in_flight s = None.
Proof.
  unfold submit, composerDisabled, truthy. rewrite <-isSending_false.
  destruct (isHistoryReady s), (isSending s); case_bool_decide; cbn; naive_solver.
Qed.

(** A turn that was enabled by the composer reaches the thread at once. *)
Lemma submitted_shown value id g s :
  participantId s = Some g → g ≠ "" → isHistoryReady s = true → in_flight s = None →
  trim value ≠ "" →
  let s' := chat_step (Submit value id) s in
  threadItems s' = imap (λ i m, MessageItem (getMessageKey m i) m) (history_messages s) ++
    [MessageItem ("pending:" +:+ id) {| content := Some (trim value); role := User |};
     ThinkingItem ("thinking:" +:+ id)] ∧
  posted s' = posted s ++ [{| turn_guest := g; turn_message := trim value; localId := id |}].
Proof.
  intros Hp Hg Hr Hf Ht. cbn [chat_step].
  assert (submit (composerDisabled false s) value = Some (trim value)) as -> by by apply submit_sends.
  destruct (sendMessage_cases (trim value) id s) as [Hs|(t & (_ & Hpt & _ & Heq) & Hm & _ & Hid)].
  - exfalso. unfold sendMessage, signed_in, truthy in Hs. rewrite Hp in Hs.
    rewrite bool_decide_true in Hs by done. rewrite trim_idempotent in Hs.
    rewrite bool_decide_true in Hs by done. apply isSending_false in Hf. rewrite Hf in Hs.
    cbn in Hs. apply isSending_false in Hf. rewrite <-Hs in Hf. done.
  - rewrite Heq. destruct t as [tg tm tid]. cbn in *. rewrite trim_idempotent in Hm. simplify_eq.
    unfold threadItems. cbn. rewrite decide_True by done. done.
Qed.

(** ** Retrying *)

Lemma error_item_shown s :
  retry_shown s = true →
  in_flight s = None ∧
  ∃ f, failedTurn s = Some f ∧ participantId s = Some (turn_guest (failed_turn f)).
Proof.
  unfold retry_shown. rewrite andb_true_iff, negb_true_iff, isSending_false.
  intros [Hex Hf]. split; [done|]. apply existsb_exists in Hex as (i & Hin & Hi).
  apply list_elem_of_In in Hin. unfold threadItems in Hin.
  rewrite !elem_of_app in Hin. destruct Hin as [Hin|[Hin|Hin]].
  - exfalso. apply list_elem_of_lookup in Hin as [j Hj]. rewrite list_lookup_imap in Hj.
    destruct (history_messages s !! j); by simplify_eq/=.
  - exfalso. destruct (pendingTurn s); [|set_solver]. case_decide; [|set_solver].
    apply elem_of_cons in Hin as [-> |Hin]; [done|].
    by apply list_elem_of_singleton in Hin as ->.
  - destruct (failedTurn s) as [f|]; [|set_solver]. case_decide; [|set_solver]. by exists f.
Qed.

(** Retry posts the very turn that failed. *)
Lemma retry_resends s f :
  chat_inv s → retry_shown s = true → failedTurn s = Some f →
  posted (chat_step Retry s) = posted s ++ [failed_turn f] ∧
  pendingTurn (chat_step Retry s) = Some (failed_turn f) ∧
  failedTurn (chat_step Retry s) = None.
Proof.
  intros Hi Hr Hf. destruct (error_item_shown s Hr) as (Hidle & f' & Hf' & Hp). simplify_eq.
  destruct (ci_failed s Hi f Hf) as (Hg & _). cbn [chat_step]. rewrite Hr.
  unfold retryFailedMessage, signed_in, truthy. rewrite Hp, bool_decide_true, Hf by done.
  apply isSending_false in Hidle. rewrite Hidle. by destruct f as [[] ?].
Qed.
