(* ===== verification/ParrotAdmin.v ===== *)
(** * The parrot's admin panel

    [features/parrot/components]: the conversation row's flags, the entries of
    a transcript, the tool breakdown and its bars, a tool's row with its payload,
    and the selection of a conversation. *)

From Stdlib Require Import QArith.
From stdpp Require Import sorting.
From S2P Require Import Prelude Json JsString JsonText JsonPretty.

(** ** Tool breakdown *)

(** [Object.entries] of the counts. *)
Abbreviation Entry := (string * Z)%type.

(** One insertion of a stable sort by [b[1] - a[1]]: after every entry that is
    not smaller. *)
Fixpoint insert_desc (e : Entry) (l : list Entry) : list Entry :=
  match l with
  | [] => [e]
  | x :: l' => if (x.2 <? e.2)%Z then e :: l else x :: insert_desc e l'
  end.

(** [entries.sort((a, b) => b[1] - a[1])].
    (src/frontend/src/features/parrot/components/parrot-tool-breakdown.tsx:6-6 entries) *)
Definition sort_desc (l : list Entry) : list Entry := foldl (flip insert_desc) [] l.

(** [Math.max(...counts)] of a list that is not empty.
    (src/frontend/src/features/parrot/components/parrot-tool-breakdown.tsx:14-14 max) *)
Definition max_count (l : list Entry) : Z :=
  match l with [] => 0 | e :: l => foldl (λ m x, Z.max m x.2) e.2 l end.

(** (src/frontend/src/features/parrot/components/parrot-tool-breakdown.tsx:19-33 entries) *)
Record Bar : Type := { bar_name : string; bar_width : option Q; bar_count : Z }.

(** [(count / max) * 100]. [None] stands for no finite number, which a division by
    a zero [max] gives: [NaN] for a zero count, an infinity for a negative one.
    (src/frontend/src/features/parrot/components/parrot-tool-breakdown.tsx:27-27 width) *)
Definition percent_of (count max : Z) : option Q :=
  if (max =? 0)%Z then None else Some ((inject_Z count / inject_Z max) * inject_Z 100)%Q.

(** [None] stands for the text shown when there is nothing to draw.
    (src/frontend/src/features/parrot/components/parrot-tool-breakdown.tsx:1-36 ParrotToolBreakdown) *)
Definition ParrotToolBreakdown (byName : list Entry) : option (list Bar) :=
  let entries := sort_desc byName in
  if decide (length entries = 0) then None
  else
    let max := max_count entries in
    Some ((λ e, {| bar_name := e.1; bar_width := percent_of e.2 max; bar_count := e.2 |}) <$> entries).

(** ** Quality *)

(** (src/frontend/src/features/parrot/components/parrot-quality-row.tsx:4-8 QualityItem) *)
Record QualityItem : Type := { label : string; total : Z; conversations : Z; flagged : bool }.

(** The counters of the metrics the row reads, as pairs of total and
    conversations.
    (src/frontend/src/features/parrot/components/parrot-quality-row.tsx:15-36 items) *)
Definition ParrotQualityRow (errors fallbacks censored : Z * Z) : list QualityItem :=
  (λ '(l, (t, c)), {| label := l; total := t; conversations := c; flagged := (0 <? t)%Z |}) <$>
  [("Tool errors", errors); ("Fallbacks", fallbacks); ("Censored", censored)].

(** The badges of a conversation's row.
    (src/frontend/src/features/parrot/components/parrot-conversation-row.tsx:18-60 flagged) *)
Definition badges (has_tool_error has_fallback has_censored : bool) : list string :=
  if has_tool_error || has_fallback || has_censored then
    (if has_tool_error then ["tool error"] else [])
    ++ (if has_fallback then ["fallback"] else [])
    ++ (if has_censored then ["censored"] else [])
  else [].

(** ** Tool rows *)

(** Text that is no JSON is shown as it is.
    (src/frontend/src/features/parrot/components/parrot-tool-row.tsx:15-21 prettyJson) *)
Definition prettyJson (raw : string) : string :=
  match JSON_parse raw with Some v => JSON_stringify_indented (own_order v) | None => raw end.

(** (src/frontend/src/features/parrot/components/parrot-tool-row.tsx:23-42 ParrotToolRow) *)
Record ToolRowView : Type := MkToolRow { row_name : string; row_verb : string; row_payload : string }.
(** (src/frontend/src/features/parrot/components/parrot-tool-row.tsx:23-42 ParrotToolRow) *)
Definition ParrotToolRow (variant_call : bool) (name payload : string) : ToolRowView :=
  MkToolRow name (if variant_call then "called" else "returned") (prettyJson payload).

(** ** Transcripts *)

Inductive EntryRole : Type := UserEntry | AssistantEntry | ToolEntry.

(** (src/frontend/src/features/parrot/types.ts:78-83 TranscriptToolCall) *)
Record ToolCall : Type := {
  call_id : option string; call_name : option string; call_arguments : option string }.

(** (src/frontend/src/features/parrot/types.ts:85-92 TranscriptEntry) *)
Record TranscriptEntry : Type := {
  entry_role : EntryRole;
  entry_content : option string;
  tool_calls : option (list ToolCall);
  entry_name : option string;
  tool_call_id : option string;
}.

(** (src/frontend/src/features/parrot/components/parrot-conversation-transcript.tsx:16-58 TranscriptItem) *)
Inductive Node : Type :=
  | ToolRow (variant_call : bool) (name payload : string)
  | Bubble (role : EntryRole) (content : string).

(** (src/frontend/src/features/parrot/components/parrot-conversation-transcript.tsx:16-58 TranscriptItem) *)
Definition TranscriptItem (e : TranscriptEntry) : list Node :=
  match entry_role e with
  | ToolEntry => [ToolRow false (default "tool" (entry_name e)) (default "" (entry_content e))]
  | _ =>
      match tool_calls e with
      | Some (c :: cs) =>
          ((λ c, ToolRow true (default "unknown" (call_name c)) (default "" (call_arguments c)))
             <$> c :: cs)
          ++ match entry_content e with
             | Some t => if truthy t then [Bubble AssistantEntry t] else []
             | None => []
             end
      | _ =>
          match entry_content e with
          | Some t => [Bubble (entry_role e) t]
          | None => []
          end
      end
  end.

(** The transcript's body: its nodes, or the message of a failed load.
    (src/frontend/src/features/parrot/components/parrot-conversation-transcript.tsx:90-110 body) *)
Definition transcript_view (isLoading : bool) (transcript : option (list TranscriptEntry))
    (errorMessage : option string) : option (string + list (list Node)) :=
  if isLoading then None
  else Some (match transcript with
             | None => inl (default "Transcript could not be loaded." errorMessage)
             | Some t => inr (TranscriptItem <$> t)
             end).

(** (src/frontend/src/features/parrot/hooks/use-parrot-admin.ts:38-50 useParrotConversationTranscript) *)
Definition transcript_enabled (guestId : option string) : bool := bool_decide (is_Some guestId).

(** The panel shows the selected transcript, or the metrics and the list.
    (src/frontend/src/features/parrot/components/parrot-admin-panel.tsx:7-28 ParrotAdminPanel) *)
Definition ParrotAdminPanel (selectedGuestId : option string) : option string :=
  match selectedGuestId with
  | Some g => if truthy g then Some g else None
  | None => None
  end.

(** ** Facts *)

Lemma insert_desc_perm e l : insert_desc e l ≡ₚ e :: l.
Proof.
  induction l as [|x l IH]; simpl; [done|]. case_match; [done|].
  rewrite IH. by rewrite Permutation_swap.
Qed.

Lemma sort_desc_perm l : sort_desc l ≡ₚ l.
Proof.
  unfold sort_desc. assert (∀ acc, foldl (flip insert_desc) acc l ≡ₚ acc ++ l) as H; [|apply H].
  induction l as [|e l IH]; intros acc; simpl; [by rewrite app_nil_r|].
  rewrite IH, insert_desc_perm. by rewrite <-Permutation_middle.
Qed.

Definition desc (a b : Entry) : Prop := (b.2 ≤ a.2)%Z.

Lemma insert_desc_sorted e l : StronglySorted desc l → StronglySorted desc (insert_desc e l).
Proof.
  unfold desc. induction 1 as [|x l Hl IH Hx]; simpl; [by repeat constructor|].
  destruct (Z.ltb_spec (x.2) (e.2)).
  - constructor; [by constructor|]. constructor; [lia|].
    eapply Forall_impl; [done|]. cbn. lia.
  - constructor; [done|]. rewrite insert_desc_perm. by constructor.
Qed.

Lemma sort_desc_sorted l : StronglySorted desc (sort_desc l).
Proof.
  unfold sort_desc. assert (∀ acc, StronglySorted desc acc →
    StronglySorted desc (foldl (flip insert_desc) acc l)) as H; [|apply H; constructor].
  induction l as [|e l IH]; intros acc Hacc; simpl; [done|].
  apply IH. by apply insert_desc_sorted.
Qed.

(** Entries with the same count keep their order. *)
Lemma insert_desc_stable n e l :
  StronglySorted desc l →
  filter (λ x, x.2 = n) (insert_desc e l) = filter (λ x, x.2 = n) (l ++ [e]).
Proof.
  unfold desc. induction 1 as [|x l Hl IH Hx]; [done|]. cbn [insert_desc].
  destruct (Z.ltb_spec (x.2) (e.2)) as [Hlt|Hge].
  - rewrite filter_app. destruct (decide (e.2 = n)) as [He|He].
    + rewrite (filter_cons_True _ e) by done.
      rewrite (filter_cons_True _ e []) by done. rewrite filter_nil.
      assert (filter (λ y : Entry, y.2 = n) (x :: l) = []) as ->; [|done].
      apply filter_none. constructor; [lia|].
      eapply Forall_impl; [done|]. cbn. lia.
    + rewrite (filter_cons_False _ e) by done. rewrite (filter_cons_False _ e []) by done.
      by rewrite filter_nil, app_nil_r.
  - change ((x :: l) ++ [e]) with (x :: (l ++ [e])).
    rewrite !filter_cons. by rewrite IH.
Qed.

Lemma sort_desc_stable n l : filter (λ x, x.2 = n) (sort_desc l) = filter (λ x, x.2 = n) l.
Proof.
  unfold sort_desc. assert (∀ acc, StronglySorted desc acc →
    filter (λ x, x.2 = n) (foldl (flip insert_desc) acc l) =
    filter (λ x, x.2 = n) (acc ++ l)) as H; [|apply H; constructor].
  induction l as [|e l IH]; intros acc Hacc; simpl; [by rewrite app_nil_r|].
  rewrite IH by by apply insert_desc_sorted.
  rewrite filter_app, insert_desc_stable by done.
  by rewrite <-filter_app, <-app_assoc.
Qed.

Lemma max_count_head e l : Forall (desc e) l → max_count (e :: l) = e.2.
Proof.
  unfold max_count, desc. generalize (e.2) as m. intros m.
  induction 1 as [|x l Hx Hl IH]; simpl; [done|]. by rewrite Z.max_l by lia.
Qed.

Lemma percent_of_range c m :
  (0 ≤ c ≤ m)%Z → (0 < m)%Z →
  ∃ w, percent_of c m = Some w ∧ (0 <= w)%Q ∧ (w <= inject_Z 100)%Q.
Proof.
  intros Hc Hm. unfold percent_of. destruct (Z.eqb_spec m 0); [lia|].
  eexists. split; [done|].
  assert (0 < inject_Z m)%Q as HmQ by (unfold Qlt, inject_Z; simpl; lia).
  assert (0 <= inject_Z c)%Q as HcQ by (unfold Qle, inject_Z; simpl; lia).
  assert (inject_Z c <= inject_Z m)%Q as Hcm by (unfold Qle, inject_Z; simpl; lia).
  split.
  - apply Qmult_le_0_compat; [|done]. apply Qle_shift_div_l; [done|]. by rewrite Qmult_0_l.
  - rewrite <-(Qmult_1_l (inject_Z 100)) at 2. apply Qmult_le_compat_r; [|done].
    apply Qle_shift_div_r; [done|]. by rewrite Qmult_1_l.
Qed.

(** The bars of counters, one of them positive: the counts are the tools', from
    the largest down, and every width is between 0 and 100. *)
Lemma breakdown_bars l bars :
  Forall (λ e, 0 ≤ e.2)%Z l → Exists (λ e, 0 < e.2)%Z l → ParrotToolBreakdown l = Some bars →
  (λ b, (bar_name b, bar_count b)) <$> bars = sort_desc l ∧
  Forall (λ b, ∃ w, bar_width b = Some w ∧ (0 <= w)%Q ∧ (w <= inject_Z 100)%Q) bars.
Proof.
  intros Hpos Hex. unfold ParrotToolBreakdown. case_decide as Hlen; [done|]. intros [= <-].
  split.
  { rewrite <-list_fmap_compose. rewrite <-(list_fmap_id (sort_desc l)) at 2.
    apply list_fmap_ext. by intros i [name c]. }
  pose proof (sort_desc_sorted l) as Hs. pose proof (sort_desc_perm l) as Hp.
  destruct (sort_desc l) as [|e es] eqn:He; [done|].
  apply StronglySorted_inv in Hs as [_ Hes].
  rewrite (max_count_head e es Hes).
  assert (Forall (λ x : Entry, 0 ≤ x.2 ≤ e.2)%Z (e :: es)) as Hall.
  { apply Forall_forall. intros x Hx. rewrite <-Hp in Hpos.
    rewrite Forall_forall in Hpos. split; [by apply Hpos|].
    apply elem_of_cons in Hx as [-> |Hx]; [done|].
    rewrite Forall_forall in Hes. by apply Hes. }
  assert (0 < e.2)%Z as Hmax.
  { apply Exists_exists in Hex as (x & Hx & Hx0). rewrite <-Hp in Hx.
    rewrite Forall_forall in Hall. specialize (Hall x Hx). lia. }
  apply Forall_fmap. eapply Forall_impl; [exact Hall|]. intros x Hx. cbn.
  by apply percent_of_range.
Qed.

(** A single counter of zero has no finite width: [0 / 0] is [NaN]. *)
Example breakdown_zero :
  ParrotToolBreakdown [("search", 0%Z)] =
  Some [{| bar_name := "search"; bar_width := None; bar_count := 0 |}].
Proof. reflexivity. Qed.

(** Text that is no JSON is kept; other text is shown as text of the same value
    with its keys in their order, on which another round changes nothing. *)
Lemma prettyJson_spec raw :
  match JSON_parse raw with
  | None => prettyJson raw = raw
  | Some v => plain_numbers v →
      JSON_parse (prettyJson raw) = Some (own_order v) ∧ prettyJson (prettyJson raw) = prettyJson raw
  end.
Proof.
  unfold prettyJson. destruct (JSON_parse raw) as [v|] eqn:Hv; [|done].
  intros Hp%(JSON_parse_printable raw v Hv)%printable_own_order.
  by rewrite JSON_parse_indented, own_order_idem.
Qed.

(** A row is marked exactly when it has a badge. *)
Lemma badges_flagged a b c : badges a b c = [] ↔ a || b || c = false.
Proof. by destruct a, b, c. Qed.

(** Nothing with text is left out of a transcript, and a tool call's row comes
    before the words that came with it. *)
Lemma transcript_item_content e t :
  entry_content e = Some t → t ≠ "" →
  last (TranscriptItem e) = Some match entry_role e, tool_calls e with
    | ToolEntry, _ => ToolRow false (default "tool" (entry_name e)) t
    | _, Some (_ :: _) => Bubble AssistantEntry t
    | r, _ => Bubble r t
    end.
Proof.
  intros Hc Ht. unfold TranscriptItem, truthy. rewrite Hc, bool_decide_true by done.
  destruct (entry_role e), (tool_calls e) as [[|c cs]|]; cbn [default from_option];
    by rewrite ?last_snoc.
Qed.

Lemma transcript_item_calls e c cs :
  entry_role e ≠ ToolEntry → tool_calls e = Some (c :: cs) →
  (length (TranscriptItem e) = length (c :: cs) ∨ length (TranscriptItem e) = S (length (c :: cs)))
  ∧ ∀ i k, (c :: cs) !! i = Some k →
    TranscriptItem e !! i = Some (ToolRow true (default "unknown" (call_name k))
      (default "" (call_arguments k))).
Proof.
  intros Hr Hc. unfold TranscriptItem. destruct (entry_role e); [..|done]; rewrite Hc.
  all: split; [rewrite length_app, length_fmap; repeat case_match; simpl; lia|].
  all: intros i k Hk; rewrite lookup_app_l by (rewrite length_fmap; by eapply lookup_lt_Some);
    by rewrite list_lookup_fmap, Hk.
Qed.
