(* ===== verification/QueryObserver.v ===== *)
(** * What a component sees of a query

    The result of TanStack Query's [useQuery], as a class with the library's
    documented behaviour: the data of the last success, the error of the last
    fetch that failed, and [isLoading], which is true while the first fetch is
    on its way.  A failed fetch keeps the data; a fetch that starts without
    data forgets the error.  [MemQuery] behaves so. *)

From S2P Require Import Prelude.

Class UseQuery (Query : Type → Type) : Type := {
  mount {A} : Query A;
  refetch {A} : Query A → Query A;
  succeed {A} : A → Query A → Query A;
  fail {A} : string → Query A → Query A;
  query_data {A} : Query A → option A;
  query_error {A} : Query A → option string;
  query_isLoading {A} : Query A → bool;
  data_mount A : query_data (mount (A := A)) = None;
  data_refetch A (q : Query A) : query_data (refetch q) = query_data q;
  data_succeed A (v : A) q : query_data (succeed v q) = Some v;
  data_fail A e (q : Query A) : query_data (fail e q) = query_data q;
  error_mount A : query_error (mount (A := A)) = None;
  error_refetch A (q : Query A) :
    query_error (refetch q) = match query_data q with Some _ => query_error q | None => None end;
  error_succeed A (v : A) q : query_error (succeed v q) = None;
  error_fail A e (q : Query A) : query_error (fail e q) = Some e;
  loading_mount A : query_isLoading (mount (A := A)) = true;
  loading_refetch A (q : Query A) :
    query_isLoading (refetch q) = bool_decide (query_data q = None);
  loading_succeed A (v : A) q : query_isLoading (succeed v q) = false;
  loading_fail A e (q : Query A) : query_isLoading (fail e q) = false;
}.

#[export] Hint Rewrite @data_mount @data_refetch @data_succeed @data_fail @error_mount
  @error_refetch @error_succeed @error_fail @loading_mount @loading_refetch @loading_succeed
  @loading_fail : island_simpl.

(** A component that appears: the query is cached and fetched again, or new. *)
Definition observe `{UseQuery Query} {A} (cached : option (Query A)) : Query A :=
  match cached with Some q => refetch q | None => mount end.

(** ** A query's life *)

Inductive QueryEvent (A : Type) : Type :=
  | Refetch
  | Answered (v : A)
  | FetchFailed (message : string).
Arguments Refetch {A}.
Arguments Answered {A} v.
Arguments FetchFailed {A} message.

Section life.
Context `{UseQuery Query} {A : Type}.
Implicit Types (q : Query A) (e : QueryEvent A) (es : list (QueryEvent A)).

Definition query_event e q : Query A :=
  match e with
  | Refetch => refetch q
  | Answered v => succeed v q
  | FetchFailed m => fail m q
  end.
Definition query_run es q : Query A := foldl (flip query_event) q es.

(** The last answer, whatever failed after it. *)
Definition last_answer es : option A :=
  foldl (λ d e, match e with Answered v => Some v | _ => d end) None es.

(** The message of the last fetch that ended, if it failed. *)
Definition last_failure es : option string :=
  foldl (λ d e, match e with FetchFailed m => Some m | Answered _ => None | Refetch => d end) None es.

Lemma query_run_snoc es e q : query_run (es ++ [e]) q = query_event e (query_run es q).
Proof. unfold query_run. by rewrite foldl_app. Qed.
Lemma last_answer_snoc es e :
  last_answer (es ++ [e]) = match e with Answered v => Some v | _ => last_answer es end.
Proof. unfold last_answer. by rewrite foldl_app. Qed.
Lemma last_failure_snoc es e :
  last_failure (es ++ [e]) =
    match e with FetchFailed m => Some m | Answered _ => None | Refetch => last_failure es end.
Proof. unfold last_failure. by rewrite foldl_app. Qed.

(** The three fields of a query after any life. *)
Lemma query_run_fields es :
  let q := query_run es mount in
  query_data q = last_answer es ∧
  query_error q =
    (if query_isLoading q then None else last_failure es) ∧
  (query_isLoading q = true → last_answer es = None) ∧
  (last_answer es = None → query_isLoading q = false → is_Some (last_failure es)).
Proof.
  induction es as [|e es (IHd & IHe & IHl & IHn)] using rev_ind; cbn.
  { autorewrite with island_simpl. by repeat split. }
  rewrite query_run_snoc, last_answer_snoc, last_failure_snoc.
  destruct e as [|v|m]; cbn [query_event]; autorewrite with island_simpl.
  - rewrite IHd, IHe. destruct (last_answer es) as [a|] eqn:Ha.
    + rewrite bool_decide_false by done. split_and!; try done.
      destruct (query_isLoading _) eqn:Hl; [|done]. by specialize (IHl eq_refl).
    + by rewrite bool_decide_true.
  - by split_and!.
  - by split_and!; eauto.
Qed.
End life.

(** ** A query *)

Record MemQuery (A : Type) : Type := MkQuery {
  mq_data : option A;
  mq_error : option string;
  mq_fetching : bool;
}.
Arguments MkQuery {A} _ _ _.
Arguments mq_data {A} _.
Arguments mq_error {A} _.
Arguments mq_fetching {A} _.

#[global, refine] Instance mem_query : UseQuery MemQuery := {|
  mount A := MkQuery None None true;
  refetch A q := MkQuery (mq_data q)
    (match mq_data q with Some _ => mq_error q | None => None end) true;
  succeed A v q := MkQuery (Some v) None false;
  fail A e q := MkQuery (mq_data q) (Some e) false;
  query_data A := mq_data;
  query_error A := mq_error;
  query_isLoading A q := mq_fetching q && bool_decide (mq_data q = None);
|}.
Proof. all: done. Defined.
