(* ===== verification/ChatView.v ===== *)
(** * The parrot's chat as it is shown

    The thread's bubbles, the composer with its draft, and the panel of a guest
    as a machine over the chat of [ParrotChat] and the draft. *)

From S2P Require Import Prelude JsString Session WebLib ParrotChat.

(** ** Bubbles *)

(** A bubble: whose side it is on, its text and the line below it.
    (src/frontend/src/features/parrot/components/chat-message.tsx:8-54 ChatMessage) *)
Record Bubble : Type := MkBubble {
  bubble_assistant : bool;
  bubble_content : option string;
  bubble_footer : option string;
}.

(** (src/frontend/src/features/parrot/components/chat-message.tsx:13-54 ChatMessage) *)
Definition ChatMessage (message : ParrotChat.ChatMessage) (guest : option GuestProfile) : Bubble :=
  let isAssistant := bool_decide (role message = Assistant) in
  MkBubble isAssistant (content message)
    (if isAssistant then Some "Island Parrot"
     else match guest with Some g => Some (getInitials (Some g)) | None => None end).

(** (src/frontend/src/features/parrot/components/chat-message.tsx:60-75 ChatThinkingMessage) *)
Definition ChatThinkingMessage (guest : option GuestProfile) : Bubble :=
  MkBubble true (Some "The parrot is thinking")
    (Some (if bool_decide (is_Some guest) then "Island Parrot" else "Assistant")).

(** A message with a button to try again.
    (src/frontend/src/features/parrot/components/chat-message.tsx:83-109 ChatErrorMessage)
    (src/frontend/src/features/parrot/components/chat-load-error-state.tsx:10-36 ChatLoadErrorState) *)
Record Retryable : Type := MkRetryable { retry_message : string; retry_disabled : bool }.

Inductive ThreadNode : Type :=
  | BubbleNode (key : string) (b : Bubble)
  | ErrorNode (key : string) (e : Retryable).

Definition node_key (n : ThreadNode) : string := match n with BubbleNode k _ | ErrorNode k _ => k end.

(** (src/frontend/src/features/parrot/components/chat-thread.tsx:19-58 ChatThread) *)
Definition ChatThread (guest : option GuestProfile) (items : list ThreadItem) (isSending : bool) :
    list ThreadNode :=
  (λ item, match item with
           | MessageItem key m => BubbleNode key (ChatMessage m guest)
           | ThinkingItem key => BubbleNode key (ChatThinkingMessage guest)
           | ErrorItem key _ m => ErrorNode key (MkRetryable m isSending)
           end) <$> items.

(** What an administrator does not see of the panel's body.
    (src/frontend/src/features/parrot/components/parrot-panel.tsx:42-62 body) *)
Inductive BodyView : Type :=
  | SpinnerBody
  | LoadErrorBody (e : Retryable)
  | ThreadBody (nodes : list ThreadNode).

Definition body_view (guest : option GuestProfile) (s : Chat) (b : ChatBody) : BodyView :=
  match b with
  | Loading => SpinnerBody
  | LoadError m disabled => LoadErrorBody (MkRetryable m disabled)
  | Thread items => ThreadBody (ChatThread guest items (isSending s))
  end.

(** ** The composer *)

(** The chat and the composer's [value].
    (src/frontend/src/features/parrot/components/chat-composer.tsx:11-13 ChatComposer) *)
Record ChatPanel : Type := MkPanel { panel_chat : Chat; draft : string }.

(** (src/frontend/src/features/parrot/components/chat-composer.tsx:13-13 isEmpty) *)
Definition isEmpty (value : string) : bool := negb (truthy (trim value)).

(** (src/frontend/src/features/parrot/components/chat-composer.tsx:45-52 disabled) *)
Definition send_disabled (disabled : bool) (value : string) : bool := disabled || isEmpty value.

(** The composer of the panel, disabled as the panel says.
    (src/frontend/src/features/parrot/components/chat-composer.tsx:15-21 submit)
    (src/frontend/src/features/parrot/components/parrot-panel.tsx:64-68 onSend) *)
Definition composer_submit (id : string) (p : ChatPanel) : ChatPanel :=
  let s := panel_chat p in
  match submit (composerDisabled false s) (draft p) with
  | Some m => MkPanel (sendMessage m id s) ""
  | None => p
  end.

(** What happens to the panel.  A disabled text area gets neither text nor keys,
    and a disabled button no clicks; [id] is the identifier drawn for a turn. *)
Inductive PanelEvent : Type :=
  | Typed (text : string)
  | KeyDown (key : string) (shiftKey : bool) (id : string)
  | ClickSend (id : string)
  | GuestChanges (guest : option string)
  | HistoryArrives (guest : string) (h : ChatHistory)
  | ClickRetry
  | ReplyArrives (reply : string)
  | ReplyFails (error : string).

(** The composer's key is the guest: another guest gets a new one.
    (src/frontend/src/features/parrot/components/parrot-panel.tsx:64-68 key)
    (src/frontend/src/features/parrot/components/chat-composer.tsx:30-60 ChatComposer) *)
Definition panel_event (e : PanelEvent) (p : ChatPanel) : ChatPanel :=
  let s := panel_chat p in
  let disabled := composerDisabled false s in
  let chat e := MkPanel (chat_step e s) (draft p) in
  match e with
  | Typed text => if disabled then p else MkPanel s text
  | KeyDown key shiftKey id =>
      if negb disabled && handleKeyDown key shiftKey then composer_submit id p else p
  | ClickSend id => if send_disabled disabled (draft p) then p else composer_submit id p
  | GuestChanges guest =>
      MkPanel (chat_step (SignIn guest) s)
        (if decide (guest = participantId s) then draft p else "")
  | HistoryArrives g h => chat (HistoryLoaded g h)
  | ClickRetry => chat Retry
  | ReplyArrives reply => chat (Replied reply)
  | ReplyFails error => chat (Failed error)
  end.
Definition panel_run (p : ChatPanel) (es : list PanelEvent) : ChatPanel := foldl (flip panel_event) p es.

Definition empty_panel : ChatPanel := MkPanel initial_chat "".

(** ** Facts *)

Lemma node_keys guest items sending :
  node_key <$> ChatThread guest items sending = item_key <$> items.
Proof. unfold ChatThread. rewrite <-list_fmap_compose. by apply list_fmap_ext; intros ? []. Qed.

(** An error in the thread can be tried again exactly while nothing is sent. *)
Lemma thread_errors guest s k e :
  ErrorNode k e ∈ ChatThread guest (threadItems s) (isSending s) →
  retry_disabled e = isSending s ∧ ∃ f, failedTurn s = Some f ∧ retry_message e = turn_error f ∧
    participantId s = Some (turn_guest (failed_turn f)).
Proof.
  unfold ChatThread. intros (i & Hi & Hin)%list_elem_of_fmap.
  destruct i as [| |k' prompt m]; try done. injection Hi as _ ->. split; [done|].
  unfold threadItems in Hin. rewrite !elem_of_app in Hin. destruct Hin as [Hin|[Hin|Hin]].
  - apply list_elem_of_lookup in Hin as [j Hj]. rewrite list_lookup_imap in Hj.
    by destruct (history_messages s !! j).
  - destruct (pendingTurn s); [case_decide|]; set_solver.
  - destruct (failedTurn s) as [f|]; [|set_solver]. case_decide; [|set_solver].
    exists f. set_solver.
Qed.

(** Every step of the panel is a step of its chat, or leaves the chat alone. *)
Lemma panel_chat_step e p :
  panel_chat (panel_event e p) = panel_chat p ∨
  ∃ e', panel_chat (panel_event e p) = chat_step e' (panel_chat p).
Proof.
  assert (∀ id, panel_chat (composer_submit id p) = panel_chat p ∨
    ∃ e', panel_chat (composer_submit id p) = chat_step e' (panel_chat p)) as Hsubmit.
  { intros id. unfold composer_submit.
    destruct (submit _ (draft p)) as [m|] eqn:Hm; [right|by left].
    exists (Submit (draft p) id). cbn [chat_step]. by rewrite Hm. }
  destruct e; cbn [panel_event]; repeat case_match;
    first [by left | apply Hsubmit | right; by eexists].
Qed.

Lemma panel_run_inv es : chat_inv (panel_chat (panel_run empty_panel es)).
Proof.
  unfold panel_run. induction es as [|e es IH] using rev_ind; [apply initial_chat_inv|].
  rewrite foldl_app. cbn.
  destruct (panel_chat_step e (foldl (flip panel_event) empty_panel es)) as [->|[e' ->]]; [done|].
  by apply chat_step_inv.
Qed.

(** Text handed over by the composer of a guest with a name is posted. *)
Lemma composer_submit_cases id p :
  participantId (panel_chat p) ≠ Some "" →
  composer_submit id p = p ∨
  ∃ t, posts t (panel_chat p) (panel_chat (composer_submit id p)) ∧
    turn_message t = trim (draft p) ∧ localId t = id ∧ draft (composer_submit id p) = "".
Proof.
  intros Hg. unfold composer_submit.
  destruct (submit _ (draft p)) as [m|] eqn:Hm; [|by left].
  apply submit_sends in Hm as (-> & Hne & Hr & Hf). right.
  destruct (sendMessage_cases (trim (draft p)) id (panel_chat p)) as [Hs|(t & Ht & Hm & _ & Hid)].
  - exfalso. unfold isHistoryReady in Hr. apply bool_decide_eq_true in Hr as [h Hr].
    destruct (participantId (panel_chat p)) as [g|] eqn:Hp; [|done].
    revert Hs. unfold sendMessage, signed_in, truthy. rewrite Hp, trim_idempotent.
    rewrite !bool_decide_true by (done || congruence).
    apply isSending_false in Hf as Hf'. rewrite Hf'. cbn. intros Hs.
    apply (f_equal in_flight) in Hs. cbn in Hs. congruence.
  - exists t. rewrite trim_idempotent in Hm. done.
Qed.

(** What becomes of a draft: it stays, it is typed over, it goes with its guest,
    or it is posted and the composer is empty. *)
Lemma draft_cases e p :
  participantId (panel_chat p) ≠ Some "" →
  draft (panel_event e p) = draft p ∨
  (∃ text, e = Typed text ∧ draft (panel_event e p) = text) ∨
  (∃ g, e = GuestChanges g ∧ g ≠ participantId (panel_chat p) ∧ draft (panel_event e p) = "") ∨
  ∃ t, posts t (panel_chat p) (panel_chat (panel_event e p)) ∧
    turn_message t = trim (draft p) ∧ draft (panel_event e p) = "".
Proof.
  intros Hg.
  assert (∀ id, draft (composer_submit id p) = draft p ∨
    ∃ t, posts t (panel_chat p) (panel_chat (composer_submit id p)) ∧
      turn_message t = trim (draft p) ∧ draft (composer_submit id p) = "") as Hsubmit.
  { intros id. destruct (composer_submit_cases id p Hg) as [-> |(t & Ht & Hm & _ & Hd)]; [by left|].
    right. by exists t. }
  destruct e as [text|key shift id|id|g| | | |]; cbn [panel_event]; try by left.
  - case_match; [by left|]. right. left. by exists text.
  - case_match; [|by left]. destruct (Hsubmit id) as [|]; [by left|by right; right; right].
  - case_match; [by left|]. destruct (Hsubmit id) as [|]; [by left|by right; right; right].
  - cbn. case_decide; [by left|]. right; right; left. by exists g.
Qed.
