(* ===== verification/ChatVisits.v ===== *)
(** * A chat from one visit to the next

    The parrot's panel is unmounted when its zone is closed and mounted anew when
    it is opened again: the composer's draft and the hook's pending and failed
    turns go with it, while the query cache stays for as long as the library keeps
    what nobody observes, and a mutation that is in flight goes on and still writes
    its answer there.  [Visits] is the chat over any number of visits, with the
    turns left in flight by those that ended. *)

From S2P Require Import Prelude JsString Session ParrotChat ChatView.

Record Visits : Type := MkVisits {
  panel_open : bool;
  live : ChatPanel;
  orphans : list PendingTurn;
}.

(** The panel before the first visit: nothing cached, nobody signed in. *)
Definition no_visits : Visits := MkVisits false empty_panel [].

(** What stays of the hook when its component is unmounted: the session and the
    query cache. *)
Definition leave (s : Chat) : Chat :=
  {| participantId := participantId s; histories := histories s; pendingTurn := None;
     failedTurn := None; in_flight := None; posted := posted s |}.

(** The panel's content is there while its zone is.
    (src/frontend/src/features/map/components/zone-panel.tsx:33-39 ZonePanel) *)
Definition close_panel (v : Visits) : Visits :=
  if panel_open v then
    MkVisits false (MkPanel (leave (panel_chat (live v))) "")
      (option_list (in_flight (panel_chat (live v))) ++ orphans v)
  else v.

(** [onSuccess] of a mutation whose component is gone: the cache is written and
    the setters do nothing.
    (src/frontend/src/features/parrot/hooks/use-parrot-chat.ts:82-92 onSuccess) *)
Definition cache_reply (reply : string) (t : PendingTurn) (s : Chat) : Chat :=
  {| participantId := participantId s;
     histories := <[turn_guest t :=
       appendMessagesToHistory (histories s !! turn_guest t) t reply]> (histories s);
     pendingTurn := pendingTurn s; failedTurn := failedTurn s; in_flight := in_flight s;
     posted := posted s |}.

(** The history of a guest is observed by the open panel of that guest.
    (src/frontend/src/features/parrot/hooks/use-parrot-history.ts:5-10 useParrotHistory) *)
Definition observed (g : string) (v : Visits) : bool :=
  panel_open v && bool_decide (participantId (panel_chat (live v)) = Some g).

(** The library drops a history that was not observed for a while. *)
Definition drop_history (g : string) (s : Chat) : Chat :=
  {| participantId := participantId s; histories := delete g (histories s);
     pendingTurn := pendingTurn s; failedTurn := failedTurn s; in_flight := in_flight s;
     posted := posted s |}.

Inductive VisitEvent : Type :=
  | OpenPanel
  | ClosePanel
  | InPanel (e : PanelEvent)
  | HistoryDropped (guest : string)
  | OrphanReplies (i : nat) (reply : string)
  | OrphanFails (i : nat) (error : string).

(** The session and the cache change whether or not the panel is open. *)
Definition from_outside (e : PanelEvent) : bool :=
  match e with GuestChanges _ | HistoryArrives _ _ => true | _ => false end.

Definition visit_event (e : VisitEvent) (v : Visits) : Visits :=
  match e with
  | OpenPanel => MkVisits true (live v) (orphans v)
  | ClosePanel => close_panel v
  | InPanel e =>
      if panel_open v || from_outside e then MkVisits (panel_open v) (panel_event e (live v)) (orphans v)
      else v
  | HistoryDropped g =>
      if observed g v then v
      else MkVisits (panel_open v) (MkPanel (drop_history g (panel_chat (live v))) (draft (live v))) (orphans v)
  | OrphanReplies i reply =>
      match orphans v !! i with
      | Some t => MkVisits (panel_open v)
          (MkPanel (cache_reply reply t (panel_chat (live v))) (draft (live v)))
          (delete i (orphans v))
      | None => v
      end
  | OrphanFails i _ =>
      match orphans v !! i with
      | Some _ => MkVisits (panel_open v) (live v) (delete i (orphans v))
      | None => v
      end
  end.
Definition visit_run (es : list VisitEvent) (v : Visits) : Visits :=
  foldl (λ v e, visit_event e v) v es.

(** ** Turns *)

(** Every turn that is in flight, of the open panel or of one before it. *)
Definition flights (v : Visits) : list PendingTurn :=
  option_list (in_flight (panel_chat (live v))) ++ orphans v.

(** The turn an event answers or fails. *)
Definition settles (e : VisitEvent) (v : Visits) : list PendingTurn :=
  match e with
  | InPanel (ReplyArrives _ | ReplyFails _) =>
      if panel_open v then option_list (in_flight (panel_chat (live v))) else []
  | OrphanReplies i _ | OrphanFails i _ => option_list (orphans v !! i)
  | _ => []
  end.

(** What an event adds to a guest's history. *)
Definition answers (e : VisitEvent) (v : Visits) (g : string) : list ParrotChat.ChatMessage :=
  let exchange t reply :=
    if decide (turn_guest t = g) then
      [{| content := Some (turn_message t); role := User |};
       {| content := Some reply; role := Assistant |}]
    else [] in
  match e with
  | InPanel (ReplyArrives reply) | OrphanReplies _ reply =>
      match settles e v with [t] => exchange t reply | _ => [] end
  | _ => []
  end.

Fixpoint settled (es : list VisitEvent) (v : Visits) : list PendingTurn :=
  match es with [] => [] | e :: es => settles e v ++ settled es (visit_event e v) end.
Fixpoint answered (es : list VisitEvent) (v : Visits) (g : string) : list ParrotChat.ChatMessage :=
  match es with [] => [] | e :: es => answers e v g ++ answered es (visit_event e v) g end.

(** A guest's history is fetched, or it is dropped. *)
Definition loads (g : string) (e : VisitEvent) : bool :=
  match e with InPanel (HistoryArrives g' _) => bool_decide (g' = g) | _ => false end.
Definition drops (g : string) (e : VisitEvent) : bool :=
  match e with HistoryDropped g' => bool_decide (g' = g) | _ => false end.
Definition keeps (g : string) (e : VisitEvent) : Prop := loads g e = false ∧ drops g e = false.

(** *** Each turn is settled once *)

(** A step posts [new] and settles [gone], and the rest stays in flight. *)
Definition accounts (v v' : Visits) (new gone : list PendingTurn) : Prop :=
  posted (panel_chat (live v')) = posted (panel_chat (live v)) ++ new ∧
  flights v ++ new ≡ₚ gone ++ flights v'.

Lemma accounts_same v v' :
  posted (panel_chat (live v')) = posted (panel_chat (live v)) → flights v' = flights v →
  accounts v v' [] [].
Proof. intros Hp Hf. split; [by rewrite app_nil_r|]. by rewrite Hf, app_nil_r. Qed.

(** A chat that posts was idle. *)
Lemma accounts_posts o p p' os t :
  posts t (panel_chat p) (panel_chat p') →
  accounts (MkVisits o p os) (MkVisits o p' os) [t] [].
Proof.
  intros (Hf & _ & _ & Heq). unfold accounts, flights. cbn. rewrite Heq, Hf. cbn. split; [done|].
  by rewrite Permutation_app_comm.
Qed.

Lemma accounts_submit o p os id :
  ∃ new, accounts (MkVisits o p os) (MkVisits o (composer_submit id p) os) new [].
Proof.
  unfold composer_submit. destruct (submit _ (draft p)) as [m|]; [|by exists []; apply accounts_same].
  destruct (sendMessage_cases m id (panel_chat p)) as [Hs|(t & Ht & _)].
  - exists []. apply accounts_same; unfold flights; cbn; by rewrite Hs.
  - exists [t]. by apply accounts_posts.
Qed.

Lemma accounts_retry o p os :
  ∃ new, accounts (MkVisits o p os)
    (MkVisits o (MkPanel (chat_step Retry (panel_chat p)) (draft p)) os) new [].
Proof.
  cbn [chat_step]. case_match; [|exists []; by apply accounts_same].
  destruct (retry_cases (panel_chat p)) as [Hs|(t & f & Ht & _)].
  - exists []. apply accounts_same; unfold flights; cbn; by rewrite Hs.
  - exists [t]. by apply accounts_posts.
Qed.

(** The panel's turn is settled. *)
Lemma accounts_settle o p os s' :
  posted s' = posted (panel_chat p) → in_flight s' = None →
  accounts (MkVisits o p os) (MkVisits o (MkPanel s' (draft p)) os) []
    (option_list (in_flight (panel_chat p))).
Proof.
  intros Hp Hf. unfold accounts, flights. cbn. rewrite Hp, Hf. cbn. by rewrite !app_nil_r.
Qed.

Lemma panel_accounts o p os e :
  ∃ new, accounts (MkVisits o p os) (MkVisits o (panel_event e p) os) new
    (match e with
     | ReplyArrives _ | ReplyFails _ => option_list (in_flight (panel_chat p))
     | _ => []
     end).
Proof.
  destruct e as [text|key shift id|id|g|g h| |reply|error]; cbn [panel_event chat_step].
  - exists []. by case_match; apply accounts_same.
  - case_match; [apply accounts_submit|exists []; by apply accounts_same].
  - case_match; [exists []; by apply accounts_same|apply accounts_submit].
  - exists []. by apply accounts_same.
  - exists []. by apply accounts_same.
  - apply accounts_retry.
  - exists []. destruct (in_flight (panel_chat p)) eqn:Hf; [|destruct p; by apply accounts_same].
    rewrite <-Hf. by apply accounts_settle.
  - exists []. destruct (in_flight (panel_chat p)) eqn:Hf; [|destruct p; by apply accounts_same].
    rewrite <-Hf. by apply accounts_settle.
Qed.

Lemma accounts_orphan v i s' d t :
  orphans v !! i = Some t → posted s' = posted (panel_chat (live v)) →
  in_flight s' = in_flight (panel_chat (live v)) →
  accounts v (MkVisits (panel_open v) (MkPanel s' d) (delete i (orphans v))) [] [t].
Proof.
  intros Hi Hp Hf. unfold accounts, flights. cbn. rewrite Hp, Hf, !app_nil_r. split; [done|].
  apply delete_Permutation in Hi. rewrite Hi at 1. symmetry. apply Permutation_middle.
Qed.

Lemma visit_accounts e v : ∃ new, accounts v (visit_event e v) new (settles e v).
Proof.
  destruct v as [o p os]. destruct e as [| |e|g|i reply|i error]; cbn [visit_event settles].
  - exists []. by apply accounts_same.
  - exists []. unfold close_panel. cbn. case_match; [|by apply accounts_same]. by apply accounts_same.
  - cbn. destruct (panel_accounts o p os e) as [new Hn]. destruct o; cbn.
    + exists new. by destruct e.
    + destruct (from_outside e) eqn:He.
      * exists new. by destruct e.
      * exists []. destruct e; by apply accounts_same.
  - exists []. case_match; by apply accounts_same.
  - cbn. exists []. destruct (os !! i) as [t|] eqn:Hi; [|by apply accounts_same].
    by apply (accounts_orphan (MkVisits o p os)).
  - cbn. exists []. destruct (os !! i) as [t|] eqn:Hi.
    + destruct p. by apply (accounts_orphan (MkVisits o (MkPanel _ _) os)).
    + by apply accounts_same.
Qed.

Lemma visit_run_accounts es v l :
  posted (panel_chat (live v)) ≡ₚ l ++ flights v →
  posted (panel_chat (live (visit_run es v))) ≡ₚ l ++ settled es v ++ flights (visit_run es v).
Proof.
  revert v l. induction es as [|e es IH]; intros v l Hl; [done|]. cbn [visit_run foldl settled].
  destruct (visit_accounts e v) as (new & Hp & Hf). rewrite <-app_assoc, app_assoc.
  apply (IH (visit_event e v) (l ++ settles e v)).
  by rewrite Hp, Hl, <-!app_assoc, Hf.
Qed.

(** *** Histories *)

Lemma cache_reply_messages reply t s g :
  messages_of (cache_reply reply t s) g =
  messages_of s g ++ (if decide (turn_guest t = g) then
    [{| content := Some (turn_message t); role := User |};
     {| content := Some reply; role := Assistant |}] else []).
Proof.
  unfold messages_of. cbn. case_decide as Hg; [subst g|].
  - rewrite lookup_insert_eq. cbn. by destruct (histories s !! turn_guest t).
  - by rewrite lookup_insert_ne, app_nil_r.
Qed.

Lemma panel_messages e p g :
  loads g (InPanel e) = false →
  messages_of (panel_chat (panel_event e p)) g = messages_of (panel_chat p) g ++
    match e, in_flight (panel_chat p) with
    | ReplyArrives reply, Some t =>
        if decide (turn_guest t = g) then
          [{| content := Some (turn_message t); role := User |};
           {| content := Some reply; role := Assistant |}]
        else []
    | _, _ => []
    end.
Proof.
  assert (∀ id, messages_of (panel_chat (composer_submit id p)) g =
    messages_of (panel_chat p) g) as Hsubmit.
  { intros id. unfold composer_submit. case_match; [|done]. cbn. unfold messages_of.
    by destruct (sendMessage_cases s id (panel_chat p)) as [-> |(t & ->%posts_histories & _)]. }
  intros He. destruct e as [text|key shift id|id|g'|g' h| |reply|error]; try done;
    cbn [panel_event]; rewrite ?app_nil_r.
  - by case_match.
  - by case_match.
  - by case_match.
  - done.
  - cbn in He. apply bool_decide_eq_false in He. unfold messages_of. cbn. by rewrite lookup_insert_ne.
  - cbn [panel_chat]. rewrite chat_step_messages by done. cbn. by rewrite app_nil_r.
  - cbn [panel_chat]. by rewrite chat_step_messages by done.
  - cbn [panel_chat]. rewrite chat_step_messages by done. cbn. by rewrite app_nil_r.
Qed.

Lemma visit_messages e v g :
  keeps g e →
  messages_of (panel_chat (live (visit_event e v))) g =
  messages_of (panel_chat (live v)) g ++ answers e v g.
Proof.
  intros [He Hd]. destruct e as [| |e|g'|i reply|i error]; cbn [visit_event].
  - by rewrite app_nil_r.
  - unfold close_panel. case_match; by rewrite app_nil_r.
  - destruct (panel_open v) eqn:Ho; cbn [orb].
    + cbn [live]. rewrite panel_messages by done. f_equal. unfold answers, settles. rewrite Ho.
      destruct e; try done. by destruct (in_flight _).
    + unfold answers, settles. rewrite Ho. destruct (from_outside e) eqn:Hout.
      * cbn [live]. rewrite panel_messages by done. by destruct e.
      * destruct e; by rewrite app_nil_r.
  - rewrite app_nil_r. case_match; [done|]. cbn in Hd. apply bool_decide_eq_false in Hd.
    unfold messages_of. cbn. by rewrite lookup_delete_ne.
  - cbn [answers settles]. destruct (orphans v !! i) as [t|] eqn:Hi; [|by rewrite app_nil_r].
    cbn [live panel_chat]. apply cache_reply_messages.
  - by case_match; rewrite app_nil_r.
Qed.

Lemma visit_run_messages es v g :
  Forall (keeps g) es →
  messages_of (panel_chat (live (visit_run es v))) g =
  messages_of (panel_chat (live v)) g ++ answered es v g.
Proof.
  revert v. induction es as [|e es IH]; intros v Hes; [by rewrite app_nil_r|].
  apply Forall_cons_1 in Hes as [He Hes]. cbn [visit_run foldl answered].
  rewrite app_assoc, <-visit_messages by done. by apply IH.
Qed.

(** From a load on, a history is what was loaded and the exchanges answered since. *)
Lemma history_since_load es1 g h es2 v :
  Forall (keeps g) es2 →
  messages_of (panel_chat (live (visit_run (es1 ++ InPanel (HistoryArrives g h) :: es2) v))) g =
  messages h ++ answered es2 (visit_run (es1 ++ [InPanel (HistoryArrives g h)]) v) g.
Proof.
  intros Hes. rewrite cons_middle, app_assoc. unfold visit_run at 1. rewrite foldl_app.
  fold (visit_run (es1 ++ [InPanel (HistoryArrives g h)]) v).
  etransitivity; [by apply visit_run_messages|]. f_equal. unfold visit_run. rewrite foldl_app. cbn.
  rewrite orb_true_r. unfold messages_of. cbn. by rewrite lookup_insert_eq.
Qed.

(** *** Nothing is said before a history is there *)

Record silent (g : string) (v : Visits) : Prop := {
  silent_history : histories (panel_chat (live v)) !! g = None;
  silent_posted : Forall (λ t, turn_guest t ≠ g) (posted (panel_chat (live v)));
  silent_flights : Forall (λ t, turn_guest t ≠ g) (flights v);
  silent_failed : ∀ f, failedTurn (panel_chat (live v)) = Some f → turn_guest (failed_turn f) ≠ g;
}.

Lemma silent_chat g o p p' os :
  silent g (MkVisits o p os) →
  histories (panel_chat p') !! g = None →
  posted (panel_chat p') = posted (panel_chat p) → 
  (in_flight (panel_chat p') = in_flight (panel_chat p) ∨ in_flight (panel_chat p') = None) →
  (failedTurn (panel_chat p') = failedTurn (panel_chat p) ∨ failedTurn (panel_chat p') = None) →
  silent g (MkVisits o p' os).
Proof.
  intros [Hh Hp Hf Hx] Hh' Hp' Hf' Hx'. cbn in *. unfold flights in *. cbn in *. constructor; cbn.
  - done.
  - by rewrite Hp'.
  - unfold flights. cbn. destruct Hf' as [-> | ->]; [done|]. by apply Forall_app in Hf as [_ ?].
  - intros f. destruct Hx' as [-> | ->]; [apply Hx|done].
Qed.

Lemma silent_posts g o p p' os t :
  silent g (MkVisits o p os) → posts t (panel_chat p) (panel_chat p') → turn_guest t ≠ g →
  silent g (MkVisits o p' os).
Proof.
  intros [Hh Hp Hf Hx] (Hi & _ & _ & Heq) Hg. cbn in *. unfold flights in *. cbn in *.
  constructor; cbn; unfold flights; cbn; rewrite Heq; cbn; [done| | |done].
  - apply Forall_app; split; [done|]. by apply Forall_singleton.
  - rewrite Hi in Hf. by apply Forall_cons.
Qed.

Lemma silent_submit g o p os id :
  silent g (MkVisits o p os) → silent g (MkVisits o (composer_submit id p) os).
Proof.
  intros Hs. unfold composer_submit. destruct (submit _ (draft p)) as [m|] eqn:Hm; [|done].
  apply submit_sends in Hm as (_ & _ & Hr & _).
  destruct (sendMessage_cases m id (panel_chat p)) as [Heq|(t & Ht & _)].
  - apply (silent_chat g o p); [done|..]; cbn; rewrite Heq; [apply Hs|done|by left|by left].
  - apply (silent_posts g o p _ os t); [done|done|]. intros <-.
    destruct Ht as (_ & Hp & _). unfold isHistoryReady in Hr. rewrite Hp in Hr.
    apply bool_decide_eq_true in Hr as [h Hr]. pose proof (silent_history _ _ Hs) as Hn. cbn in *. congruence.
Qed.

Lemma silent_retry g o p os :
  silent g (MkVisits o p os) →
  silent g (MkVisits o (MkPanel (chat_step Retry (panel_chat p)) (draft p)) os).
Proof.
  intros Hs. cbn [chat_step]. destruct (retry_shown (panel_chat p)) eqn:Hr; [|by destruct p].
  apply error_item_shown in Hr as (_ & f & Hf & Hp).
  destruct (retry_cases (panel_chat p)) as [Heq|(t & f' & Ht & _)].
  - rewrite Heq. by destruct p.
  - apply (silent_posts g o p _ os t); [done|done|]. intros <-.
    destruct Ht as (_ & Hp' & _). pose proof (silent_failed _ _ Hs f) as Hn. cbn in *.
    apply Hn; [done|]. congruence.
Qed.

Lemma silent_panel g o p os e :
  loads g (InPanel e) = false →
  silent g (MkVisits o p os) → silent g (MkVisits o (panel_event e p) os).
Proof.
  intros Hl Hs. pose proof (silent_history _ _ Hs) as Hh. cbn in Hh.
  assert (∀ t, in_flight (panel_chat p) = Some t → turn_guest t ≠ g) as Ht.
  { intros t Ht. pose proof (silent_flights _ _ Hs) as Hf. unfold flights in Hf. cbn in Hf.
    rewrite Ht in Hf. by apply Forall_cons_1 in Hf as [? _]. }
  destruct e as [text|key shift id|id|g'|g' h| |reply|error]; cbn [panel_event].
  - case_match; [done|]. apply (silent_chat g o p); [done|done|done|by left|by left].
  - case_match; [by apply silent_submit|done].
  - case_match; [done|by apply silent_submit].
  - apply (silent_chat g o p); [done|done|done|by left|by left].
  - cbn in Hl. apply bool_decide_eq_false in Hl.
    apply (silent_chat g o p); [done| |done|by left|by left]. cbn. by rewrite lookup_insert_ne.
  - by apply silent_retry.
  - cbn [chat_step]. destruct (in_flight (panel_chat p)) as [t|] eqn:Hf; [|by destruct p].
    apply (silent_chat g o p); [done| |done|by right|by right]. cbn.
    rewrite lookup_insert_ne by by apply Ht. done.
  - cbn [chat_step]. destruct (in_flight (panel_chat p)) as [t|] eqn:Hf; [|by destruct p].
    destruct Hs as [? ? Hfl ?]. constructor; cbn; [done|done| |].
    + unfold flights in *. cbn in *. by apply Forall_app in Hfl as [_ ?].
    + intros f [= <-]. by apply Ht.
Qed.

Lemma silent_event g e v : loads g e = false → silent g v → silent g (visit_event e v).
Proof.
  intros Hl Hs. destruct v as [o p os]. destruct e as [| |e|g'|i reply|i error]; cbn [visit_event].
  - by destruct Hs.
  - unfold close_panel. cbn. case_match; [|done]. by destruct Hs; constructor.
  - cbn. case_match; [|done]. by apply silent_panel.
  - case_match; [done|]. apply (silent_chat g o p); [done| |done|by left|by left]. cbn.
    apply lookup_delete_None. right. apply Hs.
  - cbn. destruct (os !! i) as [t|] eqn:Hi; [|done].
    pose proof (silent_flights _ _ Hs) as Hf. unfold flights in Hf. cbn in Hf. apply Forall_app in Hf as [Hf Ho].
    destruct Hs as [Hh ? ? ?]. cbn in *. constructor; cbn; [|done| |done].
    + rewrite lookup_insert_ne; [done|]. by apply (proj1 (Forall_lookup _ _) Ho i).
    + apply Forall_app; split; [done|]. by apply Forall_delete.
  - cbn. destruct (os !! i) as [t|] eqn:Hi; [|done].
    pose proof (silent_flights _ _ Hs) as Hf. unfold flights in Hf. cbn in Hf. apply Forall_app in Hf as [Hf Ho].
    destruct Hs. constructor; cbn; try done. apply Forall_app; split; [done|]. by apply Forall_delete.
Qed.

Lemma nothing_said_unheard g es :
  Forall (λ e, loads g e = false) es →
  Forall (λ t, turn_guest t ≠ g) (posted (panel_chat (live (visit_run es no_visits)))).
Proof.
  intros Hes. apply silent_posted. revert Hes.
  assert (silent g no_visits) as Hs by by constructor.
  revert Hs. generalize no_visits. induction es as [|e es IH]; intros v Hs Hes; [done|].
  apply Forall_cons_1 in Hes as [He Hes]. apply IH; [by apply silent_event|done].
Qed.

(** *** Drafts *)

(** What becomes of a draft from one event to the next. *)
Lemma visit_draft e v g :
  chat_inv (panel_chat (live v)) → participantId (panel_chat (live v)) = Some g → g ≠ "" →
  let v' := visit_event e v in
  draft (live v') = draft (live v) ∨
  (∃ text, e = InPanel (Typed text) ∧ draft (live v') = text) ∨
  (∃ g', e = InPanel (GuestChanges g') ∧ g' ≠ Some g ∧ draft (live v') = "") ∨
  (e = ClosePanel ∧ panel_open v = true ∧ draft (live v') = "") ∨
  ∃ t, posted (panel_chat (live v')) = posted (panel_chat (live v)) ++ [t] ∧
    turn_message t = trim (draft (live v)) ∧ turn_message t ≠ "" ∧ turn_guest t = g ∧
    in_flight (panel_chat (live v')) = Some t ∧ draft (live v') = "".
Proof.
  intros Hi Hg Hne v'. subst v'. destruct e as [| |e|g'|i reply|i error]; cbn [visit_event]; try by left.
  - unfold close_panel. destruct (panel_open v) eqn:Ho; [|by left]. by right; right; right; left.
  - destruct (panel_open v || from_outside e); [|by left]. cbn [live].
    destruct (draft_cases e (live v)) as [Hd|[(t & -> & Ht)|[(g' & H1 & H2 & H3)|(t & Hp & H2 & H3)]]]; [congruence|..].
    + by left.
    + right; left. by exists t.
    + right; right; left. exists g'. split_and!; [by f_equal|congruence|done].
    + right; right; right; right. exists t. pose proof Hp as (_ & Hpart & _ & Heq).
      assert (in_flight (panel_chat (panel_event e (live v))) = Some t) as Hf by by rewrite Heq.
      assert (chat_inv (panel_chat (panel_event e (live v)))) as Hi'.
      { destruct (panel_chat_step e (live v)) as [->|[e' ->]]; [done|by apply chat_step_inv]. }
      destruct (ci_flight _ Hi' t Hf) as (_ & Hm & _).
      split_and!; [by rewrite Heq|done|done|congruence|done|done].
  - by case_match; left.
  - by case_match; left.
  - by case_match; left.
Qed.

(** *** Visits that do not end *)

Lemma orphans_of_closing es v :
  ClosePanel ∉ es → orphans v = [] → orphans (visit_run es v) = [].
Proof.
  revert v. induction es as [|e es IH]; intros v Hc Hv; [done|].
  apply not_elem_of_cons in Hc as [Hne Hc]. cbn [visit_run foldl]. apply IH; [done|].
  destruct e as [| |e|g|i reply|i error]; try done; cbn [visit_event].
  - by case_match.
  - by case_match.
  - by rewrite Hv.
  - cbn. by rewrite Hv.
Qed.

Lemma live_inv es v : chat_inv (panel_chat (live v)) → chat_inv (panel_chat (live (visit_run es v))).
Proof.
  revert v. induction es as [|e es IH]; intros v Hi; [done|]. cbn [visit_run foldl]. apply IH.
  destruct e as [| |e|g|i reply|i error]; cbn [visit_event]; [done|..].
  - unfold close_panel. case_match; [|done]. cbn. constructor; cbn; try done; [by left|apply Hi].
  - case_match; [|done]. cbn. destruct (panel_chat_step e (live v)) as [->|[e' ->]]; [done|].
    by apply chat_step_inv.
  - case_match; [done|]. cbn. by destruct Hi.
  - case_match; [|done]. cbn. by destruct Hi.
  - by case_match.
Qed.

Lemma visits_inv es : chat_inv (panel_chat (live (visit_run es no_visits))).
Proof. apply live_inv, initial_chat_inv. Qed.
