(* ===== verification/Carousel.v ===== *)
(** * The carousel and the guests in it

    [components/ui/carousel.tsx] over the Embla library, and the selection of a
    guest that uses it.  The library is the class [Embla]: the documented
    effect of scrolling on the selected slide and on what can be scrolled to,
    with [on] and [off] as registrations the component makes; [Ring] is a
    carousel that behaves so. *)

From S2P Require Import Prelude JsString Session.

(** ** The library *)

Class Embla (Api : Type) : Type := {
  slides : Api → nat;
  selected : Api → nat;
  loops : Api → bool;
  canScrollPrev : Api → bool;
  canScrollNext : Api → bool;
  api_scrollPrev : Api → Api;
  api_scrollNext : Api → Api;
  slides_prev a : slides (api_scrollPrev a) = slides a;
  slides_next a : slides (api_scrollNext a) = slides a;
  loops_prev a : loops (api_scrollPrev a) = loops a;
  loops_next a : loops (api_scrollNext a) = loops a;
  selected_below a : 0 < slides a → selected a < slides a;
  (** Without a change of the selected slide nothing else changes. *)
  prev_stays a : selected (api_scrollPrev a) = selected a → api_scrollPrev a = a;
  next_stays a : selected (api_scrollNext a) = selected a → api_scrollNext a = a;
  loop_prev a : loops a = true → 1 < slides a →
    selected (api_scrollPrev a) = (selected a + (slides a - 1)) mod slides a;
  loop_next a : loops a = true → 1 < slides a →
    selected (api_scrollNext a) = (selected a + 1) mod slides a;
  loop_can a : loops a = true → 1 < slides a → canScrollPrev a = true ∧ canScrollNext a = true;
}.

(** The events the component listens to. *)
Inductive EmblaEvent : Type := SelectEvent | ReInitEvent.

#[global] Instance EmblaEvent_eq_dec : EqDecision EmblaEvent.
Proof. solve_decision. Defined.

(** ** The component *)

Inductive Orientation : Type := Horizontal | Vertical.

#[global] Instance Orientation_eq_dec : EqDecision Orientation.
Proof. solve_decision. Defined.

Inductive Axis : Type := AxisX | AxisY.

(** The options the caller gives, of which the component reads [axis].
    (src/frontend/src/components/ui/carousel.tsx:15-20 CarouselProps) *)
Record CarouselProps : Type := MkProps {
  orientation : option Orientation;
  opts_axis : option Axis;
}.

(** [orientation = "horizontal"] in the parameters.
    (src/frontend/src/components/ui/carousel.tsx:43-51 Carousel) *)
Definition orientation_of (p : CarouselProps) : Orientation := default Horizontal (orientation p).

(** The axis the library is created with.
    (src/frontend/src/components/ui/carousel.tsx:52-58 useEmblaCarousel) *)
Definition axis_of (p : CarouselProps) : Axis :=
  if decide (orientation_of p = Horizontal) then AxisX else AxisY.

(** What the context hands to the parts of the carousel: the orientation is a
    text that is never empty, so the alternative is never taken.
    (src/frontend/src/components/ui/carousel.tsx:111-112 orientation) *)
Definition context_orientation (p : CarouselProps) : Orientation := orientation_of p.

(** (src/frontend/src/components/ui/carousel.tsx:33-41 useCarousel) *)
Definition useCarousel {A} (context : option A) : outcome string A :=
  match context with
  | None => Thrown "useCarousel must be used within a <Carousel />"
  | Some c => Returned c
  end.

Section carousel.
Context `{Embla Api}.

(** The api, the registrations of [onSelect] on it, the two states, and the api
    handed to [setApi], if the caller gave it.
    (src/frontend/src/components/ui/carousel.tsx:52-60 Carousel) *)
Record Carousel : Type := MkCarousel {
  api : option Api;
  listeners : list EmblaEvent;
  can_prev : bool;
  can_next : bool;
  shared : option Api;
}.

(** (src/frontend/src/components/ui/carousel.tsx:59-60 canScrollPrev) *)
Definition carousel_mount : Carousel := MkCarousel None [] false false None.

(** (src/frontend/src/components/ui/carousel.tsx:62-66 onSelect) *)
Definition onSelect (a : option Api) (c : Carousel) : Carousel :=
  match a with
  | None => c
  | Some a => MkCarousel (api c) (listeners c) (canScrollPrev a) (canScrollNext a) (shared c)
  end.

Definition on (e : EmblaEvent) (c : Carousel) : Carousel :=
  MkCarousel (api c) (listeners c ++ [e]) (can_prev c) (can_next c) (shared c).
Definition off (e : EmblaEvent) (c : Carousel) : Carousel :=
  MkCarousel (api c) (filter (λ e', e' ≠ e) (listeners c)) (can_prev c) (can_next c) (shared c).

(** (src/frontend/src/components/ui/carousel.tsx:89-92 effect) *)
Definition share_effect (has_setApi : bool) (c : Carousel) : Carousel :=
  match api c with
  | Some a => if has_setApi
              then MkCarousel (api c) (listeners c) (can_prev c) (can_next c) (Some a) else c
  | None => c
  end.

(** (src/frontend/src/components/ui/carousel.tsx:94-98 effect) *)
Definition listen_effect (c : Carousel) : Carousel :=
  match api c with
  | None => c
  | Some a => on SelectEvent (on ReInitEvent (onSelect (Some a) c))
  end.

(** (src/frontend/src/components/ui/carousel.tsx:100-102 cleanup) *)
Definition listen_cleanup (c : Carousel) : Carousel :=
  match api c with None => c | Some _ => off SelectEvent c end.

(** The library calls what was registered for the event. *)
Definition emit (e : EmblaEvent) (c : Carousel) : Carousel :=
  foldl (λ c e', if decide (e' = e) then onSelect (api c) c else c) c (listeners c).

(** A call that scrolls: the event is emitted when another slide is selected.
    (src/frontend/src/components/ui/carousel.tsx:68-74 scrollPrev) *)
Definition scroll (f : Api → Api) (c : Carousel) : Carousel :=
  match api c with
  | None => c
  | Some a =>
      let c' := MkCarousel (Some (f a)) (listeners c) (can_prev c) (can_next c) (shared c) in
      if decide (selected (f a) = selected a) then c' else emit SelectEvent c'
  end.

(** (src/frontend/src/components/ui/carousel.tsx:68-70 scrollPrev) *)
Definition scrollPrev : Carousel → Carousel := scroll api_scrollPrev.
(** (src/frontend/src/components/ui/carousel.tsx:72-74 scrollNext) *)
Definition scrollNext : Carousel → Carousel := scroll api_scrollNext.

(** The carousel, and whether the browser's default was prevented.
    (src/frontend/src/components/ui/carousel.tsx:76-87 handleKeyDown) *)
Definition handleKeyDown (key : string) (c : Carousel) : Carousel * bool :=
  if decide (key = "ArrowLeft") then (scrollPrev c, true)
  else if decide (key = "ArrowRight") then (scrollNext c, true)
  else (c, false).

(** (src/frontend/src/components/ui/carousel.tsx:172-202 CarouselPrevious) *)
Definition click_prev (c : Carousel) : Carousel := if can_prev c then scrollPrev c else c.
(** (src/frontend/src/components/ui/carousel.tsx:204-234 CarouselNext) *)
Definition click_next (c : Carousel) : Carousel := if can_next c then scrollNext c else c.

(** The library hands an api over once the viewport is there, and another one in its
    place when it is set up anew, as in strict mode; the first is destroyed with all
    that was registered on it, and the effects run for the second.  React may also
    run the clean-ups and the effects again while the api stays, as when development
    tools refresh the component; and the library may be initialised again with other
    slides. *)
Inductive CarouselEvent : Type :=
  | ApiReady (a : Api)
  | EffectsAgain
  | ReInit (a : Api)
  | PressKey (key : string)
  | PressPrev
  | PressNext.

Definition carousel_event (has_setApi : bool) (e : CarouselEvent) (c : Carousel) : Carousel :=
  match e with
  | ApiReady a =>
      listen_effect (share_effect has_setApi
        (MkCarousel (Some a) [] (can_prev c) (can_next c) (shared c)))
  | EffectsAgain => listen_effect (share_effect has_setApi (listen_cleanup c))
  | ReInit a =>
      match api c with
      | None => c
      | Some _ => emit ReInitEvent (MkCarousel (Some a) (listeners c) (can_prev c) (can_next c) (shared c))
      end
  | PressKey k => (handleKeyDown k c).1
  | PressPrev => click_prev c
  | PressNext => click_next c
  end.
Definition carousel_run (has_setApi : bool) (es : list CarouselEvent) (c : Carousel) : Carousel :=
  foldl (λ c e, carousel_event has_setApi e c) c es.

(** ** Facts *)

Definition count (e : EmblaEvent) (c : Carousel) : nat := length (filter (λ e', e' = e) (listeners c)).

Record carousel_inv (c : Carousel) : Prop := {
  inv_none : api c = None → listeners c = [] ∧ can_prev c = false ∧ can_next c = false;
  inv_flags : ∀ a, api c = Some a → can_prev c = canScrollPrev a ∧ can_next c = canScrollNext a;
  inv_select : ∀ a, api c = Some a → count SelectEvent c = 1;
  inv_reinit : ∀ a, api c = Some a → 1 ≤ count ReInitEvent c;
}.

Lemma onSelect_fields o c :
  api (onSelect o c) = api c ∧ listeners (onSelect o c) = listeners c ∧
  shared (onSelect o c) = shared c.
Proof. by destruct o. Qed.

(** An event reaches [onSelect] if it was registered, once or more often. *)
Lemma emit_cases e c :
  emit e c = if decide (e ∈ listeners c) then onSelect (api c) c else c.
Proof.
  unfold emit. generalize (listeners c) as l. intros l. revert c.
  induction l as [|e' l IH]; intros c; cbn; [done|]. rewrite IH.
  assert (onSelect (api (onSelect (api c) c)) (onSelect (api c) c) = onSelect (api c) c) as Htwice.
  { destruct (onSelect_fields (api c) c) as (-> & _). by destruct (api c). }
  destruct (decide (e' = e)) as [->|Hne].
  - rewrite (decide_True _ _ (list_elem_of_here _ _)). by case_decide.
  - destruct (decide (e ∈ l)), (decide (e ∈ e' :: l)); set_solver.
Qed.

Lemma count_elem e c : 1 ≤ count e c → e ∈ listeners c.
Proof.
  unfold count. destruct (filter _ (listeners c)) as [|e' l] eqn:Hf; cbn; [lia|]. intros _.
  assert (e' ∈ filter (λ e', e' = e) (listeners c)) as Hin by (rewrite Hf; left).
  by apply list_elem_of_filter in Hin as [-> ?].
Qed.

Lemma inv_emit e c a f1 f2 sh :
  carousel_inv c → is_Some (api c) → 
  carousel_inv (emit e (MkCarousel (Some a) (listeners c) f1 f2 sh)).
Proof.
  intros Hi [a0 Ha]. pose proof (inv_select c Hi a0 Ha) as Hs. pose proof (inv_reinit c Hi a0 Ha) as Hr.
  rewrite emit_cases. cbn.
  rewrite decide_True by (apply (count_elem e c); destruct e; lia).
  constructor; cbn; try done. by intros ? [= <-].
Qed.

Lemma inv_scroll (f : Api → Api) c :
  (∀ a, selected (f a) = selected a → f a = a) → carousel_inv c → carousel_inv (scroll f c).
Proof.
  intros Hf Hi. unfold scroll. destruct (api c) as [a|] eqn:Ha; [|done].
  case_decide as Hs; [|by apply inv_emit].
  rewrite (Hf a Hs). destruct c. cbn in Ha. by subst.
Qed.

Lemma inv_listen c : carousel_inv c → carousel_inv (listen_effect (listen_cleanup c)).
Proof.
  intros Hi. unfold listen_effect, listen_cleanup. destruct (api c) as [a|] eqn:Ha; cbn; rewrite Ha; [|done].
  constructor; cbn; [done|by intros ? [= <-]|intros _ _|intros _ _];
    unfold count; cbn; rewrite !filter_app, !length_app.
  - by rewrite (filter_split_nil (λ e', e' = SelectEvent)).
  - change (length (filter (λ e', e' = ReInitEvent) [ReInitEvent])) with 1. lia.
Qed.

Lemma inv_share b c : carousel_inv c → carousel_inv (share_effect b c).
Proof.
  intros Hi. unfold share_effect. destruct (api c) as [a|] eqn:Ha; [|done]. destruct b; [|done].
  rewrite <-Ha. by destruct Hi; constructor.
Qed.

Lemma inv_event b e c : carousel_inv c → carousel_inv (carousel_event b e c).
Proof.
  intros Hi. destruct e as [a| |a|k| |]; cbn [carousel_event].
  - unfold share_effect. cbn.
    destruct b; cbn; (constructor; cbn; [done|by intros ? [= <-]|done|intros; exact (le_n 1)]).
  - assert (share_effect b (listen_cleanup c) = listen_cleanup (share_effect b c)) as ->.
    { unfold share_effect, listen_cleanup. destruct (api c) as [a|] eqn:Ha; cbn; [|by rewrite Ha].
      destruct b; cbn; by rewrite ?Ha. }
    by apply inv_listen, inv_share.
  - destruct (api c) as [a0|] eqn:Ha; [|done]. by apply inv_emit; rewrite ?Ha.
  - unfold handleKeyDown. repeat case_decide; [by apply inv_scroll; [apply prev_stays|]| |done].
    by apply inv_scroll; [apply next_stays|].
  - unfold click_prev. case_match; [|done]. by apply inv_scroll; [apply prev_stays|].
  - unfold click_next. case_match; [|done]. by apply inv_scroll; [apply next_stays|].
Qed.

Lemma carousel_run_inv b es : carousel_inv (carousel_run b es carousel_mount).
Proof.
  unfold carousel_run. induction es as [|e es IH] using rev_ind; [by constructor|].
  rewrite foldl_app. by apply inv_event.
Qed.

Lemma effects_again_listeners b c : is_Some (api c) →
  listeners (carousel_event b EffectsAgain c) =
    filter (λ e', e' ≠ SelectEvent) (listeners c) ++ [ReInitEvent; SelectEvent].
Proof.
  intros [a Ha]. destruct c. cbn in Ha. subst. by destruct b; cbn; rewrite <-app_assoc.
Qed.

(** Every time the effects run again, one more registration for [reInit] stays. *)
Lemma reinit_stays b c : is_Some (api c) →
  count ReInitEvent (carousel_event b EffectsAgain c) = S (count ReInitEvent c).
Proof.
  intros Hc. unfold count. rewrite effects_again_listeners, filter_app, length_app by done.
  change (length (filter (λ e', e' = ReInitEvent) [ReInitEvent; SelectEvent])) with 1.
  rewrite list_filter_filter, Nat.add_1_r. do 2 f_equal. apply list_filter_iff. naive_solver.
Qed.

(** ** Scrolling in a loop *)

Definition selection (c : Carousel) : option nat := selected <$> api c.

Lemma scroll_selection (f : Api → Api) c a :
  api c = Some a → api (scroll f c) = Some (f a).
Proof.
  intros Ha. unfold scroll. rewrite Ha. case_decide; [done|].
  rewrite emit_cases. by case_decide.
Qed.

(** In a loop of more than one slide both buttons go on, around the whole. *)
Lemma press_next b c a k :
  carousel_inv c → api c = Some a → loops a = true → 1 < slides a →
  ∃ a', api (carousel_run b (replicate k PressNext) c) = Some a' ∧
    loops a' = true ∧ slides a' = slides a ∧ selected a' = (selected a + k) mod slides a.
Proof.
  unfold carousel_run. revert c a. induction k as [|k IH]; intros c a Hi Ha Hl Hs; cbn.
  { exists a. rewrite Nat.add_0_r, Nat.mod_small; [done|]. by apply selected_below; lia. }
  destruct (loop_can a Hl Hs) as [_ Hn]. destruct (inv_flags c Hi a Ha) as [_ Hf].
  assert (click_next c = scroll api_scrollNext c) as Hc by (unfold click_next; by rewrite Hf, Hn).
  rewrite Hc.
  destruct (IH (scroll api_scrollNext c) (api_scrollNext a)) as (a' & Ha' & Hl' & Hs' & Hsel).
  - by apply inv_scroll; [apply next_stays|].
  - by apply scroll_selection.
  - by rewrite loops_next.
  - by rewrite slides_next.
  - exists a'. rewrite slides_next in *. split_and!; [done..|]. rewrite Hsel, loop_next by done.
    rewrite Nat.Div0.add_mod_idemp_l. f_equal. lia.
Qed.
End carousel.
Arguments Carousel : clear implicits.
Arguments CarouselEvent : clear implicits.

(** ** A carousel *)

(** Slides in a row or in a loop, and the position. *)
Record Ring : Type := MkRing { ring_slides : nat; ring_position : nat; ring_loops : bool }.

Definition ring_selected (a : Ring) : nat := ring_position a mod ring_slides a.

(** By [step] slides: in a row only where there is another slide. *)
Definition ring_next (a : Ring) : Ring :=
  let n := ring_slides a in
  if decide (1 < n ∧ (ring_loops a = true ∨ S (ring_selected a) < n)) then
    MkRing n ((ring_selected a + 1) mod n) (ring_loops a)
  else a.
Definition ring_prev (a : Ring) : Ring :=
  let n := ring_slides a in
  if decide (1 < n ∧ (ring_loops a = true ∨ 0 < ring_selected a)) then
    MkRing n ((ring_selected a + (n - 1)) mod n) (ring_loops a)
  else a.

Lemma mod_add_ne s k n : s < n → 0 < k < n → (s + k) mod n ≠ s.
Proof.
  intros Hs Hk. destruct (decide (s + k < n)).
  - rewrite Nat.mod_small; lia.
  - replace (s + k) with ((s + k - n) + 1 * n) by lia.
    rewrite Nat.Div0.mod_add, Nat.mod_small; lia.
Qed.

Lemma ring_selected_below a : 0 < ring_slides a → ring_selected a < ring_slides a.
Proof. intros. apply Nat.mod_upper_bound. lia. Qed.

Ltac ring_case := intros a; unfold ring_next, ring_prev, ring_selected; case_decide; cbn.

#[global, refine] Instance ring_embla : Embla Ring := {|
  slides := ring_slides;
  selected := ring_selected;
  loops := ring_loops;
  canScrollPrev a := bool_decide (1 < ring_slides a ∧ (ring_loops a = true ∨ 0 < ring_selected a));
  canScrollNext a := bool_decide (1 < ring_slides a ∧
    (ring_loops a = true ∨ S (ring_selected a) < ring_slides a));
  api_scrollPrev := ring_prev;
  api_scrollNext := ring_next;
|}.
Proof.
  1-4: by ring_case.
  - apply ring_selected_below.
  - ring_case; [|done]. rewrite Nat.Div0.mod_mod. intros Hs. exfalso. revert Hs.
    apply mod_add_ne; [apply ring_selected_below|]; lia.
  - ring_case; [|done]. rewrite Nat.Div0.mod_mod. intros Hs. exfalso. revert Hs.
    apply mod_add_ne; [apply ring_selected_below|]; lia.
  - ring_case; intros; [by rewrite Nat.Div0.mod_mod|naive_solver].
  - ring_case; intros; [by rewrite Nat.Div0.mod_mod|naive_solver].
  - intros a Hl Hn. rewrite !bool_decide_true by auto. done.
Defined.
