(* ===== verification/HotelBootstrap.v ===== *)
(** * The hotel's front door

    [main.ts] and [reservation/dto/create-reservation.dto.ts]: the global
    validation pipe and the decorators it checks a reservation request against.
    The decorators are the program's own and are kept as data; what the library
    (class-validator and class-transformer) does with them is the class
    [ClassValidator].  A body is a JSON object; an array, which the library does
    not check against the class, is left out. *)

From S2P Require Import Prelude Json JsString HotelDb HotelOutbound HotelReservation.

(** ** Decorators *)

Inductive Constraint : Type :=
  | IsString | IsEnum (values : list string) | IsInt | Min (lo : Z) | IsArray | IsStringEach.

(** A property: [@IsOptional()], [@Type(() => Number)] and the constraints. *)
Record Property : Type := {
  property : string;
  is_optional : bool;
  to_number : bool;
  constraints : list Constraint;
}.

(** (src/services/hotel/src/reservation/dto/create-reservation.dto.ts:5-29 CreateReservationDto) *)
Definition CreateReservationDto_properties : list Property :=
  [{| property := "guest_id"; is_optional := false; to_number := false; constraints := [IsString] |};
   {| property := "room_type"; is_optional := false; to_number := false;
      constraints := [IsEnum (show_room_type <$> [STANDARD; DELUXE; SUITE])] |};
   {| property := "guest_count"; is_optional := false; to_number := true;
      constraints := [IsInt; Min 1] |};
   {| property := "party_guest_ids"; is_optional := true; to_number := false;
      constraints := [IsArray; IsStringEach] |};
   {| property := "check_in_day"; is_optional := false; to_number := true; constraints := [IsInt] |};
   {| property := "check_out_day"; is_optional := false; to_number := true; constraints := [IsInt] |}].

Definition num_at_least (lo : Z) (n : number) : bool :=
  match n with
  | NumZ z => bool_decide (lo ≤ z)%Z
  | NumDec d p => bool_decide (lo * 10 ^ Z.of_nat p ≤ d)%Z
  | NumInf negative => negb negative
  | NumNaN => false
  end.

(** What a constraint asks of a value. *)
Definition satisfies (c : Constraint) (v : json) : bool :=
  match c, v with
  | IsString, JStr _ => true
  | IsEnum vs, JStr s => bool_decide (s ∈ vs)
  | IsInt, JNum (NumZ _) => true
  | Min lo, JNum n => num_at_least lo n
  | IsArray, JArr _ => true
  | IsStringEach, JArr l => forallb (λ x, match x with JStr _ => true | _ => false end) l
  | _, _ => false
  end.

(** The constraints that the value of a property does not satisfy; one that is
    [undefined] or [null] satisfies none, unless it is optional. *)
Definition failures (p : Property) (o : option json) : list Constraint :=
  match o with
  | None | Some JNull => if is_optional p then [] else constraints p
  | Some v => filter (λ c, satisfies c v = false) (constraints p)
  end.

(** A [ValidationError], by the messages of its [constraints]. *)
Abbreviation ValidationError := (list string).

(** What is wrong with the fields of a body. *)
Definition complaints (message : Property → Constraint → string) (ps : list Property)
    (d : list (string * json)) : list string :=
  ps ≫= λ p, message p <$> failures p (jget (property p) d).

(** The library: an error for every property with a constraint that does not
    hold, and in it the message of each of them, in an order of its own.
    [Number(value)] of what is not a number is its affair, and so are the
    messages. *)
Class ClassValidator : Type := {
  transform : json → json;
  validate : list Property → list (string * json) → list ValidationError;
  message : Property → Constraint → string;
  transform_number n : transform (JNum n) = JNum n;
  validate_errors ps d : Forall (λ e, e ≠ []) (validate ps d);
  validate_messages ps d : concat (validate ps d) ≡ₚ complaints message ps d;
}.

(** A library for the witnesses, with the texts of class-validator. *)
Definition text_of (p : Property) (c : Constraint) : string :=
  match c with
  | IsString => property p +:+ " must be a string"
  | IsEnum vs => property p +:+ " must be one of the following values: " +:+ join ", " vs
  | IsInt => property p +:+ " must be an integer number"
  | Min lo => property p +:+ " must not be less than " +:+ show_int lo
  | IsArray => property p +:+ " must be an array"
  | IsStringEach => "each value in " +:+ property p +:+ " must be a string"
  end.

#[refine] Definition validator_reference : ClassValidator := {|
  transform v := v;
  validate ps d := filter (λ e, length e ≠ 0) ((λ p, text_of p <$> failures p (jget (property p) d)) <$> ps);
  message := text_of;
|}.
Proof.
  - done.
  - intros ps d. apply Forall_forall. by intros [|m e] [? _]%list_elem_of_filter.
  - intros ps d. unfold complaints. induction ps as [|p ps IH]; [done|].
    rewrite fmap_cons, filter_cons, bind_cons. case_decide as He; cbn [concat]; [by rewrite IH|].
    apply nil_length_inv in He. by rewrite He.
Defined.

(** ** The pipe *)

(** The instance the handler is given: the properties of the class. *)
Definition read_room_type (s : string) : option RoomType :=
  find_first (λ ty, bool_decide (show_room_type ty = s)) [STANDARD; DELUXE; SUITE].
Definition read_party (o : option json) : option (option (list string)) :=
  match o with
  | None | Some JNull => Some None
  | Some (JArr l) => Some <$> mapM as_string l
  | Some _ => None
  end.
Definition instance (d : list (string * json)) : option CreateReservationDto :=
  g ← jget "guest_id" d ≫= as_string; t ← jget "room_type" d ≫= as_string;
  ty ← read_room_type t; n ← jget "guest_count" d ≫= as_int; p ← read_party (jget "party_guest_ids" d);
  i ← jget "check_in_day" d ≫= as_int; o ← jget "check_out_day" d ≫= as_int;
  Some {| c_guest_id := g; c_room_type := ty; c_guest_count := n; c_party_guest_ids := p;
          c_check_in_day := i; c_check_out_day := o |}.

Section pipe.
Context `{ClassValidator}.

(** [transform: true], of the properties with [@Type(() => Number)]. *)
Definition transformed (ps : list Property) (d : list (string * json)) : list (string * json) :=
  (λ kv, (kv.1, if existsb (λ p, bool_decide (property p = kv.1) && to_number p) ps
                then transform kv.2 else kv.2)) <$> d.

(** The exception lists every message of every error; [None] is a body that was
    accepted without being an instance, which does not happen.
    (src/services/hotel/src/main.ts:7-20 useGlobalPipes) *)
Definition ValidationPipe (body : list (string * json)) : option (outcome Failure CreateReservationDto) :=
  let value := transformed CreateReservationDto_properties body in
  match validate CreateReservationDto_properties value with
  | [] => Returned <$> instance value
  | errors => Some (Thrown (HttpException (join "; " (concat errors)) BAD_REQUEST))
  end.

(** What is no number's field is left alone, and so is what is a number. *)
Lemma transformed_get ps d k :
  jget k (transformed ps d) =
    (if existsb (λ p, bool_decide (property p = k) && to_number p) ps then transform else id) <$> jget k d.
Proof.
  unfold transformed. induction d as [|[k' v] d IH]; [done|]. cbn. case_decide as Hk; [|done].
  subst k'. cbn. by case_match.
Qed.

(** *** What the pipe lets through *)

Lemma nil_no_failures ps d :
  complaints message ps d = [] ↔ Forall (λ p, failures p (jget (property p) d) = []) ps.
Proof.
  unfold complaints. induction ps as [|p ps IH]; [by split|]. rewrite bind_cons, Forall_cons, <-IH.
  destruct (failures p _); cbn; [tauto|naive_solver].
Qed.

Lemma validate_accepts ps d :
  validate ps d = [] ↔ Forall (λ p, failures p (jget (property p) d) = []) ps.
Proof.
  rewrite <-nil_no_failures. pose proof (validate_messages ps d) as Hm.
  pose proof (validate_errors ps d) as He. split.
  - intros Hv. rewrite Hv in Hm. by apply Permutation_nil_l in Hm.
  - intros Hc. rewrite Hc in Hm. destruct (validate ps d) as [|[|m ms] es]; [done|..].
    + by apply Forall_cons in He as [? _].
    + by apply Permutation_nil_r in Hm.
Qed.

(** The body a booking is made of, whatever the decorators say. *)
Definition booking_of (d : list (string * json)) : option CreateReservationDto :=
  match instance d with
  | Some dto => if bool_decide (1 ≤ c_guest_count dto)%Z then Some dto else None
  | None => None
  end.

Lemma filter_failures v cs :
  filter (λ c, satisfies c v = false) cs = [] ↔ forallb (λ c, satisfies c v) cs = true.
Proof.
  induction cs as [|c cs IH]; [done|]. rewrite filter_cons. cbn. rewrite andb_true_iff, <-IH.
  destruct (satisfies c v); [rewrite decide_False by done|rewrite decide_True by done]; naive_solver.
Qed.

Lemma read_room_type_spec s :
  is_Some (read_room_type s) ↔ s ∈ show_room_type <$> [STANDARD; DELUXE; SUITE].
Proof.
  split.
  - intros [ty Hty]. apply find_first_elem in Hty as [Hin Hs]. apply bool_decide_eq_true in Hs as <-.
    by apply list_elem_of_fmap_2.
  - intros Hs. repeat (apply elem_of_cons in Hs as [->|Hs]; [by eexists|]). set_solver.
Qed.

Lemma strings_of l : is_Some (mapM as_string l) ↔
  forallb (λ x, match x with JStr _ => true | _ => false end) l = true.
Proof.
  rewrite mapM_is_Some, Forall_forall, forallb_forall. split; intros Hl x Hx.
  - apply list_elem_of_In, Hl in Hx as [s Hs]. by destruct x.
  - specialize (Hl x). rewrite <-list_elem_of_In in Hl. specialize (Hl Hx). destruct x; try done. by eexists.
Qed.

Lemma as_string_bind o s : o ≫= as_string = Some s → o = Some (JStr s).
Proof. intros ([] & -> & Hs)%bind_Some; try discriminate. by injection Hs as ->. Qed.
Lemma as_int_bind o z : o ≫= as_int = Some z → o = Some (JNum (NumZ z)).
Proof. intros ([| |[]| | |] & -> & Hs)%bind_Some; try discriminate. by injection Hs as ->. Qed.

Lemma booking_of_spec d : is_Some (booking_of d) ↔
  (∃ s, jget "guest_id" d = Some (JStr s)) ∧
  (∃ s, jget "room_type" d = Some (JStr s) ∧ is_Some (read_room_type s)) ∧
  (∃ z, jget "guest_count" d = Some (JNum (NumZ z)) ∧ (1 ≤ z)%Z) ∧
  is_Some (read_party (jget "party_guest_ids" d)) ∧
  (∃ z, jget "check_in_day" d = Some (JNum (NumZ z))) ∧
  (∃ z, jget "check_out_day" d = Some (JNum (NumZ z))).
Proof.
  unfold booking_of. split.
  - destruct (instance d) as [dto|] eqn:Hi; [|by intros []]. case_bool_decide as Hn; [|by intros []].
    intros _. unfold instance in Hi.
    apply bind_Some in Hi as (s1 & H1%as_string_bind & Hi).
    apply bind_Some in Hi as (s2 & H2%as_string_bind & Hi).
    apply bind_Some in Hi as (ty & Hty & Hi). apply bind_Some in Hi as (n & H3%as_int_bind & Hi).
    apply bind_Some in Hi as (p & H4 & Hi). apply bind_Some in Hi as (z5 & H5%as_int_bind & Hi).
    apply bind_Some in Hi as (z6 & H6%as_int_bind & Hi). injection Hi as <-. cbn in Hn.
    rewrite H1, H2, H3, H4, H5, H6. split_and!; eauto.
  - intros ([s1 H1] & (s2 & H2 & [ty Hty]) & (n & H3 & Hn) & [p H4] & [z5 H5] & [z6 H6]).
    unfold instance. rewrite H1, H2, H3, H4, H5, H6. cbn [mbind option_bind as_string as_int].
    rewrite Hty. cbn [mbind option_bind c_guest_count].
    rewrite bool_decide_true by done. by eexists.
Qed.

(** *** Field by field *)

Ltac solve_field :=
  intros o; unfold failures; destruct o as [[| | | | |]|]; rewrite ?filter_failures;
  cbn [is_optional constraints forallb satisfies andb];
  (split; [try discriminate|try by intros (? & ? & ?)]).

Lemma string_field n : ∀ o,
  failures {| property := n; is_optional := false; to_number := false; constraints := [IsString] |} o = [] ↔
  ∃ s, o = Some (JStr s).
Proof. solve_field; naive_solver. Qed.

Lemma int_field n : ∀ o,
  failures {| property := n; is_optional := false; to_number := true; constraints := [IsInt] |} o = [] ↔
  ∃ z, o = Some (JNum (NumZ z)).
Proof.
  solve_field; try naive_solver. destruct n0; naive_solver.
Qed.

Lemma count_field n lo : ∀ o,
  failures {| property := n; is_optional := false; to_number := true; constraints := [IsInt; Min lo] |} o = [] ↔
  ∃ z, o = Some (JNum (NumZ z)) ∧ (lo ≤ z)%Z.
Proof.
  solve_field; try naive_solver.
  - destruct n0 as [z| | |]; try discriminate. cbn. rewrite andb_true_r, bool_decide_eq_true. eauto.
  - intros (z & [= ->] & Hz). cbn. by rewrite bool_decide_true.
Qed.

Lemma room_field n : ∀ o,
  failures {| property := n; is_optional := false; to_number := false;
    constraints := [IsEnum (show_room_type <$> [STANDARD; DELUXE; SUITE])] |} o = [] ↔
  ∃ s, o = Some (JStr s) ∧ is_Some (read_room_type s).
Proof.
  solve_field; try naive_solver.
  - rewrite andb_true_r, bool_decide_eq_true. intros Hs. eexists. by rewrite read_room_type_spec.
  - intros (s' & [= ->] & Hs). rewrite andb_true_r, bool_decide_eq_true. by apply read_room_type_spec.
Qed.

Lemma party_field n : ∀ o,
  failures {| property := n; is_optional := true; to_number := false;
    constraints := [IsArray; IsStringEach] |} o = [] ↔ is_Some (read_party o).
Proof.
  intros o. unfold failures. destruct o as [[| | | |l|]|]; rewrite ?filter_failures;
    cbn [is_optional constraints forallb satisfies andb read_party]; try by split; [|intros []].
  rewrite andb_true_r, fmap_is_Some. symmetry. apply strings_of.
Qed.

(** The decorators accept exactly the bodies of bookings. *)
Lemma accepted_iff d :
  Forall (λ p, failures p (jget (property p) d) = []) CreateReservationDto_properties ↔
  is_Some (booking_of d).
Proof.
  rewrite booking_of_spec. unfold CreateReservationDto_properties. rewrite !Forall_cons, Forall_nil.
  cbn [property]. rewrite string_field, room_field, count_field, party_field, !int_field. tauto.
Qed.

(** The exception lists every message of every error, and a body that is let
    through is a booking's. *)
Lemma ValidationPipe_spec body :
  let value := transformed CreateReservationDto_properties body in
  match booking_of value with
  | Some dto => ValidationPipe body = Some (Returned dto)
  | None => ∃ ms, ms ≡ₚ complaints message CreateReservationDto_properties value ∧ ms ≠ [] ∧
      ValidationPipe body = Some (Thrown (HttpException (join "; " ms) 400))
  end.
Proof.
  intros value. unfold ValidationPipe. fold value.
  pose proof (validate_accepts CreateReservationDto_properties value) as Hv.
  rewrite accepted_iff in Hv. destruct (booking_of value) as [dto|] eqn:Hb.
  - rewrite (proj2 Hv) by by eexists. unfold booking_of in Hb.
    destruct (instance value); [|done]. case_bool_decide; [|done]. by simplify_eq/=.
  - pose proof (validate_messages CreateReservationDto_properties value) as Hm.
    exists (concat (validate CreateReservationDto_properties value)). split; [done|].
    pose proof (validate_errors CreateReservationDto_properties value) as He.
    destruct (validate _ value) as [|[|m ms] es].
    + destruct Hv as [Hv _]. by destruct (Hv eq_refl).
    + by apply Forall_cons in He as [? _].
    + done.
Qed.
End pipe.

Section front_door.
Context `{ClassValidator} {DB : Type} `{!PrismaClient DB}.
Variable env : HotelEnv.
Variable request_id : string.
Variable fetch : list HttpRequest → HttpRequest → FetchResult.

(** [POST /reservation]: the pipe, then the controller. *)
Definition post_reservation (body : list (string * json)) :
    handler (Hotel DB) Failure ReservationResponseDto :=
  match ValidationPipe body with
  | Some (Returned dto) => create env request_id fetch dto
  | Some (Thrown e) => hthrow e
  | None => hthrow InternalError
  end.

(** A request the pipe refuses leaves everything as it is. *)
Lemma post_reservation_refused body msg h :
  ValidationPipe body = Some (Thrown (HttpException msg 400)) →
  post_reservation body h = (Thrown (HttpException msg 400), h).
Proof. unfold post_reservation. by intros ->. Qed.
End front_door.
