(* ===== verification/RequestLog.v ===== *)
(** * Request logs and correlation

    The middlewares that give every request of the hotel and of the broadcast
    service an identifier, echo it, and log one line when the response is
    finished; and that every call the hotel makes while it serves a request
    carries that request's identifier.  Times and durations are given as text. *)

From S2P Require Import Prelude Json JsString HotelDb HotelOutbound HotelReservation HotelReservationSpec.

(** The fields of a finished request. *)
Record Finished : Type := {
  ts : string;
  req_method : string;
  req_path : string;
  status_code : Z;
  duration_ms : string;
}.

(** (src/services/hotel/src/common/request-logger.middleware.ts:21-26 log) *)
Definition hotel_log (requestId : string) (f : Finished) : string :=
  "ts=" +:+ ts f +:+ " level=info service=hotel request_id=" +:+ requestId +:+ " method=" +:+ req_method f +:+
  " path=" +:+ req_path f +:+ " status=" +:+ show_int (status_code f) +:+ " duration_ms=" +:+ duration_ms f.

(** The identifier that is echoed, and the line.
    (src/services/broadcast/src/requestLogger.ts:13-28 requestLogger) *)
Definition broadcast_log (header : option string) (uuid : string) (f : Finished) : string * string :=
  let requestId := or_else header uuid in
  (requestId,
   "ts=" +:+ ts f +:+ " level=info service=broadcast request_id=" +:+ requestId +:+ " method=" +:+ req_method f +:+
   " path=" +:+ req_path f +:+ " status=" +:+ show_int (status_code f) +:+ " duration_ms=" +:+ duration_ms f).

(** The value of a header of a request that was sent. *)
Definition header_of (k : string) (rq : HttpRequest) : option string :=
  snd <$> find_first (λ kv, bool_decide (kv.1 = k)) rq.1.2.

Section middleware.
Context {DB : Type} `{PrismaResponsive DB}.
Variable env : HotelEnv.
Variable fetch : list HttpRequest → HttpRequest → FetchResult.

(** The response's [X-Request-Id], and the request handled in its context.
    (src/services/hotel/src/common/request-logger.middleware.ts:16-29 use) *)
Definition use (header : option string) (uuid : string) (rq : Request) (h : Hotel DB) :
    string * (outcome Failure Reply * Hotel DB) :=
  let requestId := request_id_for header uuid in
  (requestId, handle env (getRequestId (Some requestId)) fetch rq h).

(** The calls carry the identifier. *)
Definition correlated (id : string) (l : list HttpRequest) : Prop :=
  Forall (λ rq, header_of "X-Request-Id" rq = Some id) l.

Lemma asked_correlated id g : correlated id (asked env id g).
Proof.
  unfold asked. destruct (AIRPORT_SERVICE_URL env) as [url|]; [|constructor].
  destruct (truthy url); repeat constructor.
Qed.

Lemma announced_correlated id ev : correlated id (announced env id ev).
Proof.
  destruct ev as [[ty e]|]; [|constructor]. cbn. unfold published.
  destruct (BROADCAST_SERVICE_URL env) as [url|]; [|constructor].
  destruct (truthy url); repeat constructor.
Qed.

Lemma hmap_run {A B} (f : A → B) (m : handler (Hotel DB) Failure A) h :
  (hmap f m h).2 = (m h).2.
Proof. unfold hmap, hbind, hret. by destruct (m h) as [[] ?]. Qed.

(** Every call made while a request is served carries the identifier the
    response echoes: the caller's own, when it sent one that is not empty. *)
Lemma calls_correlated header uuid rq h :
  let r := use header uuid rq h in
  (∃ calls, sent r.2.2 = sent h ++ calls ∧ correlated r.1 calls) ∧
  r.1 = match header with Some id => if truthy id then id else uuid | None => uuid end.
Proof.
  cbv zeta. split; [|done]. unfold use. generalize (request_id_for header uuid) as id. intros id.
  change (getRequestId (Some id)) with id. cbn [fst snd].
  destruct rq as [dto|g|i|i]; cbn [handle]; rewrite hmap_run.
  - destruct (create env id fetch dto h) as [out h'] eqn:Hc.
    destruct (create_refines_spec env id fetch dto h out h' Hc) as (ev & _ & Hs). cbn [snd].
    exists (create_asks env id dto ++ announced env id ev). split; [exact Hs|].
    apply Forall_app_2; [|apply announced_correlated]. unfold create_asks.
    destruct (_ <=? _)%Z; [constructor|apply asked_correlated].
  - exists []. split; [|constructor]. rewrite app_nil_r. unfold findActiveByGuestId.
    unfold query, hbind, hret, hthrow. repeat case_match; by simplify_eq/=.
  - exists []. split; [|constructor]. rewrite app_nil_r. unfold findById.
    unfold query, hbind, hret, hthrow. repeat case_match; by simplify_eq/=.
  - destruct (cancel env id fetch i h) as [out h'] eqn:Hc.
    destruct (cancel_refines_spec env id fetch i h out h' Hc) as (ev & _ & Hs).
    exists (announced env id ev). split; [exact Hs|apply announced_correlated].
Qed.
End middleware.
