(* ===== verification/Bootstrap.v ===== *)
(** * How the programs start

    [services/broadcast/src/server.ts], [services/hotel/src/main.ts] with the
    module of the application and its database service, and the client's
    [main.tsx].  What the frameworks do when they are asked to start is an
    argument; what is theirs to order, the definitions order. *)

From S2P Require Import Prelude Json JsString.

(** ** The broadcast service *)

(** [process.env.PORT || 3002]: an empty text is no port.
    (src/services/broadcast/src/server.ts:9-9 PORT) *)
Definition broadcast_port (PORT : option string) : string :=
  match PORT with Some p => if truthy p then p else "3002" | None => "3002" end.

(** [dotenv.config()] runs before the port is read; it does not replace a variable
    that is set.
    (src/services/broadcast/src/server.ts:5-13 server) *)
Definition start_broadcast (file env : gmap string string) : gmap string string * string :=
  let env := env ∪ file in (env, broadcast_port (env !! "PORT")).

(** ** The hotel *)

(** (src/services/hotel/src/health/health.controller.ts:3-9 HealthController) *)
Definition health_check : json := JObj [("status", JStr "ok")].

(** [process.env.PORT ?? 3000]: an empty text stays.
    (src/services/hotel/src/main.ts:21-21 listen) *)
Definition hotel_port (PORT : option string) : string := default "3000" PORT.

(** The process: what the application was given before it listens, and the state
    of the database client. *)
Record HotelProcess : Type := MkProcess {
  validation_pipe : bool;
  logged_routes : option string;
  connected : bool;
  listening : option string;
}.

(** Constructing the application constructs the database service, which takes the
    address of the database and does not connect yet.
    (src/services/hotel/src/prisma/prisma.service.ts:10-15 constructor) *)
Definition create_application (DATABASE_URL : option string) : HotelProcess :=
  MkProcess false None false None.

(** (src/services/hotel/src/prisma/prisma.service.ts:17-19 onModuleInit) *)
Definition onModuleInit {E} (connect : outcome E unit) (p : HotelProcess) : outcome E HotelProcess :=
  match connect with
  | Returned _ => Returned (MkProcess (validation_pipe p) (logged_routes p) true (listening p))
  | Thrown e => Thrown e
  end.

(** (src/services/hotel/src/prisma/prisma.service.ts:21-23 onModuleDestroy) *)
Definition onModuleDestroy (p : HotelProcess) : HotelProcess :=
  MkProcess (validation_pipe p) (logged_routes p) false (listening p).

(** The request logger is applied to every route.
    (src/services/hotel/src/app.module.ts:20-24 configure) *)
Definition configure (p : HotelProcess) : HotelProcess :=
  MkProcess (validation_pipe p) (Some "*") (connected p) (listening p).

(** Listening initialises the application first: the modules' middleware and
    their [onModuleInit]; an error of either keeps the port closed.
    (src/services/hotel/src/main.ts:5-23 bootstrap) *)
Definition bootstrap {E} (PORT DATABASE_URL : option string) (connect : outcome E unit)
    (bind : string → outcome E unit) : outcome E HotelProcess :=
  let p := create_application DATABASE_URL in
  let p := MkProcess true (logged_routes p) (connected p) (listening p) in
  match onModuleInit connect (configure p) with
  | Thrown e => Thrown e
  | Returned p =>
      match bind (hotel_port PORT) with
      | Thrown e => Thrown e
      | Returned _ =>
          Returned (MkProcess (validation_pipe p) (logged_routes p) (connected p) (Some (hotel_port PORT)))
      end
  end.

(** ** The client *)

(** The options of the query client.
    (src/frontend/src/main.tsx:9-13 queryClient) *)
Definition queries_retry : bool := false.

(** Start the mock worker, if it is asked for.
    (src/frontend/src/main.tsx:15-20 prepare) *)
Definition prepare {E} (mock : bool) (start : outcome E unit) : outcome E unit :=
  if mock then start else Returned tt.

(** What surrounds the pages, from the outside in.
    (src/frontend/src/main.tsx:22-30 render)
    (src/frontend/src/App.tsx:6-13 App) *)
Inductive Provider : Type := StrictMode | QueryClientProvider | ThemeProvider | RouterProvider | Toaster.

(** Nothing is rendered when the worker does not start.
    (src/frontend/src/main.tsx:22-30 render)
    (src/frontend/src/App.tsx:6-13 App) *)
Definition start_client {E} (mock : bool) (start : outcome E unit) : outcome E (list Provider) :=
  match prepare mock start with
  | Thrown e => Thrown e
  | Returned _ => Returned [StrictMode; QueryClientProvider; ThemeProvider; RouterProvider; Toaster]
  end.

(** ** Facts *)

(** A hotel that listens is connected to its database, validates every body and
    logs every route; it does not listen otherwise. *)
Lemma listening_hotel_ready {E} PORT url (connect : outcome E unit) bind p :
  bootstrap PORT url connect bind = Returned p →
  p = MkProcess true (Some "*") true (Some (hotel_port PORT)) ∧ connect = Returned tt.
Proof.
  unfold bootstrap, onModuleInit. destruct connect as [[]|]; [|done]. cbn.
  by destruct (bind _) as [[]|]; [intros [= <-]|].
Qed.

(** An empty port is no port for the broadcast service, and stays one for the
    hotel. *)
Example empty_ports : broadcast_port (Some "") = "3002" ∧ hotel_port (Some "") = "".
Proof. done. Qed.

(** A variable that is set wins over the file. *)
Lemma start_broadcast_env file env k v :
  env !! k = Some v → (start_broadcast file env).1 !! k = Some v.
Proof. intros Hk. cbn. by apply lookup_union_Some_l. Qed.
