(* ===== verification/QueryClient.v ===== *)
(** * What the client's hooks ask of the query cache

    The features' hooks keep what the services answered in the cache of
    TanStack Query.  The library is the class [QueryClient], with the documented
    behaviour of the calls the hooks make; [MemCache] is a cache that has it.
    A query's key is a list; [undefined] and [null] in a key are the same key,
    as the library compares keys by their JSON. *)

From S2P Require Import Prelude Json.

(** A part of a key: a text, or [undefined] or [null]. *)
Abbreviation QueryKey := (list (option string)).

(** The keys of a prefix: what [queryKey] selects. *)
Definition selects (k k' : QueryKey) : bool := bool_decide (k `prefix_of` k').

(** A cache holds data under keys and knows which of them are out of date. *)
Class QueryClient (Cache : Type) : Type := {
  getQueryData : Cache → QueryKey → option json;
  is_stale : Cache → QueryKey → bool;
  setQueryData : QueryKey → json → Cache → Cache;
  removeQueries : QueryKey → Cache → Cache;
  invalidateQueries : QueryKey → Cache → Cache;
  get_set k v c k' : getQueryData (setQueryData k v c) k' =
    if decide (k' = k) then Some v else getQueryData c k';
  stale_set k v c k' : is_stale (setQueryData k v c) k' =
    if decide (k' = k) then false else is_stale c k';
  get_remove k c k' : getQueryData (removeQueries k c) k' =
    if selects k k' then None else getQueryData c k';
  get_invalidate k c k' : getQueryData (invalidateQueries k c) k' = getQueryData c k';
  stale_invalidate k c k' : is_stale (invalidateQueries k c) k' =
    is_stale c k' || (selects k k' && bool_decide (is_Some (getQueryData c k')));
}.

#[export] Hint Rewrite @get_set @stale_set @get_remove @get_invalidate @stale_invalidate : island_simpl.

Lemma selects_self k : selects k k = true.
Proof. by apply bool_decide_eq_true_2. Qed.

Lemma selects_app k l : selects k (k ++ l) = true.
Proof. apply bool_decide_eq_true_2. by apply prefix_app_r. Qed.

(** Keys of different features never select each other. *)
Lemma selects_head a b k k' : a ≠ b → selects (a :: k) (b :: k') = false.
Proof. intros Hne. apply bool_decide_eq_false_2. by intros ?%prefix_cons_inv_1. Qed.

(** ** A cache *)

(** Data with the mark of being out of date. *)
Definition MemCache : Type := gmap QueryKey (json * bool).

#[global, refine] Instance mem_cache_client : QueryClient MemCache := {|
  getQueryData c k := fst <$> (c : gmap QueryKey (json * bool)) !! k;
  is_stale c k := match (c : gmap QueryKey (json * bool)) !! k with Some (_, b) => b | None => false end;
  setQueryData k v c := <[k := (v, false)]> (c : gmap QueryKey (json * bool));
  removeQueries k c := filter (λ kv, selects k kv.1 = false) (c : gmap QueryKey (json * bool));
  invalidateQueries k c :=
    map_imap (λ k' x, Some (x.1, x.2 || selects k k')) (c : gmap QueryKey (json * bool));
|}.
Proof.
  - intros k v c k'. case_decide as Hk; [by subst; rewrite lookup_insert_eq|].
    by rewrite lookup_insert_ne.
  - intros k v c k'. case_decide as Hk; [by subst; rewrite lookup_insert_eq|].
    by rewrite lookup_insert_ne.
  - intros k c k'. rewrite map_lookup_filter.
    destruct (c !! k') as [x|]; cbn; [|by destruct (selects k k')].
    destruct (selects k k'); [rewrite option_guard_False by done|rewrite option_guard_True by done]; done.
  - intros k c k'. rewrite map_lookup_imap. by destruct (c !! k').
  - intros k c k'. rewrite map_lookup_imap. destruct (c !! k') as [[v b]|]; cbn.
    + by rewrite andb_true_r.
    + by rewrite andb_false_r.
Defined.
