(* ===== verification/WebData.v ===== *)
(** * What the client's components read of checked data

    The types TypeScript infers from the features' schemas, as records read from
    the data a schema keeps; what a schema accepts can be read. *)

From S2P Require Import Prelude Json Zod JsString WebTypes.

(** ** Readers *)

Definition as_num (v : json) : option number := match v with JNum n => Some n | _ => None end.
Definition as_list {A} (f : json → option A) (v : json) : option (list A) :=
  match v with JArr l => mapM f l | _ => None end.
Definition as_nullable {A} (f : json → option A) (v : json) : option (option A) :=
  match v with JNull => Some None | _ => Some <$> f v end.
(** A property that must be there. *)
Definition field {A} (k : string) (f : json → option A) (d : list (string * json)) : option A :=
  jget k d ≫= f.
Definition as_fields {A} (f : list (string * json) → option A) (v : json) : option A :=
  match v with JObj d => f d | _ => None end.

(** A reader succeeds on the data a schema keeps. *)
Definition reads {A} (s : schema) (f : json → option A) : Prop :=
  ∀ v, conforms s v = true → is_Some (f (project s v)).

Fixpoint find_field (k : string) (fs : list (string * presence * schema)) :
    option (presence * schema) :=
  match fs with
  | [] => None
  | (k', p, s) :: fs => if decide (k = k') then Some (p, s) else find_field k fs
  end.

Section readers.
Context {A : Type}.
Implicit Types (f : json → option A).

Lemma reads_string : reads ZString as_string.
Proof. intros [] ?; done. Qed.
Lemma reads_enum vs : reads (ZEnum vs) as_string.
Proof. intros [] ?; done. Qed.
Lemma reads_bool : reads ZBool as_bool.
Proof. intros [] ?; done. Qed.
Lemma reads_number : reads ZNumber as_num.
Proof. intros [] ?; done. Qed.
Lemma reads_int : reads ZInt as_int.
Proof. intros [| |n| | |] ?; try done. by destruct n. Qed.
Lemma reads_int_min lo : reads (ZIntMin lo) as_int.
Proof. intros [| |n| | |] ?; try done. by destruct n. Qed.

Lemma reads_nullable s f : reads s f → reads (ZNullable s) (as_nullable f).
Proof.
  intros Hs v Hv. assert (is_Some (as_nullable f (project s v)) ∨ v = JNull) as [H| ->].
  - destruct v; try (by right); left; destruct (Hs _ Hv) as [x Hx]; unfold as_nullable;
      case_match; rewrite ?Hx; by eexists.
  - destruct v; try exact H. by eexists.
  - by eexists.
Qed.

Lemma reads_list s f : reads s f → reads (ZArray s) (as_list f).
Proof.
  intros Hs v Hv. destruct v as [| | | |l|]; try done. cbn in Hv |- *.
  apply mapM_is_Some, Forall_fmap, Forall_forall. intros x Hx. apply Hs.
  rewrite forallb_forall in Hv. by apply Hv, list_elem_of_In.
Qed.

Lemma find_field_elem k fs p s : find_field k fs = Some (p, s) → (k, p, s) ∈ fs.
Proof.
  induction fs as [|[[k' p'] s'] fs IH]; cbn; [done|]. case_decide; [|set_solver].
  intros [= -> ->]. subst. set_solver.
Qed.

Lemma reads_field fs kvs k s f :
  find_field k fs = Some (Required, s) → bool_decide (NoDup (field_names fs)) = true →
  fields_ok fs kvs = true → reads s f → is_Some (field k f (fields_data fs kvs)).
Proof.
  intros Hk%find_field_elem Hnd%bool_decide_eq_true Hok Hs. unfold field.
  rewrite (jget_fields_data _ _ _ _ _ Hnd Hk). pose proof (fields_ok_elem _ _ _ _ _ Hok Hk) as Hf.
  destruct (jget k kvs) as [v|]; [|done].
  destruct v; cbn in Hf |- *; by apply Hs.
Qed.

Lemma reads_object strict fs (g : list (string * json) → option A) :
  (∀ kvs, fields_ok fs kvs = true → is_Some (g (fields_data fs kvs))) →
  reads (ZObject strict fs) (as_fields g).
Proof.
  intros Hg v (kvs & -> & Hok & _)%conforms_object_inv. rewrite project_object. by apply Hg.
Qed.
End readers.

Create HintDb reads.
#[export] Hint Resolve reads_string reads_enum reads_bool reads_number reads_int reads_int_min
  reads_nullable reads_list : reads.

(** Read the fields of a parsed object one by one. *)
Ltac read_fields :=
  apply reads_object; intros kvs Hok;
  repeat match goal with
  | |- is_Some (field ?k ?f (fields_data ?fs ?kvs) ≫= _) =>
      let x := fresh "x" in let Hx := fresh "Hx" in
      assert (is_Some (field k f (fields_data fs kvs))) as [x Hx]
        by (eapply reads_field; [reflexivity|by vm_compute|exact Hok|by eauto with reads]);
      rewrite Hx; cbn [mbind option_bind]; clear x Hx || clear Hx
  end;
  by eexists.

(** ** Hotel *)

(** (src/frontend/src/features/hotel/types.ts:65-65 Reservation) *)
Record Reservation : Type := MkReservation {
  res_id : string;
  res_guest_id : string;
  res_room_id : string;
  res_room_type : string;
  res_guest_count : Z;
  res_check_in_day : Z;
  res_check_out_day : Z;
  res_status : string;
}.
Definition read_reservation : json → option Reservation := as_fields (λ d,
  a ← field "id" as_string d; b ← field "guest_id" as_string d; c ← field "room_id" as_string d;
  e ← field "room_type" as_string d; f ← field "guest_count" as_int d;
  g ← field "check_in_day" as_int d; h ← field "check_out_day" as_int d;
  i ← field "status" as_string d; Some (MkReservation a b c e f g h i)).

(** The parsed room, with the field the transform adds.
    (src/frontend/src/features/hotel/types.ts:63-63 Room) *)
Record Room : Type := MkRoom {
  rm_id : string;
  rm_type : string;
  rm_capacity : Z;
  rm_price_per_night : Z;
  rm_current_guests : Z;
  rm_occupancy : Z;
}.
(** (src/frontend/src/features/hotel/types.ts:33-33 transform) *)
Definition with_occupancy (id type : string) (capacity price current : Z) : Room :=
  MkRoom id type capacity price current current.
Definition read_room : json → option Room := as_fields (λ d,
  a ← field "id" as_string d; b ← field "type" as_string d; c ← field "capacity" as_int d;
  e ← field "price_per_night" as_int d; f ← field "current_guests" as_int d;
  Some (with_occupancy a b c e f)).
Definition read_rooms : json → option (list Room) := as_fields (field "rooms" (as_list read_room)).

Lemma reads_reservation : reads ReservationSchema read_reservation.
Proof. read_fields. Qed.
Lemma reads_room : reads RoomSchema read_room.
Proof. read_fields. Qed.
#[export] Hint Resolve reads_reservation reads_room : reads.
Lemma reads_rooms : reads RoomsResponseSchema read_rooms.
Proof.
  apply reads_object. intros kvs Hok.
  eapply reads_field; [reflexivity|by vm_compute|exact Hok|by eauto with reads].
Qed.

(** ** Airport *)

(** (src/frontend/src/features/airport/types.ts:62-62 PostArrivalResponse) *)
Record PostArrivalResponse : Type := MkPostArrival {
  pa_guest_id : string;
  pa_gate : string;
  pa_position : Z;
  pa_queue_size : Z;
  pa_queued_at : number;
}.
Definition read_post_arrival : json → option PostArrivalResponse := as_fields (λ d,
  a ← field "guest_id" as_string d; b ← field "gate" as_string d; c ← field "position" as_int d;
  e ← field "queue_size" as_int d; f ← field "queued_at" as_num d;
  Some (MkPostArrival a b c e f)).

(** (src/frontend/src/features/airport/types.ts:63-63 ArrivalStatus) *)
Record ArrivalStatus : Type := MkArrival {
  ar_guest_id : string;
  ar_status : string;
  ar_gate : string;
  ar_position : option Z;
  ar_queued_at : number;
  ar_processed_at : option number;
  ar_wait_time_seconds : option number;
}.
Definition read_arrival : json → option ArrivalStatus := as_fields (λ d,
  a ← field "guest_id" as_string d; b ← field "status" as_string d; c ← field "gate" as_string d;
  e ← field "position" (as_nullable as_int) d; f ← field "queued_at" as_num d;
  g ← field "processed_at" (as_nullable as_num) d;
  h ← field "wait_time_seconds" (as_nullable as_num) d;
  Some (MkArrival a b c e f g h)).

(** (src/frontend/src/features/airport/types.ts:34-46 QueuedGuestSchema) *)
Record QueuedGuest : Type := MkQueuedGuest {
  qg_guest_id : string;
  qg_name : string;
  qg_surname : string;
  qg_passport_type : string;
  qg_priority : string;
  qg_disability : bool;
  qg_status : string;
  qg_gate : string;
  qg_position : Z;
  qg_queued_at : number;
  qg_wait_time_seconds : number;
}.
Definition read_queued_guest : json → option QueuedGuest := as_fields (λ d,
  a ← field "guest_id" as_string d; b ← field "name" as_string d; c ← field "surname" as_string d;
  e ← field "passport_type" as_string d; f ← field "priority" as_string d;
  g ← field "disability" as_bool d; h ← field "status" as_string d; i ← field "gate" as_string d;
  j ← field "position" as_int d; k ← field "queued_at" as_num d;
  l ← field "wait_time_seconds" as_num d;
  Some (MkQueuedGuest a b c e f g h i j k l)).

(** (src/frontend/src/features/airport/types.ts:65-65 GateStatus) *)
Record GateStatus : Type := MkGate {
  gt_gate_id : string;
  gt_gate_type : string;
  gt_queue_size : Z;
  gt_queue : list QueuedGuest;
}.
Definition read_gate : json → option GateStatus := as_fields (λ d,
  a ← field "gate_id" as_string d; b ← field "gate_type" as_string d;
  c ← field "queue_size" as_int d; e ← field "queue" (as_list read_queued_guest) d;
  Some (MkGate a b c e)).

(** (src/frontend/src/features/airport/types.ts:64-64 QueueResponse) *)
Record QueueResponse : Type := MkQueue {
  qr_gates : list GateStatus;
  qr_total_queued : Z;
  qr_current_game_time : number;
}.
Definition read_queue : json → option QueueResponse := as_fields (λ d,
  a ← field "gates" (as_list read_gate) d; b ← field "total_queued" as_int d;
  c ← field "current_game_time" as_num d; Some (MkQueue a b c)).

Lemma reads_post_arrival : reads PostArrivalResponseSchema read_post_arrival.
Proof. read_fields. Qed.
Lemma reads_arrival_status : reads ArrivalStatusValue as_string.
Proof. apply reads_enum. Qed.
#[export] Hint Resolve reads_arrival_status : reads.
Lemma reads_arrival : reads ArrivalStatusSchema read_arrival.
Proof. read_fields. Qed.
Lemma reads_queued_guest : reads QueuedGuestSchema read_queued_guest.
Proof. read_fields. Qed.
#[export] Hint Resolve reads_queued_guest : reads.
Lemma reads_gate : reads GateStatusSchema read_gate.
Proof. read_fields. Qed.
#[export] Hint Resolve reads_gate : reads.
Lemma reads_queue : reads QueueResponseSchema read_queue.
Proof. read_fields. Qed.

(** ** Crab and goat farm *)

(** (src/frontend/src/features/crab/types.ts:38-38 MenuItem) *)
Record MenuItem : Type := MkMenuItem {
  mi_id : string;
  mi_name : string;
  mi_emoji : string;
  mi_description : string;
  mi_price : Z;
  mi_available : bool;
  mi_remaining : option Z;
}.
Definition read_menu_item : json → option MenuItem := as_fields (λ d,
  a ← field "id" as_string d; b ← field "name" as_string d; c ← field "emoji" as_string d;
  e ← field "description" as_string d; f ← field "price" as_int d;
  g ← field "available" as_bool d; h ← field "remaining" (as_nullable as_int) d;
  Some (MkMenuItem a b c e f g h)).
(** (src/frontend/src/features/crab/types.ts:39-39 MenuResponse) *)
Definition read_menu : json → option (list MenuItem) :=
  as_fields (field "items" (as_list read_menu_item)).

(** (src/frontend/src/features/goat-farm/types.ts:27-27 GoatStockItem) *)
Record GoatStockItem : Type := MkGoatItem {
  gs_id : string;
  gs_name : string;
  gs_stock : Z;
  gs_max_stock : Z;
}.
Definition read_goat_item : json → option GoatStockItem := as_fields (λ d,
  a ← field "id" as_string d; b ← field "name" as_string d; c ← field "stock" as_int d;
  e ← field "max_stock" as_int d; Some (MkGoatItem a b c e)).
(** (src/frontend/src/features/goat-farm/types.ts:28-28 GoatStockResponse) *)
Record GoatStock : Type := MkGoatStock {
  goat_items : list GoatStockItem;
  next_restock_at : string;
  seconds_until_restock : Z;
}.
Definition read_goat_stock : json → option GoatStock := as_fields (λ d,
  a ← field "items" (as_list read_goat_item) d; b ← field "next_restock_at" as_string d;
  c ← field "seconds_until_restock" as_int d; Some (MkGoatStock a b c)).

Lemma reads_menu_item : reads MenuItemSchema read_menu_item.
Proof. read_fields. Qed.
Lemma reads_goat_item : reads GoatStockItemSchema read_goat_item.
Proof. read_fields. Qed.
#[export] Hint Resolve reads_menu_item reads_goat_item : reads.
Lemma reads_menu : reads MenuResponseSchema read_menu.
Proof.
  apply reads_object. intros kvs Hok.
  eapply reads_field; [reflexivity|by vm_compute|exact Hok|by eauto with reads].
Qed.
Lemma reads_goat_stock : reads GoatStockResponseSchema read_goat_stock.
Proof. read_fields. Qed.
