(* ===== verification/HotelView.v ===== *)
(** * The hotel in the web client

    [features/hotel]: the reservation form and what it sends, the hooks that
    book and cancel over the query cache, the panel, and the administrator's
    summary of the rooms.  The calendar of [date-fns] and [Date] is the class
    [Calendar]; instants are milliseconds. *)

From Stdlib Require Import QArith Qminmax Lqa.
From S2P Require Import Prelude Json Zod JsString WebTypes WebApi WebLib WebData QueryClient.
From S2P Require Simulation.

(** ** The calendar *)

(** Instants in local time.  [calendar_day] numbers the days, so that
    [differenceInDays(startOfDay(a), startOfDay(b))] is the difference of the
    numbers; [differenceInDays(a, b)] counts the full days between two
    instants, and a day is full once the time of day is reached again. *)
Class Calendar : Type := {
  calendar_day : Z → Z;
  time_of_day : Z → Z;
  differenceInDays : Z → Z → Z;
  addDays : Z → Z → Z;
  calendar_day_mono a b : (a ≤ b)%Z → (calendar_day a ≤ calendar_day b)%Z;
  differenceInDays_spec a b : (b ≤ a)%Z →
    differenceInDays a b =
    (calendar_day a - calendar_day b - if time_of_day a <? time_of_day b then 1 else 0)%Z;
  addDays_day a n : calendar_day (addDays a n) = (calendar_day a + n)%Z;
}.

Definition DAY_MS : Z := 86400000.

(** A place whose clocks are [offset] milliseconds ahead of universal time. *)
#[refine] Definition zoned (offset : Z) : Calendar := {|
  calendar_day t := ((t + offset) / DAY_MS)%Z;
  time_of_day t := ((t + offset) mod DAY_MS)%Z;
  differenceInDays a b := Z.quot (a - b) DAY_MS;
  addDays t n := (t + n * DAY_MS)%Z;
|}.
Proof.
  - intros a b H. apply Z.div_le_mono; unfold DAY_MS; lia.
  - intros a b H. unfold DAY_MS. rewrite Z.quot_div_nonneg by lia.
    pose proof (Z.div_mod (a + offset) 86400000). pose proof (Z.div_mod (b + offset) 86400000).
    pose proof (Z.mod_pos_bound (a + offset) 86400000). pose proof (Z.mod_pos_bound (b + offset) 86400000).
    destruct (Z.ltb_spec ((a + offset) mod 86400000) ((b + offset) mod 86400000)).
    + symmetry. apply (Z.div_unique_pos _ _ _ ((a + offset) mod 86400000 - (b + offset) mod 86400000 + 86400000)); lia.
    + symmetry. apply (Z.div_unique_pos _ _ _ ((a + offset) mod 86400000 - (b + offset) mod 86400000)); lia.
  - intros a n. unfold DAY_MS. replace (a + n * 86400000 + offset)%Z with (a + offset + n * 86400000)%Z by lia.
    by rewrite Z.div_add by lia.
Defined.

Definition utc : Calendar := zoned 0.

(** ** The form *)

(** What the form holds; a date input that was cleared holds [undefined].
    (src/frontend/src/features/hotel/hooks/use-reservation-form.ts:22-30 useForm) *)
Record ReservationForm : Type := MkForm {
  room_type : string;
  guest_count : Z;
  check_in_date : option Z;
  check_out_date : option Z;
}.

(** (src/frontend/src/features/hotel/schemas/reservation-form-schema.ts:20-20 ReservationFormValues) *)
Record ReservationFormValues : Type := MkValues {
  v_room_type : string;
  v_guest_count : Z;
  v_check_in_date : Z;
  v_check_out_date : Z;
}.

(** The object under the refinement.
    (src/frontend/src/features/hotel/schemas/reservation-form-schema.ts:9-14 object) *)
Definition form_object (f : ReservationForm) : option ReservationFormValues :=
  match check_in_date f, check_out_date f with
  | Some i, Some o =>
      if conforms RoomTypeSchema (JStr (room_type f))
         && conforms (ZIntMin 1) (JNum (NumZ (guest_count f)))
      then Some (MkValues (room_type f) (guest_count f) i o) else None
  | _, _ => None
  end.

(** The refinement is checked once the object is right.
    (src/frontend/src/features/hotel/schemas/reservation-form-schema.ts:8-18 ReservationFormSchema) *)
Definition ReservationFormSchema (f : ReservationForm) :
    option (list (string * string) + ReservationFormValues) :=
  match form_object f with
  | None => None
  | Some values =>
      Some (if (v_check_in_date values <? v_check_out_date values)%Z then inr values
            else inl [("check_out_date", "Check-out must be after check-in")])
  end.

(** What is changed on the form, while nothing is being submitted.
    (src/frontend/src/features/hotel/components/guest-stepper.tsx:10-41 GuestStepper) *)
Definition stepper_down_disabled (disabled : bool) (value : Z) : bool := disabled || (value <=? 1)%Z.
(** (src/frontend/src/features/hotel/components/guest-stepper.tsx:36-38 unit) *)
Definition stepper_unit (value : Z) : string := if (value =? 1)%Z then "guest" else "guests".

(** (src/frontend/src/features/hotel/components/room-type-picker.tsx:7-14 ROOM_TYPE_OPTIONS) *)
Definition ROOM_TYPE_OPTIONS : list (string * (string * string)) :=
  [("STANDARD", ("Standard", "1 queen bed")); ("DELUXE", ("Deluxe", "1 king bed"));
   ("SUITE", ("Suite", "King + lounge"))].

(** The buttons of the picker: value, label, sub-label and whether it is selected.
    (src/frontend/src/features/hotel/components/room-type-picker.tsx:21-70 RoomTypePicker) *)
Definition RoomTypePicker (value : string) : list (string * string * string * bool) :=
  (λ ty, let '(label, sub) := default ("", "")
           (snd <$> find_first (λ e, bool_decide (e.1 = ty)) ROOM_TYPE_OPTIONS) in
         (ty, label, sub, bool_decide (value = ty))) <$> ROOM_TYPES.

Inductive FormEvent : Type :=
  | PickRoom (index : nat)
  | StepDown
  | StepUp
  | PickCheckIn (date : option Z)
  | PickCheckOut (date : option Z).

(** A disabled button does nothing. *)
Definition form_event (e : FormEvent) (f : ReservationForm) : ReservationForm :=
  match e with
  | PickRoom i =>
      match ROOM_TYPES !! i with
      | Some ty => MkForm ty (guest_count f) (check_in_date f) (check_out_date f)
      | None => f
      end
  | StepDown =>
      if stepper_down_disabled false (guest_count f) then f
      else MkForm (room_type f) (guest_count f - 1) (check_in_date f) (check_out_date f)
  | StepUp => MkForm (room_type f) (guest_count f + 1) (check_in_date f) (check_out_date f)
  | PickCheckIn d => MkForm (room_type f) (guest_count f) d (check_out_date f)
  | PickCheckOut d => MkForm (room_type f) (guest_count f) (check_in_date f) d
  end.

Section dates.
Context `{Calendar}.
(** [new Date(env.simulationStartTime)]. *)
Variable anchorMs : Z.

(** (src/frontend/src/features/hotel/hooks/use-reservation-form.ts:24-29 defaultValues) *)
Definition default_form (now : Z) : ReservationForm :=
  MkForm "STANDARD" 1 (Some now) (Some (addDays now 1)).

(** (src/frontend/src/features/hotel/schemas/reservation-form-schema.ts:22-33 formToRequest) *)
Definition formToRequest (values : ReservationFormValues) (guestId : string) :
    Simulation.ReservationBody := {|
  Simulation.q_guest_id := guestId;
  Simulation.q_room_type := v_room_type values;
  Simulation.q_guest_count := v_guest_count values;
  Simulation.q_check_in_day := dateToSimulationDay anchorMs calendar_day (v_check_in_date values);
  Simulation.q_check_out_day := dateToSimulationDay anchorMs calendar_day (v_check_out_date values)
|}.

(** (src/frontend/src/features/hotel/components/reservation-form.tsx:37-42 nights) *)
Definition nights (f : ReservationForm) : option Z :=
  match check_in_date f, check_out_date f with
  | Some i, Some o => if (i <? o)%Z then Some (differenceInDays o i) else None
  | _, _ => None
  end.

(** The text of the submit button.
    (src/frontend/src/features/hotel/components/reservation-form.tsx:101-120 Button) *)
Definition submit_text (isSubmitting : bool) (f : ReservationForm) : string :=
  if isSubmitting then "Booking…"
  else match nights f with
       | Some n => if (n =? 0)%Z then "Book room"
                   else "Book " +:+ show_int n +:+ " night" +:+ (if (1 <? n)%Z then "s" else "")
       | None => "Book room"
       end.

(** A date field: the local day of the date it holds, and the date a day picked
    in it becomes, which is that day's midnight in universal time.
    (src/frontend/src/features/hotel/components/date-field.tsx:27-34 Controller) *)
Definition DateField (value : option Z) : option Z := calendar_day <$> value.
(** (src/frontend/src/features/hotel/components/date-field.tsx:31-31 onChange) *)
Definition valueAsDate (day : option Z) : option Z := (λ d, d * DAY_MS)%Z <$> day.

(** *** Facts *)

Definition form_inv (f : ReservationForm) : Prop :=
  room_type f ∈ ROOM_TYPES ∧ (1 ≤ guest_count f)%Z.

Lemma form_event_inv e f : form_inv f → form_inv (form_event e f).
Proof.
  intros [Hr Hg]. destruct e as [i| | |d|d]; cbn [form_event]; try done.
  - destruct (ROOM_TYPES !! i) eqn:E; [|done]. split; [by eapply list_elem_of_lookup_2|done].
  - unfold stepper_down_disabled. cbn [orb]. destruct (Z.leb_spec (guest_count f) 1); [done|].
    split; [done|]. cbn. lia.
  - split; [done|]. cbn. lia.
Qed.

Lemma form_events_inv l now : form_inv (foldl (λ f e, form_event e f) (default_form now) l).
Proof.
  induction l as [|e l IH] using rev_ind; [split; [set_solver|done]|].
  rewrite foldl_app. by apply form_event_inv.
Qed.

(** A form its components filled in is wrong only in its dates. *)
Lemma form_valid f :
  form_inv f → (guest_count f ≤ max_safe_integer)%Z →
  ReservationFormSchema f =
  match check_in_date f, check_out_date f with
  | Some i, Some o =>
      Some (if (i <? o)%Z then inr (MkValues (room_type f) (guest_count f) i o)
            else inl [("check_out_date", "Check-out must be after check-in")])
  | _, _ => None
  end.
Proof.
  intros [Hr Hg] Hs. unfold ReservationFormSchema, form_object.
  destruct (check_in_date f) as [i|], (check_out_date f) as [o|]; try done.
  assert (conforms RoomTypeSchema (JStr (room_type f)) = true) as -> by by apply bool_decide_eq_true.
  assert (conforms (ZIntMin 1) (JNum (NumZ (guest_count f))) = true) as ->.
  { cbn. rewrite !bool_decide_true; [done|lia|]. unfold max_safe_integer in *. lia. }
  done.
Qed.

(** What a valid form sends: the days never run backwards, and the nights on the
    button are the days sent, or one less when the time of day at check-out
    comes before the one at check-in. *)
Lemma formToRequest_days f values g :
  ReservationFormSchema f = Some (inr values) →
  let b := formToRequest values g in
  let sent := (Simulation.q_check_out_day b - Simulation.q_check_in_day b)%Z in
  (0 ≤ sent)%Z ∧
  nights f = Some (sent - if (time_of_day (v_check_out_date values) <? time_of_day (v_check_in_date values))%Z
                          then 1 else 0)%Z.
Proof.
  unfold ReservationFormSchema, form_object, nights. intros Hf.
  destruct (check_in_date f) as [i|], (check_out_date f) as [o|]; try done.
  destruct (_ && _); [|done]. cbn [v_check_in_date v_check_out_date] in Hf.
  destruct (Z.ltb_spec i o) as [Hlt|]; [|done]. simplify_eq. cbn.
  unfold dateToSimulationDay. pose proof (calendar_day_mono i o ltac:(lia)). split; [lia|].
  rewrite differenceInDays_spec by lia. f_equal. lia.
Qed.
End dates.

(** East of Greenwich a date field shows the day that was picked, west of it the
    day before. *)
Lemma DateField_zoned offset day :
  (- DAY_MS < offset < DAY_MS)%Z →
  DateField (H := zoned offset) (valueAsDate (Some day)) =
  Some (if (offset <? 0)%Z then day - 1 else day)%Z.
Proof.
  intros Ho. unfold DateField, valueAsDate. cbn. unfold DAY_MS in *. f_equal.
  rewrite Z.add_comm, Z.div_add by lia.
  destruct (Z.ltb_spec offset 0).
  - assert (offset / 86400000 = -1)%Z as ->; [|lia].
    symmetry. apply (Z.div_unique_pos _ _ _ (offset + 86400000)); lia.
  - rewrite Z.div_small by lia. lia.
Qed.
