(* ===== verification/HotelForm.v ===== *)
(** * The hotel's form as it is drawn

    [features/hotel/components/reservation-form.tsx] with its date fields,
    stepper and picker over the state the form library keeps: what is shown, what
    can be pressed, when a refusal appears and goes, and how the badge of nights and
    the button agree with what the form sends. *)

From S2P Require Import Prelude Json Zod JsString WebTypes WebLib HotelView.
From S2P Require Simulation.

(** ** The fields *)

(** (src/frontend/src/features/hotel/components/date-field.tsx:7-13 DateFieldProps) *)
Record DateFieldView : Type := MkDateField {
  df_name : string; df_label : string; df_day : option Z; df_error : option string; df_disabled : bool }.

(** [error && ...]: no message, and the empty one, leave nothing. *)
Definition shown_error (e : option string) : option string :=
  e ≫= λ m, if truthy m then Some m else None.

(** (src/frontend/src/features/hotel/components/guest-stepper.tsx:4-8 GuestStepperProps) *)
Record StepperView : Type := MkStepper {
  st_down_disabled : bool; st_value : Z; st_up_disabled : bool; st_unit : string }.

(** (src/frontend/src/features/hotel/components/guest-stepper.tsx:10-41 GuestStepper) *)
Definition GuestStepper (value : Z) (disabled : bool) : StepperView :=
  MkStepper (stepper_down_disabled disabled value) value disabled (stepper_unit value).

Record FormView : Type := MkFormView {
  fv_rooms : list (string * string * string * bool);
  fv_rooms_disabled : bool;
  fv_check_in : DateFieldView;
  fv_badge : option string;
  fv_check_out : DateFieldView;
  fv_guests : StepperView;
  fv_guests_error : option string;
  fv_submit_disabled : bool;
  fv_submit_text : string;
}.

Section form.
Context `{Calendar}.

(** (src/frontend/src/features/hotel/components/date-field.tsx:15-40 DateField) *)
Definition DateFieldElement (name label : string) (value : option Z) (error : option string)
    (disabled : bool) : DateFieldView :=
  MkDateField name label (DateField value) (shown_error error) disabled.

(** What is drawn of the form's values, with the errors its state holds.
    (src/frontend/src/features/hotel/components/reservation-form.tsx:24-122 ReservationForm) *)
Definition ReservationFormElement (errors : gmap string string) (isSubmitting : bool)
    (f : ReservationForm) : FormView := {|
  fv_rooms := RoomTypePicker (room_type f);
  fv_rooms_disabled := isSubmitting;
  fv_check_in := DateFieldElement "check_in_date" "Check-in" (check_in_date f)
                   (errors !! "check_in_date") isSubmitting;
  fv_badge := (λ n, show_int n +:+ "n") <$> nights f;
  fv_check_out := DateFieldElement "check_out_date" "Check-out" (check_out_date f)
                    (errors !! "check_out_date") isSubmitting;
  fv_guests := GuestStepper (guest_count f) isSubmitting;
  fv_guests_error := errors !! "guest_count";
  fv_submit_disabled := isSubmitting;
  fv_submit_text := submit_text isSubmitting f;
|}.

(** ** The form in use

    The library that keeps the form validates when it is submitted, the whole
    form by its schema, and from then on every change made through a
    [Controller], of which it renews only the error of the field that changed;
    [setValue], through which the stepper works, validates nothing. *)

Inductive UseEvent : Type :=
  | Use (e : FormEvent)
  | PressSubmit.

(** [form]: its values, [formState.isSubmitted] and [formState.errors].
    (src/frontend/src/features/hotel/hooks/use-reservation-form.ts:22-30 form) *)
Record FormState : Type := MkFormState {
  values : ReservationForm;
  isSubmitted : bool;
  errors : gmap string string;
}.

Definition fresh_form (now : Z) : FormState := MkFormState (default_form now) false ∅.

(** What the schema's object says of a field it refuses is the schema library's. *)
Variable issue_message : string → ReservationForm → string.

Definition field_issue (name : string) (f : ReservationForm) (ok : bool) : gmap string string :=
  if ok then ∅ else {[ name := issue_message name f ]}.

Definition present (date : option Z) : bool := match date with Some _ => true | None => false end.

(** The first issue of every field.  The refinement is skipped when the object is
    not of its shape; a number out of range leaves it the shape.
    (src/frontend/src/features/hotel/schemas/reservation-form-schema.ts:8-18 ReservationFormSchema) *)
Definition schema_errors (f : ReservationForm) : gmap string string :=
  let room := conforms RoomTypeSchema (JStr (room_type f)) in
  field_issue "room_type" f room ∪
  field_issue "guest_count" f (conforms (ZIntMin 1) (JNum (NumZ (guest_count f)))) ∪
  field_issue "check_in_date" f (present (check_in_date f)) ∪
  field_issue "check_out_date" f (present (check_out_date f)) ∪
  match check_in_date f, check_out_date f with
  | Some i, Some o =>
      if room && negb (i <? o)%Z then {[ "check_out_date" := "Check-out must be after check-in" ]} else ∅
  | _, _ => ∅
  end.

(** [form.handleSubmit], whose valid values go to [mutation.mutate].
    (src/frontend/src/features/hotel/hooks/use-reservation-form.ts:55-55 onSubmit) *)
Definition handleSubmit (s : FormState) : FormState :=
  MkFormState (values s) true (schema_errors (values s)).

(** The field whose [Controller] hands over a change; the stepper has none.
    (src/frontend/src/features/hotel/components/room-type-picker.tsx:23-36 Controller)
    (src/frontend/src/features/hotel/components/date-field.tsx:25-32 Controller)
    (src/frontend/src/features/hotel/components/reservation-form.tsx:89-93 GuestStepper) *)
Definition controlled_field (e : FormEvent) : option string :=
  match e with
  | PickRoom _ => Some "room_type"
  | PickCheckIn _ => Some "check_in_date"
  | PickCheckOut _ => Some "check_out_date"
  | StepDown | StepUp => None
  end.

(** The error of one field renewed. *)
Definition revalidate (name : string) (f : ReservationForm) (errs : gmap string string) : gmap string string :=
  match schema_errors f !! name with
  | Some m => <[name := m]> errs
  | None => delete name errs
  end.

Definition handle_change (e : FormEvent) (s : FormState) : FormState :=
  let f := form_event e (values s) in
  MkFormState f (isSubmitted s)
    (match controlled_field e with
     | Some name => if isSubmitted s then revalidate name f (errors s) else errors s
     | None => errors s
     end).

Definition form_view (isSubmitting : bool) (s : FormState) : FormView :=
  ReservationFormElement (errors s) isSubmitting (values s).

(** The control an event is made with takes it; a form whose button is disabled is
    not submitted by a key either. *)
Definition takes (v : FormView) (e : UseEvent) : bool :=
  match e with
  | Use (PickRoom i) => negb (fv_rooms_disabled v) && bool_decide (i < length (fv_rooms v))
  | Use StepDown => negb (st_down_disabled (fv_guests v))
  | Use StepUp => negb (st_up_disabled (fv_guests v))
  | Use (PickCheckIn _) => negb (df_disabled (fv_check_in v))
  | Use (PickCheckOut _) => negb (df_disabled (fv_check_out v))
  | PressSubmit => negb (fv_submit_disabled v)
  end.

(** What using the form does to it. *)
Definition use_form (isSubmitting : bool) (e : UseEvent) (s : FormState) : FormState :=
  if takes (form_view isSubmitting s) e then
    match e with Use e => handle_change e s | PressSubmit => handleSubmit s end
  else s.

(** A form in use, each event at a time with or without a request pending. *)
Definition form_run (es : list (bool * UseEvent)) (s : FormState) : FormState :=
  foldl (λ s '(pending, e), use_form pending e s) s es.

(** ** Facts *)

(** Nothing can be changed while a request is pending: what is answered is what
    the form shows. *)
Lemma pending_form_is_kept e s : use_form true e s = s.
Proof. by destruct e as [[]|]. Qed.

(** Otherwise the form changes as its events say. *)
Lemma idle_form_follows e s : values (use_form false (Use e) s) = form_event e (values s).
Proof.
  unfold use_form. destruct e as [i| | |d|d]; try done.
  - cbn [takes form_view ReservationFormElement fv_rooms_disabled fv_rooms negb andb].
    case_bool_decide as Hi; [done|]. cbn [form_event].
    destruct (ROOM_TYPES !! i) eqn:E; [|done]. apply lookup_lt_Some in E. contradict Hi.
    unfold RoomTypePicker. by rewrite length_fmap.
  - cbn [takes form_view ReservationFormElement fv_guests GuestStepper st_down_disabled form_event].
    destruct (stepper_down_disabled false (guest_count (values s))) eqn:Hd; cbn [negb];
      [done|]. unfold handle_change. cbn [values form_event]. by rewrite Hd.
Qed.

Lemma idle_submit s : use_form false PressSubmit s = handleSubmit s.
Proof. done. Qed.

Lemma form_run_snoc es pending e s :
  form_run (es ++ [(pending, e)]) s = use_form pending e (form_run es s).
Proof. unfold form_run. by rewrite foldl_app. Qed.

Lemma form_run_inv es now : form_inv (values (form_run es (fresh_form now))).
Proof.
  induction es as [|[pending e] es IH] using rev_ind; [split; [set_solver|done]|].
  rewrite form_run_snoc. unfold use_form. case_match; [|done].
  destruct e as [e|]; [by apply form_event_inv|done].
Qed.

(** Before a submit nothing is found wrong. *)
Lemma unsubmitted_no_errors es now :
  isSubmitted (form_run es (fresh_form now)) = false → errors (form_run es (fresh_form now)) = ∅.
Proof.
  induction es as [|[pending e] es IH] using rev_ind; [done|].
  rewrite form_run_snoc. unfold use_form. case_match; [|done].
  destruct e as [e|]; [|done]. cbn. intros Hs. rewrite Hs. rewrite IH by done. by destruct e.
Qed.

(** A submit that is taken is remembered. *)
Lemma isSubmitted_iff es s :
  isSubmitted s = false →
  isSubmitted (form_run es s) = true ↔ (false, PressSubmit) ∈ es.
Proof.
  intros Hs. induction es as [|[pending e] es IH] using rev_ind.
  - cbn. rewrite Hs. split; [done|]. by intros ?%not_elem_of_nil.
  - rewrite form_run_snoc, elem_of_app, list_elem_of_singleton, <-IH. unfold use_form.
    destruct pending, e as [e|]; cbn [takes form_view ReservationFormElement fv_submit_disabled negb].
    + case_match; cbn; split; intros; naive_solver.
    + naive_solver.
    + case_match; cbn; naive_solver.
    + cbn. naive_solver.
Qed.

(** A form its components filled in lacks a date or has its dates in the wrong
    order. *)
Lemma schema_errors_spec f :
  form_inv f → (guest_count f ≤ max_safe_integer)%Z →
  schema_errors f =
  match check_in_date f, check_out_date f with
  | Some i, Some o =>
      if (i <? o)%Z then ∅ else {[ "check_out_date" := "Check-out must be after check-in" ]}
  | i, o =>
      field_issue "check_in_date" f (present i) ∪
      field_issue "check_out_date" f (present o)
  end.
Proof.
  intros [Hr Hg] Hs. unfold schema_errors.
  assert (conforms RoomTypeSchema (JStr (room_type f)) = true) as -> by by apply bool_decide_eq_true.
  assert (conforms (ZIntMin 1) (JNum (NumZ (guest_count f))) = true) as ->.
  { cbn. rewrite !bool_decide_true; [done|lia|]. unfold max_safe_integer in *. lia. }
  destruct (check_in_date f) as [i|], (check_out_date f) as [o|]; cbn [present field_issue andb];
    rewrite ?(left_id_L ∅ (∪)), ?(right_id_L ∅ (∪)); [|done..].
  by destruct (i <? o)%Z.
Qed.

(** One button of the picker is selected, the room's. *)
Lemma one_room_selected f errs sub :
  form_inv f →
  (λ b, b.1.1.1) <$> filter (λ b, b.2 = true) (fv_rooms (ReservationFormElement errs sub f)) = [room_type f].
Proof.
  intros [Hr _]. cbn [ReservationFormElement fv_rooms]. revert Hr. generalize (room_type f) as r. intros r Hr.
  unfold ROOM_TYPES in Hr. set_unfold in Hr. by destruct Hr as [-> |[-> |[-> |[]]]].
Qed.

(** The badge is there exactly for the forms the schema accepts. *)
Lemma badge_iff_valid errs sub f :
  form_inv f → (guest_count f ≤ max_safe_integer)%Z →
  is_Some (fv_badge (ReservationFormElement errs sub f)) ↔ ∃ v, ReservationFormSchema f = Some (inr v).
Proof.
  intros Hi Hg. cbn [ReservationFormElement fv_badge]. rewrite form_valid by done. unfold nights.
  destruct (check_in_date f) as [i|], (check_out_date f) as [o|]; cbn.
  2-4: by split; [intros []|intros []].
  destruct (i <? o)%Z; cbn; [split; by eauto|by split; [intros []|intros [? [=]]]].
Qed.

(** What the schema finds wrong with two dates, it finds beneath the check-out. *)
Lemma schema_errors_dated f i o :
  form_inv f → (guest_count f ≤ max_safe_integer)%Z →
  check_in_date f = Some i → check_out_date f = Some o →
  schema_errors f = if (i <? o)%Z then ∅ else {[ "check_out_date" := "Check-out must be after check-in" ]}.
Proof. intros Hf Hg Hi Ho. rewrite schema_errors_spec by done. by rewrite Hi, Ho. Qed.

(** The errors of a form just submitted are the schema's: a missing date beneath its
    field, and dates in the wrong order beneath the check-out. *)
Lemma submitted_errors_shown sub s :
  form_inv (values s) → (guest_count (values s) ≤ max_safe_integer)%Z →
  let v := form_view sub (handleSubmit s) in
  fv_guests_error v = None ∧
  df_error (fv_check_in v) =
    (if decide (is_Some (check_in_date (values s))) then None
     else shown_error (Some (issue_message "check_in_date" (values s)))) ∧
  df_error (fv_check_out v) =
    (if decide (check_out_date (values s) = None) then
       shown_error (Some (issue_message "check_out_date" (values s)))
     else if decide (is_Some (fv_badge v) ∨ check_in_date (values s) = None) then None
     else Some "Check-out must be after check-in").
Proof.
  intros Hf Hg v.
  assert (fv_badge v = (λ n, show_int n +:+ "n") <$> nights (values s)) as -> by done.
  subst v. unfold form_view, handleSubmit. cbn [errors values ReservationFormElement fv_check_out fv_check_in
    fv_guests_error DateFieldElement df_error].
  rewrite schema_errors_spec by done. unfold nights, field_issue.
  destruct (check_in_date (values s)) as [i|], (check_out_date (values s)) as [o|]; cbn [present].
  - rewrite (decide_False (P := Some o = None)) by done.
    by destruct (i <? o)%Z; split_and!.
  - rewrite ?(left_id_L ∅ (∪)), ?(right_id_L ∅ (∪)). by split_and!.
  - rewrite ?(left_id_L ∅ (∪)), ?(right_id_L ∅ (∪)). by split_and!.
  - by split_and!.
Qed.

Lemma no_errors_shown sub s :
  errors s = ∅ →
  let v := form_view sub s in
  df_error (fv_check_in v) = None ∧ df_error (fv_check_out v) = None ∧ fv_guests_error v = None.
Proof. intros Hs v. subst v. unfold form_view. rewrite Hs. by split_and!. Qed.

Lemma shown_error_Some sub s m :
  df_error (fv_check_out (form_view sub s)) = Some m → errors s !! "check_out_date" = Some m.
Proof.
  unfold form_view. cbn [ReservationFormElement fv_check_out DateFieldElement df_error].
  unfold shown_error. destruct (errors s !! "check_out_date") as [m'|]; [|done]. cbn.
  by case_match.
Qed.

(** A change renews the error of its own field and no other. *)
Lemma change_renews e s name :
  isSubmitted s = true →
  errors (handle_change e s) !! name =
    if decide (controlled_field e = Some name) then schema_errors (form_event e (values s)) !! name
    else errors s !! name.
Proof.
  intros Hs. unfold handle_change. cbn [errors]. rewrite Hs.
  destruct (controlled_field e) as [n|] eqn:Hc; [|by rewrite decide_False].
  unfold revalidate. destruct (decide (n = name)) as [->|Hne].
  - rewrite decide_True by done. destruct (schema_errors (form_event e (values s)) !! name) eqn:He.
    + by rewrite lookup_insert_eq.
    + by rewrite lookup_delete_eq.
  - rewrite decide_False by congruence. destruct (schema_errors (form_event e (values s)) !! n);
      [by rewrite lookup_insert_ne|by rewrite lookup_delete_ne].
Qed.

(** The badge says the nights of the button, but for the stays of less than a day:
    there the badge says none and the button does not count. *)
Lemma badge_and_button errs f n :
  nights f = Some n →
  let v := ReservationFormElement errs false f in
  fv_badge v = Some (show_int n +:+ "n") ∧
  fv_submit_text v =
    (if (n =? 0)%Z then "Book room"
     else "Book " +:+ show_int n +:+ " night" +:+ (if (1 <? n)%Z then "s" else "")).
Proof. intros Hn v. subst v. cbn. unfold submit_text. by rewrite Hn. Qed.

(** A refusal beneath the check-out stays there when the check-in is moved. *)
Lemma refusal_goes_stale s i o :
  isSubmitted s = true → errors s !! "check_out_date" = Some "Check-out must be after check-in" →
  check_out_date (values s) = Some o → (i < o)%Z →
  let v := form_view false (use_form false (Use (PickCheckIn (Some i))) s) in
  is_Some (fv_badge v) ∧ df_error (fv_check_out v) = Some "Check-out must be after check-in".
Proof.
  intros Hs He Ho Hlt v. subst v. unfold use_form. cbn [takes form_view ReservationFormElement fv_check_in
    DateFieldElement df_disabled negb].
  unfold form_view. cbn [ReservationFormElement fv_badge fv_check_out DateFieldElement df_error].
  rewrite change_renews by done. rewrite decide_False by done. rewrite He.
  cbn [handle_change values form_event]. unfold nights. cbn [check_in_date check_out_date].
  rewrite Ho. apply Z.ltb_lt in Hlt. rewrite Hlt. split; [by eexists|done].
Qed.

(** Picking the check-out renews it. *)
Lemma check_out_renews s i o :
  form_inv (values s) → (guest_count (values s) ≤ max_safe_integer)%Z → isSubmitted s = true →
  check_in_date (values s) = Some i →
  let v := form_view false (use_form false (Use (PickCheckOut (Some o))) s) in
  df_error (fv_check_out v) =
    (if decide (is_Some (fv_badge v)) then None else Some "Check-out must be after check-in").
Proof.
  intros Hf Hg Hs Hi v. subst v. unfold use_form. cbn [takes form_view ReservationFormElement fv_check_out
    DateFieldElement df_disabled negb].
  unfold form_view. cbn [ReservationFormElement fv_badge fv_check_out DateFieldElement df_error].
  rewrite change_renews by done. rewrite decide_True by done.
  rewrite (schema_errors_dated _ i o); [|by apply form_event_inv|done..].
  cbn [handle_change values form_event]. unfold nights. cbn [check_in_date check_out_date].
  rewrite Hi. by destruct (i <? o)%Z.
Qed.
End form.

(** At noon, with the next day picked as the check-out, the badge says that there
    is no night in between, and one night is booked. *)
Lemma badge_misses_a_night :
  let f := MkForm "STANDARD" 1 (Some (12 * 3600000)%Z) (Some DAY_MS) in
  let v := ReservationFormElement (H := utc) ∅ false f in
  fv_badge v = Some "0n" ∧ fv_submit_text v = "Book room" ∧
  (Simulation.q_check_out_day (formToRequest (H := utc) 0 (MkValues "STANDARD" 1 (12 * 3600000) DAY_MS) "g") -
   Simulation.q_check_in_day (formToRequest (H := utc) 0 (MkValues "STANDARD" 1 (12 * 3600000) DAY_MS) "g") = 1)%Z.
Proof. by vm_compute. Qed.
