(* ===== verification/HotelPanel.v ===== *)
(** * The hotel's panel in the web client

    [features/hotel/components/hotel-panel.tsx] with its two hooks, as a machine
    over the query cache: a form is submitted, a reservation is shown, cancelled
    and read again; and the administrator's summary of the rooms. *)

From Stdlib Require Import QArith Qminmax Lqa.
From S2P Require Import Prelude Json Zod JsString WebTypes WebApi WebLib WebData QueryClient HotelView.
From S2P Require Simulation.

(** ** Texts of a reservation *)

(** The four fields of a card, given the text of a day.
    (src/frontend/src/features/hotel/components/reservation-fields.tsx:8-38 ReservationFields) *)
Definition ReservationFields (day_text : Z → string) (r : Reservation) : list (string * string) :=
  [("Check-in", day_text (res_check_in_day r));
   ("Check-out", day_text (res_check_out_day r));
   ("Room type", formatRoomType (res_room_type r));
   ("Guests", show_int (res_guest_count r) +:+ " guest" +:+
      (if decide (res_guest_count r ≠ 1%Z) then "s" else ""))].

(** The texts of a card: header, badge, title, subtitle and fields.
    (src/frontend/src/features/hotel/components/reservation-card.tsx:3-10 ReservationCardProps) *)
Record Card : Type := MkCard {
  headerLabel : string;
  headerBadge : string;
  card_title : string;
  card_subtitle : string;
  card_fields : list (string * string);
}.

(** (src/frontend/src/features/hotel/components/active-reservation-card.tsx:15-31 ActiveReservationCard) *)
Definition ActiveReservationCard (day_text : Z → string) (r : Reservation) : Card :=
  MkCard "Room Reservation" "Confirmed" (res_room_id r)
    (formatRoomType (res_room_type r) +:+ " room") (ReservationFields day_text r).

(** (src/frontend/src/features/hotel/components/active-reservation-card.tsx:32-50 footer) *)
Definition cancel_text (isCancelling : bool) : string :=
  if isCancelling then "Cancelling…" else "Cancel reservation".

(** (src/frontend/src/features/hotel/components/reservation-result.tsx:11-28 ReservationResult) *)
Definition ReservationResult (day_text : Z → string) (r : Reservation) : Card :=
  MkCard "Booking Confirmed" (formatRoomType (res_room_type r)) (res_room_id r)
    "Resort guest · confirmed" (ReservationFields day_text r).

(** ** The panel of a guest *)

(** (src/frontend/src/features/hotel/query-keys.ts:1-4 HOTEL_KEYS) *)
Definition RESERVATION_KEY (guest_id : option string) : QueryKey :=
  [Some "hotel"; Some "reservation"; Some "by-guest"; guest_id].
(** (src/frontend/src/features/hotel/query-keys.ts:1-4 HOTEL_KEYS) *)
Definition ROOMS_KEY : QueryKey := [Some "hotel"; Some "rooms"].

Inductive HotelPanelView : Type :=
  | Spinner
  | ReservationCard (r : Reservation)
  | FormAndResult (f : ReservationForm) (result : option Reservation).

Section panel.
Context `{Calendar} {Cache : Type} `{!QueryClient Cache}.
Variable anchorMs : Z.
Variable guest_id : string.

(** The form, the cache, whether the reservation is being fetched, the hook's
    state, the variables of the two mutations while they are pending, and the
    messages shown as toasts.
    (src/frontend/src/features/hotel/hooks/use-reservation-form.ts:17-30 useReservationForm) *)
Record HotelUi : Type := MkUi {
  form : ReservationForm;
  cache : Cache;
  fetching : bool;
  confirmed : option Reservation;
  submitting : option Simulation.ReservationBody;
  cancelling : option string;
  toasts : list string;
}.

(** [query.data ?? null].
    (src/frontend/src/features/hotel/hooks/use-active-reservation.ts:43-43 reservation) *)
Definition reservation (s : HotelUi) : option Reservation :=
  getQueryData (cache s) (RESERVATION_KEY (Some guest_id)) ≫= read_reservation.

(** A query is loading while it is fetched for the first time.
    (src/frontend/src/features/hotel/hooks/use-active-reservation.ts:44-44 isLoading) *)
Definition isLoading (s : HotelUi) : bool :=
  fetching s && bool_decide (getQueryData (cache s) (RESERVATION_KEY (Some guest_id)) = None).

(** What a guest who has landed sees.
    (src/frontend/src/features/hotel/components/hotel-panel.tsx:38-71 HotelPanel) *)
Definition hotel_view (s : HotelUi) : HotelPanelView :=
  if isLoading s then Spinner
  else match reservation s with
       | Some r => ReservationCard r
       | None => FormAndResult (form s) (confirmed s)
       end.

Definition set_confirmed (c : option Reservation) (s : HotelUi) : HotelUi :=
  MkUi (form s) (cache s) (fetching s) c (submitting s) (cancelling s) (toasts s).

(** (src/frontend/src/features/hotel/hooks/use-reservation-form.ts:32-36 mutationFn) *)
Definition submit (values : ReservationFormValues) (s : HotelUi) : HotelUi :=
  MkUi (form s) (cache s) (fetching s) (confirmed s)
    (Some (formToRequest anchorMs values guest_id)) (cancelling s) (toasts s).

(** (src/frontend/src/features/hotel/hooks/use-reservation-form.ts:37-47 onSuccess) *)
Definition post_success (data : json) (r : Reservation) (s : HotelUi) : HotelUi :=
  MkUi (form s)
    (invalidateQueries ROOMS_KEY (setQueryData (RESERVATION_KEY (Some guest_id)) data (cache s)))
    (fetching s) (Some r) None (cancelling s) (toasts s).

(** (src/frontend/src/features/hotel/hooks/use-reservation-form.ts:48-50 onError) *)
Definition post_error (message : string) (s : HotelUi) : HotelUi :=
  MkUi (form s) (cache s) (fetching s) (confirmed s) None (cancelling s) (toasts s ++ [message]).

(** [onCancel]: the mutation starts, then [resetConfirmed].
    (src/frontend/src/features/hotel/components/hotel-panel.tsx:49-52 onCancel) *)
Definition onCancel (id : string) (s : HotelUi) : HotelUi :=
  set_confirmed None
    (MkUi (form s) (cache s) (fetching s) (confirmed s) (submitting s) (Some id) (toasts s)).

(** (src/frontend/src/features/hotel/hooks/use-active-reservation.ts:26-36 onSuccess) *)
Definition cancel_success (s : HotelUi) : HotelUi :=
  MkUi (form s)
    (invalidateQueries ROOMS_KEY (removeQueries (RESERVATION_KEY (Some guest_id)) (cache s)))
    (fetching s) (confirmed s) (submitting s) None (toasts s).

(** (src/frontend/src/features/hotel/hooks/use-active-reservation.ts:37-39 onError) *)
Definition cancel_error (message : string) (s : HotelUi) : HotelUi :=
  MkUi (form s) (cache s) (fetching s) (confirmed s) (submitting s) None (toasts s ++ [message]).

(** The query starts and ends; an error keeps the data there was. *)
Definition fetch_starts (s : HotelUi) : HotelUi :=
  MkUi (form s) (cache s) true (confirmed s) (submitting s) (cancelling s) (toasts s).
Definition fetch_ends (data : option json) (s : HotelUi) : HotelUi :=
  MkUi (form s)
    match data with
    | Some v => setQueryData (RESERVATION_KEY (Some guest_id)) v (cache s)
    | None => cache s
    end
    false (confirmed s) (submitting s) (cancelling s) (toasts s).

(** What the services answer was checked, and is read. *)
Definition answered (v : json) (r : Reservation) : Prop := read_reservation v = Some r.

(** What the user and the services do.  The buttons of the form and of the card
    are there only when they are shown, and disabled while their mutation is
    pending. *)
Inductive ui_step : HotelUi → HotelUi → Prop :=
  | ui_form s e result : hotel_view s = FormAndResult (form s) result → submitting s = None →
      ui_step s (MkUi (form_event e (form s)) (cache s) (fetching s) (confirmed s) (submitting s)
        (cancelling s) (toasts s))
  | ui_submit s result values : hotel_view s = FormAndResult (form s) result → submitting s = None →
      ReservationFormSchema (form s) = Some (inr values) → ui_step s (submit values s)
  | ui_post_success s v r : is_Some (submitting s) → answered v r → ui_step s (post_success v r s)
  | ui_post_error s m : is_Some (submitting s) → ui_step s (post_error m s)
  | ui_cancel s r : hotel_view s = ReservationCard r → cancelling s = None →
      ui_step s (onCancel (res_id r) s)
  | ui_cancel_success s : is_Some (cancelling s) → ui_step s (cancel_success s)
  | ui_cancel_error s m : is_Some (cancelling s) → ui_step s (cancel_error m s)
  | ui_fetch_starts s : ui_step s (fetch_starts s)
  | ui_fetch_data s v r : answered v r → ui_step s (fetch_ends (Some v) s)
  | ui_fetch_error s : ui_step s (fetch_ends None s).

(** The panel opens with nothing cached for the guest, and fetches. *)
Definition ui_init (s : HotelUi) : Prop :=
  ∃ now c, getQueryData c (RESERVATION_KEY (Some guest_id)) = None ∧
    s = MkUi (default_form now) c true None None None [].

(** A guest who waits for an answer before starting anything else. *)
Definition patient_step (s s' : HotelUi) : Prop :=
  ui_step s s' ∧ (is_Some (submitting s') → cancelling s' = None).

(** ** Facts *)

Lemma reservation_cache s s' : cache s' = cache s → reservation s' = reservation s.
Proof. unfold reservation. by intros ->. Qed.

Lemma post_success_view v r s :
  answered v r → hotel_view (post_success v r s) = ReservationCard r.
Proof.
  intros Hr. unfold hotel_view, isLoading, reservation, post_success. cbn [cache fetching].
  rewrite get_invalidate, get_set, decide_True by done. cbn [mbind option_bind].
  rewrite Hr, bool_decide_false, andb_false_r by done. done.
Qed.

Lemma cancel_success_view s :
  hotel_view (cancel_success s) = if fetching s then Spinner else FormAndResult (form s) (confirmed s).
Proof.
  unfold hotel_view, isLoading, reservation, cancel_success. cbn [cache fetching form confirmed].
  rewrite get_invalidate, get_remove, selects_self, bool_decide_true, andb_true_r by done.
  by destruct (fetching s).
Qed.

Lemma cancel_success_reservation s : reservation (cancel_success s) = None.
Proof.
  unfold reservation, cancel_success. cbn [cache]. by rewrite get_invalidate, get_remove, selects_self.
Qed.

(** Other queries keep their data; the rooms are out of date afterwards. *)
Lemma hotel_effects_frame s v r k :
  k ≠ RESERVATION_KEY (Some guest_id) → length k ≤ 4 →
  getQueryData (cache (post_success v r s)) k = getQueryData (cache s) k ∧
  getQueryData (cache (cancel_success s)) k = getQueryData (cache s) k.
Proof.
  intros Hk Hl. unfold post_success, cancel_success. cbn [cache].
  rewrite !get_invalidate, get_set, get_remove, decide_False by done. split; [done|].
  unfold selects. rewrite bool_decide_false; [done|]. intros Hp. apply Hk. symmetry.
  apply prefix_length_eq; [done|]. exact Hl.
Qed.

Lemma rooms_stale s v r :
  is_Some (getQueryData (cache s) ROOMS_KEY) →
  is_stale (cache (post_success v r s)) ROOMS_KEY = true ∧
  is_stale (cache (cancel_success s)) ROOMS_KEY = true.
Proof.
  intros Hr. unfold post_success, cancel_success. cbn [cache].
  rewrite !stale_invalidate, selects_self, get_set, get_remove, decide_False by done.
  assert (selects (RESERVATION_KEY (Some guest_id)) ROOMS_KEY = false) as ->.
  { apply bool_decide_eq_false_2. intros Hp%prefix_length. cbn in Hp. lia. }
  rewrite bool_decide_true by done. by rewrite !orb_true_r.
Qed.

(** A reservation in the cache was read from a checked answer. *)
Definition cache_ok (s : HotelUi) : Prop :=
  ∀ v, getQueryData (cache s) (RESERVATION_KEY (Some guest_id)) = Some v → is_Some (read_reservation v).

(** Patiently used, the panel has forgotten the confirmation whenever it has no
    reservation. *)
Record ui_inv (s : HotelUi) : Prop := {
  ui_cache : cache_ok s;
  ui_confirmed : is_Some (confirmed s) → is_Some (reservation s);
  ui_cancelling : is_Some (cancelling s) → confirmed s = None ∧ submitting s = None;
  ui_form_ok : form_inv (form s);
}.

Lemma patient_step_inv s s' : ui_inv s → patient_step s s' → ui_inv s'.
Proof.
  intros [Hc Hconf Hcanc Hf] [Hstep Hpat]. destruct Hstep as
    [s e result Hv Hs|s result values Hv Hs Hval|s v r Hs Hr|s m Hs|s r Hv Hs|s Hs|s m Hs|s|s v r Hr|s].
  - constructor; cbn -[getQueryData] ; try done. by apply form_event_inv.
  - constructor; cbn -[getQueryData] ; try done. intros Hk. cbn in Hpat. rewrite Hpat in Hk by done. by destruct Hk.
  - constructor; cbn -[getQueryData] ; try done.
    + intros v'. cbn [cache post_success]. rewrite get_invalidate, get_set, decide_True by done. intros [= <-]. by eexists.
    + intros _. unfold reservation. cbn [cache post_success fetch_ends]. rewrite get_invalidate, get_set, decide_True by done.
      cbn. rewrite Hr. by eexists.
    + intros Hk. destruct (Hcanc Hk) as [_ Hn]. rewrite Hn in Hs. by destruct Hs.
  - constructor; cbn -[getQueryData] ; try done. intros Hk. by destruct (Hcanc Hk).
  - constructor; cbn -[getQueryData] ; try done; try (by intros []). intros _. split; [done|].
    destruct (submitting s) eqn:E; [|done]. cbn in Hpat. rewrite E in Hpat.
    discriminate Hpat. by eexists.
  - destruct (Hcanc Hs) as [Hn Hn']. constructor; cbn -[getQueryData] ; try done; try (by intros []).
    + intros v'. cbn [cache cancel_success]. by rewrite get_invalidate, get_remove, selects_self.
    + rewrite Hn. by intros [].
  - constructor; cbn -[getQueryData] ; try done.
  - by constructor.
  - constructor; cbn -[getQueryData] ; try done.
    + intros v'. cbn [cache fetch_ends]. rewrite get_set, decide_True by done. intros [= <-]. by eexists.
    + intros _. unfold reservation. cbn [cache post_success fetch_ends]. rewrite get_set, decide_True by done.
      cbn. rewrite Hr. by eexists.
  - by constructor.
Qed.

Lemma ui_init_inv s : ui_init s → ui_inv s.
Proof.
  intros (now & c & Hc & ->). constructor; cbn; try by intros [].
  - intros v. cbn [cache]. by rewrite Hc.
  - apply (form_events_inv [] now).
Qed.

Lemma patiently_reachable_inv s : reachable ui_init patient_step s → ui_inv s.
Proof.
  apply invariant_reachable; [apply ui_init_inv|]. intros s1 s2. apply patient_step_inv.
Qed.

Lemma ui_inv_no_result s f c : ui_inv s → hotel_view s = FormAndResult f c → c = None.
Proof.
  intros Hi. unfold hotel_view. case_match; [done|]. destruct (reservation s) as [r|] eqn:Hr; [done|].
  intros [= _ <-]. destruct (confirmed s) as [c'|] eqn:Hc; [|done].
  destruct (ui_confirmed s Hi) as [r Hr']; [by eexists|]. congruence.
Qed.
End panel.
Arguments HotelUi : clear implicits.

(** ** A confirmation that outlives its reservation *)

Section race.
#[local] Existing Instance utc.

(** While the booking is pending, a fetch already answers the reservation: the
    guest cancels it, then the booking's answer comes, then the cancellation's. *)
Definition race (g : string) (values : ReservationFormValues) (v : json) (r : Reservation)
    (s : HotelUi MemCache) : HotelUi MemCache :=
  cancel_success g (post_success g v r (onCancel (res_id r)
    (fetch_ends g (Some v) (fetch_starts (submit 0 g values (fetch_ends g None s)))))).

Lemma race_reachable (g : string) now values v r :
  answered v r → ReservationFormSchema (default_form now) = Some (inr values) →
  let s : HotelUi MemCache := MkUi (default_form now) ∅ true None None None [] in
  reachable (ui_init g) (ui_step 0 g) (race g values v r s) ∧
  hotel_view g (race g values v r s) = FormAndResult (default_form now) (Some r).
Proof.
  intros Hr Hval s.
  assert (Hcard : ∀ s' : HotelUi MemCache, fetching s' = false →
    hotel_view g (fetch_ends g (Some v) (fetch_starts s')) = ReservationCard r).
  { intros s' _. unfold hotel_view, isLoading, reservation. cbn [cache fetching fetch_ends fetch_starts].
    rewrite get_set, decide_True by done. cbn [andb mbind option_bind]. by rewrite Hr. }
  split.
  - exists s. split; [by exists now, ∅|].
    eapply rtc_l; [apply (ui_fetch_error 0 g)|].
    eapply rtc_l; [by eapply (ui_submit 0 g)|].
    eapply rtc_l; [apply (ui_fetch_starts 0 g)|].
    eapply rtc_l; [by apply (ui_fetch_data 0 g _ v r)|].
    eapply rtc_l; [apply (ui_cancel 0 g _ r); [by apply Hcard|done]|].
    eapply rtc_l; [apply (ui_post_success 0 g _ v r); [by eexists|exact Hr]|].
    eapply rtc_l; [eapply (ui_cancel_success 0 g); by eexists|]. apply rtc_refl.
  - unfold race. rewrite cancel_success_view. done.
Qed.
End race.

(** ** The administrator's summary *)

(** (src/frontend/src/features/hotel/components/hotel-admin-room-summary.tsx:12-38 ROOM_CONFIG) *)
Definition ROOM_CONFIG : list (string * (string * string * string)) :=
  [("STANDARD", ("Standard",
      "bg-emerald-500/15 text-emerald-700 dark:text-emerald-300 border-emerald-500/25",
      "bg-emerald-50/80 dark:bg-emerald-950/30 border-emerald-300/70 dark:border-emerald-700/40"));
   ("DELUXE", ("Deluxe",
      "bg-sky-500/15 text-sky-700 dark:text-sky-300 border-sky-500/25",
      "bg-sky-50/80 dark:bg-sky-950/30 border-sky-300/70 dark:border-sky-700/40"));
   ("SUITE", ("Suite",
      "bg-violet-500/15 text-violet-700 dark:text-violet-300 border-violet-500/25",
      "bg-violet-50/80 dark:bg-violet-950/30 border-violet-300/70 dark:border-violet-700/40"))].

(** The width of the bar in percent.
    (src/frontend/src/features/hotel/components/hotel-admin-room-summary.tsx:40-47 OccupancyBar) *)
Definition occupancy_pct (current capacity : Z) : Q :=
  if (0 <? capacity)%Z then Qmin (inject_Z current / inject_Z capacity * 100) 100 else 0%Q.

(** Its colour and its text.
    (src/frontend/src/features/hotel/components/hotel-admin-room-summary.tsx:49-69 OccupancyBar) *)
Definition OccupancyBar (current capacity : Z) : string * Q * string :=
  let pct := occupancy_pct current capacity in
  (if Qle_bool 100 pct then "bg-destructive" else if Qle_bool 60 pct then "bg-amber-500" else "bg-primary",
   pct, show_int current +:+ "/" +:+ show_int capacity).

Record RoomCardView : Type := MkRoomCard {
  rc_id : string;
  rc_classes : string * string;
  rc_type : string;
  rc_note : string;
  rc_badge : string;
  rc_bar : string * Q * string;
}.

(** (src/frontend/src/features/hotel/components/hotel-admin-room-summary.tsx:72-115 RoomCard) *)
Definition RoomCard (room : Room) : RoomCardView :=
  let config := default ("", "", "") (snd <$> find_first (λ e, bool_decide (e.1 = rm_type room)) ROOM_CONFIG) in
  MkRoomCard (rm_id room) (config.1.2, config.2) (formatRoomType (rm_type room))
    (show_int (rm_capacity room) +:+ " guests max · $" +:+ show_int (rm_price_per_night room) +:+ "/night")
    (if decide (rm_occupancy room = 0%Z) then "vacant" else "occupied")
    (OccupancyBar (rm_occupancy room) (rm_capacity room)).

Inductive SummaryView : Type :=
  | SummarySpinner
  | SummaryError (text : string)
  | Summary (count_text : string) (cards : list RoomCardView).

(** (src/frontend/src/features/hotel/components/hotel-admin-room-summary.tsx:117-165 HotelAdminRoomSummary) *)
Definition HotelAdminRoomSummary (loading : bool) (error : option string) (data : option (list Room)) :
    SummaryView :=
  if loading then SummarySpinner
  else match data with
       | None => SummaryError (default "Room state could not be loaded." error)
       | Some rooms =>
           let occupiedCount := length (filter (λ r, 0 < rm_occupancy r)%Z rooms) in
           Summary (show_int (Z.of_nat occupiedCount) +:+ "/" +:+ show_int (Z.of_nat (length rooms)) +:+ " occupied")
             (RoomCard <$> rooms)
       end.

Lemma occupancy_pct_bounds current capacity :
  (0 ≤ current)%Z → (0 <= occupancy_pct current capacity <= 100)%Q.
Proof.
  intros Hc. unfold occupancy_pct. destruct (Z.ltb_spec 0 capacity) as [Hcap|]; [|split; discriminate].
  split; [|apply Q.le_min_r]. apply Q.min_glb; [|discriminate].
  apply Qmult_le_0_compat; [|discriminate]. unfold Qdiv. apply Qmult_le_0_compat.
  - rewrite Zle_Qle in Hc. exact Hc.
  - apply Qinv_le_0_compat. change 0%Q with (inject_Z 0). rewrite <- Zle_Qle. lia.
Qed.

(** The bar is red exactly when the room is full. *)
Lemma occupancy_full current capacity :
  (0 < capacity)%Z → Qle_bool 100 (occupancy_pct current capacity) = true ↔ (capacity ≤ current)%Z.
Proof.
  intros Hc. rewrite Qle_bool_iff. unfold occupancy_pct. rewrite (proj2 (Z.ltb_lt _ _) Hc).
  assert (Hp : (0 < inject_Z capacity)%Q) by (change 0%Q with (inject_Z 0); by rewrite <- Zlt_Qlt).
  assert (He : (inject_Z current / inject_Z capacity * 100 == inject_Z current * 100 / inject_Z capacity)%Q)
    by (field; lra).
  rewrite Zle_Qle. rewrite Q.min_glb_iff, He. split.
  - intros [Hl _]. apply (Qmult_le_compat_r _ _ (inject_Z capacity)) in Hl; [|lra].
    rewrite (Qmult_comm (_ / _)), Qmult_div_r in Hl by lra. lra.
  - intros Hl. split; [|lra]. apply Qle_shift_div_l; [done|]. lra.
Qed.

(** The rooms counted as occupied are those whose badge says so. *)
Lemma summary_occupied rooms :
  Forall (λ r, 0 ≤ rm_occupancy r)%Z rooms →
  length (filter (λ r, 0 < rm_occupancy r)%Z rooms) =
  length (filter (λ c, rc_badge c = "occupied") (RoomCard <$> rooms)).
Proof.
  induction 1 as [|r rooms Hr _ IH]; [done|]. rewrite fmap_cons, !filter_cons.
  assert (Hiff : rc_badge (RoomCard r) = "occupied" ↔ (0 < rm_occupancy r)%Z).
  { cbn. case_decide; split; intros; [done|lia|lia|done]. }
  destruct (decide (0 < rm_occupancy r)%Z), (decide (rc_badge (RoomCard r) = "occupied")); try naive_solver;
    cbn [length]; by rewrite IH.
Qed.

(** ** The panel *)

Inductive HotelPanelRoot : Type :=
  | AdminPanel
  | NoPanel
  | NotLandedGate
  | GuestPanel (v : HotelPanelView).

(** (src/frontend/src/features/hotel/components/hotel-panel.tsx:16-38 HotelPanel) *)
Definition HotelPanel `{!QueryClient Cache} (isAdmin : bool) (guest : option string) (landed : bool)
    (s : HotelUi Cache) : HotelPanelRoot :=
  if isAdmin then AdminPanel
  else match guest with
       | None => NoPanel
       | Some id => if negb landed then NotLandedGate else GuestPanel (hotel_view id s)
       end.
