(* ===== verification/HotelFlow.v ===== *)
(** * From the reservation form to the hotel

    What the client's form sends, through the hotel's validation pipe, to the
    reservation service: a form that is valid is always an instance for the
    hotel, which refuses it for its days exactly when both dates are on one
    calendar day. *)

From S2P Require Import Prelude Json Zod JsString WebTypes WebLib.
From S2P Require Import HotelDb HotelOutbound HotelReservation HotelReservationSpec HotelBootstrap.
From S2P Require HotelView Simulation.

(** The properties of the body the client sends. *)
Definition body_fields (b : Simulation.ReservationBody) : list (string * json) :=
  match Simulation.reservation_body_json b with JObj d => d | _ => [] end.

(** The instance the hotel makes of it. *)
Definition dto_of (b : Simulation.ReservationBody) (ty : RoomType) : CreateReservationDto := {|
  c_guest_id := Simulation.q_guest_id b; c_room_type := ty;
  c_guest_count := Simulation.q_guest_count b; c_party_guest_ids := None;
  c_check_in_day := Simulation.q_check_in_day b; c_check_out_day := Simulation.q_check_out_day b |}.

Section pipe.
Context `{ClassValidator}.

Lemma body_transformed b :
  transformed CreateReservationDto_properties (body_fields b) = body_fields b.
Proof. destruct b. unfold transformed. cbn. by rewrite !transform_number. Qed.

Lemma body_accepted b ty :
  Simulation.q_room_type b = show_room_type ty → (1 ≤ Simulation.q_guest_count b)%Z →
  ValidationPipe (body_fields b) = Some (Returned (dto_of b ty)).
Proof.
  intros Ht Hn. pose proof (ValidationPipe_spec (body_fields b)) as Hp. cbv zeta in Hp.
  rewrite body_transformed in Hp.
  assert (booking_of (body_fields b) = Some (dto_of b ty)) as Hb; [|by rewrite Hb in Hp].
  destruct b as [g t n i o]. cbn in Ht, Hn. subst t. unfold booking_of.
  assert (instance (body_fields (Simulation.Build_ReservationBody g (show_room_type ty) n i o)) =
    Some (dto_of (Simulation.Build_ReservationBody g (show_room_type ty) n i o) ty)) as -> by (by destruct ty).
  by rewrite bool_decide_true.
Qed.
End pipe.

(** A room type of the client is one of the hotel's. *)
Lemma room_type_shown t : t ∈ ROOM_TYPES → ∃ ty, t = show_room_type ty.
Proof.
  unfold ROOM_TYPES. intros Ht.
  repeat (apply elem_of_cons in Ht as [->|Ht]; [first [by exists STANDARD|by exists DELUXE|by exists SUITE]|]).
  set_solver.
Qed.

Section flow.
Context `{ClassValidator} {DB : Type} `{PrismaResponsive DB} `{HotelView.Calendar}.
Variable env : HotelEnv.
Variable request_id : string.
Variable fetch : list HttpRequest → HttpRequest → FetchResult.
Variable anchorMs : Z.

(** A stay that ends after it begins is never a bad request. *)
Lemma create_not_bad dto (h : Hotel DB) msg :
  (c_check_in_day dto < c_check_out_day dto)%Z →
  (create env request_id fetch dto h).1 ≠ Thrown (HttpException msg 400).
Proof.
  intros Hd He. destruct (create env request_id fetch dto h) as [out h'] eqn:Hc. cbn in He. subst out.
  destruct (create_refines_spec env request_id fetch dto h _ h' Hc) as (ev & Hs & _).
  inversion Hs; subst; lia || done.
Qed.

(** What the hotel does with a valid form: a dto of the same fields reaches the
    service; when both dates are on one calendar day the answer is 400 and
    nothing has changed, otherwise it is never 400. *)
Lemma form_posted f values g (h : Hotel DB) :
  HotelView.form_inv f → HotelView.ReservationFormSchema f = Some (inr values) →
  let b := HotelView.formToRequest anchorMs values g in
  let answer := post_reservation env request_id fetch (body_fields b) h in
  ∃ ty, show_room_type ty = HotelView.room_type f ∧
    ValidationPipe (body_fields b) = Some (Returned (dto_of b ty)) ∧
    if decide (HotelView.calendar_day (HotelView.v_check_in_date values) =
               HotelView.calendar_day (HotelView.v_check_out_date values))
    then answer = (Thrown (HttpException "check_out_day must be greater than check_in_day" 400), h)
    else answer = create env request_id fetch (dto_of b ty) h ∧ ∀ msg, answer.1 ≠ Thrown (HttpException msg 400).
Proof.
  intros [Hr Hg] Hf. cbv zeta. destruct (room_type_shown _ Hr) as [ty Hty]. exists ty. split; [done|].
  assert (HotelView.v_room_type values = HotelView.room_type f ∧
    HotelView.v_guest_count values = HotelView.guest_count f ∧
    (HotelView.v_check_in_date values < HotelView.v_check_out_date values)%Z) as (Hrv & Hgv & Hlt).
  { unfold HotelView.ReservationFormSchema, HotelView.form_object in Hf.
    destruct (HotelView.check_in_date f), (HotelView.check_out_date f); try done.
    destruct (_ && _); [|done]. cbn in Hf. destruct (Z.ltb_spec z z0); [|done]. by simplify_eq. }
  assert (ValidationPipe (body_fields (HotelView.formToRequest anchorMs values g)) =
    Some (Returned (dto_of (HotelView.formToRequest anchorMs values g) ty))) as Hp
    by (apply body_accepted; cbn; congruence || lia).
  split; [done|]. unfold post_reservation. rewrite Hp.
  pose proof (HotelView.calendar_day_mono (HotelView.v_check_in_date values)
    (HotelView.v_check_out_date values) ltac:(lia)) as Hmono.
  case_decide as Hday.
  - unfold create. destruct (Z.leb_spec
      (c_check_out_day (dto_of (HotelView.formToRequest anchorMs values g) ty))
      (c_check_in_day (dto_of (HotelView.formToRequest anchorMs values g) ty))) as [|Hgt]; [done|].
    exfalso. cbn in Hgt. unfold dateToSimulationDay in Hgt. lia.
  - split; [done|]. intros msg. apply create_not_bad. cbn. unfold dateToSimulationDay. lia.
Qed.
End flow.
