(* ===== verification/AirportView.v ===== *)
(** * The airport in the web client

    [features/airport]: how often a guest's arrival is polled, the form that boards
    the flight, and what the panel shows to a guest and to the administrator. *)

From S2P Require Import Prelude Json Zod JsString WebTypes WebApi WebData QueryClient Session.
From S2P Require Simulation.

(** ** Polling an arrival *)

(** (src/frontend/src/lib/polling.ts:1-2 POLL_INTERVAL_MS) *)
Definition POLL_INTERVAL_MS : Z := 3000.

(** (src/frontend/src/features/airport/hooks/use-airport.ts:10-10 ARRIVAL_COMPLETE_STATUS) *)
Definition ARRIVAL_COMPLETE_STATUS : string := "processed".

(** [data?.status === ARRIVAL_COMPLETE_STATUS]. *)
Definition processed (data : option ArrivalStatus) : bool :=
  match data with Some a => bool_decide (ar_status a = ARRIVAL_COMPLETE_STATUS) | None => false end.

(** [None] stands for [false]: the query is not fetched again.
    (src/frontend/src/features/airport/hooks/use-airport.ts:18-22 arrivalRefetchInterval) *)
Definition arrivalRefetchInterval (data : option ArrivalStatus) : option Z :=
  if processed data then None else Some POLL_INTERVAL_MS.

(** (src/frontend/src/features/airport/query-keys.ts:1-4 AIRPORT_KEYS) *)
Definition ARRIVAL_KEY (guestId : option string) : QueryKey := [Some "airport"; Some "arrival"; guestId].
(** (src/frontend/src/features/airport/query-keys.ts:1-4 AIRPORT_KEYS) *)
Definition QUEUE_KEY : QueryKey := [Some "airport"; Some "queue"].

(** The data of the query, if it was fetched.
    (src/frontend/src/features/airport/hooks/use-airport.ts:30-37 useArrivalStatus) *)
Definition useArrivalStatus `{QueryClient Cache} (c : Cache) (guestId : option string) :
    option ArrivalStatus :=
  getQueryData c (ARRIVAL_KEY guestId) ≫= read_arrival.

(** (src/frontend/src/features/airport/hooks/use-airport.ts:24-28 useLanded) *)
Definition useLanded `{QueryClient Cache} (c : Cache) (s : SessionState) : bool :=
  processed (useArrivalStatus c (g_id <$> guest s)).

(** ** The form *)

(** What the form holds of a guest; an empty session leaves it without values.
    (src/frontend/src/features/airport/schemas/arrival-form-schema.ts:9-19 guestToArrivalForm) *)
Definition guestToArrivalForm (g : GuestProfile) : json := JObj
  [("guest_id", JStr (g_id g)); ("name", JStr (g_name g)); ("surname", JStr (g_surname g));
   ("age", JNum (NumZ (g_age g))); ("passport_type", JStr (Simulation.passport_text (g_passport g)));
   ("priority", JStr (Simulation.priority_text (g_priority g)));
   ("disability", JBool (g_disability g))].

Section form.
Context {Cache : Type} `{!QueryClient Cache}.
Variable session : SessionState.

(** The cache, the body being posted, the last answer and the toasts.
    (src/frontend/src/features/airport/hooks/use-arrival-form.ts:14-41 useArrivalForm) *)
Record ArrivalUi : Type := MkArrivalUi {
  ui_cache : Cache;
  ui_posting : option json;
  ui_result : option PostArrivalResponse;
  ui_toasts : list string;
}.

Definition arrivalStatus (s : ArrivalUi) : option ArrivalStatus :=
  useArrivalStatus (ui_cache s) (g_id <$> guest session).

(** [form.handleSubmit]: the values are sent when the schema accepts them, and
    the previous answer is forgotten.
    (src/frontend/src/features/airport/hooks/use-arrival-form.ts:18-23 form)
    (src/frontend/src/features/airport/hooks/use-arrival-form.ts:37-37 onSubmit) *)
Definition arrival_submit (s : ArrivalUi) : ArrivalUi :=
  match guestToArrivalForm <$> guest session with
  | Some values =>
      if conforms PostArrivalRequestSchema values
      then MkArrivalUi (ui_cache s) (Some (project PostArrivalRequestSchema values)) None (ui_toasts s)
      else s
  | None => s
  end.

(** (src/frontend/src/features/airport/hooks/use-arrival-form.ts:25-30 onSuccess) *)
Definition arrival_posted (r : PostArrivalResponse) (s : ArrivalUi) : ArrivalUi :=
  MkArrivalUi (invalidateQueries (ARRIVAL_KEY (g_id <$> guest session)) (ui_cache s)) None (Some r)
    (ui_toasts s).

(** (src/frontend/src/features/airport/hooks/use-arrival-form.ts:31-33 onError) *)
Definition arrival_failed (message : string) (s : ArrivalUi) : ArrivalUi :=
  MkArrivalUi (ui_cache s) None (ui_result s) (ui_toasts s ++ [message]).

(** The query is fetched; an error keeps the data. *)
Definition arrival_fetched (data : option json) (s : ArrivalUi) : ArrivalUi :=
  match data with
  | Some v => MkArrivalUi (setQueryData (ARRIVAL_KEY (g_id <$> guest session)) v (ui_cache s))
                (ui_posting s) (ui_result s) (ui_toasts s)
  | None => s
  end.

(** ** What the panel shows *)

(** (src/frontend/src/features/airport/components/arrival-form-result.tsx:4-26 ArrivalFormResult) *)
Definition ArrivalFormResult (r : PostArrivalResponse) : list string :=
  ["Queued"; "Gate " +:+ pa_gate r;
   "Position #" +:+ show_int (pa_position r) +:+ " of " +:+ show_int (pa_queue_size r)].

(** (src/frontend/src/features/airport/components/arrival-status.tsx:5-51 ArrivalStatusCard) *)
Definition ArrivalStatusCard (a : ArrivalStatus) : list string :=
  if decide (ar_status a = "processed")
  then ["Cleared at gate " +:+ ar_gate a; "You're on the island."]
  else [if decide (ar_status a = "processing") then "Processing" else "Queued"; "Gate " +:+ ar_gate a]
       ++ match ar_position a with Some n => ["Position #" +:+ show_int n] | None => [] end.

(** Badge, name, subtitle and the four fields.
    (src/frontend/src/features/airport/components/boarding-pass.tsx:11-61 BoardingPass) *)
Definition BoardingPass (g : GuestProfile) : string * string * string * list (string * string) :=
  (match g_priority g with fast => "Fast Pass" | standard => "Standard" end,
   g_name g +:+ " " +:+ g_surname g, "Resort guest · " +:+ g_id g,
   [("Passport", Simulation.passport_text (g_passport g)); ("Age", show_int (g_age g));
    ("Priority", Simulation.priority_text (g_priority g));
    ("Access", if g_disability g then "Accessible" else "Standard")]).

Inductive AirportBody : Type :=
  | StatusCard (texts : list string)
  | BoardForm (disabled : bool) (label : string) (result : option (list string)).

Inductive AirportView : Type :=
  | AirportAdmin
  | AirportGuest (pass : option (string * string * string * list (string * string))) (body : AirportBody).

(** (src/frontend/src/features/airport/components/airport-panel.tsx:15-68 AirportPanel) *)
Definition AirportPanel (s : ArrivalUi) : AirportView :=
  if useIsAdmin session then AirportAdmin
  else AirportGuest (BoardingPass <$> guest session)
         match arrivalStatus s with
         | Some a => StatusCard (ArrivalStatusCard a)
         | None =>
             let submitting := bool_decide (is_Some (ui_posting s)) in
             BoardForm submitting (if submitting then "Joining queue…" else "Board the flight")
               (ArrivalFormResult <$> ui_result s)
         end.

(** *** Facts *)

(** The form's values are what the simulator sends for the same guest, and the
    schema accepts them for every guest whose age is a safe integer. *)
Lemma arrival_form_body g : guestToArrivalForm g = Simulation.guestToArrivalBody g.
Proof. done. Qed.

Lemma arrival_form_ok g :
  (1 ≤ g_age g ≤ max_safe_integer)%Z →
  conforms PostArrivalRequestSchema (guestToArrivalForm g) = true ∧
  project PostArrivalRequestSchema (guestToArrivalForm g) = guestToArrivalForm g.
Proof.
  destruct g as [i n sn age p pr d av pe]. cbn [g_age]. intros Ha.
  assert (is_safe_int (NumZ age) = true) as Hs by (apply bool_decide_eq_true; lia).
  assert (int_at_least 1 (NumZ age) = true) as Hl by (apply bool_decide_eq_true; lia).
  split; [|by destruct p, pr].
  destruct p, pr; cbv -[is_safe_int int_at_least]; by rewrite Hs, Hl.
Qed.
End form.
Arguments ArrivalUi : clear implicits.

(** ** The administrator's queues *)

(** (src/frontend/src/features/airport/components/airport-gate-card.tsx:4-4 MAX_VISIBLE_GUESTS) *)
Definition MAX_VISIBLE_GUESTS : nat := 5.

(** A row: position, name, whether it is marked for accessibility, priority.
    (src/frontend/src/features/airport/components/airport-gate-card.tsx:55-84 guest) *)
Definition gate_row (q : QueuedGuest) : string * string * bool * string :=
  ("#" +:+ show_int (qg_position q), qg_name q +:+ " " +:+ qg_surname q, qg_disability q, qg_priority q).

Record GateCard : Type := MkGateCard {
  gc_title : string;
  gc_id : string;
  gc_note : string;
  gc_size : Z;
  gc_rows : list (string * string * bool * string);
  gc_footer : option string;
}.

(** (src/frontend/src/features/airport/components/airport-gate-card.tsx:6-98 AirportGateCard) *)
Definition AirportGateCard (g : GateStatus) : GateCard :=
  let isEu := bool_decide (gt_gate_type g = "EU") in
  MkGateCard (if isEu then "EU Gate" else "Non-EU Gate") (gt_gate_id g)
    (if isEu then "European passports" else "All other passports") (gt_queue_size g)
    (gate_row <$> take MAX_VISIBLE_GUESTS (gt_queue g))
    (if decide (0 < length (gt_queue g))
     then if decide (MAX_VISIBLE_GUESTS < length (gt_queue g))
          then Some ("+" +:+ show_int (Z.of_nat (length (gt_queue g) - MAX_VISIBLE_GUESTS)) +:+ " more")
          else None
     else Some "No guests queued.").

Inductive QueueView : Type :=
  | QueueSpinner
  | QueueError (text : string)
  | QueueSummary (total : string) (cards : list GateCard).

(** (src/frontend/src/features/airport/components/airport-admin-queue-summary.tsx:7-52 AirportAdminQueueSummary) *)
Definition AirportAdminQueueSummary (loading : bool) (error : option string)
    (queue : option QueueResponse) : QueueView :=
  if loading then QueueSpinner
  else match queue with
       | None => QueueError (default "Queue state could not be loaded." error)
       | Some q => QueueSummary (show_int (qr_total_queued q + 1) +:+ " total")
                     (AirportGateCard <$> qr_gates q)
       end.

(** What a card leaves out is what its footer counts. *)
Lemma gate_card_rows g :
  length (gc_rows (AirportGateCard g)) = Nat.min 5 (length (gt_queue g)) ∧
  (gc_footer (AirportGateCard g) = None ↔ 0 < length (gt_queue g) ≤ 5) ∧
  (5 < length (gt_queue g) → gc_footer (AirportGateCard g) =
     Some ("+" +:+ show_int (Z.of_nat (length (gt_queue g)) - Z.of_nat (length (gc_rows (AirportGateCard g))))
           +:+ " more")).
Proof.
  cbn. unfold MAX_VISIBLE_GUESTS. rewrite length_fmap, length_take. split; [done|]. split.
  - repeat case_decide; split; intros; try done; lia.
  - intros Hl. rewrite !decide_True by lia. do 4 f_equal. lia.
Qed.

(** The header's total is one more than the guests on the cards, when the airport
    reports the sizes of its queues. *)
Lemma queue_total q :
  Forall (λ g, gt_queue_size g = Z.of_nat (length (gt_queue g))) (qr_gates q) →
  qr_total_queued q = Z.of_nat (sum_list_with (λ g, length (gt_queue g)) (qr_gates q)) →
  ∃ cards, AirportAdminQueueSummary false None (Some q) =
    QueueSummary (show_int (sum_with gc_size cards + 1) +:+ " total") cards.
Proof.
  intros Hs Ht. exists (AirportGateCard <$> qr_gates q). cbn. do 3 f_equal. rewrite Ht. clear Ht.
  induction Hs as [|g gs Hg _ IH]; [done|]. cbn. rewrite Hg. unfold sum_with in IH. lia.
Qed.
