(* ===== verification/ParrotConversations.v ===== *)
(** * The administrator's view of the parrot's conversations

    [features/parrot]: the hooks of [hooks/use-parrot-admin.ts] over the class
    [UseQuery], the metrics, the list and the transcript they feed, and the
    panel as a machine over the queries it observes. *)

From S2P Require Import Prelude Json JsString JsonText Session WebLib QueryClient QueryObserver.
From S2P Require Import ParrotAdmin.
From S2P Require ParrotChat ChatView AirportView.

(** ** Answers

    The counters of the answers, which the parrot counts, are integers here;
    instants are numbers of seconds. *)

(** (src/frontend/src/features/parrot/types.ts:47-47 AdminMetricsResponse) *)
Record AdminMetrics : Type := MkMetrics {
  total_conversations : Z; max_conversations : Z; total_messages : Z;
  total_user_turns : Z; total_assistant_turns : Z;
  tool_calls_total : Z; tool_calls_by_name : list Entry;
  tool_errors_total : Z; fallback_total : Z; censored_messages_total : Z;
  conversations_with_fallback : Z; conversations_with_tool_error : Z; conversations_with_censored : Z;
}.

(** The fields of [ConversationStats] and its extension that the row reads.
    (src/frontend/src/features/parrot/types.ts:68-68 ConversationSummary) *)
Record ConversationSummary : Type := MkSummary {
  summary_guest_id : string; summary_last_accessed : number;
  summary_turns : Z; summary_total_messages : Z; summary_tool_calls_total : Z;
  has_tool_error : bool; has_fallback : bool; has_censored : bool;
}.

(** (src/frontend/src/features/parrot/types.ts:74-76 ConversationsListResponse) *)
Record ConversationsList : Type := MkConversations { conversations : list ConversationSummary }.

(** (src/frontend/src/features/parrot/types.ts:100-102 ConversationTranscriptResponse) *)
Record ConversationTranscript : Type := MkTranscript {
  transcript_last_accessed : number; transcript_entries : list TranscriptEntry }.

(** ** Hooks *)

(** (src/frontend/src/features/parrot/query-keys.ts:1-7 PARROT_KEYS) *)
Definition ADMIN_METRICS_KEY : QueryKey := [Some "parrot"; Some "admin"; Some "metrics"].
(** (src/frontend/src/features/parrot/query-keys.ts:1-7 PARROT_KEYS) *)
Definition CONVERSATIONS_KEY : QueryKey := [Some "parrot"; Some "admin"; Some "conversations"].
(** (src/frontend/src/features/parrot/hooks/use-parrot-admin.ts:38-43 useParrotConversationTranscript) *)
Definition CONVERSATION_KEY (guestId : option string) : QueryKey :=
  [Some "parrot"; Some "admin"; Some "conversation"; guestId].

(** The queries are polled whatever they answer.
    (src/frontend/src/features/parrot/hooks/use-parrot-admin.ts:10-15 useParrotMetrics)
    (src/frontend/src/features/parrot/hooks/use-parrot-admin.ts:24-29 useParrotConversations) *)
Definition admin_refetchInterval : Z := AirportView.POLL_INTERVAL_MS.

(** What is shown of a query. *)
Inductive Loadable (A : Type) : Type :=
  | LoadingView
  | ErrorView (message : string)
  | ReadyView (a : A).
Arguments LoadingView {A}.
Arguments ErrorView {A} message.
Arguments ReadyView {A} a.

Section views.
Context `{UseQuery Query}.

(** [formatDistanceToNow(date, { addSuffix: true })] of the date library, at the
    time of the render. *)
Variable formatDistanceToNow : number → string.
(** The profiles of [data/guests.json]. *)
Variable guests : list GuestProfile.

(** [epochSeconds * 1000]. *)
Definition milliseconds (epochSeconds : number) : number :=
  match epochSeconds with
  | NumZ z => NumZ (z * 1000)
  | NumDec d p => make_number d (3 - Z.of_nat p)
  | n => n
  end.

(** (src/frontend/src/lib/format.ts:7-11 formatRelativeFromEpoch) *)
Definition formatRelativeFromEpoch (epochSeconds : number) : string :=
  formatDistanceToNow (milliseconds epochSeconds).

(** What a hook hands to its component.
    (src/frontend/src/features/parrot/hooks/use-parrot-admin.ts:17-21 useParrotMetrics)
    (src/frontend/src/features/parrot/hooks/use-parrot-admin.ts:45-49 useParrotConversationTranscript) *)
Definition hook_result {A} (q : Query A) : bool * option A * option string :=
  (query_isLoading q, query_data q, query_error q).

(** (src/frontend/src/features/parrot/hooks/use-parrot-admin.ts:31-35 useParrotConversations) *)
Definition conversations_of (q : Query ConversationsList) : list ConversationSummary :=
  match query_data q with Some l => conversations l | None => [] end.

(** ** Metrics *)

(** (src/frontend/src/features/parrot/components/parrot-stat-card.tsx:1-23 ParrotStatCard) *)
Record StatCard : Type := MkStat { stat_label : string; stat_value : string; stat_hint : option string }.

Record MetricsView : Type := MkMetricsView {
  metrics_cards : list StatCard;
  metrics_breakdown : option (list Bar);
  metrics_quality : list QualityItem;
}.

(** (src/frontend/src/features/parrot/components/parrot-metrics.tsx:41-70 ParrotMetrics) *)
Definition metrics_view (m : AdminMetrics) : MetricsView :=
  MkMetricsView
    [MkStat "Conversations" (show_int (total_conversations m))
       (Some ("of " +:+ show_int (max_conversations m)));
     MkStat "Messages" (show_int (total_messages m)) None;
     MkStat "Turns" (show_int (total_user_turns m) +:+ " / " +:+ show_int (total_assistant_turns m))
       (Some "user / assistant");
     MkStat "Tool calls" (show_int (tool_calls_total m)) None]
    (ParrotToolBreakdown (tool_calls_by_name m))
    (ParrotQualityRow (tool_errors_total m, conversations_with_tool_error m)
       (fallback_total m, conversations_with_fallback m)
       (censored_messages_total m, conversations_with_censored m)).

(** (src/frontend/src/features/parrot/components/parrot-metrics.tsx:14-39 ParrotMetrics) *)
Definition ParrotMetrics (q : Query AdminMetrics) : Loadable MetricsView :=
  let '(isLoading, metrics, errorMessage) := hook_result q in
  if isLoading then LoadingView
  else match metrics with
       | None => ErrorView (default "Metrics could not be loaded." errorMessage)
       | Some m => ReadyView (metrics_view m)
       end.

(** ** The list *)

Record RowView : Type := MkRow {
  row_guest : string; row_title : string; row_when : string; row_counts : string;
  row_badges : list string; row_selected : bool;
}.

(** (src/frontend/src/features/parrot/components/parrot-conversation-row.tsx:13-63 ParrotConversationRow) *)
Definition ParrotConversationRow (c : ConversationSummary) (isSelected : bool) : RowView :=
  MkRow (summary_guest_id c) (resolveGuestName guests (summary_guest_id c))
    (formatRelativeFromEpoch (summary_last_accessed c))
    (show_int (summary_turns c) +:+ " turns · " +:+ show_int (summary_total_messages c) +:+
     " msgs · " +:+ show_int (summary_tool_calls_total c) +:+ " tools")
    (badges (has_tool_error c) (has_fallback c) (has_censored c)) isSelected.

(** The count in the heading and the rows.
    (src/frontend/src/features/parrot/components/parrot-conversation-list.tsx:12-67 ParrotConversationList) *)
Definition ParrotConversationList (selectedGuestId : option string) (q : Query ConversationsList) :
    Loadable (nat * list RowView) :=
  let '(isLoading, _, errorMessage) := hook_result q in
  let l := conversations_of q in
  let rows := (λ c, ParrotConversationRow c
    (bool_decide (Some (summary_guest_id c) = selectedGuestId))) <$> l in
  if isLoading then LoadingView
  else match errorMessage with
       | Some m => if truthy m then ErrorView m else ReadyView (length l, rows)
       | None => ReadyView (length l, rows)
       end.

(** ** The transcript *)

Inductive EntryView : Type :=
  | ToolEntryView (r : ToolRowView)
  | BubbleEntryView (b : ChatView.Bubble).

(** (src/frontend/src/features/parrot/components/parrot-conversation-transcript.tsx:18-56 TranscriptItem) *)
Definition node_view (n : Node) : EntryView :=
  match n with
  | ToolRow call name payload => ToolEntryView (ParrotToolRow call name payload)
  | Bubble r t => BubbleEntryView (ChatView.ChatMessage
      {| ParrotChat.content := Some t;
         ParrotChat.role := match r with UserEntry => ParrotChat.User | _ => ParrotChat.Assistant end |}
      None)
  end.

Record TranscriptView : Type := MkTranscriptView {
  transcript_title : string;
  transcript_when : option string;
  transcript_body : Loadable (list (list EntryView));
}.

(** (src/frontend/src/features/parrot/components/parrot-conversation-transcript.tsx:60-113 ParrotConversationTranscript) *)
Definition ParrotConversationTranscript (guestId : string) (q : Query ConversationTranscript) :
    TranscriptView :=
  let '(isLoading, transcript, errorMessage) := hook_result q in
  MkTranscriptView (resolveGuestName guests guestId)
    (option_map (λ t, formatRelativeFromEpoch (transcript_last_accessed t)) transcript)
    (match transcript_view isLoading (option_map transcript_entries transcript) errorMessage with
     | None => LoadingView
     | Some (inl m) => ErrorView m
     | Some (inr items) => ReadyView (map (map node_view) items)
     end).

(** ** The panel *)

(** The selection and the queries in the cache. *)
Record AdminUi : Type := MkAdmin {
  selectedGuestId : option string;
  metrics_query : option (Query AdminMetrics);
  list_query : option (Query ConversationsList);
  transcript_queries : gmap string (Query ConversationTranscript);
}.

(** The queries the shown components observe. *)
Definition observe_shown (s : AdminUi) : AdminUi :=
  match ParrotAdminPanel (selectedGuestId s) with
  | Some g => MkAdmin (selectedGuestId s) (metrics_query s) (list_query s)
      (<[g := observe (transcript_queries s !! g)]> (transcript_queries s))
  | None => MkAdmin (selectedGuestId s) (Some (observe (metrics_query s)))
      (Some (observe (list_query s))) (transcript_queries s)
  end.

Definition admin_mount : AdminUi := observe_shown (MkAdmin None None None ∅).

(** What happens to the panel: the buttons, and what becomes of each query while
    it is cached.  A query that is not observed may be dropped from the cache. *)
Inductive AdminEvent : Type :=
  | SelectRow (guestId : string)
  | Back
  | MetricsEvent (e : QueryEvent AdminMetrics)
  | ListEvent (e : QueryEvent ConversationsList)
  | TranscriptEvent (guestId : string) (e : QueryEvent ConversationTranscript)
  | DropDashboard
  | DropTranscript (guestId : string).

(** The rows that can be pressed. *)
Definition shown_rows (s : AdminUi) : list RowView :=
  match ParrotAdminPanel (selectedGuestId s), list_query s with
  | None, Some q =>
      match ParrotConversationList (selectedGuestId s) q with ReadyView (_, rows) => rows | _ => [] end
  | _, _ => []
  end.

(** (src/frontend/src/features/parrot/components/parrot-admin-panel.tsx:7-28 ParrotAdminPanel) *)
Definition admin_event (e : AdminEvent) (s : AdminUi) : AdminUi :=
  let with_selection g := MkAdmin g (metrics_query s) (list_query s) (transcript_queries s) in
  match e with
  | SelectRow g =>
      if decide (g ∈ row_guest <$> shown_rows s) then
        let s' := with_selection (Some g) in
        if truthy g then observe_shown s' else s'
      else s
  | Back =>
      match ParrotAdminPanel (selectedGuestId s) with
      | Some _ => observe_shown (with_selection None)
      | None => s
      end
  | MetricsEvent e =>
      MkAdmin (selectedGuestId s) (option_map (query_event e) (metrics_query s)) (list_query s) (transcript_queries s)
  | ListEvent e =>
      MkAdmin (selectedGuestId s) (metrics_query s) (option_map (query_event e) (list_query s)) (transcript_queries s)
  | TranscriptEvent g e =>
      MkAdmin (selectedGuestId s) (metrics_query s) (list_query s)
        (alter (query_event e) g (transcript_queries s))
  | DropDashboard =>
      match ParrotAdminPanel (selectedGuestId s) with
      | Some _ => MkAdmin (selectedGuestId s) None None (transcript_queries s)
      | None => s
      end
  | DropTranscript g =>
      if decide (ParrotAdminPanel (selectedGuestId s) = Some g) then s
      else MkAdmin (selectedGuestId s) (metrics_query s) (list_query s) (delete g (transcript_queries s))
  end.
Definition admin_run (es : list AdminEvent) : AdminUi := foldl (flip admin_event) admin_mount es.

Inductive AdminView : Type :=
  | TranscriptShown (v : TranscriptView)
  | Dashboard (metrics : Loadable MetricsView) (rows : Loadable (nat * list RowView)).

(** [None] would be a component without the query it observes.
    (src/frontend/src/features/parrot/components/parrot-admin-panel.tsx:10-27 ParrotAdminPanel) *)
Definition admin_view (s : AdminUi) : option AdminView :=
  match ParrotAdminPanel (selectedGuestId s) with
  | Some g => option_map (λ q, TranscriptShown (ParrotConversationTranscript g q)) (transcript_queries s !! g)
  | None =>
      q ← metrics_query s; l ← list_query s;
      Some (Dashboard (ParrotMetrics q) (ParrotConversationList (selectedGuestId s) l))
  end.

(** ** What the panel shows after any events *)

Definition metrics_events (es : list AdminEvent) : list (QueryEvent AdminMetrics) :=
  omap (λ e, match e with MetricsEvent e => Some e | _ => None end) es.
Definition list_events (es : list AdminEvent) : list (QueryEvent ConversationsList) :=
  omap (λ e, match e with ListEvent e => Some e | _ => None end) es.

(** The query has had a life in which it was answered as [heard]. *)
Definition lived {A} (heard : list (QueryEvent A)) (q : Query A) : Prop :=
  ∃ life, q = query_run life mount ∧ last_answer life = last_answer heard ∧
    last_failure life = last_failure heard.

Lemma lived_mount {A} : lived ([] : list (QueryEvent A)) mount.
Proof. by exists []. Qed.

Lemma lived_event {A} heard e (q : Query A) : lived heard q → lived (heard ++ [e]) (query_event e q).
Proof.
  intros (life & -> & Ha & Hf). exists (life ++ [e]).
  by rewrite query_run_snoc, !last_answer_snoc, !last_failure_snoc, Ha, Hf.
Qed.

Lemma lived_observe {A} heard (q : Query A) : lived heard q → lived heard (observe (Some q)).
Proof.
  intros (life & -> & Ha & Hf). exists (life ++ [Refetch]).
  by rewrite query_run_snoc, last_answer_snoc, last_failure_snoc.
Qed.

Lemma omap_snoc {A B} (f : A → option B) l x :
  omap f (l ++ [x]) = omap f l ++ match f x with Some y => [y] | None => [] end.
Proof. rewrite omap_app. cbn. by destruct (f x). Qed.

(** The dashboard's queries, kept in the cache. *)
Definition dashboard_inv (es : list AdminEvent) (s : AdminUi) : Prop :=
  (∃ q, metrics_query s = Some q ∧ lived (metrics_events es) q) ∧
  ∃ q, list_query s = Some q ∧ lived (list_events es) q.

Lemma observe_shown_dashboard es s : dashboard_inv es s → dashboard_inv es (observe_shown s).
Proof.
  intros [(q & Hq & Hl) (q' & Hq' & Hl')]. unfold observe_shown.
  destruct (ParrotAdminPanel (selectedGuestId s)); split; cbn; rewrite ?Hq, ?Hq';
    eexists; (split; [done|]); by try apply lived_observe.
Qed.

Lemma admin_run_snoc es e : admin_run (es ++ [e]) = admin_event e (admin_run es).
Proof. unfold admin_run. by rewrite foldl_app. Qed.

Lemma dashboard_kept es : DropDashboard ∉ es → dashboard_inv es (admin_run es).
Proof.
  induction es as [|e es IH] using rev_ind; intros Hes.
  { split; eexists; (split; [reflexivity|]); apply lived_mount. }
  rewrite admin_run_snoc. specialize (IH ltac:(set_solver)).
  assert (DropDashboard ≠ e) as He by set_solver.
  unfold dashboard_inv, metrics_events, list_events in *. rewrite !omap_snoc.
  destruct IH as [(q & Hq & Hl) (q' & Hq' & Hl')].
  assert (∀ g, dashboard_inv es (MkAdmin g (metrics_query (admin_run es)) (list_query (admin_run es))
    (transcript_queries (admin_run es)))) as Hsel by (by split; eexists).
  destruct e as [g| |e|e|g e| |g]; cbn [admin_event]; rewrite ?app_nil_r; try done.
  - case_decide; [|by split; eexists]. case_match; [apply observe_shown_dashboard|]; apply Hsel.
  - case_match; [apply observe_shown_dashboard, Hsel|by split; eexists].
  - split; eexists; cbn; rewrite ?Hq; (split; [done|]); [by apply lived_event|done].
  - split; eexists; cbn; rewrite ?Hq'; (split; [done|]); [done|by apply lived_event].
  - by split; eexists.
  - case_decide; by split; eexists.
Qed.

(** A cached transcript was answered, if at all, for its guest. *)
Definition transcripts_inv (es : list AdminEvent) (s : AdminUi) : Prop :=
  (∀ g, ParrotAdminPanel (selectedGuestId s) = Some g → is_Some (transcript_queries s !! g)) ∧
  ∀ g q, transcript_queries s !! g = Some q →
    ∃ life, q = query_run life mount ∧
      ∀ t, last_answer life = Some t → TranscriptEvent g (Answered t) ∈ es.

Lemma observe_shown_transcripts es s :
  (∀ g q, transcript_queries s !! g = Some q →
     ∃ life, q = query_run life mount ∧
       ∀ t, last_answer life = Some t → TranscriptEvent g (Answered t) ∈ es) →
  transcripts_inv es (observe_shown s).
Proof.
  intros Hs. unfold observe_shown.
  destruct (ParrotAdminPanel (selectedGuestId s)) as [g|] eqn:Hg; split; cbn; rewrite ?Hg; try done.
  - intros ? [= <-]. by rewrite lookup_insert_eq.
  - intros g' q [[<- <-]|[_ Hq]]%lookup_insert_Some; [|by apply Hs].
    destruct (transcript_queries s !! g) as [q|] eqn:Hq; [|by exists []].
    destruct (Hs g q Hq) as (life & -> & Hl). exists (life ++ [Refetch]).
    by rewrite query_run_snoc, last_answer_snoc.
Qed.

Lemma transcripts_mono es e s : transcripts_inv es s → transcripts_inv (es ++ [e]) s.
Proof.
  intros [Hsel Hs]. split; [done|]. intros g q Hq. destruct (Hs g q Hq) as (life & -> & Hl).
  exists life. split; [done|]. intros t Ht. apply elem_of_app. left. by apply Hl.
Qed.

Lemma transcripts_kept es : transcripts_inv es (admin_run es).
Proof.
  induction es as [|e es IH] using rev_ind; [by apply observe_shown_transcripts|].
  rewrite admin_run_snoc. pose proof (transcripts_mono es e _ IH) as Hi. pose proof Hi as [Hsel Hs].
  destruct e as [g| |e|e|g e| |g]; cbn [admin_event]; try done.
  - case_decide; [|done]. case_match eqn:Hg; [by apply observe_shown_transcripts|].
    split; [cbn; by rewrite Hg|done].
  - case_match; [by apply observe_shown_transcripts|done].
  - split; cbn.
    + intros g' Hg'. rewrite lookup_alter_is_Some. by apply Hsel.
    + intros g' q [(<- & q0 & Hq0 & ->)|[_ Hq]]%lookup_alter_Some; [|by apply Hs].
      destruct (Hs g q0 Hq0) as (life & -> & Hl). exists (life ++ [e]).
      rewrite query_run_snoc, last_answer_snoc. split; [done|]. intros t Ht.
      destruct e as [|v|m]; [by apply Hl| |by apply Hl]. injection Ht as ->. set_solver.
  - case_match; done.
  - case_decide as Hg; [done|]. split; cbn.
    + intros g' Hg'. rewrite lookup_delete_ne by congruence. by apply Hsel.
    + intros g' q [_ Hq]%lookup_delete_Some. by apply Hs.
Qed.

(** ** Views *)

(** Answered metrics stay, whatever fails later. *)
Lemma ParrotMetrics_lived heard q :
  lived heard q →
  (ParrotMetrics q = LoadingView ∧ last_answer heard = None) ∨
  (∃ m, ParrotMetrics q = ErrorView m ∧ last_failure heard = Some m ∧ last_answer heard = None) ∨
  ∃ a, ParrotMetrics q = ReadyView (metrics_view a) ∧ last_answer heard = Some a.
Proof.
  intros (life & -> & <- & <-). destruct (query_run_fields life) as (Hd & He & Hl & Hn).
  unfold ParrotMetrics, hook_result. rewrite Hd, He.
  destruct (query_isLoading _); [left; auto|]. right.
  destruct (last_answer life) as [a|]; [right; eauto|left].
  destruct (Hn eq_refl eq_refl) as [m ->]. eauto.
Qed.

(** The list is hidden by a failure, until it is answered again. *)
Lemma ParrotConversationList_lived heard q g :
  lived heard q →
  (ParrotConversationList g q = LoadingView ∧ last_answer heard = None) ∨
  (∃ m, ParrotConversationList g q = ErrorView m ∧ last_failure heard = Some m) ∨
  let l := match last_answer heard with Some a => conversations a | None => [] end in
  ParrotConversationList g q = ReadyView (length l,
    (λ c, ParrotConversationRow c (bool_decide (Some (summary_guest_id c) = g))) <$> l) ∧
  (last_failure heard = None ∨ last_failure heard = Some "").
Proof.
  intros (life & -> & <- & <-). destruct (query_run_fields life) as (Hd & He & Hl & Hn).
  unfold ParrotConversationList, hook_result, conversations_of. rewrite Hd, He.
  destruct (query_isLoading _); [left; auto|]. right.
  destruct (last_failure life) as [m|]; [|right; auto]. unfold truthy.
  case_bool_decide as Hm; [left; eauto|right]. split; [done|right].
  f_equal. by destruct (decide (m = "")).
Qed.

Lemma transcript_body_ready g q items :
  transcript_body (ParrotConversationTranscript g q) = ReadyView items →
  ∃ t, query_data q = Some t ∧ items = map (map node_view) (map TranscriptItem (transcript_entries t)).
Proof.
  unfold ParrotConversationTranscript, hook_result, transcript_view. cbn.
  destruct (query_isLoading q); [done|]. destruct (query_data q) as [t|]; [|done].
  cbn. intros [= <-]. by exists t.
Qed.

(** The dashboard has its queries, also after they were dropped. *)
Definition has_dashboard (s : AdminUi) : Prop :=
  ParrotAdminPanel (selectedGuestId s) = None → is_Some (metrics_query s) ∧ is_Some (list_query s).

Lemma observe_shown_dashboard_present s : has_dashboard (observe_shown s).
Proof.
  unfold has_dashboard, observe_shown. destruct (ParrotAdminPanel (selectedGuestId s)) as [g|] eqn:Hg;
    cbn; [by rewrite Hg|]. split; by eexists.
Qed.

Lemma dashboard_present es : has_dashboard (admin_run es).
Proof.
  induction es as [|e es IH] using rev_ind; [apply observe_shown_dashboard_present|].
  rewrite admin_run_snoc. destruct e as [g| |e|e|g e| |g]; cbn [admin_event]; try done.
  - case_decide as Hin; [|done]. case_match; [apply observe_shown_dashboard_present|]. intros _. apply IH.
    unfold shown_rows in Hin. destruct (ParrotAdminPanel _); [set_solver|done].
  - case_match; [apply observe_shown_dashboard_present|done].
  - intros Hg. destruct (IH Hg) as [[q Hq] Hl]. cbn. rewrite Hq. split; [by eexists|done].
  - intros Hg. destruct (IH Hg) as [Hm [q Hq]]. cbn. rewrite Hq. split; [done|by eexists].
  - case_match eqn:Hg; [|done]. intros Hg'. cbn in Hg'. congruence.
  - by case_decide.
Qed.

(** What is shown has its query. *)
Lemma admin_view_shown es : is_Some (admin_view (admin_run es)).
Proof.
  destruct (transcripts_kept es) as [Hsel _]. pose proof (dashboard_present es) as Hd.
  unfold admin_view. destruct (ParrotAdminPanel _) as [g|] eqn:Hg.
  - destruct (Hsel g eq_refl) as [x ->]. by eexists.
  - destruct (Hd Hg) as [[q ->] [q' ->]]. by eexists.
Qed.
End views.
