(* ===== verification/BeachView.v ===== *)
(** * The beach in the web client

    [features/beach]: the queries and mutations of a guest's bookings and of the
    administrator's activities, the form that adds one, and what the panel
    shows; the panel over the mocked beach; and the paths the mock listens on. *)

From Stdlib Require Import QArith Lqa.
From S2P Require Import Prelude Json Zod JsString WebTypes WebApi WebLib WebData QueryClient IslandEvent.
From S2P Require Import Session.
From S2P Require AirportView HotelPanel BeachMock.

(** ** Data *)

(** (src/frontend/src/features/beach/query-keys.ts:1-5 BEACH_KEYS) *)
Definition ACTIVITIES_KEY : QueryKey := [Some "beach"; Some "activities"].
(** (src/frontend/src/features/beach/query-keys.ts:1-5 BEACH_KEYS) *)
Definition BOOKED_KEY (guest_id : option string) : QueryKey := [Some "beach"; Some "booked"; guest_id].

Definition read_activity : json → option Activity := as_fields (λ d,
  a ← field "activity_id" as_string d; b ← field "activity_name" as_string d;
  c ← field "capacity" as_num d; e ← field "remaining" as_num d;
  Some {| activity_id := a; activity_name := b; description := jget "description" d;
          act_capacity := c; act_remaining := e |}).
Definition read_activities : json → option (list Activity) :=
  as_fields (field "activities" (as_list read_activity)).
(** The activity a guest has booked, or [null]. *)
Definition read_booked : json → option (option string) :=
  as_fields (field "activity_id" (as_nullable as_string)).

Lemma reads_int_num : reads ZInt as_num.
Proof. intros [| |n| | |] ?; done. Qed.
#[export] Hint Resolve reads_int_num : reads.
Lemma reads_activity : reads ActivitySchema read_activity.
Proof. read_fields. Qed.
#[export] Hint Resolve reads_activity : reads.
Lemma reads_activities : reads ActivitiesResponseSchema read_activities.
Proof.
  apply reads_object. intros kvs Hok.
  eapply reads_field; [reflexivity|by vm_compute|exact Hok|by eauto with reads].
Qed.
Lemma reads_booked : reads ActivityByGuestResponseSchema read_booked.
Proof.
  apply reads_object. intros kvs Hok.
  eapply reads_field; [reflexivity|by vm_compute|exact Hok|by eauto with reads].
Qed.

(** The numbers of the cache are finite. *)
Definition num_value (n : number) : Q :=
  match n with
  | NumZ z => inject_Z z
  | NumDec digits places => inject_Z digits / inject_Z (10 ^ Z.of_nat places)
  | NumInf _ | NumNaN => 0
  end.

(** ** The hooks of a guest *)

Section guest.
Context {Cache : Type} `{!QueryClient Cache}.
Variable guest_id : option string.

(** The cache, the activities being booked and cancelled, and the toasts.
    (src/frontend/src/features/beach/hooks/use-book-activity.ts:11-13 useBookActivity) *)
Record BeachUi : Type := MkBeachUi {
  b_cache : Cache;
  b_booking : option string;
  b_cancelling : option string;
  b_toasts : list string;
}.

(** (src/frontend/src/features/beach/hooks/use-activities.ts:5-17 useActivities) *)
Definition activities (s : BeachUi) : list Activity :=
  default [] (getQueryData (b_cache s) ACTIVITIES_KEY ≫= read_activities).

(** (src/frontend/src/features/beach/hooks/use-book-activity.ts:15-20 bookedQuery) *)
Definition bookedActivityId (s : BeachUi) : option string :=
  default None (getQueryData (b_cache s) (BOOKED_KEY guest_id) ≫= read_booked).

(** (src/frontend/src/features/beach/hooks/use-book-activity.ts:22-27 invalidate) *)
Definition invalidate (c : Cache) : Cache :=
  invalidateQueries (BOOKED_KEY guest_id) (invalidateQueries ACTIVITIES_KEY c).

(** (src/frontend/src/features/beach/hooks/use-book-activity.ts:49-49 book) *)
Definition book (id : string) (s : BeachUi) : BeachUi :=
  MkBeachUi (b_cache s) (Some id) (b_cancelling s) (b_toasts s).
(** (src/frontend/src/features/beach/hooks/use-book-activity.ts:50-50 cancel) *)
Definition cancel (id : string) (s : BeachUi) : BeachUi :=
  MkBeachUi (b_cache s) (b_booking s) (Some id) (b_toasts s).
(** (src/frontend/src/features/beach/hooks/use-book-activity.ts:29-35 bookMutation) *)
Definition book_settled (error : option string) (s : BeachUi) : BeachUi :=
  match error with
  | None => MkBeachUi (invalidate (b_cache s)) None (b_cancelling s) (b_toasts s)
  | Some m => MkBeachUi (b_cache s) None (b_cancelling s) (b_toasts s ++ [m])
  end.
(** (src/frontend/src/features/beach/hooks/use-book-activity.ts:37-43 cancelMutation) *)
Definition cancel_settled (error : option string) (s : BeachUi) : BeachUi :=
  match error with
  | None => MkBeachUi (invalidate (b_cache s)) (b_booking s) None (b_toasts s)
  | Some m => MkBeachUi (b_cache s) (b_booking s) None (b_toasts s ++ [m])
  end.
(** A query was fetched. *)
Definition fetched (k : QueryKey) (data : json) (s : BeachUi) : BeachUi :=
  MkBeachUi (setQueryData k data (b_cache s)) (b_booking s) (b_cancelling s) (b_toasts s).

(** ** What a guest sees *)

(** The button of an activity, whether it is disabled, and its text or none
    while it spins. *)
Inductive ActionView : Type :=
  | CancelButton (disabled : bool) (label : option string)
  | BookButton (disabled : bool) (label : option string).

(** (src/frontend/src/features/beach/components/activity-action.tsx:14-61 ActivityAction) *)
Definition ActivityAction (isBooked isReplacing isFull isBooking isCancelling : bool) : ActionView :=
  let isMutating := isBooking || isCancelling in
  if isBooked then CancelButton isMutating (if isCancelling then None else Some "Cancel")
  else BookButton (isFull || isMutating)
         (if isBooking then None else Some (if isReplacing then "Switch booking" else "Book")).

Record CardView : Type := MkCardView {
  cv_id : string;
  cv_name : string;
  cv_booked : bool;
  cv_bar : string * Q;
  cv_remaining : string;
}.

(** [`${n} left`]. *)
Variable show_number : number → string.

(** The share of the places taken.
    (src/frontend/src/features/beach/components/activity-card.tsx:18-18 filled) *)
Definition filled (capacity remaining : Q) : Q :=
  if Qle_bool capacity 0 then 1 else (capacity - remaining) / capacity.

(** (src/frontend/src/features/beach/components/activity-card.tsx:10-75 ActivityCard) *)
Definition ActivityCard (a : Activity) (isBooked : bool) : CardView :=
  let isFull := Qeq_bool (num_value (act_remaining a)) 0 in
  let f := filled (num_value (act_capacity a)) (num_value (act_remaining a)) in
  let barColor := if Qle_bool 1 f then "bg-destructive"
                  else if Qle_bool (8 # 10) f then "bg-amber-400" else "bg-(--zone-accent)" in
  MkCardView (activity_id a) (activity_name a) isBooked (barColor, (f * 100)%Q)
    (if isFull then "Full" else show_number (act_remaining a) +:+ " left").

Inductive ListView : Type :=
  | ListSpinner
  | ListEmpty
  | ListCards (cards : list (CardView * ActionView)).

(** An activity of the list, with its action.
    (src/frontend/src/features/beach/components/activities-list.tsx:36-58 activity) *)
Definition list_item (booked : option string) (isBooking isCancelling : bool) (a : Activity) :
    CardView * ActionView :=
  let isBooked := bool_decide (booked = Some (activity_id a)) in
  let isReplacing := bool_decide (is_Some booked) && negb isBooked in
  (ActivityCard a isBooked,
   ActivityAction isBooked isReplacing (Qeq_bool (num_value (act_remaining a)) 0) isBooking isCancelling).

(** (src/frontend/src/features/beach/components/activities-list.tsx:7-61 ActivitiesList) *)
Definition ActivitiesList (loading : bool) (s : BeachUi) : ListView :=
  if loading then ListSpinner
  else match activities s with
       | [] => ListEmpty
       | l => ListCards (list_item (bookedActivityId s) (bool_decide (is_Some (b_booking s)))
                           (bool_decide (is_Some (b_cancelling s))) <$> l)
       end.

(** *** Facts *)

Lemma filled_bounds capacity remaining :
  (0 <= remaining <= capacity → 0 <= filled capacity remaining <= 1)%Q.
Proof.
  intros [Hr Hc]. unfold filled. destruct (Qle_bool capacity 0) eqn:E; [split; discriminate|].
  assert (0 < capacity)%Q as Hp.
  { apply Qnot_le_lt. intros H. apply Qle_bool_iff in H. congruence. }
  split; [apply Qle_shift_div_l; lra|apply Qle_shift_div_r; lra].
Qed.

(** While something is pending every button is disabled; otherwise the booked
    activity can be cancelled and every other that has a place can be booked. *)
Lemma action_spec booked isFull isReplacing isBooking isCancelling :
  let v := ActivityAction booked isReplacing isFull isBooking isCancelling in
  (match v with CancelButton d _ | BookButton d _ => d end) =
  isBooking || isCancelling || (negb booked && isFull).
Proof. by destruct booked, isFull, isBooking, isCancelling. Qed.

Lemma fetched_activities data s l :
  read_activities data = Some l → activities (fetched ACTIVITIES_KEY data s) = l.
Proof.
  intros Hr. unfold activities, fetched. cbn [b_cache].
  rewrite get_set, decide_True by done. cbn. by rewrite Hr.
Qed.

Lemma fetched_booked data s o :
  read_booked data = Some o → bookedActivityId (fetched (BOOKED_KEY guest_id) data s) = o.
Proof.
  intros Hr. unfold bookedActivityId, fetched. cbn [b_cache].
  rewrite get_set, decide_True by done. cbn. by rewrite Hr.
Qed.

Lemma fetched_frame k data s :
  (k ≠ ACTIVITIES_KEY → activities (fetched k data s) = activities s) ∧
  (k ≠ BOOKED_KEY guest_id → bookedActivityId (fetched k data s) = bookedActivityId s).
Proof.
  unfold activities, bookedActivityId, fetched. cbn [b_cache].
  split; intros Hk; by rewrite get_set, decide_False by done.
Qed.

(** A booking keeps what is shown until its queries are fetched again, and marks
    both as out of date. *)
Lemma book_settled_spec s :
  activities (book_settled None s) = activities s ∧
  bookedActivityId (book_settled None s) = bookedActivityId s ∧
  (is_Some (getQueryData (b_cache s) ACTIVITIES_KEY) →
   is_stale (b_cache (book_settled None s)) ACTIVITIES_KEY = true) ∧
  (is_Some (getQueryData (b_cache s) (BOOKED_KEY guest_id)) →
   is_stale (b_cache (book_settled None s)) (BOOKED_KEY guest_id) = true).
Proof.
  unfold activities, bookedActivityId, book_settled, invalidate. cbn [b_cache].
  rewrite !get_invalidate. split_and!; try done; intros H;
    rewrite !stale_invalidate, ?get_invalidate, selects_self, bool_decide_true by done;
    by rewrite ?orb_true_r.
Qed.
End guest.
Arguments BeachUi : clear implicits.

(** ** The panel *)

(** (src/frontend/src/features/beach/hooks/use-checked-in.ts:3-11 useCheckedIn) *)
Definition useCheckedIn `{!QueryClient Cache} (guest_id : string) (h : HotelPanel.HotelUi Cache) : bool :=
  if HotelPanel.isLoading guest_id h then false
  else bool_decide (is_Some (HotelPanel.reservation guest_id h)).

Inductive BeachPanelView : Type :=
  | BeachAdmin
  | BeachNotLanded
  | BeachNotCheckedIn
  | BeachActivities (v : ListView).

(** (src/frontend/src/features/beach/components/beach-panel.tsx:12-40 BeachPanel) *)
Definition BeachPanel (isAdmin landed checkedIn : bool) (list : ListView) : BeachPanelView :=
  if isAdmin then BeachAdmin
  else if negb landed then BeachNotLanded
  else if negb checkedIn then BeachNotCheckedIn
  else BeachActivities list.

(** A guest is checked in exactly when the hotel's panel shows a reservation. *)
Lemma checked_in_card `{!QueryClient Cache} g (h : HotelPanel.HotelUi Cache) :
  useCheckedIn g h = true ↔ ∃ r, HotelPanel.hotel_view g h = HotelPanel.ReservationCard r.
Proof.
  unfold useCheckedIn, HotelPanel.hotel_view. destruct (HotelPanel.isLoading g h).
  - split; [done|]. by intros [].
  - rewrite bool_decide_eq_true. destruct (HotelPanel.reservation g h); split; try naive_solver.
Qed.

(** ** The administrator's activities *)

Section admin.
Context {Cache : Type} `{!QueryClient Cache}.
Variable session : SessionState.
(** [Number(text)]. *)
Variable Number : string → number.

Record ActivityForm : Type := MkActivityForm {
  f_id : string;
  f_name : string;
  f_description : string;
  f_capacity : string;
}.
(** (src/frontend/src/features/beach/components/add-activity-form.tsx:7-7 EMPTY_FORM) *)
Definition EMPTY_FORM : ActivityForm := MkActivityForm "" "" "" "".

(** The form, the cache, the requests that are pending, and the toasts, which
    are successes or errors.
    (src/frontend/src/features/beach/hooks/use-manage-activities.ts:12-14 useManageActivities) *)
Record ManageUi : Type := MkManageUi {
  m_form : ActivityForm;
  m_cache : Cache;
  m_creating : option Call;
  m_removing : option Call;
  m_toasts : list (bool * string);
}.

(** A mutation without an administrator's session fails before any request.
    (src/frontend/src/features/beach/hooks/use-manage-activities.ts:20-25 mutationFn) *)
Definition create (body : json) (s : ManageUi) : ManageUi :=
  match useAdminSession session with
  | Some (AdminSession _ passcode) =>
      MkManageUi (m_form s) (m_cache s) (Some (createActivity body passcode)) (m_removing s) (m_toasts s)
  | _ => MkManageUi (m_form s) (m_cache s) None (m_removing s)
           (m_toasts s ++ [(false, "Admin session required to add an activity.")])
  end.

(** (src/frontend/src/features/beach/hooks/use-manage-activities.ts:36-41 mutationFn) *)
Definition remove (activityId : string) (s : ManageUi) : ManageUi :=
  match useAdminSession session with
  | Some (AdminSession _ passcode) =>
      MkManageUi (m_form s) (m_cache s) (m_creating s) (Some (removeActivity activityId passcode)) (m_toasts s)
  | _ => MkManageUi (m_form s) (m_cache s) (m_creating s) None
           (m_toasts s ++ [(false, "Admin session required to remove an activity.")])
  end.

(** The hook's handlers, then the form's.
    (src/frontend/src/features/beach/hooks/use-manage-activities.ts:26-32 onSuccess) *)
Definition create_settled (error : option string) (s : ManageUi) : ManageUi :=
  match error with
  | None => MkManageUi EMPTY_FORM (invalidateQueries ACTIVITIES_KEY (m_cache s)) None (m_removing s)
              (m_toasts s ++ [(true, "Activity added.")])
  | Some m => MkManageUi (m_form s) (m_cache s) None (m_removing s) (m_toasts s ++ [(false, m)])
  end.

(** (src/frontend/src/features/beach/hooks/use-manage-activities.ts:42-48 onSuccess) *)
Definition remove_settled (error : option string) (s : ManageUi) : ManageUi :=
  match error with
  | None => MkManageUi (m_form s) (invalidateQueries ACTIVITIES_KEY (m_cache s)) (m_creating s) None
              (m_toasts s ++ [(true, "Activity removed.")])
  | Some m => MkManageUi (m_form s) (m_cache s) (m_creating s) None (m_toasts s ++ [(false, m)])
  end.

(** What the form sends, or nothing.
    (src/frontend/src/features/beach/components/add-activity-form.tsx:13-29 handleSubmit) *)
Definition activity_body (form : ActivityForm) : option json :=
  match Number (f_capacity form) with
  | NumZ capacity =>
      if negb (truthy (trim (f_id form))) || negb (truthy (trim (f_name form))) || (capacity <=? 0)%Z
      then None
      else Some (JObj ([("id", JStr (trim (f_id form))); ("name", JStr (trim (f_name form)))] ++
                 jopt "description" (JStr <$> non_empty (trim (f_description form))) ++
                 [("capacity", JNum (NumZ capacity))]))
  | _ => None
  end.

(** (src/frontend/src/features/beach/components/add-activity-form.tsx:13-31 handleSubmit) *)
Definition handleSubmit (s : ManageUi) : ManageUi :=
  match activity_body (m_form s) with
  | Some body => create body s
  | None => s
  end.

(** An input of the form, disabled while an activity is being created.
    (src/frontend/src/features/beach/components/add-activity-form.tsx:40-71 Input) *)
Definition form_input (f : ActivityForm → ActivityForm) (s : ManageUi) : ManageUi :=
  if decide (is_Some (m_creating s)) then s
  else MkManageUi (f (m_form s)) (m_cache s) (m_creating s) (m_removing s) (m_toasts s).

Inductive AdminSummary : Type :=
  | AdminSpinner
  | AdminError (text : string)
  | AdminCards (totalRemaining : Q) (cards : list (CardView * bool)).

(** The cards, each with whether its button to remove it is disabled.
    (src/frontend/src/features/beach/components/beach-admin-activities-summary.tsx:12-76 BeachAdminActivitiesSummary) *)
Definition BeachAdminActivitiesSummary (show_number : number → string) (loading : bool)
    (error : option string) (s : ManageUi) : AdminSummary :=
  if loading then AdminSpinner
  else match getQueryData (m_cache s) ACTIVITIES_KEY ≫= read_activities with
       | None => AdminError (default "Activity state could not be loaded." error)
       | Some l =>
           AdminCards (foldl (λ sum a, sum + num_value (act_remaining a))%Q 0%Q l)
             ((λ a, (ActivityCard show_number a false, bool_decide (is_Some (m_removing s)))) <$> l)
       end.

(** What is sent is a trimmed, non-empty identifier and name and a positive
    whole capacity, with the administrator's passcode. *)
Lemma activity_body_spec form body :
  activity_body form = Some body →
  ∃ kvs capacity, body = JObj kvs ∧ (0 < capacity)%Z ∧
    jget "id" kvs = Some (JStr (trim (f_id form))) ∧ trim (f_id form) ≠ "" ∧
    jget "name" kvs = Some (JStr (trim (f_name form))) ∧ trim (f_name form) ≠ "" ∧
    jget "capacity" kvs = Some (JNum (NumZ capacity)) ∧ Number (f_capacity form) = NumZ capacity ∧
    jget "description" kvs = JStr <$> non_empty (trim (f_description form)).
Proof.
  unfold activity_body. destruct (Number _) as [capacity| | |] eqn:En; try done.
  unfold truthy. case_bool_decide as Hi; [|done]. case_bool_decide as Hn; [|done]. cbn [negb orb].
  destruct (Z.leb_spec capacity 0) as [|Hc]; [done|]. intros [= <-].
  eexists _, capacity. split; [done|]. unfold non_empty.
  destruct (truthy (trim (f_description form))); done.
Qed.

End admin.
Arguments ManageUi : clear implicits.
