(* ===== verification/BeachOverMock.v ===== *)
(** * The mocked beach seen from the client

    What the handlers of the mock answer is what the client's schemas accept and
    its readers read; and the paths the mock listens on, which the client's
    requests never take. *)

From Stdlib Require Import QArith.
From S2P Require Import Prelude Json Zod JsString WebTypes WebApi WebLib WebData QueryClient IslandEvent.
From S2P Require Import BeachView.
From S2P Require BeachMock.

(** ** What the mock answers, read by the client *)

Definition client_activity (a : BeachMock.Activity) : Activity := {|
  activity_id := BeachMock.activity_id a;
  activity_name := BeachMock.activity_name a;
  description := Some (JStr (BeachMock.description a));
  act_capacity := NumZ (BeachMock.capacity a);
  act_remaining := NumZ (BeachMock.remaining a);
|}.

Definition safe_activity (a : BeachMock.Activity) : Prop :=
  is_safe_int (NumZ (BeachMock.capacity a)) = true ∧ is_safe_int (NumZ (BeachMock.remaining a)) = true.

Lemma activity_json_ok a :
  safe_activity a → conforms ActivitySchema (BeachMock.activity_json a) = true.
Proof. intros [Hc Hr]. destruct a. cbv -[is_safe_int] in *. by rewrite Hc, Hr. Qed.

Lemma activity_json_read a :
  read_activity (project ActivitySchema (BeachMock.activity_json a)) = Some (client_activity a).
Proof. done. Qed.

Lemma activities_json_ok l :
  Forall safe_activity l →
  let v := JObj [("activities", JArr (BeachMock.activity_json <$> l))] in
  conforms ActivitiesResponseSchema v = true ∧
  read_activities (project ActivitiesResponseSchema v) = Some (client_activity <$> l).
Proof.
  intros Hl v. split.
  - change (conforms ActivitiesResponseSchema v) with
      (conforms (ZArray ActivitySchema) (JArr (BeachMock.activity_json <$> l)) && true && true).
    rewrite !andb_true_r. cbn [conforms]. apply forallb_forall. intros j Hj%list_elem_of_In.
    apply list_elem_of_fmap in Hj as (a & -> & Ha). rewrite Forall_forall in Hl.
    apply activity_json_ok. by apply Hl.
  - change (read_activities (project ActivitiesResponseSchema v)) with
      (mapM read_activity (project ActivitySchema <$> (BeachMock.activity_json <$> l))).
    apply mapM_Some. clear Hl v. induction l; constructor; [apply activity_json_read|done].
Qed.

Lemma booked_json_ok g b :
  let v := BeachMock.body (BeachMock.by_guest g b).1 in
  conforms ActivityByGuestResponseSchema v = true ∧
  read_booked (project ActivityByGuestResponseSchema v) =
    Some (BeachMock.current_booking (BeachMock.loadBookings b) g).
Proof.
  cbn. by destruct (BeachMock.current_booking _ g).
Qed.

(** ** The beaches the seed leads to *)

(** What no booking changes of an activity. *)
Definition fixed (a : BeachMock.Activity) : string * string * string * Z :=
  (BeachMock.activity_id a, BeachMock.activity_name a, BeachMock.description a, BeachMock.capacity a).

Lemma fixed_add_remaining id d l : fixed <$> BeachMock.add_remaining id d l = fixed <$> l.
Proof. induction l as [|a l IH]; cbn; [done|]. case_decide; cbn; by rewrite ?IH. Qed.

Record seeded (b : BeachMock.Beach) : Prop := {
  sd_inv : BeachMock.beach_inv b;
  sd_fixed : fixed <$> BeachMock.activities_of b = fixed <$> BeachMock.SEED;
  sd_places k : BeachMock.places b k = BeachMock.free_places BeachMock.SEED k;
}.

Lemma seeded_fresh : seeded BeachMock.fresh_beach.
Proof.
  constructor; [apply BeachMock.fresh_beach_inv|done|]. intros k. unfold BeachMock.places.
  change (BeachMock.activities_of BeachMock.fresh_beach) with BeachMock.SEED.
  assert (BeachMock.booked (BeachMock.loadBookings BeachMock.fresh_beach) k = 0%Z) as -> by done. lia.
Qed.

Lemma seeded_book id g b : id ≠ "" → seeded b → seeded (BeachMock.book id g b).2.
Proof.
  intros Hid [Hi Hf Hp]. constructor; [by apply BeachMock.book_inv| |].
  - destruct (BeachMock.book_cases id g b) as [(_ & -> & _)|(_ & _ & _ & _ & ->)]; [done|].
    unfold BeachMock.rebooked. rewrite fixed_add_remaining. case_match; [|done].
    case_match; [|done]. by rewrite fixed_add_remaining.
  - intros k. by rewrite BeachMock.book_places.
Qed.

Lemma seeded_cancel id g b : seeded b → seeded (BeachMock.cancel id g b).2.
Proof.
  intros [Hi Hf Hp]. constructor; [by apply BeachMock.cancel_inv| |].
  - destruct (BeachMock.cancel_cases id g b) as [(_ & -> & _)|(_ & _ & _ & ->)]; [done|].
    by rewrite fixed_add_remaining.
  - intros k. by rewrite BeachMock.cancel_places.
Qed.

Lemma seeded_load b : seeded b → seeded (BeachMock.get_activities b).2 ∧
  BeachMock.activities_of (BeachMock.get_activities b).2 = BeachMock.activities_of b ∧
  BeachMock.loadBookings (BeachMock.get_activities b).2 = BeachMock.loadBookings b ∧
  BeachMock.body (BeachMock.get_activities b).1 =
    JObj [("activities", JArr (BeachMock.activity_json <$> BeachMock.activities_of b))].
Proof.
  intros [[Hfree Hbk] Hf Hp]. unfold BeachMock.get_activities.
  destruct (BeachMock.loadActivities b) as [[l is_seed] b'] eqn:Hload.
  destruct (BeachMock.activities_of_load _ _ _ _ Hload) as (-> & Ha & Hm). cbn.
  split_and!; try done. constructor; [constructor|..].
  - by rewrite Ha.
  - rewrite Hm, Ha. exact Hbk.
  - by rewrite Ha.
  - intros k. rewrite <- Hp. unfold BeachMock.places. by rewrite Ha, Hm.
Qed.

Lemma find_activity_id l a :
  NoDup (BeachMock.activity_id <$> l) → a ∈ l →
  BeachMock.find_activity (BeachMock.activity_id a) l = Some a.
Proof.
  unfold BeachMock.find_activity. induction l as [|x l IH]; cbn; [set_solver|].
  intros [Hx Hnd]%NoDup_cons [->|Ha]%elem_of_cons; [by rewrite bool_decide_true|].
  rewrite bool_decide_false; [by apply IH|]. intros He. apply Hx. rewrite He.
  by apply list_elem_of_fmap_2.
Qed.

Lemma fixed_ids (l : list BeachMock.Activity) : BeachMock.activity_id <$> l = (λ x, x.1.1.1) <$> (fixed <$> l).
Proof. by rewrite <- list_fmap_compose. Qed.

Lemma seeded_ids b : seeded b →
  BeachMock.activity_id <$> BeachMock.activities_of b = BeachMock.activity_id <$> BeachMock.SEED.
Proof. intros [_ Hf _]. by rewrite !fixed_ids, Hf. Qed.

Lemma seeded_nodup b : seeded b → NoDup (BeachMock.activity_id <$> BeachMock.activities_of b).
Proof. intros Hs. rewrite seeded_ids by done. apply (bool_decide_unpack _). by vm_compute. Qed.

Lemma seeded_named b a : seeded b → a ∈ BeachMock.activities_of b → BeachMock.activity_id a ≠ "".
Proof.
  intros Hs Ha He. assert ("" ∈ BeachMock.activity_id <$> BeachMock.activities_of b) as Hin
    by (rewrite <- He; by apply list_elem_of_fmap_2).
  rewrite seeded_ids in Hin by done. revert Hin. apply (bool_decide_unpack _). by vm_compute.
Qed.

Lemma booked_nonneg m k : (0 ≤ BeachMock.booked m k)%Z.
Proof. apply sum_with_nonneg. intros [g o] _. cbn. case_decide; lia. Qed.

(** The places of every activity stay between none and those of the seed. *)
Lemma seeded_remaining b a :
  seeded b → a ∈ BeachMock.activities_of b → (0 ≤ BeachMock.remaining a ≤ 14)%Z.
Proof.
  intros Hs Ha. split; [by apply (BeachMock.bi_free b (sd_inv b Hs))|].
  pose proof (sd_places b Hs (BeachMock.activity_id a)) as Hp. unfold BeachMock.places in Hp.
  pose proof (booked_nonneg (BeachMock.loadBookings b) (BeachMock.activity_id a)).
  unfold BeachMock.free_places in Hp at 1.
  rewrite (find_activity_id _ a (seeded_nodup b Hs) Ha) in Hp.
  assert (BeachMock.free_places BeachMock.SEED (BeachMock.activity_id a) ≤ 14)%Z; [|lia].
  unfold BeachMock.free_places. destruct (BeachMock.find_activity _ _) as [x|] eqn:Hx; [|lia].
  apply BeachMock.find_activity_elem in Hx as [Hx%list_elem_of_In _].
  assert (forallb (λ a, BeachMock.remaining a <=? 14)%Z BeachMock.SEED = true) as Hall by done.
  rewrite forallb_forall in Hall. specialize (Hall x Hx). lia.
Qed.

Lemma seeded_capacity b a :
  seeded b → a ∈ BeachMock.activities_of b → (0 ≤ BeachMock.capacity a ≤ 20)%Z.
Proof.
  intros [_ Hf _] Ha. apply (list_elem_of_fmap_2 fixed) in Ha. rewrite Hf in Ha.
  apply list_elem_of_fmap in Ha as (x & Hx & Hin%list_elem_of_In).
  assert (BeachMock.capacity a = BeachMock.capacity x) as -> by (by injection Hx).
  assert (forallb (λ a, (0 <=? BeachMock.capacity a) && (BeachMock.capacity a <=? 20))%Z
    BeachMock.SEED = true) as Hall by done.
  rewrite forallb_forall in Hall. specialize (Hall x Hin). lia.
Qed.

Lemma seeded_safe b : seeded b → Forall safe_activity (BeachMock.activities_of b).
Proof.
  intros Hs. apply Forall_forall. intros a Ha.
  pose proof (seeded_remaining b a Hs Ha). pose proof (seeded_capacity b a Hs Ha).
  split; apply bool_decide_eq_true; unfold max_safe_integer; lia.
Qed.

(** After any requests to the handlers, what they answer is data the client accepts
    and reads as what the mock holds. *)
Lemma seeded_answers b g :
  seeded b →
  let list := BeachMock.body (BeachMock.get_activities b).1 in
  let booked := BeachMock.body (BeachMock.by_guest g b).1 in
  conforms ActivitiesResponseSchema list = true ∧
  read_activities (project ActivitiesResponseSchema list) = Some (client_activity <$> BeachMock.activities_of b) ∧
  conforms ActivityByGuestResponseSchema booked = true ∧
  read_booked (project ActivityByGuestResponseSchema booked) =
    Some (BeachMock.current_booking (BeachMock.loadBookings b) g).
Proof.
  intros Hs. destruct (seeded_load b Hs) as (_ & _ & _ & ->).
  destruct (activities_json_ok _ (seeded_safe b Hs)) as [? ?].
  destruct (booked_json_ok g b) as [? ?]. by split_and!.
Qed.

Lemma seeded_run ops b :
  (∀ id g, BeachMock.Book id g ∈ ops → id ≠ "") → seeded b → seeded (foldl BeachMock.run_beach b ops).
Proof.
  revert b. induction ops as [|o ops IH]; intros b Hid Hs; [done|]. cbn [foldl].
  apply IH; [set_solver|]. destruct o as [id g|id g| |g]; cbn [BeachMock.run_beach].
  - apply seeded_book; [apply (Hid id g); set_solver|done].
  - by apply seeded_cancel.
  - by apply seeded_load.
  - done.
Qed.

(** ** The paths of the mock *)

(** A handler of the mock worker: the method and the path after the gateway's.
    (src/frontend/src/mocks/handlers/beach.ts:96-201 beachHandlers) *)
Definition beachHandlers : list (string * string) :=
  [("GET", "/activities"); ("GET", "/activity/:activityId"); ("POST", "/activity/book/:activityId");
   ("POST", "/activity/cancel/:activityId"); ("GET", "/activity/by-guest/:guestId")].

Definition segments (s : string) : list string := split "/"%char s.

Lemma split_chars_app sep cur l k :
  split_chars sep cur (l ++ sep :: k) = split_chars sep cur l ++ split_chars sep [] k.
Proof.
  revert cur. induction l as [|c l IH]; intros cur; cbn; [by rewrite decide_True|].
  case_decide; [|apply IH]. by rewrite IH.
Qed.

Lemma segments_slash s t : segments (s +:+ String "/" t) = segments s ++ segments t.
Proof. unfold segments, split. rewrite chars_app. apply split_chars_app. Qed.

Lemma basePath_api a u : ∃ rest, basePath a +:+ u = String "/" ("api" +:+ String "/" rest).
Proof. destruct a; by eexists. Qed.

(** A parameter of a path stands for a segment; any other segment stands for
    itself. *)
Definition is_param (segment : string) : bool :=
  match segment with String ":" _ => true | _ => false end.

(** A path whose first segment is a text other than [api]. *)
Definition outside_api (p : string) : bool :=
  match p with
  | String "/" t =>
      match segments t with a :: _ => negb (is_param a) && bool_decide (a ≠ "api") | [] => false end
  | _ => false
  end.

Lemma outside_api_inv p : outside_api p = true →
  ∃ t, p = String "/" t ∧ ∃ a l, segments t = a :: l ∧ is_param a = false ∧ a ≠ "api".
Proof.
  unfold outside_api. intros Hp. destruct p as [|[[] [] [] [] [] [] [] []] t]; try done.
  exists t. split; [done|]. destruct (segments t) as [|a l]; [done|]. exists a, l.
  apply andb_true_iff in Hp as [H1%negb_true_iff H2%bool_decide_eq_true]. done.
Qed.

(** A URL up to its query. *)
Fixpoint before_query (u : string) : string :=
  match u with
  | EmptyString => ""
  | String c u => if decide (c = "?"%char) then "" else String c (before_query u)
  end.

Lemma before_query_app s u : "?"%char ∉ chars s → before_query (s +:+ u) = s +:+ before_query u.
Proof.
  induction s as [|c s IH]; [done|]. intros [Hne Hs]%not_elem_of_cons.
  change (String c s +:+ u) with (String c (s +:+ u)). cbn [before_query].
  rewrite decide_False by congruence. by rewrite IH.
Qed.

Section worker.
Variable gatewayUrl : string.
Hypothesis gateway_plain : "?"%char ∉ chars gatewayUrl.
(** The worker of [msw]: whether a handler's path matches a request's URL.  By
    its documentation a path matches segment by segment, whatever the query. *)
Variable matches : string → string → bool.
Hypothesis matches_segments : ∀ p u, matches p u = true →
  Forall2 (λ a b, is_param a = true ∨ a = b) (segments p) (segments (before_query u)).

(** Whether the mock answers a call of the client.
    (src/frontend/src/mocks/browser.ts:4-4 worker) *)
Definition mocked (c : Call) : bool :=
  existsb (λ h, bool_decide (h.1 = call_method c) &&
    matches (gatewayUrl +:+ h.2) (gatewayUrl +:+ basePath (call_api c) +:+ call_url c)) beachHandlers.

(** Whatever it asks, the client's paths go below [/api], where no handler listens. *)
Lemma never_mocked c : mocked c = false.
Proof.
  apply not_true_iff_false. unfold mocked. rewrite existsb_exists.
  intros ([m p] & Hin%list_elem_of_In & [_ Hp]%andb_true_iff). cbn [snd] in Hp.
  destruct (basePath_api (call_api c) (call_url c)) as [rest Hrest]. rewrite Hrest in Hp.
  apply matches_segments in Hp. rewrite before_query_app in Hp by done.
  change (before_query (String "/" ("api" +:+ String "/" rest))) with
    (String "/" ("api" +:+ String "/" (before_query rest))) in Hp.
  destruct (outside_api_inv p) as (t & -> & a & l & Hs & Hpar & Hne).
  { assert (forallb (λ h, outside_api h.2) beachHandlers = true) as Hall by by vm_compute.
    rewrite forallb_forall in Hall. apply (Hall (m, p)). by apply list_elem_of_In. }
  rewrite !segments_slash in Hp. apply Forall2_app_inv in Hp as [_ Hp]; [|done].
  rewrite Hs in Hp. apply Forall2_cons_inv_l in Hp as (b & l' & Hb & _ & Heq).
  change (segments "api") with ["api"] in Heq. cbn [app] in Heq. destruct Hb; congruence.
Qed.
End worker.
