(* ===== verification/MapZones.v ===== *)
(** * The zones of the map

    [features/map]: the registry of zones, where they are drawn, what they show
    of the event store, which of them are locked, the flash of a marker when
    something happens in its zone, and the lists of events in the panels.
    Lengths on the screen are rationals. *)

From Stdlib Require Import QArith Qminmax Lqa.
From stdpp Require Import functions.
From S2P Require Import Prelude Json JsString WebTypes EventsStore Session WebLib.

(** ** Constants *)

(** (src/frontend/src/features/map/constants.ts:4-4 MAP_W) *)
Definition MAP_W : Q := 3200.
(** (src/frontend/src/features/map/constants.ts:5-5 MAP_H) *)
Definition MAP_H : Q := 2000.
(** (src/frontend/src/features/map/constants.ts:6-6 MAP_ASPECT) *)
Definition MAP_ASPECT : Q := MAP_W / MAP_H.
(** (src/frontend/src/features/map/constants.ts:9-9 MAP_ZOOM_BUDGET) *)
Definition MAP_ZOOM_BUDGET : Q := 28 # 10.
(** (src/frontend/src/features/map/constants.ts:13-13 ZONE_HIT_RADIUS) *)
Definition ZONE_HIT_RADIUS : Q := 160.

(** (src/frontend/src/features/map/constants.ts:15-22 ZoneId) *)
Inductive ZoneId : Type :=
  | AirportZone | HotelZone | BeachZone | CrabZone | ParrotZone | BroadcastZone.

#[global] Instance ZoneId_eq_dec : EqDecision ZoneId.
Proof. solve_decision. Defined.

(** [Object.values(ZoneId)]. *)
Definition all_zones : list ZoneId :=
  [AirportZone; HotelZone; BeachZone; CrabZone; ParrotZone; BroadcastZone].

(** ** The registry *)

(** Icons and images are called by what the module imports.
    (src/frontend/src/features/map/zone-registry.ts:19-33 ZoneDefinition) *)
Record ZoneDefinition : Type := MkZone {
  z_id : ZoneId;
  z_label : string;
  z_description : string;
  z_adminDescription : string;
  z_icon : string;
  z_channel : ChannelId;
  z_position : Z * Z;
  z_accent : string;
  z_markerSrc : string;
  z_markerScale : option Q;
}.

(** (src/frontend/src/features/map/zone-registry.ts:35-118 ZONE_REGISTRY) *)
Definition ZONE_REGISTRY (id : ZoneId) : ZoneDefinition :=
  match id with
  | AirportZone => {|
      z_id := AirportZone; z_label := "Airport";
      z_description := "Join the departure queue and clear passport control. You can't check in anywhere until you've landed.";
      z_adminDescription := "Observe airport arrivals, queue movement, and passport-control events.";
      z_icon := "IconPlaneDeparture"; z_channel := Airport; z_position := (1600, 320)%Z;
      z_accent := "#38bdf8"; z_markerSrc := "airport.svg"; z_markerScale := Some (2 # 1) |}
  | HotelZone => {|
      z_id := HotelZone; z_label := "Hotel";
      z_description := "Reserve a room for your stay. The hotel checks you've cleared the airport first.";
      z_adminDescription := "Observe hotel room, reservation, and cancellation events.";
      z_icon := "IconBed"; z_channel := Hotel; z_position := (1720, 900)%Z;
      z_accent := "#34d399"; z_markerSrc := "hotel.svg"; z_markerScale := Some (165 # 100) |}
  | BeachZone => {|
      z_id := BeachZone; z_label := "Beach";
      z_description := "Browse activities and grab a spot. Each has limited capacity and guests can only join one at a time.";
      z_adminDescription := "Observe beach activity capacity, booking, and cancellation events.";
      z_icon := "IconUmbrella"; z_channel := Hotel; z_position := (580, 1400)%Z;
      z_accent := "#fbbf24"; z_markerSrc := "beach.svg"; z_markerScale := Some (1 # 1) |}
  | CrabZone => {|
      z_id := CrabZone; z_label := "The Crusty Crab";
      z_description := "Order a Krabby Patty and other island eats from Mr. Crab. Some items are limited and sell out for the day!";
      z_adminDescription := "Observe Crusty Crab orders and sold-out events.";
      z_icon := "IconToolsKitchen2"; z_channel := Crab; z_position := (1080, 1240)%Z;
      z_accent := "#ef4444"; z_markerSrc := "crab.png"; z_markerScale := Some (18 # 10) |}
  | ParrotZone => {|
      z_id := ParrotZone; z_label := "Parrot";
      z_description := "Chat with the resort's AI parrot for island guidance, recommendations, and quick answers.";
      z_adminDescription := "Observe the AI parrot's activity: chat volume, tool usage, and conversation transcripts.";
      z_icon := "IconFeather"; z_channel := Parrot; z_position := (2380, 1560)%Z;
      z_accent := "#a78bfa"; z_markerSrc := "parrot.svg"; z_markerScale := Some (1 # 1) |}
  | BroadcastZone => {|
      z_id := BroadcastZone; z_label := "Lighhouse";
      z_description := "Resort-wide announcements broadcast to every guest on the island.";
      z_adminDescription := "Observe the full island-wide event stream from every service.";
      z_icon := "IconBuildingLighthouse"; z_channel := ResortWide; z_position := (375, 890)%Z;
      z_accent := "#22d3ee"; z_markerSrc := "lighthouse.svg"; z_markerScale := Some (2 # 1) |}
  end.

(** (src/frontend/src/features/map/zone-registry.ts:120-122 getZone) *)
Definition getZone (id : ZoneId) : ZoneDefinition := ZONE_REGISTRY id.

(** (src/frontend/src/features/map/hooks/use-zone-activity-tick.ts:5-9 useZoneActivityTick) *)
Definition useZoneActivityTick (st : EventsState) (zoneId : ZoneId) : Z :=
  activityTick st (z_channel (getZone zoneId)).

(** (src/frontend/src/features/map/hooks/use-zone-events.ts:6-9 useZoneEvents) *)
Definition useZoneEvents (st : EventsState) (zoneId : ZoneId) : list BroadcastEvent :=
  events st (z_channel (getZone zoneId)).

(** ** Lists of events *)

(** The events shown, [None] for the text that there are none.  A limit of zero
    is no limit.
    (src/frontend/src/features/map/components/event-log.tsx:9-30 EventLog) *)
Definition EventLog (l : list BroadcastEvent) (limit : option nat) : option (list BroadcastEvent) :=
  let visible := match limit with Some (S _ as n) => take n l | _ => l end in
  if decide (length visible = 0) then None else Some visible.

(** (src/frontend/src/features/map/components/zone-event-log.tsx:10-30 ZoneEventLog) *)
Definition ZoneEventLog (l : list BroadcastEvent) (limit : option nat) : option (list BroadcastEvent) :=
  EventLog l (Some (default 25 limit)).

(** The texts of a card: the message, the guest's name unless it is empty, and
    the sender.
    (src/frontend/src/features/map/components/event-card.tsx:8-29 EventCard) *)
Definition EventCard (guests : list GuestProfile) (e : BroadcastEvent) :
    string * option string * string :=
  let guestName := match b_guest_name e with
    | Some n => Some n
    | None => findGuestName guests (b_guest_id e)
    end in
  (b_message e, match guestName with Some n => if truthy n then Some n else None | None => None end,
   b_sender e).

(** ** Dimensions *)

(** (src/frontend/src/features/map/hooks/use-map-dimensions.ts:4-8 MapDimensions) *)
Record MapDimensions : Type := { w : Q; h : Q; minScale : Q }.

(** (src/frontend/src/features/map/hooks/use-map-dimensions.ts:10-17 compute) *)
Definition compute (vpW vpH : Q) : MapDimensions :=
  let byWidth := (vpW * MAP_ZOOM_BUDGET)%Q in
  let byHeight := (vpH * MAP_ZOOM_BUDGET * MAP_ASPECT)%Q in
  let w := Qmax byWidth byHeight in
  let h := (w / MAP_ASPECT)%Q in
  {| w := w; h := h; minScale := Qmax (vpW / w) (vpH / h) |}.

(** The square of a marker that takes clicks: left, top, width and height.
    (src/frontend/src/features/map/components/zone-indicator.tsx:75-80 style) *)
Record Box : Type := { left : Q; top : Q; width : Q; height : Q }.
(** (src/frontend/src/features/map/components/zone-indicator.tsx:75-80 style) *)
Definition indicator_box (x y radius : Q) : Box :=
  {| left := (x - radius)%Q; top := (y - radius)%Q; width := (radius * 2)%Q;
     height := (radius * 2)%Q |}.

(** The marker of a zone on a map of the given size.
    (src/frontend/src/features/map/components/zone-layer.tsx:19-42 ZoneLayer) *)
Definition zone_box (mapW mapH : Q) (id : ZoneId) : Box :=
  let scaleX := (mapW / MAP_W)%Q in
  let scaleY := (mapH / MAP_H)%Q in
  let scale := Qmin scaleX scaleY in
  let zone := getZone id in
  indicator_box (inject_Z (z_position zone).1 * scaleX)%Q (inject_Z (z_position zone).2 * scaleY)%Q
    (ZONE_HIT_RADIUS * scale)%Q.

(** ** Locks *)

(** (src/frontend/src/features/map/components/zone-indicator.tsx:45-49 locked) *)
Definition zone_locked (id : ZoneId) (isAdmin landed checkedIn : bool) : bool :=
  let needsLanding := bool_decide (id ≠ AirportZone) in
  let needsCheckin := bool_decide (id = BeachZone) in
  let isLockedForGuest := (needsLanding && negb landed) || (needsCheckin && negb checkedIn) in
  negb isAdmin && isLockedForGuest.

(** ** The flash of a marker *)

(** (src/frontend/src/features/map/components/zone-indicator.tsx:24-24 MARKER_ACTIVITY_MS) *)
Definition MARKER_ACTIVITY_MS : Z := 820.

(** The component's state, the tick it was rendered with, the timer its effect
    would clear, and the timers that are set.
    (src/frontend/src/features/map/components/zone-indicator.tsx:40-43 useState) *)
Record Indicator : Type := MkIndicator {
  isActive : bool;
  previousTickRef : Z;
  rendered_tick : Z;
  to_clear : option nat;
  timers : list nat;
  next_timer : nat;
}.

(** The body of the effect.
    (src/frontend/src/features/map/components/zone-indicator.tsx:51-65 useEffect) *)
Definition activity_effect (tick : Z) (s : Indicator) : Indicator :=
  if decide (tick = 0%Z ∨ tick = previousTickRef s) then
    MkIndicator (isActive s) tick tick None (timers s) (next_timer s)
  else
    MkIndicator true tick tick (Some (next_timer s)) (timers s ++ [next_timer s]) (S (next_timer s)).

(** (src/frontend/src/features/map/components/zone-indicator.tsx:64-64 cleanup) *)
Definition activity_cleanup (s : Indicator) : Indicator :=
  MkIndicator (isActive s) (previousTickRef s) (rendered_tick s) None
    match to_clear s with Some t => filter (λ x, x ≠ t) (timers s) | None => timers s end
    (next_timer s).

(** The first render and its effect. *)
Definition mount_indicator (tick : Z) : Indicator :=
  activity_effect tick (MkIndicator false tick tick None [] 0).

(** The effect depends on the tick: another tick cleans up and runs it again. *)
Definition rerender (tick : Z) (s : Indicator) : Indicator :=
  if decide (tick = rendered_tick s) then s else activity_effect tick (activity_cleanup s).

(** (src/frontend/src/features/map/components/zone-indicator.tsx:60-62 setTimeout) *)
Definition fire_timer (t : nat) (s : Indicator) : Indicator :=
  MkIndicator false (previousTickRef s) (rendered_tick s) (to_clear s)
    (filter (λ x, x ≠ t) (timers s)) (next_timer s).

(** ** Facts about the map *)

Lemma compute_budget vpW vpH :
  (0 < vpW)%Q → (0 < vpH)%Q →
  let d := compute vpW vpH in
  (0 < w d)%Q ∧ (w d == h d * MAP_ASPECT)%Q ∧ (minScale d == 1 / MAP_ZOOM_BUDGET)%Q ∧
  (vpW <= w d * minScale d)%Q ∧ (vpH <= h d * minScale d)%Q.
Proof.
  intros HW HH. cbv zeta. unfold compute, MAP_ASPECT, MAP_W, MAP_H, MAP_ZOOM_BUDGET. cbn [w h minScale].
  set (bw := (vpW * (28 # 10))%Q). set (bh := (vpH * (28 # 10) * (3200 / 2000))%Q).
  assert (bh == vpH * (448 # 100))%Q as Ebh by (unfold bh; field).
  assert (0 < bw)%Q as Hbw by (unfold bw; lra).
  assert (0 < bh)%Q as Hbh by (rewrite Ebh; lra).
  set (m := Qmax bw bh).
  assert (0 < m)%Q as Hm by (eapply Qlt_le_trans; [exact Hbw|apply Q.le_max_l]).
  assert (vpW == bw * (10 # 28))%Q as EW by (unfold bw; field).
  assert (vpH == bh * (10 # 28) / (3200 / 2000))%Q as EH by (unfold bh; field).
  assert (Qmax (vpW / m) (vpH / (m / (3200 / 2000))) == 1 / (28 # 10))%Q as Hs.
  { assert (vpW / m == (bw / m) * (10 # 28))%Q as -> by (rewrite EW at 1; field; lra).
    assert (vpH / (m / (3200 / 2000)) == (bh / m) * (10 # 28))%Q as -> by (rewrite EH at 1; field; lra).
    unfold m. destruct (Q.max_spec bw bh) as [[Hlt Heq]|[Hle Heq]].
    - rewrite Q.max_r; [rewrite Heq; field; lra|]. rewrite Heq.
      apply Qmult_le_compat_r; [|lra]. apply Qmult_le_compat_r; [lra|].
      apply Qinv_le_0_compat. lra.
    - rewrite Q.max_l; [rewrite Heq; field; lra|]. rewrite Heq.
      apply Qmult_le_compat_r; [|lra]. apply Qmult_le_compat_r; [lra|].
      apply Qinv_le_0_compat. lra. }
  split_and!; [done|field|done| |]; rewrite Hs.
  - rewrite EW. assert (bw <= m)%Q by apply Q.le_max_l.
    assert (m * (1 / (28 # 10)) == m * (10 # 28))%Q as -> by field. lra.
  - rewrite EH. assert (bh <= m)%Q by apply Q.le_max_r.
    assert (bh * (10 # 28) / (3200 / 2000) == bh * (100 # 448))%Q as -> by field.
    assert (m / (3200 / 2000) * (1 / (28 # 10)) == m * (100 # 448))%Q as -> by field. lra.
Qed.

(** A square within the map, and two squares with no point in the inside of
    both. *)
Definition box_inside (mapW mapH : Q) (b : Box) : Prop :=
  (0 <= left b)%Q ∧ (0 <= top b)%Q ∧ (left b + width b <= mapW)%Q ∧ (top b + height b <= mapH)%Q.
Definition boxes_apart (a b : Box) : Prop :=
  (left a + width a <= left b)%Q ∨ (left b + width b <= left a)%Q ∨
  (top a + height a <= top b)%Q ∨ (top b + height b <= top a)%Q.

(** On a map of the right shape every length is scaled by one factor. *)
Lemma zone_box_scaled mapW mapH id s :
  (mapW == MAP_W * s)%Q → (mapH == MAP_H * s)%Q →
  let p := z_position (getZone id) in let b := zone_box mapW mapH id in
  (left b == (inject_Z p.1 - ZONE_HIT_RADIUS) * s)%Q ∧ (top b == (inject_Z p.2 - ZONE_HIT_RADIUS) * s)%Q ∧
  (width b == ZONE_HIT_RADIUS * 2 * s)%Q ∧ (height b == ZONE_HIT_RADIUS * 2 * s)%Q.
Proof.
  intros HW HH. cbv zeta. unfold zone_box, indicator_box. cbn [left top width height].
  assert (mapW / MAP_W == s)%Q as -> by (rewrite HW; unfold MAP_W; field).
  assert (mapH / MAP_H == s)%Q as -> by (rewrite HH; unfold MAP_H; field).
  rewrite Q.min_id. split_and!; ring.
Qed.

Lemma zones_inside mapW mapH id s :
  (0 < s)%Q → (mapW == MAP_W * s)%Q → (mapH == MAP_H * s)%Q → box_inside mapW mapH (zone_box mapW mapH id).
Proof.
  intros Hs HW HH. destruct (zone_box_scaled _ _ id _ HW HH) as (Hl & Ht & Hw & Hh).
  unfold box_inside. rewrite Hl, Ht, Hw, Hh, HW, HH. unfold MAP_W, MAP_H, ZONE_HIT_RADIUS.
  destruct id; cbn [getZone ZONE_REGISTRY z_position fst snd]; unfold inject_Z; split_and!; lra.
Qed.

Lemma zones_apart mapW mapH a b s :
  (0 < s)%Q → (mapW == MAP_W * s)%Q → (mapH == MAP_H * s)%Q → a ≠ b →
  boxes_apart (zone_box mapW mapH a) (zone_box mapW mapH b).
Proof.
  intros Hs HW HH Hne.
  destruct (zone_box_scaled _ _ a _ HW HH) as (Hl & Ht & Hw & Hh).
  destruct (zone_box_scaled _ _ b _ HW HH) as (Hl' & Ht' & Hw' & Hh').
  unfold boxes_apart. rewrite Hl, Ht, Hw, Hh, Hl', Ht', Hw', Hh'. unfold ZONE_HIT_RADIUS.
  destruct a, b; try done; cbn [getZone ZONE_REGISTRY z_position fst snd]; unfold inject_Z;
    first [left; lra|right; left; lra|right; right; left; lra|right; right; right; lra].
Qed.

(** ** Facts about the flash *)

(** A marker flashes exactly while a timer is set to end it, at most one is, and
    it is the one the effect would clear. *)
Record indicator_inv (s : Indicator) : Prop := {
  ind_active : isActive s = true ↔ timers s ≠ [];
  ind_timers : timers s = [] ∨ ∃ t, timers s = [t] ∧ to_clear s = Some t;
  ind_tick : previousTickRef s = rendered_tick s;
}.

Lemma clear_timers_nil s :
  indicator_inv s →
  match to_clear s with Some t => filter (λ x, x ≠ t) (timers s) | None => timers s end = [].
Proof.
  intros [_ [Ht|(t & Ht & Hc)] _]; rewrite Ht.
  - by destruct (to_clear s).
  - rewrite Hc, filter_cons, decide_False by tauto. done.
Qed.

(** A tick above zero that differs from the last makes the marker flash anew. *)
Lemma rerender_spec tick s :
  indicator_inv s → (0 < tick)%Z →
  indicator_inv (rerender tick s) ∧ rendered_tick (rerender tick s) = tick ∧
  (tick ≠ rendered_tick s → isActive (rerender tick s) = true ∧ length (timers (rerender tick s)) = 1) ∧
  (tick = rendered_tick s → rerender tick s = s).
Proof.
  intros Hi Ht. unfold rerender. case_decide as Heq; [by split_and!|].
  pose proof (clear_timers_nil _ Hi) as Hnil. destruct Hi as [_ _ Hp].
  unfold activity_effect. rewrite decide_False by (cbn [activity_cleanup previousTickRef]; lia).
  cbn [activity_cleanup timers next_timer]. rewrite Hnil. cbn [app].
  split_and!; [|done|done|done]. constructor; cbn; [done|right; eauto|done].
Qed.

Lemma fire_timer_inv t s :
  indicator_inv s → t ∈ timers s → indicator_inv (fire_timer t s) ∧ isActive (fire_timer t s) = false.
Proof.
  intros [_ [Hn|(t' & Hn & Hc)] Hp] Hin; rewrite Hn in Hin; [set_solver|].
  apply list_elem_of_singleton in Hin as ->. unfold fire_timer. rewrite Hn.
  rewrite filter_cons, decide_False, filter_nil by tauto.
  split; [|done]. constructor; cbn; [by split|by left|done].
Qed.

Lemma mount_indicator_inv tick :
  indicator_inv (mount_indicator tick) ∧ isActive (mount_indicator tick) = false ∧
  rendered_tick (mount_indicator tick) = tick.
Proof.
  unfold mount_indicator, activity_effect. cbn [previousTickRef]. rewrite decide_True by auto.
  split_and!; [|done..]. constructor; cbn; [by split|by left|done].
Qed.

Lemma activity_cleanup_timers s : indicator_inv s → timers (activity_cleanup s) = [].
Proof. apply clear_timers_nil. Qed.

(** *** Marker and store *)

(** The store changes, which renders the marker of a zone again; a timer that
    is set may fire. *)
Inductive marker_step (id : ZoneId) : EventsState * Indicator → EventsState * Indicator → Prop :=
  | marker_store st s o :
      marker_step id (st, s)
        (run_events_op o st, rerender (useZoneActivityTick (run_events_op o st) id) s)
  | marker_fire st s t : t ∈ timers s → marker_step id (st, s) (st, fire_timer t s).

Definition marker_init (id : ZoneId) (x : EventsState * Indicator) : Prop :=
  events_wf x.1 ∧ x.2 = mount_indicator (useZoneActivityTick x.1 id).
Definition marker_reachable (id : ZoneId) : EventsState * Indicator → Prop :=
  reachable (marker_init id) (marker_step id).

Definition marker_inv (id : ZoneId) (x : EventsState * Indicator) : Prop :=
  events_wf x.1 ∧ indicator_inv x.2 ∧ rendered_tick x.2 = useZoneActivityTick x.1 id.

Lemma run_events_op_wf o st : events_wf st → events_wf (run_events_op o st).
Proof. destruct o; [apply ingestEvent_wf|apply clearEvents_wf]. Qed.

(** The tick a store operation leaves. *)
Lemma run_events_op_tick o st ch :
  activityTick (run_events_op o st) ch =
  (activityTick st ch + match o with
     | Ingest _ e mirror => if arrives e mirror ch then 1 else 0
     | Clear _ => 0
     end)%Z.
Proof.
  pose proof (activityTick_counts [o] ch st) as Ht. cbn [foldl] in Ht. rewrite Ht.
  unfold arrivals, sum_with. cbn [foldr]. lia.
Qed.

(** The operation lets an event into the zone's channel. *)
Definition reaches (id : ZoneId) (o : EventsOp) : bool :=
  match o with
  | Ingest _ e mirror => arrives e mirror (z_channel (getZone id))
  | Clear _ => false
  end.

Lemma marker_store_spec id st s o :
  marker_inv id (st, s) →
  let s' := rerender (useZoneActivityTick (run_events_op o st) id) s in
  marker_inv id (run_events_op o st, s') ∧
  if reaches id o then isActive s' = true ∧ length (timers s') = 1 else s' = s.
Proof.
  intros (Hw & Hi & Hr). cbn [fst snd] in *. cbv zeta.
  set (tick := useZoneActivityTick (run_events_op o st) id).
  assert (tick = (rendered_tick s + if reaches id o then 1 else 0)%Z) as Ht.
  { unfold tick, useZoneActivityTick. rewrite run_events_op_tick, Hr. unfold useZoneActivityTick.
    by destruct o; cbn [reaches]; [|rewrite Z.add_0_r]. }
  destruct (Hw (z_channel (getZone id))) as (_ & _ & Hpos).
  unfold useZoneActivityTick in Hr. rewrite <-Hr in Hpos.
  destruct (reaches id o).
  - destruct (rerender_spec tick s Hi) as (Hi' & Hr' & Hne & _); [lia|].
    split; [|apply Hne; lia]. split_and!; [by apply run_events_op_wf|done|done].
  - rewrite Z.add_0_r in Ht. unfold rerender. rewrite decide_True by done.
    split; [|done]. split_and!; [by apply run_events_op_wf|done|]. cbn. by rewrite <-Ht.
Qed.

Lemma marker_reachable_inv id x : marker_reachable id x → marker_inv id x.
Proof.
  apply invariant_reachable.
  - intros [st s] [Hw Hs]. cbn [fst snd] in *. subst s.
    destruct (mount_indicator_inv (useZoneActivityTick st id)) as (Hi & _ & Hr). done.
  - intros y y' Hinv Hstep. destruct Hstep as [st s o|st s t Ht]; [exact (proj1 (marker_store_spec id st s o Hinv))|].
    destruct Hinv as (Hw & Hi & Hr). destruct (fire_timer_inv t s Hi Ht) as [Hi' _]. done.
Qed.

(** ** Facts about the lists *)

Lemma ZoneEventLog_spec l limit :
  match ZoneEventLog l limit with
  | None => l = []
  | Some visible => l ≠ [] ∧ visible = take (default 25 limit) l ∨
      (limit = Some 0 ∧ visible = l ∧ l ≠ [])
  end.
Proof.
  unfold ZoneEventLog, EventLog. destruct (default 25 limit) as [|n] eqn:Hd.
  - destruct limit as [[|]|]; simplify_eq/=. case_decide as Hl; [by apply nil_length_inv|].
    right. split_and!; [done..|]. by intros ->.
  - case_decide as Hl.
    + by destruct l.
    + left. split; [|done]. by intros ->.
Qed.
