(* ===== verification/ShopView.v ===== *)
(** * The crab's menu and the goat farm in the web client

    [features/crab] and [features/goat-farm]: what the two shops show and send,
    and the goat farm's countdown to the next restock with the effect that
    fetches the stock again when it has run out. *)

From Stdlib Require Import QArith Qminmax Lqa.
From S2P Require Import Prelude Json Zod JsString WebTypes WebApi WebLib WebData QueryClient Session.
From S2P Require MapZones.

(** ** The crab *)

Module Crab.

(** (src/frontend/src/features/crab/query-keys.ts:1-5 crabKeys) *)
Definition menu_key : QueryKey := [Some "crab"; Some "menu"].
(** (src/frontend/src/features/crab/query-keys.ts:1-5 crabKeys) *)
Definition orders_key (guestId : string) : QueryKey := [Some "crab"; Some "orders"; Some guestId].

(** (src/frontend/src/features/crab/hooks/use-menu.ts:9-9 refetchInterval) *)
Definition MENU_INTERVAL_MS : Z := 15000.

(** The cache, the order being placed, and the toasts: successes or errors. *)
Record CrabUi (Cache : Type) : Type := MkCrabUi {
  c_cache : Cache;
  c_order : option Call;
  c_toasts : list (bool * string);
}.
#[global] Arguments MkCrabUi {Cache}.
#[global] Arguments c_cache {Cache}.
#[global] Arguments c_order {Cache}.
#[global] Arguments c_toasts {Cache}.

Section orders.
Context {Cache : Type} `{!QueryClient Cache}.
Variables (guestId guestName : string).

(** (src/frontend/src/features/crab/hooks/use-place-order.ts:8-10 mutationFn) *)
Definition mutate (items : list (string * Z)) (s : CrabUi Cache) : CrabUi Cache :=
  MkCrabUi (c_cache s) (Some (placeOrder guestId guestName items)) (c_toasts s).

(** The answer's number of lines, or an error.
    (src/frontend/src/features/crab/hooks/use-place-order.ts:11-16 onSuccess) *)
Definition settled (answer : nat + string) (s : CrabUi Cache) : CrabUi Cache :=
  match answer with
  | inl lines =>
      MkCrabUi (invalidateQueries (orders_key guestId) (invalidateQueries menu_key (c_cache s))) None
        (c_toasts s ++ [(true, "Order up! 🦀 " +:+ show_int (Z.of_nat lines) +:+ " item(s) served.")])
  | inr m => MkCrabUi (c_cache s) None (c_toasts s ++ [(false, m)])
  end.
End orders.

(** A dish: its name, price, note and description, and its button. *)
Record Row : Type := MkRow {
  row_id : string;
  row_title : string;
  row_price : string;
  row_left : option string;
  row_disabled : bool;
  row_button : string;
}.

(** (src/frontend/src/features/crab/components/crab-panel.tsx:42-73 item) *)
Definition menu_row (pending : bool) (item : MenuItem) : Row :=
  let soldOut := negb (mi_available item) in
  MkRow (mi_id item) (mi_emoji item +:+ " " +:+ mi_name item) (show_int (mi_price item) +:+ " 🐚")
    (match mi_remaining item with
     | Some n => if soldOut then None else Some (show_int n +:+ " left")
     | None => None
     end)
    (soldOut || pending) (if soldOut then "Sold out" else "Order").

Inductive CrabView : Type :=
  | CrabAdmin
  | CrabNotLanded
  | CrabMenu (heating : bool) (rows : list Row).

(** (src/frontend/src/features/crab/components/crab-panel.tsx:12-79 CrabPanel) *)
Definition CrabPanel `{!QueryClient Cache} (session : SessionState) (landed isLoading : bool)
    (s : CrabUi Cache) : CrabView :=
  if useIsAdmin session then CrabAdmin
  else if negb landed || bool_decide (useGuest session = None) then CrabNotLanded
  else CrabMenu isLoading
         (menu_row (bool_decide (is_Some (c_order s))) <$>
          default [] (getQueryData (c_cache s) menu_key ≫= read_menu)).

(** The button of a dish that is shown.
    (src/frontend/src/features/crab/components/crab-panel.tsx:64-70 button) *)
Definition press `{!QueryClient Cache} (session : SessionState) (landed isLoading : bool) (id : string)
    (s : CrabUi Cache) : CrabUi Cache :=
  match CrabPanel session landed isLoading s with
  | CrabMenu _ rows =>
      match find_first (λ r, bool_decide (row_id r = id)) rows with
      | Some r =>
          if row_disabled r then s
          else mutate (default "" (g_id <$> guest session)) (default "" (g_name <$> guest session))
                 [(id, 1%Z)] s
      | None => s
      end
  | _ => s
  end.

(** An order is placed for one dish of the menu that is available, by a guest
    who has landed, and only when none is pending. *)
Lemma press_spec `{!QueryClient Cache} session landed isLoading id (s : CrabUi Cache) :
  press session landed isLoading id s ≠ s →
  ∃ g item, guest session = Some g ∧ landed = true ∧ c_order s = None ∧
    item ∈ default [] (getQueryData (c_cache s) menu_key ≫= read_menu) ∧
    mi_id item = id ∧ mi_available item = true ∧
    press session landed isLoading id s =
      MkCrabUi (c_cache s) (Some (placeOrder (g_id g) (g_name g) [(id, 1%Z)])) (c_toasts s).
Proof.
  unfold press, CrabPanel, useGuest. destruct (useIsAdmin session); [done|].
  destruct landed; [|done]. cbn [negb orb]. case_bool_decide as Hg; [done|].
  destruct (guest session) as [g|]; [|done].
  set (items := default [] _). destruct (find_first _ _) as [r|] eqn:Hf; [|done].
  apply find_first_elem in Hf as [Hr Hid%bool_decide_eq_true].
  apply list_elem_of_fmap in Hr as (item & -> & Hin). cbn in Hid |- *.
  destruct (mi_available item) eqn:Ha; [|done]. cbn [negb orb].
  case_bool_decide as Ho; [done|]. intros _. exists g, item. split_and!; try done.
  by destruct (c_order s); [destruct Ho; eexists|].
Qed.
End Crab.

(** ** The goat farm *)

Module Goats.

(** (src/frontend/src/features/goat-farm/query-keys.ts:1-4 goatFarmKeys) *)
Definition stock_key : QueryKey := [Some "goat-farm"; Some "stock"].

(** [String(rest).padStart(2, "0")]. *)
Definition pad2 (n : Z) : string :=
  let s := show_int n in if decide (String.length s < 2) then "0" +:+ s else s.

(** (src/frontend/src/features/goat-farm/components/goat-farm-popup.tsx:16-21 formatRestock) *)
Definition formatRestock (seconds : Z) : string :=
  let safeSeconds := Z.max 0 seconds in
  show_int (safeSeconds / 60) +:+ ":" +:+ pad2 (Z.rem safeSeconds 60).

(** (src/frontend/src/features/goat-farm/components/goat-farm-popup.tsx:23-29 itemIcon) *)
Definition itemIcon (item : GoatStockItem) : string :=
  if decide (gs_id item = "goat_cheese") then "IconCheese" else "IconMilk".

(** The width of the bar in percent; no width when it is 0 of 0.
    (src/frontend/src/features/goat-farm/components/goat-farm-popup.tsx:160-165 width) *)
Definition stock_width (stock max_stock : Z) : option Q :=
  if decide (max_stock = 0%Z) then
    if decide (stock = 0%Z) then None else Some (if (0 <? stock)%Z then 100 else 0)%Q
  else Some (Qmax 0 (Qmin 100 (inject_Z stock / inject_Z max_stock * 100))).

Record Shelf : Type := MkShelf {
  shelf_id : string;
  shelf_icon : string;
  shelf_text : string;
  shelf_width : option Q;
  shelf_disabled : bool;
  shelf_button : string;
}.

(** (src/frontend/src/features/goat-farm/components/goat-farm-popup.tsx:137-183 item) *)
Definition shelf_row (has_guest pending : bool) (item : GoatStockItem) : Shelf :=
  let soldOut := (gs_stock item <=? 0)%Z in
  MkShelf (gs_id item) (itemIcon item)
    (show_int (gs_stock item) +:+ " of " +:+ show_int (gs_max_stock item) +:+ " available")
    (stock_width (gs_stock item) (gs_max_stock item))
    (negb has_guest || soldOut || pending) (if soldOut then "Sold out" else "Buy").

(** The popup: whether it is open, the stock and when it arrived, the clock of
    the popup, what the restock effect last saw, whether its timeout is set,
    whether a fetch is in flight, and its error. *)
Record GoatUi : Type := MkGoatUi {
  is_open : bool;
  stockData : option (GoatStock * Z);
  nowMs : Z;
  seen : option (bool * option Z);
  timeout_set : bool;
  is_fetching : bool;
  stockError : option string;
}.

(** [Math.floor] rounds down, as the division of Z does.
    (src/frontend/src/features/goat-farm/components/goat-farm-popup.tsx:57-64 secondsUntilRestock) *)
Definition secondsUntilRestock (s : GoatUi) : option Z :=
  match stockData s with
  | Some (data, dataUpdatedAt) =>
      if (0 <? dataUpdatedAt)%Z
      then Some (Z.max 0 (seconds_until_restock data - (nowMs s - dataUpdatedAt) / 1000))%Z
      else None
  | None => None
  end.

(** The effect runs when what it depends on has changed, after its cleanup.
    (src/frontend/src/features/goat-farm/components/goat-farm-popup.tsx:66-79 useEffect) *)
Definition restock_effect (s : GoatUi) : GoatUi :=
  let deps := (is_open s, secondsUntilRestock s) in
  if decide (seen s = Some deps) then s
  else MkGoatUi (is_open s) (stockData s) (nowMs s) (Some deps)
         (is_open s && match secondsUntilRestock s with Some n => (n <=? 0)%Z | None => false end)
         (is_fetching s) (stockError s).

(** The component is mounted closed.
    (src/frontend/src/features/goat-farm/components/goat-farm-popup.tsx:31-43 GoatFarmPopup) *)
Definition goat_mount (now : Z) : GoatUi :=
  restock_effect (MkGoatUi false None now None false false None).

Inductive GoatEvent : Type :=
  | Toggle
  | Tick (now : Z)
  | TimeoutFires
  | Fetched (data : GoatStock) (at_ : Z)
  | FetchFails (message : string)
  | Bought.

(** The marker opens and closes the popup, which fetches when it opens; the
    interval sets the clock while it is open; the timeout fetches again; a
    purchase invalidates the stock.
    (src/frontend/src/features/goat-farm/components/goat-farm-popup.tsx:45-55 useEffect)
    (src/frontend/src/features/goat-farm/components/goat-farm-popup.tsx:71-76 timeout)
    (src/frontend/src/features/goat-farm/hooks/use-goat-stock.ts:6-14 useGoatStock)
    (src/frontend/src/features/goat-farm/hooks/use-buy-goat-item.ts:10-17 useBuyGoatItem) *)
Definition goat_event (e : GoatEvent) (s : GoatUi) : GoatUi :=
  restock_effect
    match e with
    | Toggle => MkGoatUi (negb (is_open s)) (stockData s) (nowMs s) (seen s) (timeout_set s)
                  (is_fetching s || negb (is_open s)) (stockError s)
    | Tick now => if is_open s then MkGoatUi (is_open s) (stockData s) now (seen s) (timeout_set s)
                                      (is_fetching s) (stockError s) else s
    | TimeoutFires => if timeout_set s then MkGoatUi (is_open s) (stockData s) (nowMs s) (seen s) false
                                              true (stockError s) else s
    | Fetched data at_ => if is_fetching s then MkGoatUi (is_open s) (Some (data, at_)) (nowMs s) (seen s)
                                                  (timeout_set s) false None else s
    | FetchFails m => if is_fetching s then MkGoatUi (is_open s) (stockData s) (nowMs s) (seen s)
                                              (timeout_set s) false (Some m) else s
    | Bought => MkGoatUi (is_open s) (stockData s) (nowMs s) (seen s) (timeout_set s) true (stockError s)
    end.
Definition goat_run (es : list GoatEvent) (s : GoatUi) : GoatUi := foldl (λ s e, goat_event e s) s es.

(** What the popup shows: the countdown, the error and the shelf. *)
Record Popup : Type := MkPopup {
  pop_countdown : string;
  pop_error : option string;
  pop_rows : list Shelf;
  pop_note : option string;
}.

(** (src/frontend/src/features/goat-farm/components/goat-farm-popup.tsx:81-199 GoatFarmPopup) *)
Definition GoatFarmPopup (has_guest pending : bool) (s : GoatUi) : option Popup :=
  if negb (is_open s) then None
  else Some (MkPopup (match secondsUntilRestock s with Some n => formatRestock n | None => "--:--" end)
    (stockError s)
    (match stockData s with Some (d, _) => shelf_row has_guest pending <$> goat_items d | None => [] end)
    (if has_guest then None else Some "Select a guest before buying farm goods.")).

(** (src/frontend/src/features/goat-farm/components/goat-farm-marker.tsx:12-12 GOAT_FARM_POSITION) *)
Definition GOAT_FARM_POSITION : Q * Q := (2480, 700)%Q.

(** Its place on the map and the width of its picture.
    (src/frontend/src/features/goat-farm/components/goat-farm-marker.tsx:14-37 GoatFarmMarker) *)
Definition GoatFarmMarker (mapW mapH : Q) : Q * Q * Q :=
  let scaleX := (mapW / MapZones.MAP_W)%Q in
  let scaleY := (mapH / MapZones.MAP_H)%Q in
  ((GOAT_FARM_POSITION.1 * scaleX)%Q, (GOAT_FARM_POSITION.2 * scaleY)%Q,
   Qmax 150 (310 * Qmin scaleX scaleY)).

(** *** Facts *)

Lemma stock_width_bounds stock max_stock q :
  stock_width stock max_stock = Some q → (0 <= q <= 100)%Q.
Proof.
  unfold stock_width. repeat case_decide; [done|..]; intros [= <-].
  - destruct (0 <? stock)%Z; split; discriminate.
  - split; [apply Q.le_max_l|]. apply Q.max_lub; [discriminate|apply Q.le_min_l].
Qed.

Lemma effect_keeps s :
  is_open (restock_effect s) = is_open s ∧ stockData (restock_effect s) = stockData s ∧
  nowMs (restock_effect s) = nowMs s ∧ is_fetching (restock_effect s) = is_fetching s ∧
  stockError (restock_effect s) = stockError s.
Proof. unfold restock_effect. by case_decide. Qed.

Lemma effect_seconds s : secondsUntilRestock (restock_effect s) = secondsUntilRestock s.
Proof. unfold secondsUntilRestock. destruct (effect_keeps s) as (_ & -> & -> & _). done. Qed.

(** After every event the effect has seen what it depends on, and its timeout is
    set only over an open popup whose countdown has run out. *)
Definition goat_inv (s : GoatUi) : Prop :=
  seen s = Some (is_open s, secondsUntilRestock s) ∧
  (timeout_set s = true → is_open s = true ∧ secondsUntilRestock s = Some 0%Z).

Lemma seconds_nonneg s n : secondsUntilRestock s = Some n → (0 ≤ n)%Z.
Proof.
  unfold secondsUntilRestock. destruct (stockData s) as [[d a]|]; [|done].
  destruct (0 <? a)%Z; [|done]. intros [= <-]. lia.
Qed.

Lemma effect_inv s :
  (seen s = Some (is_open s, secondsUntilRestock s) → timeout_set s = true →
   is_open s = true ∧ secondsUntilRestock s = Some 0%Z) →
  goat_inv (restock_effect s).
Proof.
  intros Hs. unfold goat_inv. rewrite effect_seconds. destruct (effect_keeps s) as (-> & _).
  unfold restock_effect. case_decide as Hd; cbn; [split; [done|by apply Hs]|].
  split; [done|]. intros [Ho Hn]%andb_true_iff. split; [done|].
  destruct (secondsUntilRestock s) as [n|] eqn:E; [|done].
  pose proof (seconds_nonneg s n E). f_equal. lia.
Qed.

Lemma goat_event_inv e s : goat_inv s → goat_inv (goat_event e s).
Proof.
  intros [Hs Ht]. apply effect_inv.
  set (s' := match e with Toggle => _ | _ => _ end).
  intros Hseen Hset.
  assert (seen s' = seen s ∧ (timeout_set s' = true → timeout_set s = true)) as [Hs1 Ht1]
    by (subst s'; destruct e; cbn; repeat case_match; naive_solver).
  rewrite Hs1, Hs in Hseen. apply (inj Some) in Hseen.
  apply pair_equal_spec in Hseen as [<- <-]. by apply Ht, Ht1.
Qed.

Lemma goat_run_inv es s : goat_inv s → goat_inv (goat_run es s).
Proof.
  revert s. unfold goat_run. induction es as [|e es IH]; intros s Hs; [done|].
  by apply IH, goat_event_inv.
Qed.

Lemma goat_mount_inv now : goat_inv (goat_mount now).
Proof. by apply effect_inv. Qed.

(** The countdown shows at most a second more than the farm announced, as the
    clock of the popup is at most a second behind. *)
Lemma seconds_bounds s d a n :
  stockData s = Some (d, a) → secondsUntilRestock s = Some n → (a - 1000 ≤ nowMs s)%Z →
  (0 ≤ seconds_until_restock d)%Z → (0 ≤ n ≤ seconds_until_restock d + 1)%Z.
Proof.
  unfold secondsUntilRestock. intros ->. destruct (0 <? a)%Z; [|done]. intros [= <-] Hn Hd.
  assert (-1 ≤ (nowMs s - a) / 1000)%Z; [|lia].
  apply (Z.div_le_mono (-1000) _ 1000) in Hn || apply Z.div_le_lower_bound; lia.
Qed.

(** Nothing is scheduled, nothing is in flight and the countdown is out. *)
Record stopped (s : GoatUi) : Prop := {
  st_inv : goat_inv s;
  st_open : is_open s = true;
  st_zero : secondsUntilRestock s = Some 0%Z;
  st_timeout : timeout_set s = false;
  st_fetching : is_fetching s = false;
}.

(** What happens to a popup that is left open: time passes. *)
Definition left_alone (from : Z) (e : GoatEvent) : Prop :=
  match e with Toggle | Bought => False | Tick now => (from ≤ now)%Z | _ => True end.

Lemma seconds_later s now :
  secondsUntilRestock s = Some 0%Z → (nowMs s ≤ now)%Z →
  secondsUntilRestock (MkGoatUi (is_open s) (stockData s) now (seen s) (timeout_set s) (is_fetching s)
    (stockError s)) = Some 0%Z.
Proof.
  unfold secondsUntilRestock. cbn. destruct (stockData s) as [[d a]|]; [|done].
  destruct (0 <? a)%Z; [|done]. intros [= H] Hn. f_equal.
  pose proof (Z.div_le_mono (nowMs s - a) (now - a) 1000 ltac:(lia) ltac:(lia)). lia.
Qed.

Lemma effect_seen s : seen s = Some (is_open s, secondsUntilRestock s) → restock_effect s = s.
Proof. intros Hs. unfold restock_effect. by rewrite decide_True. Qed.

Lemma stopped_event e s :
  stopped s → left_alone (nowMs s) e →
  stopped (goat_event e s) ∧ (nowMs s ≤ nowMs (goat_event e s))%Z.
Proof.
  intros [Hi Ho Hz Ht Hf] He. assert (Hi' := goat_event_inv e s Hi). destruct Hi as [Hs Hti].
  assert (Hkeep : stopped s) by by constructor. assert (Hid := effect_seen s Hs).
  destruct e as [|now| |d a|m|]; try done; unfold goat_event in *; rewrite ?Ho, ?Ht, ?Hf, ?Hid in *;
    try done.
  pose proof (seconds_later s now Hz He) as Hz'. rewrite Ho, Ht, Hf in Hz'.
  set (s' := MkGoatUi _ _ now _ _ _ _) in *.
  assert (restock_effect s' = s') as Heq by (apply effect_seen; cbn; by rewrite Hs, Hz, Hz').
  rewrite Heq in *. split; [by constructor|exact He].
Qed.

Fixpoint left_alone_run (from : Z) (es : list GoatEvent) : Prop :=
  match es with
  | [] => True
  | e :: es => left_alone from e ∧ left_alone_run (match e with Tick now => now | _ => from end) es
  end.

Lemma stopped_run es s :
  stopped s → left_alone_run (nowMs s) es → stopped (goat_run es s).
Proof.
  revert s. induction es as [|e es IH]; intros s Hs Hes; [done|]. destruct Hes as [He Hes].
  destruct (stopped_event e s Hs He) as [Hs' Hn]. cbn. apply IH; [done|].
  replace (nowMs (goat_event e s)) with (match e with Tick now => now | _ => nowMs s end); [done|].
  destruct Hs as [_ Ho _ Ht Hf]. destruct e; unfold goat_event; rewrite ?Ho, ?Ht, ?Hf;
    symmetry; apply effect_keeps || (etrans; [apply effect_keeps|done]).
Qed.

(** The timeout fires and its fetch fails: the countdown stops for good. *)
Lemma failed_refetch_stops s m :
  goat_inv s → timeout_set s = true →
  stopped (goat_run [TimeoutFires; FetchFails m] s).
Proof.
  intros Hi Ht. pose proof (goat_run_inv [TimeoutFires; FetchFails m] s Hi) as Hi'.
  destruct Hi as [Hs Hti]. destruct (Hti Ht) as [Ho Hz].
  assert (goat_run [TimeoutFires; FetchFails m] s =
    MkGoatUi (is_open s) (stockData s) (nowMs s) (seen s) false false (Some m)) as Hrun.
  { unfold goat_run, goat_event. cbn [foldl]. rewrite Ht.
    rewrite (effect_seen (MkGoatUi _ _ _ _ _ _ _)) by exact Hs. cbn [is_fetching].
    by rewrite effect_seen by exact Hs. }
  rewrite Hrun in *. by constructor.
Qed.

(** A fetch that succeeds is followed by another, once its countdown is out. *)
Lemma restock_again s d a now :
  goat_inv s → is_open s = true → is_fetching s = true → (0 < a)%Z →
  (0 < seconds_until_restock d - (nowMs s - a) / 1000)%Z →
  (a + 1000 * seconds_until_restock d ≤ now)%Z →
  let s' := goat_run [Fetched d a; Tick now; TimeoutFires] s in
  is_fetching s' = true ∧ is_open s' = true ∧ secondsUntilRestock s' = Some 0%Z.
Proof.
  intros Hi Ho Hf Ha Hn Hnow. unfold goat_run, goat_event; cbn [foldl]. rewrite Hf, Ho.
  set (s1 := restock_effect (MkGoatUi true (Some (d, a)) _ _ _ _ _)).
  assert (Hs1 : goat_inv s1).
  { pose proof (goat_event_inv (Fetched d a) s Hi) as H. unfold goat_event in H. by rewrite Hf, Ho in H. }
  assert (secondsUntilRestock s1 = Some (seconds_until_restock d - (nowMs s - a) / 1000)%Z) as Hz1.
  { unfold s1. rewrite effect_seconds. unfold secondsUntilRestock. cbn.
    destruct (Z.ltb_spec 0 a); [|lia]. f_equal. lia. }
  destruct (effect_keeps (MkGoatUi true (Some (d, a)) (nowMs s) (seen s) (timeout_set s) false None))
    as (Ho1 & Hd1 & _ & Hf1 & _). fold s1 in Ho1, Hd1, Hf1. cbn in Ho1, Hd1, Hf1. rewrite Ho1.
  set (s2 := MkGoatUi true (stockData s1) now _ _ _ _).
  assert (secondsUntilRestock s2 = Some 0%Z) as Hz2.
  { unfold s2, secondsUntilRestock. cbn. rewrite Hd1. destruct (Z.ltb_spec 0 a); [|lia].
    f_equal. assert (seconds_until_restock d ≤ (now - a) / 1000)%Z; [|lia].
    apply Z.div_le_lower_bound; lia. }
  assert (timeout_set (restock_effect s2) = true) as Ht2.
  { unfold restock_effect. rewrite decide_False; [by rewrite Hz2|]. destruct Hs1 as [Hs1 _].
    unfold s2 at 1. cbn [seen]. rewrite Hs1, Hz1, Hz2. intros [= _ Hc]. lia. }
  rewrite Ht2. split; [apply effect_keeps|]. split; [etrans; [apply effect_keeps|]; cbn; apply effect_keeps|].
  rewrite effect_seconds. etrans; [|exact Hz2]. rewrite <- (effect_seconds s2). done.
Qed.
End Goats.
