(* ===== verification/IslandMarkers.v ===== *)
(** * What else is on the map

    The octopus and Kiki, drawn on the map beside the zones' markers: where they
    are on a map of a given size, and what of the map they cover. *)

From Stdlib Require Import QArith Qminmax Lqa.
From S2P Require Import Prelude MapZones.
From S2P Require KikiQuest OctopusOracle ShopView.

(** ** The octopus *)

(** (src/frontend/src/features/octopus-oracle/components/octopus-oracle-marker.tsx:12-12 OCTOPUS_POSITION) *)
Definition ORACLE_POSITION : Z * Z := (2850, 185)%Z.

(** The centre of the marker, the width of its picture, and its own panel, which
    is there whether or not Kiki's is open.
    (src/frontend/src/features/octopus-oracle/components/octopus-oracle-marker.tsx:14-45 OctopusOracleMarker) *)
Record OracleMarker : Type := MkOracle {
  om_x : Q; om_y : Q; om_width : Q; om_panel : option OctopusOracle.Panel }.

(** (src/frontend/src/features/octopus-oracle/components/octopus-oracle-marker.tsx:14-45 OctopusOracleMarker) *)
Definition OctopusOracleMarker (mapW mapH : Q) (open : bool) (panel : OctopusOracle.Panel) : OracleMarker :=
  let scaleX := (mapW / MAP_W)%Q in
  let scaleY := (mapH / MAP_H)%Q in
  let scale := Qmin scaleX scaleY in
  MkOracle (inject_Z ORACLE_POSITION.1 * scaleX)%Q (inject_Z ORACLE_POSITION.2 * scaleY)%Q
    (Qmax 230 (480 * scale))%Q (if open then Some panel else None).

(** ** Kiki *)

(** The point Kiki stands on, the middle of the lower edge of the block with the
    speech, the picture and the buttons, and the width of the picture.
    (src/frontend/src/features/kiki-burger-quest/components/kiki-burger-quest.tsx:93-98 KikiBurgerQuest)
    (src/frontend/src/features/kiki-burger-quest/components/kiki-burger-quest.tsx:189-209 KikiBurgerQuest) *)
Record KikiBlock : Type := MkKiki { kiki_x : Q; kiki_y : Q; kiki_picture : Q; kiki_bubble : Q }.

(** (src/frontend/src/features/kiki-burger-quest/components/kiki-burger-quest.tsx:93-98 KikiBurgerQuest) *)
Definition kiki_block (mapW mapH : Q) (position : Z * Z) : KikiBlock :=
  let scaleX := (mapW / MAP_W)%Q in
  let scaleY := (mapH / MAP_H)%Q in
  let scale := Qmin scaleX scaleY in
  MkKiki (inject_Z position.1 * scaleX)%Q (inject_Z position.2 * scaleY)%Q
    (Qmax 130 (230 * scale))%Q 560.

(** The part of the map the block takes clicks on, for the height it is laid out
    with; it is as wide as the speech, or wider. *)
Definition kiki_box (b : KikiBlock) (height : Q) : Box :=
  {| left := (kiki_x b - kiki_bubble b / 2)%Q; top := (kiki_y b - height)%Q;
     width := kiki_bubble b; height := height |}.

(** ** The layer of markers *)

(** A zone's marker as it is drawn: the square that takes clicks, and the picture
    in it, which is scaled about the square's middle and takes none.
    (src/frontend/src/features/map/components/zone-indicator.tsx:67-100 ZoneIndicator) *)
Record IndicatorView : Type := MkIndicatorView {
  iv_zone : ZoneId; iv_label : string; iv_locked : bool; iv_active : bool;
  iv_box : Box; iv_marker : string; iv_scale : Q; iv_accent : string;
}.

(** [markerScale = 1] in the parameters.
    (src/frontend/src/features/map/components/zone-indicator.tsx:67-100 ZoneIndicator) *)
Definition ZoneIndicator (mapW mapH : Q) (isAdmin landed checkedIn isActive : bool) (id : ZoneId) :
    IndicatorView :=
  let zone := getZone id in
  MkIndicatorView id (z_label zone) (zone_locked id isAdmin landed checkedIn) isActive
    (zone_box mapW mapH id) (z_markerSrc zone) (default 1%Q (z_markerScale zone)) (z_accent zone).

(** The zones in their order, then what is drawn over them.
    (src/frontend/src/features/map/components/zone-layer.tsx:24-48 ZoneLayer) *)
Record Layer : Type := MkLayer {
  layer_zones : list IndicatorView; layer_goats : Q * Q * Q; layer_oracle : OracleMarker; layer_kiki : KikiBlock }.

(** (src/frontend/src/features/map/components/zone-layer.tsx:24-48 ZoneLayer) *)
Definition ZoneLayer (mapW mapH : Q) (isAdmin landed checkedIn : bool) (active : ZoneId → bool)
    (oracle_open : bool) (oracle : OctopusOracle.Panel) (quest : KikiQuest.Quest) : Layer :=
  MkLayer
    ((λ id, ZoneIndicator mapW mapH isAdmin landed checkedIn (active id) id) <$> all_zones)
    (ShopView.Goats.GoatFarmMarker mapW mapH) (OctopusOracleMarker mapW mapH oracle_open oracle)
    (kiki_block mapW mapH (KikiQuest.position quest)).

(** What the page asks of the library that zooms: the scale it starts with and
    the bounds of every other.
    (src/frontend/src/features/map/pages/map-page.tsx:36-43 TransformWrapper) *)
Record ZoomRange : Type := MkZoom { initialScale : Q; smallestScale : Q; largestScale : Q }.
(** (src/frontend/src/features/map/pages/map-page.tsx:36-43 TransformWrapper) *)
Definition zoom_range (d : MapDimensions) : ZoomRange :=
  MkZoom (minScale d) (minScale d * (1 # 2))%Q 3.

(** ** Facts *)

(** The octopus lies between the sides of every map that is not tiny. *)
Lemma oracle_between_sides mapW mapH s :
  (1 # 3 <= s)%Q → (mapW == MAP_W * s)%Q → (mapH == MAP_H * s)%Q →
  ∀ open p, let m := OctopusOracleMarker mapW mapH open p in
  (0 <= om_x m - om_width m / 2)%Q ∧ (om_x m + om_width m / 2 <= mapW)%Q ∧
  (0 <= om_y m)%Q ∧ (om_y m <= mapH)%Q.
Proof.
  intros Hs HW HH open p. cbn.
  assert (mapW / MAP_W == s)%Q as -> by (rewrite HW; unfold MAP_W; field).
  assert (mapH / MAP_H == s)%Q as -> by (rewrite HH; unfold MAP_H; field).
  rewrite Q.min_id, HW, HH. unfold MAP_W, MAP_H, inject_Z.
  destruct (Q.max_spec 230 (480 * s)) as [[_ ->]|[_ ->]]; unfold Qdiv; change (/ 2)%Q with (1 # 2)%Q; split_and!; lra.
Qed.

(** Wherever Kiki stands, it is on the map, and where Kiki waits at the Crusty
    Crab the block lies over part of the crab's marker, on every map and however
    high it is: those clicks do not reach the zone. *)
Lemma kiki_covers_crab mapW mapH s hgt :
  (0 < s)%Q → (mapW == MAP_W * s)%Q → (mapH == MAP_H * s)%Q → (0 < hgt)%Q →
  ¬ boxes_apart (zone_box mapW mapH CrabZone) (kiki_box (kiki_block mapW mapH KikiQuest.CRAB_POSITION) hgt).
Proof.
  intros Hs HW HH Hh Hapart.
  destruct (zone_box_scaled _ _ CrabZone _ HW HH) as (Hl & Ht & Hw & Hht).
  unfold boxes_apart in Hapart. rewrite Hl, Ht, Hw, Hht in Hapart. revert Hapart.
  unfold kiki_box, kiki_block. cbn [left top width height kiki_x kiki_y kiki_bubble].
  assert (mapW / MAP_W == s)%Q as -> by (rewrite HW; unfold MAP_W; field).
  assert (mapH / MAP_H == s)%Q as -> by (rewrite HH; unfold MAP_H; field).
  unfold ZONE_HIT_RADIUS. cbn [getZone ZONE_REGISTRY z_position fst snd]. unfold inject_Z.
  cbn [fst snd KikiQuest.CRAB_POSITION]. unfold Qdiv. change (/ 2)%Q with (1 # 2)%Q. intros [H|[H|[H|H]]]; lra.
Qed.

(** Every zone has one marker, named and locked as the zone is. *)
Lemma layer_markers mapW mapH a l c active open p q :
  iv_zone <$> layer_zones (ZoneLayer mapW mapH a l c active open p q) = all_zones ∧
  Forall (λ v, iv_label v = z_label (getZone (iv_zone v)) ∧
    iv_locked v = zone_locked (iv_zone v) a l c ∧ iv_active v = active (iv_zone v) ∧
    iv_box v = zone_box mapW mapH (iv_zone v))
    (layer_zones (ZoneLayer mapW mapH a l c active open p q)).
Proof. by repeat constructor. Qed.

(** The map covers the screen at the scale the page starts with, and at least
    half of it each way at any scale the library allows. *)
Lemma zoom_covers vpW vpH k :
  (0 < vpW)%Q → (0 < vpH)%Q →
  let d := compute vpW vpH in
  (smallestScale (zoom_range d) <= k)%Q →
  (vpW <= w d * initialScale (zoom_range d))%Q ∧ (vpH <= h d * initialScale (zoom_range d))%Q ∧
  (vpW * (1 # 2) <= w d * k)%Q ∧ (vpH * (1 # 2) <= h d * k)%Q ∧
  (smallestScale (zoom_range d) <= initialScale (zoom_range d) <= largestScale (zoom_range d))%Q.
Proof.
  intros HW HH d. destruct (compute_budget vpW vpH HW HH) as (Hpos & Hw & Hs & H1 & H2). fold d in Hpos, Hw, Hs, H1, H2.
  cbn [zoom_range initialScale smallestScale largestScale]. intros Hk.
  assert (0 < h d)%Q as Hh.
  { revert Hpos. rewrite Hw. unfold MAP_ASPECT, MAP_W, MAP_H.
    assert (3200 / 2000 == (8 # 5))%Q as -> by reflexivity. lra. }
  assert (minScale d == (10 # 28))%Q as Hm by (rewrite Hs; reflexivity).
  split_and!; [done|done| | | |rewrite Hm; lra].
  - apply Qle_trans with (w d * (minScale d * (1 # 2)))%Q.
    + rewrite Qmult_assoc. apply Qmult_le_compat_r; [done|discriminate].
    + rewrite !(Qmult_comm (w d)). apply Qmult_le_compat_r; [done|]. by apply Qlt_le_weak.
  - apply Qle_trans with (h d * (minScale d * (1 # 2)))%Q.
    + rewrite Qmult_assoc. apply Qmult_le_compat_r; [done|discriminate].
    + rewrite !(Qmult_comm (h d)). apply Qmult_le_compat_r; [done|]. by apply Qlt_le_weak.
  - rewrite Hm. lra.
Qed.
