(* ===== verification/BroadcastView.v ===== *)
(** * Announcements in the web client

    [features/broadcast]: the composer of announcements and its hook, the panel
    of the lighthouse and the status of the stream; and the way of an
    announcement from the composer through the broadcast service to every
    zone's feed. *)

From S2P Require Import Prelude Json Zod JsString JsonText WebTypes WebApi EventsStore Session.
From S2P Require Import UseBroadcast Wire WebWire MapZones.
From S2P Require BroadcastTypes BroadcastAuth EventBus BroadcastRoutes.

(** ** The composer *)

(** The text, the request that is pending, and the toasts: successes or errors.
    (src/frontend/src/features/broadcast/components/announcement-composer.tsx:8-9 AnnouncementComposer) *)
Record ComposerUi : Type := MkComposer {
  c_message : string;
  c_publishing : option Call;
  c_toasts : list (bool * string);
}.

Section composer.
Variable session : SessionState.

(** Without an administrator's session the mutation fails before any request.
    (src/frontend/src/features/broadcast/hooks/use-post-announcement.ts:10-16 mutationFn) *)
Definition publish (message : string) (s : ComposerUi) : ComposerUi :=
  match useAdminSession session with
  | Some (AdminSession _ passcode) =>
      MkComposer (c_message s) (Some (postAnnouncement message passcode)) (c_toasts s)
  | _ => MkComposer (c_message s) None
           (c_toasts s ++ [(false, "Admin session required to publish an announcement.")])
  end.

(** The answer, or an error: the hook's handlers, then the composer's.
    (src/frontend/src/features/broadcast/hooks/use-post-announcement.ts:17-22 onSuccess) *)
Definition publish_settled (error : option string) (s : ComposerUi) : ComposerUi :=
  match error with
  | None => MkComposer "" None (c_toasts s ++ [(true, "Announcement broadcast resort-wide.")])
  | Some m => MkComposer (c_message s) None (c_toasts s ++ [(false, m)])
  end.

(** (src/frontend/src/features/broadcast/components/announcement-composer.tsx:31-31 onChange) *)
Definition composer_input (text : string) (s : ComposerUi) : ComposerUi :=
  if decide (is_Some (c_publishing s)) then s else MkComposer text (c_publishing s) (c_toasts s).

(** (src/frontend/src/features/broadcast/components/announcement-composer.tsx:11-20 handleSubmit) *)
Definition composer_submit (s : ComposerUi) : ComposerUi :=
  let trimmed := trim (c_message s) in
  if truthy trimmed then publish trimmed s else s.

(** (src/frontend/src/features/broadcast/components/announcement-composer.tsx:35-43 Button) *)
Definition submit_button (s : ComposerUi) : bool * string :=
  let isPublishing := bool_decide (is_Some (c_publishing s)) in
  (isPublishing || negb (truthy (trim (c_message s))),
   if isPublishing then "Broadcasting..." else "Broadcast to resort").
End composer.

(** ** The panel *)

(** (src/frontend/src/features/broadcast/components/broadcast-panel.tsx:8-8 channel) *)
Definition panel_channel : ChannelId := z_channel (getZone BroadcastZone).
(** (src/frontend/src/features/broadcast/components/broadcast-panel.tsx:9-9 PUBLIC_EVENT_PREFIX) *)
Definition PUBLIC_EVENT_PREFIX : string := "public.".

(** What a guest may read of the feed.
    (src/frontend/src/features/broadcast/components/broadcast-panel.tsx:18-22 filter) *)
Definition announces (e : BroadcastEvent) : bool :=
  startsWith PUBLIC_EVENT_PREFIX (b_event_type e) ||
  bool_decide (b_event_type e = ADMIN_ANNOUNCEMENT_EVENT_TYPE).

(** (src/frontend/src/features/broadcast/components/broadcast-panel.tsx:16-22 visible) *)
Definition visible (isAdmin : bool) (st : EventsState) : list BroadcastEvent :=
  let events := events st panel_channel in
  if isAdmin then events else filter (λ e, announces e = true) events.

(** Whether there is a composer, and the log without a limit.
    (src/frontend/src/features/broadcast/components/broadcast-panel.tsx:12-30 BroadcastPanel) *)
Definition BroadcastPanel (isAdmin : bool) (st : EventsState) : bool * option (list BroadcastEvent) :=
  (isAdmin, EventLog (visible isAdmin st) None).

(** (src/frontend/src/features/broadcast/components/connection-status.tsx:4-8 LABELS) *)
Definition LABELS (s : WebTypes.ConnectionStatus) : string :=
  match s with Connected => "Live" | Reconnecting => "Reconnecting…" | Dropped => "Offline" end.
(** Label and colour.
    (src/frontend/src/features/broadcast/components/connection-status.tsx:10-27 ConnectionStatus) *)
Definition ConnectionStatus (s : WebTypes.ConnectionStatus) : string * string :=
  (LABELS s, match s with Connected => "bg-emerald-500" | Reconnecting => "bg-amber-500"
             | Dropped => "bg-red-500" end).

(** *** Facts *)

(** The composer sends nothing its button would not: pressed while it is
    enabled, it publishes the trimmed text. *)
Lemma composer_submit_spec session s :
  submit_button s = (false, "Broadcast to resort") →
  composer_submit session s = publish session (trim (c_message s)) s.
Proof.
  unfold submit_button, composer_submit. case_bool_decide; [done|]. cbn [orb].
  destruct (truthy (trim (c_message s))); done.
Qed.

(** ** From the composer to the feeds *)

(** What the broadcast service reads of a request's headers to authenticate it. *)
Definition call_auth (c : Call) : BroadcastAuth.AuthRequest := {|
  BroadcastAuth.authorization := snd <$> find_first (λ h, bool_decide (h.1 = "Authorization")) (call_headers c);
  BroadcastAuth.x_service_token := snd <$> find_first (λ h, bool_decide (h.1 = "X-Service-Token")) (call_headers c);
  BroadcastAuth.query_token := None;
  BroadcastAuth.x_admin_passcode := snd <$> find_first (λ h, bool_decide (h.1 = "X-Admin-Passcode")) (call_headers c)
|}.

Definition admin_event (uuid message : string) : BroadcastTypes.IslandEvent := {|
  BroadcastTypes.id := uuid; BroadcastTypes.channel := BroadcastTypes.ResortWide;
  BroadcastTypes.event_type := BroadcastTypes.ADMIN_ANNOUNCEMENT;
  BroadcastTypes.message := message; BroadcastTypes.sender := "Admin";
  BroadcastTypes.guest_id := None; BroadcastTypes.guest_name := None; BroadcastTypes.data := None |}.

Section announcing.
Context `{Zod}.

(** The service broadcasts what an administrator with its passcode posts. *)
Lemma announcement_accepted env message passcode uuid b :
  message ≠ "" → passcode ≠ "" → env "ADMIN_PASSCODE" = Some passcode →
  let c := postAnnouncement message passcode in
  ∃ body, call_data c = Some body ∧
    BroadcastRoutes.post_handler (call_url c) = Some BroadcastRoutes.admin_announcement ∧
    BroadcastRoutes.admin_announcement env (call_auth c) uuid body b =
      (BroadcastRoutes.success, EventBus.broadcast (admin_event uuid message) b).
Proof.
  intros Hm Hp He c. exists (JObj [("message", JStr message)]). split; [done|]. split; [done|].
  unfold BroadcastRoutes.admin_announcement.
  assert (BroadcastAuth.requireAdmin env (call_auth c) = true) as ->.
  { unfold BroadcastAuth.requireAdmin. rewrite He.
    change (BroadcastAuth.x_admin_passcode (call_auth c)) with (Some passcode).
    unfold truthy. by rewrite !bool_decide_true by done. }
  destruct (BroadcastRoutes.publish_accepts true
    [("message", Required, ZStringMin 1); ("sender", Optional, ZString)]
    (λ d, {| BroadcastTypes.id := uuid; BroadcastTypes.channel := BroadcastTypes.ResortWide;
       BroadcastTypes.event_type := BroadcastTypes.ADMIN_ANNOUNCEMENT;
       BroadcastTypes.message := BroadcastRoutes.req_string "message" d;
       BroadcastTypes.sender := default "Admin" (opt_string "sender" d);
       BroadcastTypes.guest_id := None; BroadcastTypes.guest_name := None;
       BroadcastTypes.data := None |}) (JObj [("message", JStr message)]) b) as (kvs & Hk & Hpub).
  { apply code_units_pos in Hm. cbv -[js_length bool_decide]. by rewrite (bool_decide_true (1 ≤ js_length message)). }
  injection Hk as <-. unfold BroadcastTypes.AdminAnnouncementSchema. by rewrite Hpub.
Qed.

(** A client that receives it has it as the newest entry of every channel. *)
Lemma announcement_arrives uuid message client_uuid d ch :
  let d' := handleMessage client_uuid
    (JSON_stringify (BroadcastTypes.island_event_json (admin_event uuid message))) d in
  ∃ e', head (events (store d') ch) = Some e' ∧ b_channel e' = ch ∧ b_message e' = message ∧
    b_sender e' = "Admin" ∧ announces e' = true ∧
    activityTick (store d') ch = (activityTick (store d) ch + 1)%Z.
Proof.
  intros d'. unfold d', handleMessage. rewrite decode_island_event.
  2: { cbn. split; [apply (bool_decide_unpack _); by vm_compute|done]. }
  set (e := web_event _).
  assert (store (ingestBroadcastEvent client_uuid e d) = ingestEvent client_uuid e true (store d)) as ->.
  { unfold ingestBroadcastEvent. destruct (IslandEvent.getBeachAvailabilityPayload e); [|done].
    by destruct (cached_activities d). }
  pose proof (ingestEvent_channel client_uuid e true (store d) ch) as Hch. cbv zeta in Hch.
  unfold arrives in Hch. rewrite bool_decide_true in Hch by done. cbn [orb] in Hch.
  destruct Hch as [(e' & -> & He' & i & ->) Htick]. eexists. split; [done|].
  split_and!; try done.
Qed.

(** So a guest reads it in the lighthouse, whatever else its feed holds. *)
Lemma announcement_visible uuid message client_uuid d isAdmin :
  let d' := handleMessage client_uuid
    (JSON_stringify (BroadcastTypes.island_event_json (admin_event uuid message))) d in
  ∃ e' l, (BroadcastPanel isAdmin (store d')).2 = Some (e' :: l) ∧ b_message e' = message.
Proof.
  intros d'. destruct (announcement_arrives uuid message client_uuid d panel_channel)
    as (e' & Hhd & _ & Hm & _ & Ha & _). fold d' in Hhd.
  unfold BroadcastPanel, visible. cbn [snd].
  destruct (events (store d') panel_channel) as [|e l]; [done|]. cbn in Hhd. simplify_eq.
  destruct isAdmin.
  - by exists e', l.
  - rewrite filter_cons, decide_True by done. by eexists e', _.
Qed.
End announcing.
