(* ===== verification/ThemeProvider.v ===== *)
(** * The theme of the web client

    [components/theme-provider.tsx]: the theme a tab shows, kept in the
    browser's storage, following the system's preference or the keyboard, and
    carried from tab to tab by the browser's storage events.  A [Browser] is
    what the tabs share and the tabs; an [Action] is one thing that happens, its
    handlers and the effects that React runs after them included. *)

From S2P Require Import Prelude JsString.

(** ** Themes *)

(** (src/frontend/src/components/theme-provider.tsx:4-4 Theme) *)
Inductive Theme : Type := DarkTheme | LightTheme | SystemTheme.
(** (src/frontend/src/components/theme-provider.tsx:5-5 ResolvedTheme) *)
Inductive ResolvedTheme : Type := Dark | Light.

#[global] Instance theme_eq_dec : EqDecision Theme.
Proof. solve_decision. Defined.
#[global] Instance resolved_theme_eq_dec : EqDecision ResolvedTheme.
Proof. solve_decision. Defined.

(** The strings the types stand for. *)
Definition show_theme (t : Theme) : string :=
  match t with DarkTheme => "dark" | LightTheme => "light" | SystemTheme => "system" end.
Definition show_resolved (t : ResolvedTheme) : string :=
  match t with Dark => "dark" | Light => "light" end.

(** (src/frontend/src/components/theme-provider.tsx:20-20 THEME_VALUES) *)
Definition THEME_VALUES : list Theme := [DarkTheme; LightTheme; SystemTheme].

(** The theme a value is, when it is one.
    (src/frontend/src/components/theme-provider.tsx:26-32 isTheme) *)
Definition isTheme (value : option string) : option Theme :=
  match value with
  | None => None
  | Some v => find_first (λ t, bool_decide (show_theme t = v)) THEME_VALUES
  end.

(** The media query's answer, as a theme.
    (src/frontend/src/components/theme-provider.tsx:34-40 getSystemTheme) *)
Definition getSystemTheme (matches : bool) : ResolvedTheme := if matches then Dark else Light.

(** A resolved theme is a theme. *)
Definition as_theme (t : ResolvedTheme) : Theme :=
  match t with Dark => DarkTheme | Light => LightTheme end.

(** (src/frontend/src/components/theme-provider.tsx:69-78 getNextShortcutTheme) *)
Definition getNextShortcutTheme (matches : bool) (theme : Theme) : ResolvedTheme :=
  match theme with
  | DarkTheme => Light
  | LightTheme => Dark
  | SystemTheme => match getSystemTheme matches with Dark => Light | Light => Dark end
  end.

(** (src/frontend/src/components/theme-provider.tsx:108-109 resolvedTheme) *)
Definition resolvedTheme (matches : bool) (nextTheme : Theme) : ResolvedTheme :=
  match nextTheme with
  | SystemTheme => getSystemTheme matches
  | DarkTheme => Dark
  | LightTheme => Light
  end.

(** ** A tab *)

(** What is due at the next frame: the outer callback, which asks for another
    frame, or the inner one, which removes the style element. *)
Inductive FrameCallback : Type := AskAgain (style : nat) | RemoveStyle (style : nat).
#[global] Instance frame_callback_eq_dec : EqDecision FrameCallback.
Proof. solve_decision. Defined.

(** A [StorageEvent]: whether its area is [localStorage], its key and the new
    value. *)
Record StorageEvent : Type := {
  is_local : bool;
  ev_key : option string;
  newValue : option string;
}.

(** The provider's state and the document it works on: the classes of the root
    element, the listeners of the media query, the style elements in the head
    with the callbacks that remove them, and the storage events on their way.
    (src/frontend/src/components/theme-provider.tsx:87-94 useState) *)
Record Tab : Type := MkTab {
  theme : Theme;
  classList : list string;
  media_listeners : nat;
  styles : list nat;
  frames : list FrameCallback;
  next_style : nat;
  inbox : list StorageEvent;
}.

(** [classList.remove(...tokens)] and [classList.add(token)]. *)
Definition class_remove (tokens : list string) (l : list string) : list string :=
  filter (λ c, c ∉ tokens) l.
Definition class_add (token : string) (l : list string) : list string :=
  if decide (token ∈ l) then l else l ++ [token].

(** The style element is put in the head; the number names it.
    (src/frontend/src/components/theme-provider.tsx:42-49 disableTransitionsTemporarily) *)
Definition disableTransitionsTemporarily (s : Tab) : nat * Tab :=
  (next_style s,
   MkTab (theme s) (classList s) (media_listeners s) (styles s ++ [next_style s]) (frames s)
     (S (next_style s)) (inbox s)).

(** What it returns, to be called once the theme is in place.
    (src/frontend/src/components/theme-provider.tsx:51-58 disableTransitionsTemporarily) *)
Definition restoreTransitions (style : nat) (s : Tab) : Tab :=
  MkTab (theme s) (classList s) (media_listeners s) (styles s) (frames s ++ [AskAgain style])
    (next_style s) (inbox s).

(** One callback of a frame. (src/frontend/src/components/theme-provider.tsx:53-57 requestAnimationFrame) *)
Definition run_callback (s : Tab) (c : FrameCallback) : Tab :=
  match c with
  | AskAgain style =>
      MkTab (theme s) (classList s) (media_listeners s) (styles s)
        (frames s ++ [RemoveStyle style]) (next_style s) (inbox s)
  | RemoveStyle style =>
      MkTab (theme s) (classList s) (media_listeners s) (filter (λ x, x ≠ style) (styles s))
        (frames s) (next_style s) (inbox s)
  end.

(** A frame runs the callbacks that were due; those they ask for wait for the
    next. *)
Definition run_frame (s : Tab) : Tab :=
  foldl run_callback
    (MkTab (theme s) (classList s) (media_listeners s) (styles s) [] (next_style s) (inbox s))
    (frames s).

Section provider.
(** The props, [disableTransitionOnChange], [defaultTheme] and [storageKey]. *)
Variable disableTransitionOnChange : bool.
Variable defaultTheme : Theme.
Variable storageKey : string.

Definition set_classes (t : ResolvedTheme) (s : Tab) : Tab :=
  MkTab (theme s) (class_add (show_resolved t) (class_remove ["light"; "dark"] (classList s)))
    (media_listeners s) (styles s) (frames s) (next_style s) (inbox s).

(** (src/frontend/src/components/theme-provider.tsx:105-123 applyTheme) *)
Definition applyTheme (matches : bool) (nextTheme : Theme) (s : Tab) : Tab :=
  let resolved := resolvedTheme matches nextTheme in
  if disableTransitionOnChange then
    let '(style, s) := disableTransitionsTemporarily s in
    restoreTransitions style (set_classes resolved s)
  else set_classes resolved s.

Definition set_listeners (n : nat) (s : Tab) : Tab :=
  MkTab (theme s) (classList s) n (styles s) (frames s) (next_style s) (inbox s).

(** The effect of a theme. (src/frontend/src/components/theme-provider.tsx:125-142 useEffect) *)
Definition theme_effect (matches : bool) (s : Tab) : Tab :=
  let s := applyTheme matches (theme s) s in
  match theme s with
  | SystemTheme => set_listeners (S (media_listeners s)) s
  | _ => s
  end.

(** What the effect returned. (src/frontend/src/components/theme-provider.tsx:139-141 cleanup) *)
Definition theme_cleanup (s : Tab) : Tab :=
  match theme s with
  | SystemTheme => set_listeners (pred (media_listeners s)) s
  | _ => s
  end.

(** (src/frontend/src/components/theme-provider.tsx:133-135 handleChange) *)
Definition handleChange (matches : bool) (s : Tab) : Tab := applyTheme matches SystemTheme s.

(** Setting the state React has already is no change; another theme renders
    again, which cleans up the old effect and runs the new one. *)
Definition setThemeState (matches : bool) (nextTheme : Theme) (s : Tab) : Tab :=
  if decide (nextTheme = theme s) then s else
  let s := theme_cleanup s in
  theme_effect matches
    (MkTab nextTheme (classList s) (media_listeners s) (styles s) (frames s) (next_style s)
      (inbox s)).

(** (src/frontend/src/components/theme-provider.tsx:176-191 handleStorageChange) *)
Definition handleStorageChange (matches : bool) (event : StorageEvent) (s : Tab) : Tab :=
  if negb (is_local event) then s else
  if negb (bool_decide (ev_key event = Some storageKey)) then s else
  match isTheme (newValue event) with
  | Some t => setThemeState matches t s
  | None => setThemeState matches defaultTheme s
  end.

(** An element of the page: its tag, its attribute [contenteditable], and whether
    its content can be edited, which it may inherit. *)
Record Element : Type := {
  tag : string;
  contenteditable : option string;
  isContentEditable : bool;
}.

(** The selector [input, textarea, select, [contenteditable='true']]. *)
Definition editable_selector (e : Element) : bool :=
  bool_decide (tag e ∈ ["input"; "textarea"; "select"]) || bool_decide (contenteditable e = Some "true").

(** The target of an event is an element with its ancestors, nearest first, or
    something else; [closest] looks for a match from the element upwards.
    (src/frontend/src/components/theme-provider.tsx:61-68 isEditableTarget) *)
Definition isEditableTarget (target : option (Element * list Element)) : bool :=
  match target with
  | None => false
  | Some (e, ancestors) =>
      isContentEditable e || bool_decide (is_Some (find_first editable_selector (e :: ancestors)))
  end.

(** What [handleKeyDown] reads of a [KeyboardEvent]. *)
Record KeyEvent : Type := {
  repeat : bool;
  metaKey : bool;
  ctrlKey : bool;
  altKey : bool;
  target : option (Element * list Element);
  key : string;
}.

(** The key is the shortcut: every early return of the handler.
    (src/frontend/src/components/theme-provider.tsx:145-160 handleKeyDown) *)
Definition is_shortcut (event : KeyEvent) : bool :=
  negb (repeat event) && negb (metaKey event || ctrlKey event || altKey event)
  && negb (isEditableTarget (target event)) && bool_decide (toLowerCase (key event) = "d").

(** ** The browser *)

(** The storage of the origin and the system's preference, shared by the tabs. *)
Record Browser : Type := MkBrowser {
  localStorage : gmap string string;
  prefers_dark : bool;
  tabs : list Tab;
}.

(** (src/frontend/src/components/theme-provider.tsx:87-94 useState) *)
Definition stored_theme (b : Browser) : Theme :=
  match isTheme (localStorage b !! storageKey) with
  | Some storedTheme => storedTheme
  | None => defaultTheme
  end.

(** A page that is loaded: the provider mounts on a document whose root element
    has the page's classes. *)
Definition mount_tab (b : Browser) (classes : list string) : Tab :=
  theme_effect (prefers_dark b) (MkTab (stored_theme b) classes 0 [] [] 0 []).

Definition receive (e : StorageEvent) (s : Tab) : Tab :=
  MkTab (theme s) (classList s) (media_listeners s) (styles s) (frames s) (next_style s)
    (inbox s ++ [e]).

(** Every document but the writer's is sent an event when the value changes;
    a page without the provider writes with no tab of its own. *)
Definition notify (writer : option nat) (e : StorageEvent) (l : list Tab) : list Tab :=
  imap (λ j s, if decide (Some j = writer) then s else receive e s) l.

Definition setItem (writer : option nat) (k v : string) (b : Browser) : Browser :=
  if decide (localStorage b !! k = Some v) then b else
  MkBrowser (<[k := v]> (localStorage b)) (prefers_dark b)
    (notify writer {| is_local := true; ev_key := Some k; newValue := Some v |} (tabs b)).

Definition removeItem (writer : option nat) (k : string) (b : Browser) : Browser :=
  if decide (localStorage b !! k = None) then b else
  MkBrowser (delete k (localStorage b)) (prefers_dark b)
    (notify writer {| is_local := true; ev_key := Some k; newValue := None |} (tabs b)).

Definition on_tab (i : nat) (f : Tab → Tab) (b : Browser) : Browser :=
  MkBrowser (localStorage b) (prefers_dark b) (alter f i (tabs b)).

(** (src/frontend/src/components/theme-provider.tsx:97-100 setTheme) *)
Definition setTheme (i : nat) (nextTheme : Theme) (b : Browser) : Browser :=
  on_tab i (setThemeState (prefers_dark b) nextTheme)
    (setItem (Some i) storageKey (show_theme nextTheme) b).

(** (src/frontend/src/components/theme-provider.tsx:145-167 handleKeyDown) *)
Definition handleKeyDown (i : nat) (event : KeyEvent) (b : Browser) : Browser :=
  if negb (is_shortcut event) then b else
  match tabs b !! i with
  | None => b
  | Some s =>
      let nextTheme := as_theme (getNextShortcutTheme (prefers_dark b) (theme s)) in
      on_tab i (setThemeState (prefers_dark b) nextTheme)
        (setItem (Some i) storageKey (show_theme nextTheme) b)
  end.

(** What can happen: a call of [setTheme], a key, the delivery of a storage
    event, a change of the system's preference, a frame, a page that is opened,
    reloaded or closed, and a write by a page without the provider. *)
Inductive Action : Type :=
  | SetTheme (i : nat) (t : Theme)
  | KeyDown (i : nat) (event : KeyEvent)
  | Deliver (i : nat)
  | PreferenceChanges (dark : bool)
  | NextFrame (i : nat)
  | OpenPage (classes : list string)
  | ReloadPage (i : nat) (classes : list string)
  | ClosePage (i : nat)
  | ForeignWrite (k : string) (v : option string).

Definition deliver (matches : bool) (s : Tab) : Tab :=
  match inbox s with
  | [] => s
  | e :: rest =>
      handleStorageChange matches e
        (MkTab (theme s) (classList s) (media_listeners s) (styles s) (frames s) (next_style s) rest)
  end.

Definition act (a : Action) (b : Browser) : Browser :=
  match a with
  | SetTheme i t => setTheme i t b
  | KeyDown i event => handleKeyDown i event b
  | Deliver i => on_tab i (deliver (prefers_dark b)) b
  | PreferenceChanges dark =>
      MkBrowser (localStorage b) dark
        ((λ s, Nat.iter (media_listeners s) (handleChange dark) s) <$> tabs b)
  | NextFrame i => on_tab i run_frame b
  | OpenPage classes =>
      MkBrowser (localStorage b) (prefers_dark b) (tabs b ++ [mount_tab b classes])
  | ReloadPage i classes => on_tab i (λ _, mount_tab b classes) b
  | ClosePage i => MkBrowser (localStorage b) (prefers_dark b) (delete i (tabs b))
  | ForeignWrite k (Some v) => setItem None k v b
  | ForeignWrite k None => removeItem None k b
  end.

(** Some actions on a browser without tabs. *)
Definition browser_init (b : Browser) : Prop := tabs b = [].
Definition browser_step (b b' : Browser) : Prop := ∃ a, b' = act a b.
Definition browser_reachable : Browser → Prop := reachable browser_init browser_step.

(** ** What a tab shows *)

Definition theme_tokens : list string := ["light"; "dark"].

(** The theme's classes of the root element, and the page's own. *)
Definition shown (s : Tab) : list string := filter (λ c, c ∈ theme_tokens) (classList s).
Definition page_classes (s : Tab) : list string := filter (λ c, c ∉ theme_tokens) (classList s).

(** The document shows its theme and nothing else, listens to the system
    exactly when it follows it, and every style element that suppresses
    transitions is due to be removed. *)
Record tab_inv (matches : bool) (s : Tab) : Prop := {
  ti_shows : shown s = [show_resolved (resolvedTheme matches (theme s))];
  ti_listens : media_listeners s = if decide (theme s = SystemTheme) then 1 else 0;
  ti_styles : ∀ x, x ∈ styles s → AskAgain x ∈ frames s ∨ RemoveStyle x ∈ frames s;
}.

(** *** Classes *)

Lemma set_classes_shown t s : shown (set_classes t s) = [show_resolved t].
Proof.
  unfold shown, set_classes, class_add, class_remove. cbn [classList].
  rewrite decide_False by (rewrite list_elem_of_filter; destruct t; set_solver).
  rewrite filter_app, filter_split_nil. by destruct t.
Qed.

Lemma set_classes_page t s : page_classes (set_classes t s) = page_classes s.
Proof.
  unfold page_classes, set_classes, class_add, class_remove. cbn [classList].
  rewrite decide_False by (rewrite list_elem_of_filter; destruct t; set_solver).
  rewrite filter_app, list_filter_filter.
  replace (filter (λ c, c ∉ theme_tokens) [show_resolved t]) with (@nil string) by by destruct t.
  rewrite app_nil_r. apply list_filter_iff. intros c. unfold theme_tokens. tauto.
Qed.

(** *** Frames *)

Definition asks_again (c : FrameCallback) : option FrameCallback :=
  match c with AskAgain x => Some (RemoveStyle x) | RemoveStyle _ => None end.

Lemma run_callbacks l s :
  foldl run_callback s l =
  MkTab (theme s) (classList s) (media_listeners s)
    (filter (λ x, RemoveStyle x ∉ l) (styles s)) (frames s ++ omap asks_again l)
    (next_style s) (inbox s).
Proof.
  revert s. induction l as [|c l IH]; intros s; cbn [foldl].
  - destruct s. cbn. rewrite app_nil_r. f_equal.
    symmetry. apply filter_all. set_solver.
  - rewrite IH. destruct c as [x|x]; cbn [run_callback theme classList media_listeners styles
      frames next_style inbox omap list_omap asks_again].
    + rewrite <-app_assoc. f_equal. apply list_filter_iff. set_solver.
    + f_equal. rewrite list_filter_filter. apply list_filter_iff. set_solver.
Qed.

Lemma run_frame_spec s :
  run_frame s =
  MkTab (theme s) (classList s) (media_listeners s)
    (filter (λ x, RemoveStyle x ∉ frames s) (styles s)) (omap asks_again (frames s))
    (next_style s) (inbox s).
Proof. unfold run_frame. by rewrite run_callbacks. Qed.

Lemma run_frame_inv m s : tab_inv m s → tab_inv m (run_frame s).
Proof.
  intros [Hs Hl Hst]. rewrite run_frame_spec. constructor; [done..|].
  cbn [styles frames]. intros x [Hx Hin]%list_elem_of_filter.
  destruct (Hst x Hin) as [Ha|Ha]; [|done]. right.
  apply list_elem_of_omap. by exists (AskAgain x).
Qed.

(** Two frames with no theme applied in between leave no style element. *)
Lemma two_frames_settle m s : tab_inv m s → styles (run_frame (run_frame s)) = [].
Proof.
  intros Hi. pose proof (run_frame_inv _ _ Hi) as Hi'.
  assert (∀ x, x ∈ styles (run_frame s) → RemoveStyle x ∈ frames (run_frame s)) as Hrem.
  { intros x Hx. destruct (ti_styles _ _ Hi' x Hx) as [Ha|]; [|done]. exfalso.
    rewrite run_frame_spec in Ha. cbn [frames] in Ha.
    apply list_elem_of_omap in Ha as ([] & _ & [=]). }
  rewrite (run_frame_spec (run_frame s)). cbn [styles].
  apply elem_of_nil_inv. intros x [Hx Hin]%list_elem_of_filter. auto.
Qed.

(** *** Handlers *)

Lemma applyTheme_fields m t s :
  theme (applyTheme m t s) = theme s ∧ inbox (applyTheme m t s) = inbox s ∧
  media_listeners (applyTheme m t s) = media_listeners s ∧
  page_classes (applyTheme m t s) = page_classes s ∧
  shown (applyTheme m t s) = [show_resolved (resolvedTheme m t)].
Proof.
  unfold applyTheme. destruct disableTransitionOnChange; cbn -[set_classes page_classes shown];
    (split_and!; [done..| |]); (etransitivity; [apply set_classes_page || apply set_classes_shown|done]).
Qed.

Lemma applyTheme_styles m t s :
  (∀ x, x ∈ styles s → AskAgain x ∈ frames s ∨ RemoveStyle x ∈ frames s) →
  ∀ x, x ∈ styles (applyTheme m t s) →
    AskAgain x ∈ frames (applyTheme m t s) ∨ RemoveStyle x ∈ frames (applyTheme m t s).
Proof.
  intros Hst x. unfold applyTheme. destruct disableTransitionOnChange; cbn; [|apply Hst].
  intros [Hx| ->%list_elem_of_singleton]%elem_of_app; [|set_solver].
  destruct (Hst x Hx); set_solver.
Qed.

Lemma theme_effect_eq m s :
  theme_effect m s =
  let s1 := applyTheme m (theme s) s in
  set_listeners (if decide (theme s = SystemTheme) then S (media_listeners s1)
                 else media_listeners s1) s1.
Proof.
  unfold theme_effect. cbv zeta. destruct (applyTheme_fields m (theme s) s) as (Ht & _).
  rewrite Ht. destruct (applyTheme m (theme s) s) as [? ? ? ? ? ? ?]. by destruct (theme s).
Qed.

Lemma theme_effect_fields m s :
  theme (theme_effect m s) = theme s ∧ inbox (theme_effect m s) = inbox s ∧
  page_classes (theme_effect m s) = page_classes s.
Proof.
  rewrite theme_effect_eq. cbv zeta.
  destruct (applyTheme_fields m (theme s) s) as (Ht & Hi & _ & Hp & _). done.
Qed.

(** Applying the theme a tab has, whatever it showed. *)
Lemma theme_effect_inv m s :
  media_listeners s = 0 →
  (∀ x, x ∈ styles s → AskAgain x ∈ frames s ∨ RemoveStyle x ∈ frames s) →
  tab_inv m (theme_effect m s).
Proof.
  intros Hl Hst. rewrite theme_effect_eq. cbv zeta.
  destruct (applyTheme_fields m (theme s) s) as (Ht & _ & Hml & _ & Hsh).
  constructor; cbn [set_listeners theme media_listeners styles frames];
    [by rewrite Ht, <-Hsh|by rewrite Ht, Hml, Hl|by apply applyTheme_styles].
Qed.

Lemma setThemeState_inv m t s : tab_inv m s → tab_inv m (setThemeState m t s).
Proof.
  intros Hi. unfold setThemeState. case_decide as Heq; [done|]. destruct Hi as [_ Hl Hst].
  apply theme_effect_inv; unfold theme_cleanup; destruct (theme s); cbn; try done;
    by rewrite Hl.
Qed.

Lemma setThemeState_fields m t s :
  theme (setThemeState m t s) = t ∧ inbox (setThemeState m t s) = inbox s ∧
  page_classes (setThemeState m t s) = page_classes s.
Proof.
  unfold setThemeState. case_decide as Heq; [done|].
  set (s' := MkTab t _ _ _ _ _ _). destruct (theme_effect_fields m s') as (-> & -> & ->).
  unfold s', theme_cleanup. by destruct s as [[] ? ? ? ? ? ?].
Qed.

Lemma handleStorageChange_inv m e s : tab_inv m s → tab_inv m (handleStorageChange m e s).
Proof.
  intros Hi. unfold handleStorageChange. do 2 (case_match; [done|]).
  case_match; by apply setThemeState_inv.
Qed.

Lemma tab_inv_inbox m s l :
  tab_inv m s →
  tab_inv m (MkTab (theme s) (classList s) (media_listeners s) (styles s) (frames s) (next_style s) l).
Proof. by intros []. Qed.

(** The system's preference reaches the tabs that follow it. *)
Lemma preference_inv m dark s :
  tab_inv m s → tab_inv dark (Nat.iter (media_listeners s) (handleChange dark) s).
Proof.
  intros [Hsh Hl Hst]. rewrite Hl. case_decide as Ht; cbn [Nat.iter nat_rect].
  - unfold handleChange. destruct (applyTheme_fields dark SystemTheme s) as (Ht' & _ & Hml & _ & Hsh').
    constructor; [by rewrite Hsh', Ht', Ht|by rewrite Hml, Hl, Ht', Ht|by apply applyTheme_styles].
  - constructor; [|by rewrite Hl, decide_False by done|done].
    rewrite Hsh. by destruct (theme s).
Qed.

(** *** The browser *)

Definition browser_inv (b : Browser) : Prop := Forall (tab_inv (prefers_dark b)) (tabs b).

Lemma Forall_alter {A} (P : A → Prop) f i (l : list A) :
  (∀ x, P x → P (f x)) → Forall P l → Forall P (alter f i l).
Proof. intros Hf Hl. apply Forall_alter; [done|]. intros x _ Hx. by apply Hf. Qed.

Lemma notify_inv m w e l : Forall (tab_inv m) l → Forall (tab_inv m) (notify w e l).
Proof.
  rewrite !Forall_lookup. intros Hl i s. unfold notify. rewrite list_lookup_imap.
  intros (s0 & Hs0 & ->)%fmap_Some. specialize (Hl i s0 Hs0).
  destruct (decide _); [done|by apply tab_inv_inbox].
Qed.

Lemma on_tab_inv i f b :
  (∀ s, tab_inv (prefers_dark b) s → tab_inv (prefers_dark b) (f s)) →
  browser_inv b → browser_inv (on_tab i f b).
Proof. apply Forall_alter. Qed.

Lemma setItem_inv w k v b : browser_inv b → browser_inv (setItem w k v b).
Proof. intros Hb. unfold setItem. case_decide; [done|]. by apply notify_inv. Qed.

Lemma removeItem_inv w k b : browser_inv b → browser_inv (removeItem w k b).
Proof. intros Hb. unfold removeItem. case_decide; [done|]. by apply notify_inv. Qed.

Lemma setItem_prefers w k v b : prefers_dark (setItem w k v b) = prefers_dark b.
Proof. unfold setItem. by case_decide. Qed.

Lemma mount_tab_inv b classes : tab_inv (prefers_dark b) (mount_tab b classes).
Proof. apply theme_effect_inv; [done|]. cbn. set_solver. Qed.

Lemma set_and_apply_inv i t b :
  browser_inv b →
  browser_inv (on_tab i (setThemeState (prefers_dark b) t)
    (setItem (Some i) storageKey (show_theme t) b)).
Proof.
  intros Hb. apply on_tab_inv; [|by apply setItem_inv].
  rewrite setItem_prefers. intros s. apply setThemeState_inv.
Qed.

Lemma act_inv a b : browser_inv b → browser_inv (act a b).
Proof.
  intros Hb. destruct a as [i t|i e|i|dark|i|classes|i classes|i|k [v|]]; cbn [act].
  - by apply set_and_apply_inv.
  - unfold handleKeyDown. case_match; [done|]. case_match; [|done]. by apply set_and_apply_inv.
  - apply on_tab_inv; [|done]. intros s Hs. unfold deliver. case_match; [done|].
    by apply handleStorageChange_inv, tab_inv_inbox.
  - apply Forall_fmap. eapply Forall_impl; [exact Hb|]. intros s. apply preference_inv.
  - apply on_tab_inv; [|done]. intros s. apply run_frame_inv.
  - apply Forall_app. split; [done|]. apply Forall_singleton, (mount_tab_inv b).
  - apply on_tab_inv; [|done]. intros _ _. apply mount_tab_inv.
  - by apply Forall_delete.
  - by apply setItem_inv.
  - by apply removeItem_inv.
Qed.

Lemma browser_reachable_inv b : browser_reachable b → browser_inv b.
Proof.
  apply invariant_reachable.
  - intros b0 Hb. unfold browser_inv. rewrite Hb. constructor.
  - intros b1 b2 Hi (a & ->). by apply act_inv.
Qed.

(** ** The tabs and the storage *)

(** The theme a tab is going to show once it has received what is on its way. *)
Definition reads (t : Theme) (e : StorageEvent) : Theme :=
  if negb (is_local e) then t else
  if negb (bool_decide (ev_key e = Some storageKey)) then t else
  default defaultTheme (isTheme (newValue e)).
Definition settled_theme (s : Tab) : Theme := foldl reads (theme s) (inbox s).

(** A choice is careful when the tab that makes it has received every event. *)
Definition careful (a : Action) (b : Browser) : Prop :=
  match a with
  | SetTheme i _ | KeyDown i _ => ∀ s, tabs b !! i = Some s → inbox s = []
  | _ => True
  end.
Definition careful_step (b b' : Browser) : Prop := ∃ a, careful a b ∧ b' = act a b.
Definition carefully_reachable : Browser → Prop := reachable browser_init careful_step.

Definition synchronised (b : Browser) : Prop :=
  Forall (λ s, settled_theme s = stored_theme b) (tabs b).

Lemma isTheme_show t : isTheme (Some (show_theme t)) = Some t.
Proof. by destruct t. Qed.

Lemma handleStorageChange_fields m e s :
  theme (handleStorageChange m e s) = reads (theme s) e ∧
  inbox (handleStorageChange m e s) = inbox s ∧
  page_classes (handleStorageChange m e s) = page_classes s.
Proof.
  unfold handleStorageChange, reads. do 2 (case_match; [done|]).
  case_match; apply setThemeState_fields.
Qed.

Lemma settled_deliver m s : settled_theme (deliver m s) = settled_theme s.
Proof.
  unfold deliver, settled_theme. destruct (inbox s) as [|e l] eqn:Hl; [by rewrite Hl|].
  edestruct handleStorageChange_fields as (-> & -> & _). done.
Qed.

Lemma settled_receive e s : settled_theme (receive e s) = reads (settled_theme s) e.
Proof. unfold settled_theme, receive. cbn. by rewrite foldl_app. Qed.

Lemma settled_empty s : inbox s = [] → settled_theme s = theme s.
Proof. unfold settled_theme. by intros ->. Qed.

Definition write_event (k : string) (v : option string) : StorageEvent :=
  {| is_local := true; ev_key := Some k; newValue := v |}.

Lemma reads_write t k v :
  reads t (write_event k v) = if decide (k = storageKey) then default defaultTheme (isTheme v) else t.
Proof. unfold reads. cbn. case_bool_decide; case_decide; naive_solver. Qed.

Lemma stored_theme_write b k v m l p :
  m !! k = v → (∀ k', k' ≠ k → m !! k' = localStorage b !! k') →
  stored_theme (MkBrowser m p l) =
  if decide (k = storageKey) then default defaultTheme (isTheme v) else stored_theme b.
Proof.
  intros Hk Hm. unfold stored_theme. cbn [localStorage]. case_decide as Hd.
  - subst k. rewrite Hk. by destruct (isTheme v).
  - by rewrite Hm.
Qed.

(** A write that changes the value leaves everyone in step but the writer. *)
Lemma write_synchronised w k v m b :
  m !! k = v → (∀ k', k' ≠ k → m !! k' = localStorage b !! k') →
  synchronised b →
  ∀ j s, notify w (write_event k v) (tabs b) !! j = Some s → Some j ≠ w →
  settled_theme s = stored_theme (MkBrowser m (prefers_dark b) (notify w (write_event k v) (tabs b))).
Proof.
  intros Hk Hm Hb j s. unfold notify. rewrite list_lookup_imap.
  intros (s0 & Hs0 & ->)%fmap_Some Hj. rewrite decide_False by done.
  rewrite settled_receive, reads_write, (stored_theme_write b k v) by done.
  unfold synchronised in Hb. rewrite Forall_lookup in Hb. case_decide; [done|by apply (Hb j)].
Qed.

Lemma foreign_write_synchronised k v b :
  synchronised b → synchronised (act (ForeignWrite k v) b).
Proof.
  intros Hb. destruct v as [v|]; cbn [act]; unfold setItem, removeItem;
    (case_decide; [done|]); apply Forall_lookup; intros j s Hs;
    (eapply (write_synchronised None k); [| |exact Hb|exact Hs|done]); intros; by simplify_map_eq.
Qed.

Lemma choice_synchronised i t b :
  (∀ s, tabs b !! i = Some s → inbox s = []) →
  synchronised b →
  synchronised (on_tab i (setThemeState (prefers_dark b) t)
    (setItem (Some i) storageKey (show_theme t) b)).
Proof.
  intros Hi Hb. unfold setItem. case_decide as Hsame; apply Forall_lookup; intros j s Hs;
    cbn [on_tab tabs prefers_dark] in Hs.
  - assert (stored_theme b = t) as Hst by (unfold stored_theme; by rewrite Hsame, isTheme_show).
    change (settled_theme s = stored_theme b).
    destruct (decide (i = j)) as [<-|Hne].
    + rewrite list_lookup_alter_eq in Hs. apply fmap_Some in Hs as (s0 & Hs0 & ->).
      edestruct setThemeState_fields as (Ht & Hin & _).
      rewrite settled_empty by (rewrite Hin; auto). by rewrite Ht.
    + rewrite list_lookup_alter_ne in Hs by done.
      unfold synchronised in Hb. rewrite Forall_lookup in Hb. eauto.
  - destruct (decide (i = j)) as [<-|Hne].
    + rewrite list_lookup_alter_eq in Hs. apply fmap_Some in Hs as (s0 & Hs0 & ->).
      unfold notify in Hs0. rewrite list_lookup_imap in Hs0.
      apply fmap_Some in Hs0 as (s1 & Hs1 & ->). rewrite decide_True by done.
      edestruct setThemeState_fields as (Ht & Hin & _).
      rewrite settled_empty by (rewrite Hin; auto). rewrite Ht.
      unfold stored_theme. cbn. by rewrite lookup_insert_eq, isTheme_show.
    + rewrite list_lookup_alter_ne in Hs by done.
      eapply (write_synchronised (Some i) storageKey); [| |exact Hb|exact Hs|congruence];
        intros; by simplify_map_eq.
Qed.

Lemma mount_tab_settled b classes : settled_theme (mount_tab b classes) = stored_theme b.
Proof.
  unfold mount_tab. set (s := MkTab _ _ _ _ _ _ _). destruct (theme_effect_fields (prefers_dark b) s)
    as (Ht & Hi & _). rewrite settled_empty by done. done.
Qed.

Lemma on_tab_synchronised i f b :
  (∀ s, settled_theme s = stored_theme b → settled_theme (f s) = stored_theme b) →
  synchronised b → synchronised (on_tab i f b).
Proof. apply (Forall_alter (λ s, settled_theme s = stored_theme b)). Qed.

Lemma applies_settled n dark s : settled_theme (Nat.iter n (handleChange dark) s) = settled_theme s.
Proof.
  induction n as [|n IH]; [done|]. rewrite Nat.iter_succ, <-IH. unfold settled_theme.
  destruct (applyTheme_fields dark SystemTheme (Nat.iter n (handleChange dark) s)) as (Ht & Hi & _).
  unfold handleChange at 1 3. by rewrite Ht, Hi.
Qed.

Lemma act_synchronised a b : careful a b → synchronised b → synchronised (act a b).
Proof.
  intros Hc Hb. destruct a as [i t|i e|i|dark|i|classes|i classes|i|k v]; cbn [act].
  - by apply choice_synchronised.
  - unfold handleKeyDown. case_match; [done|]. case_match; [|done]. by apply choice_synchronised.
  - apply on_tab_synchronised; [|done]. intros s Hs. by rewrite settled_deliver.
  - apply Forall_fmap. eapply Forall_impl; [exact Hb|]. intros s Hs. unfold compose.
    by rewrite applies_settled.
  - apply on_tab_synchronised; [|done]. intros s Hs. by rewrite run_frame_spec.
  - apply Forall_app. split; [done|]. apply Forall_singleton, (mount_tab_settled b).
  - apply on_tab_synchronised; [|done]. intros s _. apply mount_tab_settled.
  - by apply Forall_delete.
  - by apply foreign_write_synchronised.
Qed.

Lemma carefully_reachable_synchronised b : carefully_reachable b → synchronised b.
Proof.
  apply invariant_reachable.
  - intros b0 Hb. unfold synchronised. rewrite Hb. constructor.
  - intros b1 b2 Hi (a & Ha & ->). by apply act_synchronised.
Qed.

(** ** The keyboard *)

(** What a tab shows. *)
Definition appearance (b : Browser) (s : Tab) : ResolvedTheme := resolvedTheme (prefers_dark b) (theme s).

Lemma next_theme_differs m t : resolvedTheme m (as_theme (getNextShortcutTheme m t)) ≠ resolvedTheme m t.
Proof. by destruct t, m. Qed.

(** The shortcut sets the other appearance, explicitly, and stores it. *)
Lemma handleKeyDown_spec i e b s :
  is_shortcut e = true → tabs b !! i = Some s →
  ∃ s', tabs (handleKeyDown i e b) !! i = Some s' ∧
    prefers_dark (handleKeyDown i e b) = prefers_dark b ∧
    appearance b s' ≠ appearance b s ∧ theme s' ≠ SystemTheme ∧
    page_classes s' = page_classes s ∧ inbox s' = inbox s ∧
    isTheme (localStorage (handleKeyDown i e b) !! storageKey) = Some (theme s').
Proof.
  intros He Hs. unfold handleKeyDown. rewrite He, Hs. cbn [negb].
  set (t := as_theme _). assert (tabs (setItem (Some i) storageKey (show_theme t) b) !! i = Some s) as Hs'.
  { unfold setItem. case_decide; [done|]. cbn [tabs]. unfold notify.
    rewrite list_lookup_imap, Hs. cbn. by rewrite decide_True. }
  eexists. split_and!.
  - cbn [on_tab tabs]. rewrite list_lookup_alter_eq, Hs'. reflexivity.
  - apply setItem_prefers.
  - unfold appearance. destruct (setThemeState_fields (prefers_dark b) t s) as (-> & _).
    apply next_theme_differs.
  - destruct (setThemeState_fields (prefers_dark b) t s) as (-> & _). unfold t.
    by destruct (getNextShortcutTheme _ _).
  - apply setThemeState_fields.
  - apply setThemeState_fields.
  - destruct (setThemeState_fields (prefers_dark b) t s) as (-> & _). cbn [on_tab localStorage].
    unfold setItem. case_decide as Hd; [by rewrite Hd, isTheme_show|].
    cbn [localStorage]. by rewrite lookup_insert_eq, isTheme_show.
Qed.

Lemma other_key_ignored i e b : is_shortcut e = false → handleKeyDown i e b = b.
Proof. unfold handleKeyDown. by intros ->. Qed.

(** A key typed anywhere within a field changes no theme. *)
Lemma typing_ignored i e b x ancestors y :
  target e = Some (x, ancestors) → y ∈ x :: ancestors → editable_selector y = true →
  handleKeyDown i e b = b.
Proof.
  intros Ht Hy He. apply other_key_ignored. unfold is_shortcut, isEditableTarget. rewrite Ht.
  assert (is_Some (find_first editable_selector (x :: ancestors))) as Hs.
  { destruct (find_first _ _) eqn:E; [done|]. apply find_first_None in E.
    rewrite Forall_forall in E. specialize (E _ Hy). congruence. }
  rewrite (bool_decide_eq_true_2 _ Hs), orb_true_r. cbn [negb]. by rewrite andb_false_r.
Qed.
End provider.

(** [useTheme]: the context is [undefined] outside a provider.
    (src/frontend/src/components/theme-provider.tsx:215-223 useTheme) *)
Definition useTheme {A} (context : option A) : outcome string A :=
  match context with
  | Some c => Returned c
  | None => Thrown "useTheme must be used within a ThemeProvider"
  end.

(** ** Two tabs at once *)

(** Two tabs in which different themes are chosen before either has heard of
    the other's choice, which both then do. *)
Definition crossing : list Action :=
  [OpenPage []; OpenPage []; SetTheme 0 DarkTheme; SetTheme 1 LightTheme; Deliver 0; Deliver 1].
Definition crossed_browser (b : Browser) : Browser :=
  foldl (λ b a, act true SystemTheme "theme" a b) b crossing.

Lemma run_actions_reachable dis def key l b :
  browser_reachable dis def key b →
  browser_reachable dis def key (foldl (λ b a, act dis def key a b) b l).
Proof.
  revert b. induction l as [|a l IH]; intros b Hb; [done|]. cbn [foldl]. apply IH.
  destruct Hb as (b0 & H0 & Hr). exists b0. split; [done|].
  eapply rtc_r; [done|]. by exists a.
Qed.
