(* ===== verification/IslandPages.v ===== *)
(** * The pages of the web client

    The router, the page where a guest is chosen or the administrator signs in,
    the map with its panels and its head-up display, and the page to leave by,
    as one machine; and what a zone's panel shows against the lock of its marker. *)

From S2P Require Import Prelude Json Zod JsString WebTypes EventsStore Session WebLib QueryClient MapZones.
From S2P Require AirportView HotelPanel BeachView ShopView ParrotChat BroadcastView Avatar.

(** ** Cards and headings *)

(** Initials, badge, name, note, personality and route of a guest's card.
    (src/frontend/src/features/guest-selection/components/guest-card.tsx:21-87 GuestCard) *)
Record CardTexts : Type := MkCardTexts {
  ct_avatar : option string;
  ct_initials : string;
  ct_badge : string;
  ct_title : string;
  ct_note : string;
  ct_personality : string;
  ct_route : string;
}.
(** (src/frontend/src/features/guest-selection/components/guest-card.tsx:21-87 GuestCard) *)
Definition GuestCard (g : GuestProfile) : CardTexts :=
  MkCardTexts (Avatar.getAvatarDataUri (g_id g)) (getInitials (Some g))
    (match g_priority g with fast => "Fast pass" | standard => "Standard" end)
    (g_name g +:+ " " +:+ g_surname g)
    ("Age " +:+ show_int (g_age g) +:+ " · Passport " +:+
       (match g_passport g with EU => "EU" | non_EU => "non-EU" end))
    (g_personality g)
    (if g_disability g then "Accessible route requested" else "Standard route").

(** Role, name, note and the label to switch the session.
    (src/frontend/src/features/map/components/guest-hud.tsx:50-121 GuestHud) *)
Definition GuestHud (s : SessionState) : option (Role * string * string * string) :=
  match useSession s with
  | None => None
  | Some (AdminSession displayName _) => Some (RoleAdmin, displayName, "Admin observer mode", "Switch session")
  | Some (GuestSession g) =>
      Some (RoleGuest, g_name g +:+ " " +:+ g_surname g,
        (match g_priority g with fast => "fast" | standard => "standard" end) +:+ " guest", "Switch guest")
  end.

(** Label, accent and description of the panel's header.
    (src/frontend/src/features/map/components/zone-panel-shell.tsx:22-25 config) *)
Definition ZonePanelShell (isAdmin : bool) (zoneId : option ZoneId) :
    option string * string * option string :=
  let config := getZone <$> zoneId in
  (z_label <$> config, default "#34d399" (z_accent <$> config),
   if isAdmin then z_adminDescription <$> config else z_description <$> config).

(** ** Signing in as the administrator *)

Section app.
(** [env.adminPasscode] and the profiles of [data/guests.json]. *)
Variable ADMIN_PASSCODE : string.
Variable guests : list GuestProfile.

(** The trimmed passcode, or the error of the field.
    (src/frontend/src/features/guest-selection/components/admin-login-card.tsx:26-28 AdminLoginSchema) *)
Definition AdminLoginSchema (passcode : string) : string + string :=
  let trimmed := trim passcode in
  if truthy trimmed then inr trimmed else inl "Enter the admin passcode.".

(** The passcode to sign in with, or the error that is shown.
    (src/frontend/src/features/guest-selection/components/admin-login-card.tsx:38-54 handleSubmit) *)
Definition handleSubmit (passcode : string) : string + string :=
  if negb (truthy ADMIN_PASSCODE) then inl "Admin login is not configured for this environment."
  else if decide (passcode ≠ ADMIN_PASSCODE) then inl "That admin passcode does not look right."
  else inr passcode.

(** [form.handleSubmit(handleSubmit)]. *)
Definition submit_passcode (text : string) : string + string :=
  match AdminLoginSchema text with
  | inl e => inl e
  | inr passcode => handleSubmit passcode
  end.

(** ** The machine *)

(** (src/frontend/src/app/router.tsx:8-25 router) *)
Inductive Path : Type := Home | Map | Quit.

(** The session is kept in the storage as it changes; the rest is the state of
    the page that is shown.
    (src/frontend/src/features/guest-selection/pages/guest-selection-page.tsx:12-18 GuestSelectionPage)
    (src/frontend/src/features/map/pages/map-page.tsx:17-23 MapPage) *)
Record App : Type := MkApp {
  path : Path;
  app_session : SessionState;
  flipped : bool;
  login_error : option string;
  activeZone : option ZoneId;
}.

(** A page as it is first shown.  The map without a session goes back to the
    selection; the last page clears the session.
    (src/frontend/src/features/map/components/require-session.tsx:10-18 RequireSession)
    (src/frontend/src/features/map/pages/quit-page.tsx:6-10 QuitPage) *)
Definition show_page (p : Path) (s : SessionState) : App :=
  match p with
  | Home => MkApp Home s false None None
  | Map => match useSession s with
           | None => MkApp Home s false None None
           | Some _ => MkApp Map s false None None
           end
  | Quit => MkApp Quit (clearGuest s) false None None
  end.

Inductive AppEvent : Type :=
  | ChooseGuest (index : nat)
  | FlipTo (back : bool)
  | SubmitPasscode (text : string)
  | TypePasscode
  | SwitchSession
  | PressQuit
  | ClickZone (z : ZoneId)
  | PressClose
  | PressKey (key : string)
  | Open (p : Path).

Definition set_zone (z : option ZoneId) (a : App) : App :=
  MkApp (path a) (app_session a) (flipped a) (login_error a) z.

(** What is on the page reacts; [Open] loads a page anew, with the session read
    back from the storage.
    (src/frontend/src/features/guest-selection/pages/guest-selection-page.tsx:20-28 handleSelectGuest)
    (src/frontend/src/features/map/components/guest-hud.tsx:55-62 handleSwitchSession)
    (src/frontend/src/features/map/components/zone-panel-shell.tsx:27-34 onKeyDown)
    (src/frontend/src/features/map/pages/map-page.tsx:69-73 onClose) *)
Definition app_event (e : AppEvent) (a : App) : App :=
  match e, path a with
  | ChooseGuest i, Home =>
      match guests !! i with
      | Some g => show_page Map (selectGuest g (app_session a))
      | None => a
      end
  | FlipTo b, Home => MkApp Home (app_session a) b (login_error a) None
  | SubmitPasscode text, Home =>
      match submit_passcode text with
      | inr passcode => show_page Map (loginAdmin passcode (Some "Admin Observer") (app_session a))
      | inl m => MkApp Home (app_session a) (flipped a) (Some m) None
      end
  | TypePasscode, Home => MkApp Home (app_session a) (flipped a) None None
  | SwitchSession, Map => show_page Home (clearSession (app_session a))
  | PressQuit, Map => show_page Quit (app_session a)
  | ClickZone z, Map => set_zone (Some z) a
  | PressClose, Map => set_zone None a
  | PressKey key, Map =>
      if bool_decide (is_Some (activeZone a)) && bool_decide (key = "Escape") then set_zone None a else a
  | Open p, _ => show_page p (merge (Some (partialize (app_session a))) EMPTY_SESSION_STATE)
  | _, _ => a
  end.
Definition app_run (es : list AppEvent) (a : App) : App := foldl (λ a e, app_event e a) a es.

(** The first visit, with nothing stored. *)
Definition first_visit (p : Path) : App := show_page p (merge None EMPTY_SESSION_STATE).

(** *** Facts *)

(** The map needs a session and the last page has none; a guest is one of the
    profiles, and an administrator holds the configured passcode. *)
Record app_inv (a : App) : Prop := {
  ai_map : path a = Map → is_Some (session (app_session a));
  ai_quit : path a = Quit → session (app_session a) = None;
  ai_zone : is_Some (activeZone a) → path a = Map;
  ai_coherent : coherent (app_session a);
  ai_session : match session (app_session a) with
    | Some (GuestSession g) => g ∈ guests
    | Some (AdminSession _ p) => p = ADMIN_PASSCODE ∧ p ≠ "" ∧ trim p = p
    | None => True
    end;
}.

Definition good_session (s : SessionState) : Prop :=
  coherent s ∧
  match session s with
  | Some (GuestSession g) => g ∈ guests
  | Some (AdminSession _ p) => p = ADMIN_PASSCODE ∧ p ≠ "" ∧ trim p = p
  | None => True
  end.

Lemma show_page_inv p s : good_session s → app_inv (show_page p s).
Proof.
  intros [Hc Hs]. destruct p; cbn.
  - constructor; cbn; done.
  - unfold useSession. destruct (session s) as [x|] eqn:E; constructor; cbn; rewrite ?E; try done;
      by intros [].
  - constructor; cbn; try done; by intros [].
Qed.

Lemma trim_trim s : trim (trim s) = trim s.
Proof. apply trim_idempotent. Qed.

Lemma submit_passcode_spec text p :
  submit_passcode text = inr p ↔ p = ADMIN_PASSCODE ∧ p ≠ "" ∧ trim text = p.
Proof.
  unfold submit_passcode, AdminLoginSchema, handleSubmit, truthy.
  case_bool_decide as Ht; cbn [negb]; [|naive_solver].
  case_bool_decide as Ha; cbn [negb]; [|naive_solver].
  case_decide; naive_solver.
Qed.

Lemma app_event_inv e a : app_inv a → app_inv (app_event e a).
Proof.
  intros Ha. destruct Ha as [Hm Hq Hz Hc Hs].
  assert (app_inv a) as Hi by by constructor.
  assert (∀ z, path a = Map → app_inv (set_zone z a)) as Hset by by constructor.
  assert (∀ b m, path a = Home → app_inv (MkApp Home (app_session a) b m None)) as Hhome.
  { intros b m Hp. constructor; cbn; try done. }
  unfold app_event. destruct e; try (destruct (path a) eqn:Hp; try done; try (by apply Hset); try (by apply Hhome));
    try (rewrite reload_restores by done; by apply show_page_inv).
  - destruct (guests !! index) as [g|] eqn:Hg; [|done]. apply show_page_inv. split; [done|].
    by eapply list_elem_of_lookup_2.
  - destruct (submit_passcode text) as [m|p] eqn:Hsub; [by apply Hhome|].
    apply show_page_inv. apply submit_passcode_spec in Hsub as (-> & Hne & Htr). split; [done|].
    cbn. split_and!; try done. by rewrite <- Htr, trim_trim.
  - by apply show_page_inv.
  - by apply show_page_inv.
  - destruct (_ && _); [by apply Hset|done].
Qed.

Lemma app_run_inv es p : app_inv (app_run es (first_visit p)).
Proof.
  induction es as [|e es IH] using rev_ind.
  - by apply show_page_inv.
  - unfold app_run in *. rewrite foldl_app. by apply app_event_inv.
Qed.

(** Leaving clears everything that was stored. *)
Lemma quit_forgets a e p :
  path a = Map → (e = PressQuit ∨ e = SwitchSession) →
  session (app_session (app_event (Open p) (app_event e a))) = None.
Proof. intros Hp [-> | ->]; unfold app_event; rewrite Hp; by destruct p. Qed.
End app.

(** ** Panels and locks *)

Section panels.
Context {Cache : Type} `{!QueryClient Cache}.

(** What the panels are drawn from. *)
Record Panels : Type := MkPanels {
  pn_session : SessionState;
  pn_events : EventsState;
  pn_airport : AirportView.ArrivalUi Cache;
  pn_hotel : HotelPanel.HotelUi Cache;
  pn_beach : BeachView.BeachUi Cache;
  pn_crab : ShopView.Crab.CrabUi Cache;
  pn_chat : ParrotChat.Chat;
  pn_loading : ZoneId → bool;
  pn_error : option string;
  pn_show : number → string;
}.

Definition panel_guest (p : Panels) : string := default "" (g_id <$> guest (pn_session p)).

Definition landed (p : Panels) : bool :=
  AirportView.useLanded (AirportView.ui_cache (pn_airport p)) (pn_session p).
Definition checked_in (p : Panels) : bool := BeachView.useCheckedIn (panel_guest p) (pn_hotel p).

Inductive PanelContent : Type :=
  | AirportContent (v : AirportView.AirportView)
  | HotelContent (v : HotelPanel.HotelPanelRoot)
  | BeachContent (v : BeachView.BeachPanelView)
  | CrabContent (v : ShopView.Crab.CrabView)
  | ParrotContent (v : ParrotChat.PanelView)
  | BroadcastContent (v : bool * option (list BroadcastEvent)).

(** (src/frontend/src/features/map/components/zone-panel.tsx:16-31 ZonePanelContent) *)
Definition ZonePanelContent (zoneId : ZoneId) (p : Panels) : PanelContent :=
  let isAdmin := useIsAdmin (pn_session p) in
  match zoneId with
  | AirportZone => AirportContent (AirportView.AirportPanel (pn_session p) (pn_airport p))
  | HotelZone => HotelContent (HotelPanel.HotelPanel isAdmin (g_id <$> guest (pn_session p)) (landed p) (pn_hotel p))
  | BeachZone => BeachContent (BeachView.BeachPanel isAdmin (landed p) (checked_in p)
      (BeachView.ActivitiesList (g_id <$> guest (pn_session p)) (pn_show p) (pn_loading p BeachZone) (pn_beach p)))
  | CrabZone => CrabContent (ShopView.Crab.CrabPanel (pn_session p) (landed p) (pn_loading p CrabZone) (pn_crab p))
  | ParrotZone => ParrotContent (ParrotChat.ParrotPanel isAdmin (landed p) (pn_loading p ParrotZone) (pn_error p) (pn_chat p))
  | BroadcastZone => BroadcastContent (BroadcastView.BroadcastPanel isAdmin (pn_events p))
  end.

(** (src/frontend/src/features/map/components/zone-panel.tsx:33-39 ZonePanel) *)
Definition ZonePanel (zoneId : option ZoneId) (p : Panels) : option PanelContent :=
  (λ z, ZonePanelContent z p) <$> zoneId.

(** The panel shows a gate instead of its zone. *)
Definition gated (v : PanelContent) : bool :=
  match v with
  | HotelContent HotelPanel.NotLandedGate
  | BeachContent BeachView.BeachNotLanded | BeachContent BeachView.BeachNotCheckedIn
  | CrabContent ShopView.Crab.CrabNotLanded
  | ParrotContent ParrotChat.NotLandedView => true
  | _ => false
  end.

(** For whoever is signed in, a zone but the lighthouse is locked on the map
    exactly when its panel shows a gate; the lighthouse's panel never does. *)
Lemma locked_iff_gated z p :
  coherent (pn_session p) → is_Some (session (pn_session p)) →
  ParrotChat.participantId (pn_chat p) = g_id <$> guest (pn_session p) →
  gated (ZonePanelContent z p) =
  negb (bool_decide (z = BroadcastZone)) &&
  zone_locked z (useIsAdmin (pn_session p)) (landed p) (checked_in p).
Proof.
  intros [Hg _] [a Ha] Hchat. unfold ZonePanelContent, zone_locked.
  assert (useIsAdmin (pn_session p) = is_admin_session a) as Hadm by (unfold useIsAdmin; by rewrite Ha).
  rewrite Ha in Hg. destruct z; cbn [bool_decide negb andb]; rewrite ?Hadm.
  - unfold AirportView.AirportPanel. rewrite Hadm. by destruct a.
  - unfold HotelPanel.HotelPanel. destruct a; cbn in *; [rewrite Hg|done]. cbn.
    by destruct (landed p).
  - unfold BeachView.BeachPanel. destruct a; [|done]. cbn. by destruct (landed p), (checked_in p).
  - unfold ShopView.Crab.CrabPanel, useGuest. rewrite Hadm. destruct a; [|done]. cbn in *. rewrite Hg.
    by destruct (landed p).
  - unfold ParrotChat.ParrotPanel. rewrite Hchat. destruct a; [|done]. cbn in *. rewrite Hg.
    cbn. by destruct (landed p).
  - done.
Qed.

(** A guest who has not landed finds the lighthouse locked and its panel open. *)
Lemma lighthouse_locked_but_open p g :
  session (pn_session p) = Some (GuestSession g) → landed p = false →
  zone_locked BroadcastZone (useIsAdmin (pn_session p)) (landed p) (checked_in p) = true ∧
  gated (ZonePanelContent BroadcastZone p) = false.
Proof. intros Hs Hl. unfold useIsAdmin. by rewrite Hs, Hl. Qed.
End panels.
