(* ===== verification/GuestSelection.v ===== *)
(** * Choosing a guest

    [features/guest-selection]: the two faces of the card, the carousel of
    guests on the front, and the way from the carousel to the session. *)

From S2P Require Import Prelude JsString Session IslandPages Carousel.

(** Heading, text and the label of the button that turns the card.
    (src/frontend/src/features/guest-selection/components/selection-panel.tsx:3-42 SelectionPanel) *)
Record SelectionPanel (A : Type) : Type := MkSelection {
  title : string; description : string; flipLabel : string; children : A }.
Arguments MkSelection {A} _ _ _ _.
Arguments title {A} _.
Arguments children {A} _.

(** The carousel's options and the cards in it; [loop] is the library's.
    (src/frontend/src/features/guest-selection/components/guest-selection-front.tsx:18-47 GuestSelectionFront) *)
Record GuestCarousel : Type := MkGuestCarousel {
  gc_loop : bool; gc_props : CarouselProps; gc_cards : list (string * CardTexts) }.

(** (src/frontend/src/features/guest-selection/components/guest-selection-front.tsx:18-47 GuestSelectionFront) *)
Definition GuestSelectionFront (guests : list GuestProfile) : SelectionPanel GuestCarousel :=
  MkSelection "Welcome to Purrlington!"
    "Choose a guest passport, then enter the resort as that character." "Admin"
    (MkGuestCarousel true (MkProps None None) ((λ g, (g_id g, GuestCard g)) <$> guests)).

(** The card on the back: headings, the field with its mark of an invalid value,
    the error beneath it, and the button.
    (src/frontend/src/features/guest-selection/components/admin-login-card.tsx:56-120 AdminLoginCard) *)
Record LoginCard : Type := MkLoginCard {
  lc_title : string; lc_subtitle : string; lc_label : string; lc_placeholder : string;
  lc_invalid : bool; lc_error : option string; lc_submit : string }.

(** (src/frontend/src/features/guest-selection/components/admin-login-card.tsx:56-120 AdminLoginCard) *)
Definition AdminLoginCard (error : option string) : LoginCard :=
  let shown := error ≫= λ m, if truthy m then Some m else None in
  MkLoginCard "Admin" "Observer mode" "Admin passcode" "Enter passcode"
    (bool_decide (is_Some shown)) shown "Enter as admin".

(** (src/frontend/src/features/guest-selection/components/admin-back.tsx:9-35 AdminBack) *)
Definition AdminBack (error : option string) : SelectionPanel LoginCard :=
  MkSelection "Admin access" "Enter observer mode without selecting a guest." "Back" (AdminLoginCard error).

(** Both faces are there; the turn decides which one is in front.
    (src/frontend/src/features/guest-selection/components/flip-card.tsx:12-29 FlipCard) *)
Definition FlipCard {A B} (flipped : bool) (front : A) (back : B) : A + B :=
  if flipped then inr back else inl front.

(** The slide in front is a guest's card.
    (src/frontend/src/features/guest-selection/components/guest-selection-front.tsx:31-38 guests) *)
Definition front_guest `{Embla Api} (guests : list GuestProfile) (c : Carousel Api) : option GuestProfile :=
  selection c ≫= λ i, guests !! i.

(** From wherever the carousel stands, every guest comes to the front within one
    turn of the button. *)
Lemma guest_comes_to_front `{Embla Api} guests b (c : Carousel Api) a g :
  carousel_inv c → api c = Some a → loops a = true → slides a = length guests → 1 < length guests →
  g ∈ guests →
  ∃ k, k < length guests ∧ front_guest guests (carousel_run b (replicate k PressNext) c) = Some g.
Proof.
  intros Hi Ha Hl Hn Hs (j & Hj)%list_elem_of_lookup.
  pose proof (lookup_lt_Some _ _ _ Hj) as Hlt.
  pose proof (selected_below a ltac:(lia)) as Hb. rewrite Hn in Hb.
  set (n := length guests) in *. exists ((j + (n - selected a)) mod n).
  split; [apply Nat.mod_upper_bound; lia|].
  destruct (press_next b c a ((j + (n - selected a)) mod n) Hi Ha Hl ltac:(lia)) as (a' & Ha' & _ & _ & Hsel).
  unfold front_guest, selection. rewrite Ha'. cbn. rewrite Hsel, Hn. fold n.
  rewrite Nat.Div0.add_mod_idemp_r.
  replace (selected a + (j + (n - selected a))) with (j + 1 * n) by lia.
  by rewrite Nat.Div0.mod_add, Nat.mod_small.
Qed.

(** Whatever was typed, submitting it leaves the page or shows why it does not,
    and typing on takes the reason away. *)
Lemma login_explains ADMIN_PASSCODE guests text a :
  path a = Home →
  let a' := app_event ADMIN_PASSCODE guests (SubmitPasscode text) a in
  (path a' = Map ∧ useIsAdmin (app_session a') = true) ∨
  (path a' = Home ∧ app_session a' = app_session a ∧
   ∃ m, lc_error (children (AdminBack (login_error a'))) = Some m ∧
     m ∈ ["Enter the admin passcode."; "Admin login is not configured for this environment.";
          "That admin passcode does not look right."] ∧
     lc_error (children (AdminBack (login_error (app_event ADMIN_PASSCODE guests TypePasscode a')))) = None).
Proof.
  intros Hp a'. subst a'. cbn [app_event]. rewrite Hp.
  destruct (submit_passcode ADMIN_PASSCODE text) as [m|x] eqn:Hs; [right|by left]. cbn.
  assert (m ∈ ["Enter the admin passcode."; "Admin login is not configured for this environment.";
     "That admin passcode does not look right."]) as Hm.
  { unfold submit_passcode, AdminLoginSchema, handleSubmit in Hs.
    destruct (truthy (trim text)); [|simplify_eq; set_solver].
    destruct (truthy ADMIN_PASSCODE); cbn [negb] in Hs; [|simplify_eq; set_solver].
    case_decide; simplify_eq. set_solver. }
  split_and!; [done|done|]. exists m. split_and!; [|done|done].
  unfold truthy. rewrite bool_decide_true; [done|]. set_unfold in Hm. destruct Hm as [-> | [-> | [-> | []]]]; done.
Qed.
