(* ===== verification/MapPage.v ===== *)
(** * The map's page as a whole

    [features/map/pages/map-page.tsx]: the layer of markers, the head-up display,
    the status of the stream and the panel of the active zone, drawn from the
    machine of the pages and from what the panels are drawn from; and the page on
    which a guest is chosen, drawn from the same machine. *)

From Stdlib Require Import QArith.
From S2P Require Import Prelude JsString WebTypes EventsStore Session QueryClient MapZones IslandMarkers IslandPages.
From S2P Require Import GuestSelection.
From S2P Require BroadcastView OctopusOracle KikiQuest ParrotChat.

(** ** The map *)

Record MapPageView : Type := MkMapPage {
  mp_zoom : ZoomRange;
  mp_layer : Layer;
  mp_hud : option (Role * string * string * string);
  mp_title : string;
  mp_status : string * string;
  mp_shell : option string * string * option string;
  mp_open : bool;
  mp_content : option PanelContent;
}.

Section page.
Context {Cache : Type} `{!QueryClient Cache}.

(** The sizes come from the window, the flashes from the markers' state, and the
    octopus and Kiki from theirs.
    (src/frontend/src/features/map/pages/map-page.tsx:17-76 MapPage) *)
Definition MapPage (d : MapDimensions) (a : App) (p : Panels (Cache := Cache)) (active : ZoneId → bool)
    (oracle_open : bool) (oracle : OctopusOracle.Panel) (quest : KikiQuest.Quest)
    (status : WebTypes.ConnectionStatus) : MapPageView :=
  let isAdmin := useIsAdmin (pn_session p) in
  {| mp_zoom := zoom_range d;
     mp_layer := ZoneLayer (w d) (h d) isAdmin (landed p) (checked_in p) active oracle_open oracle quest;
     mp_hud := GuestHud (pn_session p);
     mp_title := "Purrlington";
     mp_status := BroadcastView.ConnectionStatus status;
     mp_shell := ZonePanelShell isAdmin (activeZone a);
     mp_open := bool_decide (is_Some (activeZone a));
     mp_content := ZonePanel (activeZone a) p |}.

(** The panels are drawn from the page's session, and the chat is its guest's. *)
Record drawn_from (a : App) (p : Panels (Cache := Cache)) : Prop := {
  df_session : pn_session p = app_session a;
  df_chat : ParrotChat.participantId (pn_chat p) = g_id <$> guest (pn_session p);
}.

(** ** Facts *)

(** A panel slid in has a zone's content under that zone's name, and one slid
    out has neither. *)
Lemma panel_and_shell d a p active o oracle quest status :
  let v := MapPage d a p active o oracle quest status in
  (mp_open v = true ↔ is_Some (mp_content v)) ∧
  (mp_shell v).1.1 = z_label ∘ getZone <$> activeZone a.
Proof.
  cbn. unfold ZonePanel. split; [rewrite bool_decide_eq_true, fmap_is_Some; done|].
  by destruct (activeZone a).
Qed.

(** Whoever is on the map is named by the head-up display. *)
Lemma hud_shown ADMIN_PASSCODE guests a p d active o oracle quest status :
  app_inv ADMIN_PASSCODE guests a → path a = Map → drawn_from a p →
  is_Some (mp_hud (MapPage d a p active o oracle quest status)).
Proof.
  intros Hi Hm [Hs _]. cbn. unfold GuestHud, useSession. rewrite Hs.
  destruct (ai_map _ _ _ Hi Hm) as [[g|n x] ->]; by eexists.
Qed.

(** Every marker, once pressed, opens its zone's panel, and the panel shows a gate
    exactly where the marker was drawn locked, but for the lighthouse. *)
Lemma pressed_marker_opens ADMIN_PASSCODE guests a p d active o oracle quest status m :
  app_inv ADMIN_PASSCODE guests a → path a = Map → drawn_from a p →
  m ∈ layer_zones (mp_layer (MapPage d a p active o oracle quest status)) →
  let a' := app_event ADMIN_PASSCODE guests (ClickZone (iv_zone m)) a in
  let v := MapPage d a' p active o oracle quest status in
  mp_open v = true ∧ (mp_shell v).1.1 = Some (iv_label m) ∧
  ∃ c, mp_content v = Some c ∧
    gated c = negb (bool_decide (iv_zone m = BroadcastZone)) && iv_locked m.
Proof.
  intros Hi Hm [Hs Hchat] Hin a' v.
  assert (activeZone a' = Some (iv_zone m)) as Hz by (subst a'; unfold app_event; by rewrite Hm).
  destruct (layer_markers (w d) (h d) (useIsAdmin (pn_session p)) (landed p) (checked_in p) active o oracle quest)
    as [_ Hall]. rewrite Forall_forall in Hall. destruct (Hall m Hin) as (Hl & Hlock & _).
  subst v. clearbody a'. cbn. rewrite Hz. split_and!; [done|by rewrite Hl|].
  exists (ZonePanelContent (iv_zone m) p). split; [done|]. rewrite Hlock. apply locked_iff_gated; [| |done].
  - rewrite Hs. apply (ai_coherent _ _ _ Hi).
  - rewrite Hs. by apply (ai_map _ _ _ Hi).
Qed.
End page.

(** ** The first page *)

(** What the page shows: the face in front, of the two.
    (src/frontend/src/features/guest-selection/pages/guest-selection-page.tsx:30-60 GuestSelectionPage) *)
Definition GuestSelectionPage (guests : list GuestProfile) (a : App) :
    SelectionPanel GuestCarousel + SelectionPanel LoginCard :=
  FlipCard (flipped a) (GuestSelectionFront guests) (AdminBack (login_error a)).

(** Turning the card shows the other face and keeps the error of the field. *)
Lemma turned_card ADMIN_PASSCODE guests b a :
  path a = Home →
  GuestSelectionPage guests (app_event ADMIN_PASSCODE guests (FlipTo b) a) =
  if b then inr (AdminBack (login_error a)) else inl (GuestSelectionFront guests).
Proof. intros Hp. unfold app_event. rewrite Hp. by destruct b. Qed.
