(* ===== verification/HotelProperties.v ===== *)
(** * What the hotel service guarantees

    The correctness properties of the reservation service, the rooms listing,
    the clock and the seed script, for every database that behaves as
    [PrismaClient] says and every answer of the airport and the broadcast
    service; each with an instance on the in-memory database. *)

From Stdlib Require Import QArith Qround.
From stdpp Require Import sorting.
From S2P Require Import Prelude Json JsString JsonText Interleave HotelDb HotelSeed HotelOutbound.
From S2P Require Import HotelReservation HotelReservationSpec HotelInvariant HotelConcurrency.
From S2P Require Import HotelIsolation HotelRooms.

#[local] Existing Instances MemDB.prisma MemDB.prisma_responsive.

(** ** Concrete inputs of the instances *)

Definition suite_dto (guest : string) : CreateReservationDto := {|
  c_guest_id := guest; c_room_type := SUITE; c_guest_count := 2; c_party_guest_ids := None;
  c_check_in_day := 3; c_check_out_day := 5
|}.

Definition create_here (dto : CreateReservationDto) (h : Hotel Tables) :=
  create no_services "-" no_network dto h.
Definition cancel_here (id : string) (h : Hotel Tables) := cancel no_services "-" no_network id h.

(** The hotel after one booking, and the booking's answer. *)
Definition booked_hotel : Hotel Tables := (create_here (suite_dto "tom") one_suite_hotel).2.
Definition booked_answer : ReservationResponseDto := {|
  o_id := "0"; o_guest_id := "tom"; o_room_id := "room-suite-01"; o_room_type := SUITE;
  o_guest_count := 2; o_party_guest_ids := []; o_check_in_day := 3; o_check_out_day := 5;
  o_status := CONFIRMED |}.

Lemma booked_runs : create_here (suite_dto "tom") one_suite_hotel = (Returned booked_answer, booked_hotel).
Proof.
  assert ((create_here (suite_dto "tom") one_suite_hotel).1 = Returned booked_answer) as H
    by (vm_compute; reflexivity).
  unfold booked_hotel. rewrite <-H. by destruct (create_here _ _).
Qed.

Lemma booked_inv : hotel_inv (tables (db booked_hotel)).
Proof.
  pose proof (create_refines_spec no_services "-" no_network _ _ _ _ booked_runs) as (ev & Hs & _).
  eapply create_keeps_inv; [|exact Hs]. apply one_suite_inv.
Qed.

(** ** Creating a reservation *)

(** C1: creating a reservation implements its specification: the answer, the
    tables after it, and the event announced are those [create_spec] allows for
    the tables before and the airport's word on the guest; nothing else is
    sent; and over well-formed tables a storable request is never answered
    with an internal error. *)
Theorem create_implements_spec {DB} `{PrismaResponsive DB} env request_id fetch dto
    (h : Hotel DB) out h' :
  create env request_id fetch dto h = (out, h') →
  (∃ ev, create_spec id_le (clearance env request_id fetch (sent h) (c_guest_id dto))
      (tables (db h)) dto out (tables (db h')) ev ∧
    sent h' = sent h ++ create_asks env request_id dto ++ announced env request_id ev) ∧
  (hotel_inv (tables (db h)) → storable dto = true → out ≠ Thrown InternalError).
Proof.
  intros Hrun. split; [by apply create_refines_spec|]. intros Hi Hs ->.
  apply (create_answers env request_id fetch dto h Hi Hs). by rewrite Hrun.
Qed.

Lemma create_implements_spec_witness :
  (∃ ev, create_spec id_le None (tables (db one_suite_hotel)) (suite_dto "tom")
     (Returned booked_answer) (tables (db booked_hotel)) ev) ∧
  Returned booked_answer ≠ Thrown (E := Failure) InternalError.
Proof.
  destruct (create_implements_spec no_services "-" no_network (suite_dto "tom") one_suite_hotel
    (Returned booked_answer) booked_hotel booked_runs) as [(ev & Hs & _) Hup].
  split; [by exists ev|]. apply Hup; [apply one_suite_inv|reflexivity].
Defined.

(** C2: a room is assigned exactly when the stay ends after it begins, the
    airport does not report the guest as not cleared, and some room of the type
    holds the party and is free for the whole stay. *)
Theorem create_succeeds_exactly {DB} `{PrismaResponsive DB} env request_id fetch dto (h : Hotel DB) :
  hotel_inv (tables (db h)) → storable dto = true →
  (∃ o, (create env request_id fetch dto h).1 = Returned o) ↔
  (c_check_in_day dto < c_check_out_day dto)%Z ∧
  clearance env request_id fetch (sent h) (c_guest_id dto) ≠ Some false ∧
  ∃ room, of_type (tables (db h)) (c_room_type dto) room ∧ holds_party dto room ∧
    free_for (tables (db h)) dto room.
Proof. apply create_succeeds_iff. Qed.

Lemma create_succeeds_exactly_witness :
  ¬ ∃ o, (create_here (suite_dto "felix") booked_hotel).1 = Returned o.
Proof.
  intros H%(create_succeeds_exactly no_services "-" no_network (suite_dto "felix") booked_hotel);
    [|apply booked_inv|reflexivity].
  destruct H as (_ & _ & room & (id & Hid & _) & _ & Hfree).
  assert (rooms (tables (db booked_hotel)) = {["room-suite-01" := one_suite]}) as Hr
    by (vm_compute; reflexivity).
  rewrite Hr in Hid. apply lookup_singleton_Some in Hid as [_ <-].
  apply (Hfree "0" {| r_id := "0"; r_guest_id := "tom"; r_room_id := "room-suite-01";
    r_guest_count := 2; r_check_in_day := 3; r_check_out_day := 5; r_status := CONFIRMED;
    r_guests := [] |}); [by vm_compute|done|done|].
  split; vm_compute; discriminate.
Defined.

(** C3: whatever requests are served, one after the other, no room is ever
    booked twice for stays that meet, every reservation is under its id, in an
    existing room that holds its party, for a positive number of days; and the
    rooms do not change. *)
Theorem served_requests_never_double_book {DB} `{PrismaClient DB} env request_id fetch l (h : Hotel DB) :
  hotel_inv (tables (db h)) →
  hotel_inv (tables (db (serve env request_id fetch l h))) ∧
  rooms (tables (db (serve env request_id fetch l h))) = rooms (tables (db h)).
Proof. apply serve_keeps_inv. Qed.

Lemma served_requests_never_double_book_witness :
  no_double_booking (tables (db (serve no_services "-" no_network
    [suite_request "tom"; suite_request "felix"; DeleteReservation "0"; suite_request "felix"]
    one_suite_hotel))).
Proof.
  apply (served_requests_never_double_book no_services "-" no_network
    [suite_request "tom"; suite_request "felix"; DeleteReservation "0"; suite_request "felix"]
    one_suite_hotel), one_suite_inv.
Defined.

(** ** Cancelling *)

(** C4: cancelling a reservation implements its specification, and over
    well-formed tables it answers 404 for an id that is not there, and
    otherwise succeeds, leaving exactly that reservation cancelled and sending
    at most one announcement, none when it was cancelled already. *)
Theorem cancel_implements_spec {DB} `{PrismaResponsive DB} env request_id fetch id
    (h : Hotel DB) out h' :
  cancel env request_id fetch id h = (out, h') →
  (∃ ev, cancel_spec (tables (db h)) id out (tables (db h')) ev ∧
    sent h' = sent h ++ announced env request_id ev) ∧
  (hotel_inv (tables (db h)) →
   match reservations (tables (db h)) !! id with
   | None => out = Thrown (HttpException "Reservation not found" 404) ∧
       h' = MkHotel (db h') (sent h)
   | Some r =>
       out = Returned {| x_id := id; x_status := CANCELLED |} ∧
       reservations (tables (db h')) =
         <[id := set_status CANCELLED r]> (reservations (tables (db h))) ∧
       length (sent h') - length (sent h) ≤ 1 ∧
       (r_status r = CANCELLED → sent h' = sent h)
   end).
Proof.
  intros Hrun. split; [by eapply cancel_refines_spec|]. intros Hi.
  by apply (cancel_outcome env request_id fetch id h).
Qed.

Lemma cancel_implements_spec_witness :
  (cancel_here "no-such-id" booked_hotel).1 = Thrown (HttpException "Reservation not found" 404).
Proof.
  destruct (cancel_here "no-such-id" booked_hotel) as [out h'] eqn:Hrun.
  destruct (cancel_implements_spec no_services "-" no_network "no-such-id" booked_hotel out h' Hrun)
    as [_ Hout].
  specialize (Hout booked_inv).
  assert (reservations (tables (db booked_hotel)) !! "no-such-id" = None) as Hn
    by (vm_compute; reflexivity).
  rewrite Hn in Hout. apply Hout.
Defined.

(** Sending a cancellation again gives the same answer, changes no
    reservation and announces nothing. *)
Theorem cancelling_again_changes_nothing {DB} `{PrismaResponsive DB} env request_id fetch id
    (h : Hotel DB) out1 h1 out2 h2 :
  hotel_inv (tables (db h)) →
  cancel env request_id fetch id h = (out1, h1) →
  cancel env request_id fetch id h1 = (out2, h2) →
  out2 = out1 ∧ reservations (tables (db h2)) = reservations (tables (db h1)) ∧ sent h2 = sent h1.
Proof. apply cancel_idempotent. Qed.

Lemma cancelling_again_changes_nothing_witness :
  (cancel_here "0" (cancel_here "0" booked_hotel).2).1 = (cancel_here "0" booked_hotel).1.
Proof.
  destruct (cancel_here "0" booked_hotel) as [out1 h1] eqn:H1. cbn [fst snd].
  destruct (cancel_here "0" h1) as [out2 h2] eqn:H2. cbn [fst].
  apply (cancelling_again_changes_nothing no_services "-" no_network "0" booked_hotel
    out1 h1 out2 h2 booked_inv H1 H2).
Defined.

(** C23: a booking that was answered reads back, field by field, as it was
    answered; and once it is cancelled the same stay can be booked again. *)
Theorem booking_reads_back_and_frees {DB} `{PrismaResponsive DB} env request_id fetch dto
    (h : Hotel DB) o h1 out h2 :
  hotel_inv (tables (db h)) → storable dto = true →
  create env request_id fetch dto h = (Returned o, h1) →
  cancel env request_id fetch (o_id o) h1 = (out, h2) →
  (findById (o_id o) h1).1 = Returned o ∧
  (clearance env request_id fetch (sent h2) (c_guest_id dto) ≠ Some false →
   ∃ o', (create env request_id fetch dto h2).1 = Returned o').
Proof.
  intros Hi Hs Hc Hx. split; [by apply (create_then_read env request_id fetch dto h)|].
  by apply (cancel_frees_room env request_id fetch dto h o h1 out h2).
Qed.

Lemma booking_reads_back_and_frees_witness :
  (findById "0" booked_hotel).1 = Returned booked_answer ∧
  ∃ o', (create_here (suite_dto "tom") (cancel_here "0" booked_hotel).2).1 = Returned o'.
Proof.
  destruct (cancel_here "0" booked_hotel) as [out h2] eqn:Hx. cbn [snd].
  destruct (booking_reads_back_and_frees no_services "-" no_network (suite_dto "tom")
    one_suite_hotel booked_answer booked_hotel out h2 one_suite_inv eq_refl booked_runs Hx)
    as [Hread Hagain].
  split; [exact Hread|]. apply Hagain. discriminate.
Defined.

(** ** Requests that interleave *)

(** However requests interleave at their database and network calls, every
    reservation stays under its id, in an existing room that holds its party,
    for a positive number of days, and the rooms do not change. *)
Theorem interleaved_requests_keep_tables_sound {DB} `{PrismaClient DB} env request_id fetch requests
    (h : Hotel DB) ps h' :
  hotel_wf (tables (db h)) →
  rtc pool_step (handle_async env request_id fetch <$> requests, h) (ps, h') →
  hotel_wf (tables (db h')) ∧ rooms (tables (db h')) = rooms (tables (db h)).
Proof. apply concurrent_wf. Qed.

Lemma interleaved_requests_keep_tables_sound_witness : hotel_wf (tables (db race.2)).
Proof.
  apply (interleaved_requests_keep_tables_sound no_services "-" no_network
    [suite_request "tom"; suite_request "felix"] one_suite_hotel race.1 race.2 one_suite_inv).
  rewrite <-surjective_pairing. apply race_steps.
Defined.

(** A request that no other interrupts behaves as its handler: cutting the
    handlers at their calls loses and adds nothing. *)
Theorem uninterrupted_request_is_its_handler {DB} `{PrismaClient DB} env request_id fetch rq
    (h : Hotel DB) :
  run (handle_async env request_id fetch rq) h = handle env request_id fetch rq h.
Proof. apply run_handle. Qed.

Lemma uninterrupted_request_is_its_handler_witness :
  (run (handle_async no_services "-" no_network (suite_request "tom")) one_suite_hotel).1 =
  Returned (ReservationReply booked_answer).
Proof.
  rewrite (uninterrupted_request_is_its_handler no_services "-" no_network (suite_request "tom")
    one_suite_hotel).
  vm_compute. reflexivity.
Defined.

(** Two requests for the last suite that interleave between the count of
    overlapping reservations and the insertion are both confirmed in it: the
    availability check and the insertion are not atomic. *)
Theorem interleaved_requests_double_book :
  ∃ requests ps h',
    hotel_inv (tables (db one_suite_hotel)) ∧
    rtc pool_step (handle_async no_services "-" no_network <$> requests, one_suite_hotel) (ps, h') ∧
    booked_room <$> ps = [Some ("tom", "room-suite-01"); Some ("felix", "room-suite-01")] ∧
    ¬ no_double_booking (tables (db h')).
Proof.
  exists [suite_request "tom"; suite_request "felix"], race.1, race.2.
  split_and!; [apply one_suite_inv| |apply race_answers|apply double_booked_sound, race_double_books].
  rewrite <-surjective_pairing. apply race_steps.
Qed.

(** C5: however requests interleave at their database and network calls, every
    reservation stays under its id, in an existing room that holds its party,
    for a positive number of days, and the rooms do not change; requests that do
    not want rooms of one type for days that meet never book a room twice; two
    that do can both be confirmed in one room, for the count of overlapping
    stays and the insertion are not atomic. *)
Theorem double_bookings_take_competing_requests {DB} `{PrismaClient DB} env request_id fetch requests
    (h : Hotel DB) :
  hotel_inv (tables (db h)) →
  (∀ ps h', rtc pool_step (handle_async env request_id fetch <$> requests, h) (ps, h') →
    hotel_wf (tables (db h')) ∧ rooms (tables (db h')) = rooms (tables (db h)) ∧
    ((∀ i j rq rq', i ≠ j → requests !! i = Some rq → requests !! j = Some rq' → competing rq rq' = false) →
     hotel_inv (tables (db h')))) ∧
  ∃ d d' ps h',
    competing (PostReservation d) (PostReservation d') = true ∧
    rtc pool_step (handle_async no_services "-" no_network <$> [PostReservation d; PostReservation d'],
      one_suite_hotel) (ps, h') ∧
    ¬ no_double_booking (tables (db h')).
Proof.
  intros Hi. split.
  - intros ps h' Hsteps.
    assert (hotel_wf (tables (db h)) ) as Hwf by apply Hi.
    destruct (concurrent_wf _ _ _ _ _ _ _ Hwf Hsteps) as [Hwf' HR].
    split_and!; [done..|]. intros Hc.
    edestruct (isolated_inv env request_id fetch (rooms (tables (db h)))) as [_ Hi']; [exact Hc|exact Hsteps| |done];
      by split.
  - exists (suite_dto "tom"), (suite_dto "felix"), race.1, race.2.
    split_and!; [by vm_compute| |apply double_booked_sound, race_double_books].
    rewrite <-surjective_pairing. apply race_steps.
Qed.

(** Two stays in the one suite, one after the other, booked at the same time. *)
Definition later_suite_request (guest : string) : Request := PostReservation {|
  c_guest_id := guest; c_room_type := SUITE; c_guest_count := 2; c_party_guest_ids := None;
  c_check_in_day := 6; c_check_out_day := 8 |}.
Definition side_by_side : pool (Hotel Tables) Failure Reply :=
  schedule [0; 0; 0; 1; 1; 1; 0; 0; 1; 1]
    (handle_async no_services "-" no_network <$> [suite_request "tom"; later_suite_request "felix"],
     one_suite_hotel).

Lemma double_bookings_take_competing_requests_witness :
  booked_room <$> side_by_side.1 = [Some ("tom", "room-suite-01"); Some ("felix", "room-suite-01")] ∧
  hotel_inv (tables (db side_by_side.2)).
Proof.
  split; [vm_compute; reflexivity|].
  destruct (proj1 (double_bookings_take_competing_requests no_services "-" no_network
    [suite_request "tom"; later_suite_request "felix"] one_suite_hotel one_suite_inv)
    side_by_side.1 side_by_side.2) as (_ & _ & Hno).
  - rewrite <-surjective_pairing. apply schedule_steps.
  - apply Hno.
    intros [|[|i]] [|[|j]] rq rq' Hij [= <-] [= <-]; first [by destruct Hij|vm_compute; reflexivity].
Defined.

(** ** Ending *)

(** C31: every request ends: given turns of its own, at most four and one for every
    room of the wanted type that holds the party for a booking, three for a
    cancellation and one for a look-up, it is answered, whatever the others do in
    between and in whatever order; so no run of any requests together is longer
    than all their turns, and one that cannot go on has answered every request. *)
Theorem requests_end_within_their_turns {DB} `{PrismaClient DB} env request_id fetch requests (h : Hotel DB) :
  hotel_wf (tables (db h)) →
  let R := rooms (tables (db h)) in
  let start := (handle_async env request_id fetch <$> requests, h) in
  (∀ order i rq, requests !! i = Some rq → turns R rq ≤ count_occ Nat.eq_dec order i →
     ∃ answer, (schedule order start).1 !! i = Some (Finished answer)) ∧
  (∀ n s, nsteps pool_step n start s →
     n ≤ sum_list (turns R <$> requests) ∧
     (nf pool_step s → ∀ i p, s.1 !! i = Some p → ∃ answer, p = Finished answer)).
Proof.
  intros Hwf R start. pose proof (requests_budget env request_id fetch requests h Hwf) as Hb. split.
  - intros order i rq Hi Hle. apply (schedule_ends _ _ _ order start i Hb).
    + cbn. rewrite length_fmap. by eapply lookup_lt_Some.
    + by rewrite Hi.
  - intros n s Hn. split; [|intros Hnf i p; by apply stuck_pool_ended].
    pose proof (budget_steps _ _ n _ _ Hn _ Hb) as Hle. cbn in Hle.
    by rewrite length_fmap, fmap_lookup_seq in Hle.
Qed.

(** Two bookings of the one suite take turns, five each. *)
Lemma requests_end_within_their_turns_witness :
  ∃ answer, (schedule [0; 1; 0; 1; 0; 1; 0; 1; 0]
    (handle_async no_services "-" no_network <$> [suite_request "tom"; suite_request "felix"], one_suite_hotel)).1
      !! 0 = Some (Finished answer).
Proof.
  destruct (requests_end_within_their_turns no_services "-" no_network
    [suite_request "tom"; suite_request "felix"] one_suite_hotel) as [Hends _];
    [apply (inv_wf _ one_suite_inv)|].
  apply (Hends [0; 1; 0; 1; 0; 1; 0; 1; 0] 0 (suite_request "tom")); [reflexivity|vm_compute; lia].
Defined.

(** ** Reading *)

Lemma findAll_up {DB} `{PrismaResponsive DB} day (d : DB) :
  fits_int4 day = true → ∃ l, findAll day d d = Returned l.
Proof.
  intros Hday. unfold findAll. destruct (room_findMany_up d None) as [rs ->].
  destruct (reservation_groupBy_room_up d (occupied_on day)) as [gs ->]; [|eauto].
  cbn. by rewrite Hday.
Qed.

(** C25: the listing shows every room once it is asked for a storable day, with
    the guests of the one confirmed stay that covers the day (the day of
    departure not counted), or none; and where no reservation names its party
    no room is listed over its capacity. *)
Theorem rooms_show_the_guests_of_the_day {DB} `{PrismaResponsive DB} day (d : DB) :
  hotel_inv (tables d) → fits_int4 day = true →
  ∃ l, findAll day d d = Returned l ∧
    (∀ o, o ∈ l ↔ ∃ room, rooms (tables d) !! l_id o = Some room ∧
      l_type o = room_type room ∧ l_capacity o = capacity room ∧
      l_price_per_night o = price_per_night room ∧
      guests_today (tables d) day room (current_guests o)) ∧
    ((∀ id r, reservations (tables d) !! id = Some r → r_guests r = []) →
     (∀ id room, rooms (tables d) !! id = Some room → (0 ≤ capacity room)%Z) →
     ∀ o, o ∈ l → (current_guests o ≤ l_capacity o)%Z).
Proof.
  intros Hi Hday. destruct (findAll_up day d Hday) as [l Hl]. exists l.
  split_and!; [done|by apply findAll_spec|]. intros Hg Hc.
  by apply (findAll_within_capacity day d).
Qed.

Lemma rooms_show_the_guests_of_the_day_witness :
  ∃ l, findAll 4 (db booked_hotel) (db booked_hotel) = Returned l ∧
    {| l_id := "room-suite-01"; l_type := SUITE; l_capacity := 4; l_price_per_night := 400;
       current_guests := 2 |} ∈ l.
Proof.
  destruct (rooms_show_the_guests_of_the_day 4 (db booked_hotel) booked_inv eq_refl)
    as (l & Hl & Hspec & _).
  exists l. split; [exact Hl|]. apply Hspec. exists one_suite.
  split; [vm_compute; reflexivity|]. repeat (split; [reflexivity|]). left.
  exists {| r_id := "0"; r_guest_id := "tom"; r_room_id := "room-suite-01";
    r_guest_count := 2; r_check_in_day := 3; r_check_out_day := 5; r_status := CONFIRMED;
    r_guests := [] |}.
  split; [|reflexivity]. exists "0". split; [vm_compute; reflexivity|].
  repeat (split; [reflexivity|]). vm_compute. split; [discriminate|reflexivity].
Defined.

(** A guest's active reservation is a confirmed one of theirs that begins
    last, with its room; without a confirmed reservation the answer is 404. *)
Theorem active_reservation_is_the_latest {DB} `{PrismaResponsive DB} g (h : Hotel DB) out h' :
  hotel_inv (tables (db h)) → findActiveByGuestId g h = (out, h') →
  let active id r := reservations (tables (db h)) !! id = Some r ∧
    r_guest_id r = g ∧ r_status r = CONFIRMED in
  h' = h ∧
  match out with
  | Returned o => ∃ id r room, active id r ∧
      rooms (tables (db h)) !! r_room_id r = Some room ∧ o = response_of r room ∧
      ∀ id' r', active id' r' → (r_check_in_day r' ≤ r_check_in_day r)%Z
  | Thrown e => e = HttpException "Reservation not found" 404 ∧ ∀ id r, ¬ active id r
  end.
Proof.
  intros Hi Hrun active. pose proof (findActiveByGuestId_answer "-" g h out h' Hrun) as Hans.
  revert Hrun. unfold findActiveByGuestId, hbind, query.
  destruct (reservation_findFirst_up (db h) [GuestIdIs g; StatusIs CONFIRMED] CheckInDayDesc)
    as [res ->]; [done| |].
  { intros id r [Hr _]%selected_lookup. unfold with_room.
    destruct (inv_room _ Hi id r Hr) as (room & -> & _). eauto. }
  destruct res as [[r room]|]; intros [= <- <-]; split; try done. split; [done|apply Hans].
Qed.

Lemma active_reservation_is_the_latest_witness :
  ¬ ∃ id r, (reservations (tables (db booked_hotel)) !! id = Some r ∧
     r_guest_id r = "felix" ∧ r_status r = CONFIRMED).
Proof.
  destruct (findActiveByGuestId "felix" booked_hotel) as [out h'] eqn:Hrun.
  destruct (active_reservation_is_the_latest "felix" booked_hotel out h' booked_inv Hrun)
    as [_ Hout].
  assert ((findActiveByGuestId "felix" booked_hotel).1 =
    Thrown (HttpException "Reservation not found" 404)) as Hc by (vm_compute; reflexivity).
  rewrite Hrun in Hc. cbn [fst] in *. subst out.
  intros (id & r & Hr). exact (proj2 Hout id r Hr).
Defined.

(** ** The clock and the seed *)

(** The in-game day is [n] exactly from the moment [n] game days have
    passed since the start until the next has, and does not run backwards. *)
Theorem game_day_is_elapsed_days nowMs startMs speed n :
  (computeCurrentDay nowMs startMs speed = n ↔
   (n * 86400000 ≤ (nowMs - startMs) * speed < (n + 1) * 86400000)%Z) ∧
  (∀ later, (0 ≤ speed)%Z → (nowMs ≤ later)%Z →
   (computeCurrentDay nowMs startMs speed ≤ computeCurrentDay later startMs speed)%Z).
Proof.
  split; [apply computeCurrentDay_spec|]. intros. by apply computeCurrentDay_monotone.
Qed.

Lemma game_day_is_elapsed_days_witness :
  computeCurrentDay 90000 0 1440 = 1%Z ∧
  (computeCurrentDay 90000 0 1440 ≤ computeCurrentDay 90001 0 1440)%Z.
Proof.
  destruct (game_day_is_elapsed_days 90000 0 1440 1) as [[_ Hday] Hmono].
  split; [apply Hday; lia|apply Hmono; lia].
Defined.

Lemma upsert_all_up {DB} `{PrismaResponsive DB} l (d : DB) :
  ∃ d', upsert_all l d = (Returned tt, d').
Proof.
  revert d. induction l as [|room l IH]; intros d; cbn [upsert_all]; [by eexists|].
  destruct (room_upsert_up d room) as (r & d1 & Hup).
  destruct (IH d1) as [d' Hrest]. exists d'. by rewrite (hbind_step _ _ _ _ _ Hup).
Qed.

(** The seed script adds the rooms that are missing, keeps the rooms that
    are there and every reservation, and run again changes nothing. *)
Theorem seeding_adds_only_missing_rooms {DB} `{PrismaResponsive DB} (d : DB) :
  ∃ d', seed_main d = (Returned tt, d') ∧
    reservations (tables d') = reservations (tables d) ∧
    rooms (tables d') = rooms (tables d) ∪ list_to_map ((λ r, (room_id r, r)) <$> seed_rooms) ∧
    ∃ d2, seed_main d' = (Returned tt, d2) ∧
      reservations (tables d2) = reservations (tables d') ∧ rooms (tables d2) = rooms (tables d').
Proof.
  destruct (upsert_all_up seed_rooms d) as [d' H1]. destruct (upsert_all_up seed_rooms d') as [d2 H2].
  destruct (seed_main_spec d d' H1) as [Hres Hrooms].
  destruct (seed_main_spec d' d2 H2) as [Hres2 Hrooms2].
  exists d'. split_and!; [done..|]. exists d2. split_and!; [done..|].
  rewrite Hrooms2, Hrooms. apply map_eq. intros k. rewrite !lookup_union.
  by destruct (rooms (tables d) !! k), (list_to_map _ !! k).
Qed.

Lemma seeding_adds_only_missing_rooms_witness :
  ∃ d, seed_main (db one_suite_hotel) = (Returned tt, d) ∧
    rooms (tables d) = rooms (tables (db one_suite_hotel)) ∪
      list_to_map ((λ r, (room_id r, r)) <$> seed_rooms).
Proof.
  destruct (seeding_adds_only_missing_rooms (db one_suite_hotel)) as (d & Hd & _ & Hr & _).
  exists d. split; [exact Hd|exact Hr].
Defined.

(** ** The airport's word *)

(** C38: a guest is refused for the airport's sake exactly when the airport is
    configured and answered with success and a JSON value, not [null], whose
    status is not [processed]; a missing address, a failed call, an error and an
    unreadable answer all let the guest through.  The check changes nothing but
    the requests sent, and a booking for days in order is answered with the
    refusal exactly when the check refuses. *)
Theorem airport_check_fails_open {DB} `{PrismaClient DB} env request_id fetch dto (h : Hotel DB) :
  let guest := c_guest_id dto in
  let refusal := HttpException "Guest has not cleared airport processing" 409 in
  ∃ out, rejectIfGuestHasNotClearedAirport env request_id fetch guest h =
      (out, MkHotel (db h) (sent h ++ asked env request_id guest)) ∧
    (out = Returned tt ∨ out = Thrown refusal) ∧
    (out = Thrown refusal ↔
     ∃ url status text v, AIRPORT_SERVICE_URL env = Some url ∧ url ≠ "" ∧
       fetch (sent h) (airport_request request_id url guest) = Response status text ∧
       (200 ≤ status ≤ 299)%Z ∧ JSON_parse text = Some v ∧ v ≠ JNull ∧
       jprop "status" v ≠ Some (JStr "processed")) ∧
    ((c_check_in_day dto < c_check_out_day dto)%Z →
     ((create env request_id fetch dto h).1 = Thrown refusal ↔ out = Thrown refusal)).
Proof.
  intros guest refusal. exists (if decide (clearance env request_id fetch (sent h) guest = Some false)
    then Thrown refusal else Returned tt).
  split; [apply reject_run|]. split; [case_decide; auto|].
  assert ((if decide (clearance env request_id fetch (sent h) guest = Some false)
    then Thrown refusal else Returned tt) = Thrown refusal ↔
    clearance env request_id fetch (sent h) guest = Some false) as -> by (by case_decide).
  split; [apply clearance_false|]. intros Hd. by apply create_refuses.
Qed.

Lemma airport_check_fails_open_witness :
  ∃ h', create (DB := Tables)
      {| AIRPORT_SERVICE_URL := Some "http://airport"; BROADCAST_SERVICE_URL := None |} "-"
      (λ _ _, Response 200 (JSON_stringify (JObj [("status", JStr "queued")]))) (suite_dto "tom")
      one_suite_hotel =
    (Thrown (HttpException "Guest has not cleared airport processing" 409), h').
Proof.
  destruct (airport_check_fails_open (DB := Tables)
    {| AIRPORT_SERVICE_URL := Some "http://airport"; BROADCAST_SERVICE_URL := None |} "-"
    (λ _ _, Response 200 (JSON_stringify (JObj [("status", JStr "queued")]))) (suite_dto "tom")
    one_suite_hotel) as (out & _ & _ & Hout & Hcreate).
  destruct (create _ _ _ _ _) as [o h'] eqn:E. exists h'. f_equal.
  change o with (o, h').1. apply Hcreate; [vm_compute; reflexivity|]. apply Hout.
  exists "http://airport", 200%Z, (JSON_stringify (JObj [("status", JStr "queued")])),
    (JObj [("status", JStr "queued")]).
  split_and!; first [reflexivity | discriminate | vm_compute; reflexivity | vm_compute; discriminate].
Defined.
