(* ===== verification/BroadcastProperties.v ===== *)
(** * What the broadcast service guarantees

    The correctness properties of the event bus, the routes and the two
    authentications, for every configuration, every sequence of connections
    and publications, and every schema library that decides as [Zod] says. *)

From S2P Require Import Prelude Json Zod JsString JsonText.
From S2P Require Import BroadcastTypes BroadcastAuth EventBus BroadcastRoutes BroadcastService.

(** ** Concrete inputs of the instances *)

(** The beach service, configured with a token, and a request that bears it. *)
Definition beach_env (v : string) : option string :=
  if decide (v = "BEACH_TOKEN") then Some "shell" else None.
Definition bearer_request (token : string) : AuthRequest := {|
  authorization := Some ("Bearer " +:+ token); x_service_token := None; query_token := None;
  x_admin_passcode := None |}.
Definition beach_identity : ServiceIdentity := {| name := "beach"; allowedChannels := [Hotel] |}.

#[local] Existing Instance zod_reference.

(** The service after the beach has connected. *)
Definition beach_listening : Service :=
  MkService (addClient 0 [Hotel] (MkBus [] [] [])) {[0 := (beach_identity, 0)]}.

Definition hotel_body : json := JObj [("guest_id", JStr "tom"); ("message", JStr "Tom is in.")].
Definition bad_body : json := JObj [("guest_count", JStr "two")].

(** Then an order at the crab, which the beach may not read, and a confirmation
    at the hotel, which it may. *)
Definition after_order : Bus := (crab_order "e1" (JObj []) (bus beach_listening)).2.
Definition busy_bus : Bus := (hotel_confirm "e2" hotel_body after_order).2.
Definition busy : Service := MkService busy_bus (grants beach_listening).

Lemma busy_reachable : service_reachable busy.
Proof.
  exists start. split; [done|].
  apply (rtc_l _ _ beach_listening).
  { by apply (step_connect start beach_env (bearer_request "shell") 0). }
  apply (rtc_l _ _ (MkService after_order (grants beach_listening))).
  { by apply (step_post beach_listening "/crab/order" (λ _ _, crab_order) beach_env
      (bearer_request "") "e1" (JObj []) success). }
  apply rtc_once.
  by apply (step_post (MkService after_order (grants beach_listening)) "/hotel/confirm"
    (λ _ _, hotel_confirm) beach_env (bearer_request "") "e2" hotel_body success).
Qed.

(** ** Streams *)

(** C8: in every reachable state, an open connection has received the greeting
    and then exactly the events broadcast since it connected on the channels it
    was granted, each once and in the order of their broadcast. *)
Theorem open_stream_is_exact `{Zod} s c :
  service_reachable s → c ∈ clients (bus s) →
  ∃ who n, grants s !! res c = Some (who, n) ∧ allowed c = allowedChannels who ∧
    n ≤ length (log (bus s)) ∧
    stream (res c) (bus s) =
      connected_chunk :: (frame <$>
        filter (λ e, channel e ∈ allowedChannels who) (drop n (log (bus s)))).
Proof. intros Hs Hc. exact (si_granted s (service_reachable_inv s Hs) c Hc). Qed.

Lemma open_stream_is_exact_witness :
  ∃ e, stream 0 busy_bus = [connected_chunk; frame e] ∧ channel e = Hotel.
Proof.
  destruct (open_stream_is_exact busy {| res := 0; allowed := [Hotel] |} busy_reachable)
    as (who & n & Hg & _ & _ & Hs); [by left|].
  assert (grants busy !! 0 = Some (beach_identity, 0)) as Hg0 by (vm_compute; reflexivity).
  cbn [res] in Hg. rewrite Hg0 in Hg. injection Hg as <- <-.
  cbn [res] in Hs. eexists. split; [exact Hs|reflexivity].
Defined.

(** C9: no connection, open or closed, ever receives an event of a channel
    that the service behind it may not read: who was granted a stream had
    presented a configured token, everything in the stream after the greeting
    is the frame of a broadcast event on one of that service's channels, and a
    connection that was refused has received nothing. *)
Theorem streams_never_leak `{Zod} s r :
  service_reachable s →
  match grants s !! r with
  | None => stream r (bus s) = []
  | Some (who, _) =>
      (∃ env auth, identifyService env auth = Some who) ∧
      ∀ chunk, chunk ∈ stream r (bus s) → chunk = connected_chunk ∨
        ∃ e, e ∈ log (bus s) ∧ channel e ∈ allowedChannels who ∧ chunk = frame e
  end.
Proof.
  intros Hs%service_reachable_inv. destruct (grants s !! r) as [[who n]|] eqn:Hg;
    [|by apply (si_silent s Hs)].
  split; [by apply (si_identified s Hs r who n)|].
  destruct (si_entitled s Hs r who n Hg) as (m & _ & ->). intros chunk.
  rewrite elem_of_cons. intros [->|Hin]; [by left|right].
  apply list_elem_of_fmap in Hin as (e & -> & [Hch Hin]%list_elem_of_filter).
  exists e. split_and!; [|done..].
  eapply elem_of_sublist; [exact Hin|].
  etrans; [apply sublist_take|apply sublist_drop].
Qed.

Lemma streams_never_leak_witness : stream 1 busy_bus = [].
Proof.
  pose proof (streams_never_leak busy 1 busy_reachable) as H.
  assert (grants busy !! 1 = None) as Hg by (vm_compute; reflexivity).
  rewrite Hg in H. exact H.
Defined.

(** ** Authentication *)

(** A service is identified exactly when it presents the non-empty token
    some registered service is configured with; the identity is a registered
    one with the registry's channels, and it is the presenting service's own
    when no two services are configured alike. *)
Theorem identification_is_sound_and_complete env req :
  (∀ who, identifyService env req = Some who →
    ∃ envVar token, (name who, (envVar, allowedChannels who)) ∈ SERVICE_REGISTRY ∧
      extractToken req = Some token ∧ env envVar = Some token ∧ token ≠ "") ∧
  (identifyService env req = None ↔
    ∀ token, extractToken req = Some token → token ≠ "" →
    ∀ n v cs, (n, (v, cs)) ∈ SERVICE_REGISTRY → env v ≠ Some token) ∧
  (∀ n envVar channels token,
    (n, (envVar, channels)) ∈ SERVICE_REGISTRY →
    extractToken req = Some token → token ≠ "" → env envVar = Some token →
    (∀ n' v' cs', (n', (v', cs')) ∈ SERVICE_REGISTRY → env v' = Some token → v' = envVar) →
    identifyService env req = Some {| name := n; allowedChannels := channels |}).
Proof.
  split_and!; [apply identifyService_sound|apply identifyService_None|].
  intros. by eapply identifyService_complete.
Qed.

Lemma identification_is_sound_and_complete_witness :
  identifyService beach_env (bearer_request "sand") = None ∧
  ∃ envVar, ("beach", (envVar, [Hotel])) ∈ SERVICE_REGISTRY ∧ beach_env envVar = Some "shell".
Proof.
  split.
  - apply (identification_is_sound_and_complete beach_env (bearer_request "sand")).
    intros token [= <-] _ n v cs _. unfold beach_env. case_decide; [|discriminate].
    intros [=].
  - destruct (identification_is_sound_and_complete beach_env (bearer_request "shell")) as [Hs _].
    destruct (Hs beach_identity eq_refl) as (v & token & Hr & Ht & Hv & _).
    injection Ht as <-. by exists v.
Defined.

Lemma broadcast_inj e e' b : broadcast e b = broadcast e' b → e = e'.
Proof.
  rewrite !broadcast_written. intros H%(f_equal log). cbn in H. by apply app_inj_2 in H as [_ [= ->]].
Qed.

Lemma publish_broadcasts `{Zod} s ev body b b' :
  publish s ev body b = (success, b') → ∃ d, b' = broadcast (ev d) b.
Proof. unfold publish, parseBody. destruct (safeParse s body) as [|[]]; intros [=]; eauto. Qed.

(** The administrator passes exactly with the configured passcode, when
    one is configured and it is not empty; and an event on the resort-wide
    channel is broadcast only for a request that passed. *)
Theorem resort_wide_needs_the_passcode `{Zod} env auth :
  (requireAdmin env auth = true ↔
    ∃ code, env "ADMIN_PASSCODE" = Some code ∧ x_admin_passcode auth = Some code ∧ code ≠ "") ∧
  (∀ path h uuid body b e,
    post_handler path = Some h → h env auth uuid body b = (success, broadcast e b) →
    channel e = ResortWide → requireAdmin env auth = true).
Proof.
  split; [apply requireAdmin_iff|]. intros path h uuid body b e Hh Hrun Hch.
  unfold post_handler in Hh.
  repeat case_decide; try done; injection Hh as <-;
    try (apply publish_broadcasts in Hrun as [d ->%broadcast_inj]; done).
  unfold admin_announcement in Hrun. destruct (requireAdmin env auth); [done|].
  by apply (f_equal (λ p, status p.1)) in Hrun.
Qed.

Lemma resort_wide_needs_the_passcode_witness :
  requireAdmin beach_env (bearer_request "shell") = false.
Proof.
  destruct (resort_wide_needs_the_passcode beach_env (bearer_request "shell")) as [[H _] _].
  destruct (requireAdmin beach_env (bearer_request "shell")); [|reflexivity].
  destruct (H eq_refl) as (code & _ & Hx & _). discriminate Hx.
Defined.

(** ** Publishing *)

(** What each mounted path promises: the schema of its body and the channel of
    its events. *)
Definition route_contract : list (string * (schema * ChannelId)) :=
  [("/airport/arrival", (AirportArrivalSchema, Airport));
   ("/hotel/confirm", (HotelEventSchema, Hotel)); ("/hotel/cancel", (HotelEventSchema, Hotel));
   ("/beach/full", (BeachEventSchema, Beach)); ("/beach/available", (BeachEventSchema, Beach));
   ("/crab/order", (CrabOrderSchema, Crab)); ("/crab/sold-out", (CrabSoldOutSchema, Crab));
   ("/cursed", (CursedEventSchema, Parrot));
   ("/public", (PublicAnnouncementSchema, Broadcast));
   ("/admin/announcement", (AdminAnnouncementSchema, ResortWide))].

(** The answers of a route, by its body and, for the resort-wide channel, by
    who asks. *)
Definition honours `{Zod} (s : schema) (ch : ChannelId)
    (h : (string → option string) → AuthRequest → string → json → Bus → Response * Bus) : Prop :=
  ∀ env auth uuid body b,
  if decide (ch = ResortWide ∧ requireAdmin env auth = false) then
    h env auth uuid body b = (error_response 401 "Admin authentication required", b)
  else if conforms s body then
    ∃ e, h env auth uuid body b = (success, broadcast e b) ∧ id e = uuid ∧ channel e = ch
  else
    ∃ issues, h env auth uuid body b = (invalid_payload issues, b) ∧ issues ≠ [].

Lemma publish_honours `{Zod} strict fs ev uuid ch body b :
  (∀ d, id (ev d) = uuid ∧ channel (ev d) = ch) →
  if conforms (ZObject strict fs) body then
    ∃ e, publish (ZObject strict fs) ev body b = (success, broadcast e b) ∧
      id e = uuid ∧ channel e = ch
  else ∃ issues, publish (ZObject strict fs) ev body b = (invalid_payload issues, b) ∧ issues ≠ [].
Proof.
  intros Hev. destruct (conforms (ZObject strict fs) body) eqn:Hc.
  - destruct (publish_accepts strict fs ev body b Hc) as (kvs & _ & ->).
    eexists. split; [done|apply Hev].
  - by apply publish_rejects.
Qed.

(** C14: every mounted publishing path honours its contract: a body its schema
    rejects is answered with 400 and the issues and changes nothing, one it
    accepts is broadcast once, on the path's channel under the fresh id, and
    the resort-wide path answers 401 to whoever is not the administrator. *)
Theorem routes_honour_their_contract `{Zod} path h :
  post_handler path = Some h →
  ∃ s ch, (path, (s, ch)) ∈ route_contract ∧ honours s ch h.
Proof.
  unfold post_handler. intros Hh. repeat case_decide; try done; injection Hh as <-; subst path;
    (eexists _, _; split;
      [repeat first [apply list_elem_of_here | apply list_elem_of_further]|]); intros env auth uuid body b.
  all: try (rewrite decide_False by (by intros [? _]); by apply publish_honours).
  unfold admin_announcement. destruct (requireAdmin env auth).
  - rewrite decide_False by (by intros [_ ?]). by apply publish_honours.
  - by rewrite decide_True.
Qed.

Lemma routes_honour_their_contract_witness :
  ∃ issues, hotel_confirm "e3" bad_body busy_bus = (invalid_payload issues, busy_bus) ∧ issues ≠ [].
Proof.
  destruct (routes_honour_their_contract "/hotel/confirm" (λ _ _, hotel_confirm) eq_refl)
    as (s & ch & Hin & Hh).
  assert (s = HotelEventSchema ∧ ch = Hotel) as [-> ->].
  { unfold route_contract in Hin. rewrite !elem_of_cons, elem_of_nil in Hin.
    destruct_or? Hin; try discriminate; try done; by injection Hin as -> ->. }
  specialize (Hh beach_env (bearer_request "") "e3" bad_body busy_bus).
  exact Hh.
Defined.
