(* ===== verification/WireProperties.v ===== *)
(** * What holds across the programs

    The properties that join the hotel, the broadcast service and the web
    client: events and answers cross the wire intact, from the service that
    makes them to the state of the client that shows them. *)

From S2P Require Import Prelude Json Zod JsString JsonText Uri.
From S2P Require HotelDb HotelOutbound HotelReservation HotelReservationSpec HotelInvariant.
From S2P Require HotelRooms HotelConcurrency HotelProperties.
From S2P Require BroadcastTypes BroadcastAuth EventBus BroadcastRoutes BroadcastProperties.
From S2P Require Import WebTypes EventsStore IslandEvent UseBroadcast Wire WebWire.

(** ** Concrete inputs of the instances *)

#[local] Existing Instance zod_reference.
#[local] Existing Instances HotelDb.MemDB.prisma HotelDb.MemDB.prisma_responsive.

Definition tom_event : HotelOutbound.HotelBroadcastEvent := {|
  HotelOutbound.message := "Hotel reservation confirmed."; HotelOutbound.reservation_id := "0";
  HotelOutbound.guest_id := "tom"; HotelOutbound.ev_room_type := HotelDb.SUITE;
  HotelOutbound.guest_count := 2; HotelOutbound.check_in_day := 3;
  HotelOutbound.check_out_day := 5 |}.
Definition fresh_client : ClientData :=
  {| store := empty_events; cached_activities := None; invalidations := 0 |}.
Definition some_uuid (n : nat) : string := "uuid".

(** ** Events *)

(** C33: the frame the broadcast service writes for an event is one [data:] line
    without a line break of its own, closed by an empty line, and the client
    that parses and checks its text recovers every field of the event. *)
Theorem frames_decode_to_their_events e :
  printable (BroadcastTypes.island_event_json e) →
  ∃ text, EventBus.frame e = "data: " +:+ text +:+ EventBus.newline +:+ EventBus.newline ∧
    Forall (λ c, 32 ≤ code c)%Z (chars text) ∧
    conforms BroadcastEventSchema (BroadcastTypes.island_event_json e) = true ∧
    client_decode text = Some (web_event e).
Proof.
  intros Hp. destruct (frame_decodes e Hp) as (text & ? & ? & ?). exists text.
  split_and!; try done. apply island_event_accepted.
Qed.

Lemma frames_decode_to_their_events_witness :
  ∃ text, client_decode text = Some (web_event (relayed "id" HotelOutbound.ReservationConfirmed tom_event)).
Proof.
  destruct (frames_decode_to_their_events (relayed "id" HotelOutbound.ReservationConfirmed tom_event))
    as (text & _ & _ & _ & H); [apply relayed_printable; done|].
  exists text. exact H.
Defined.

(** What the hotel publishes reaches the feed of every client: the request
    it sends parses to the event's object, the route it is sent to accepts it
    and broadcasts it on the hotel's channel, and a client that receives the
    frame's text has the message, with its data, as the newest entry of the
    hotel's feed. *)
Theorem hotel_announcements_reach_the_feed `{Zod} url request_id ty e env auth uuid b client_uuid d :
  int4_event e →
  ∃ text h,
    HotelOutbound.publish_request request_id url ty e =
      ("POST", url +:+ HotelOutbound.getEndpointForEvent ty,
       [("content-type", "application/json"); ("X-Request-Id", request_id)], Some text) ∧
    JSON_parse text = Some (HotelOutbound.event_json e) ∧
    BroadcastRoutes.post_handler (HotelOutbound.getEndpointForEvent ty) = Some h ∧
    h env auth uuid (HotelOutbound.event_json e) b =
      (BroadcastRoutes.success, EventBus.broadcast (relayed uuid ty e) b) ∧
    ∃ e', head (events (store (handleMessage client_uuid
        (JSON_stringify (BroadcastTypes.island_event_json (relayed uuid ty e))) d)) Hotel) = Some e' ∧
      b_message e' = HotelOutbound.message e ∧ b_sender e' = "hotel" ∧
      b_data e' = BroadcastTypes.data (relayed uuid ty e).
Proof.
  intros He. destruct (hotel_event_relayed ty e env auth uuid b) as (h & Hh & Hrun).
  exists (JSON_stringify (HotelOutbound.event_json e)), h.
  split_and!; [done|by apply JSON_parse_stringify, hotel_event_printable|done|done|].
  destruct (posted_event_shown (relayed uuid ty e) client_uuid d) as (e' & ? & ? & ? & ? & ?);
    [by apply relayed_printable|by destruct ty|]. by exists e'.
Qed.

Lemma hotel_announcements_reach_the_feed_witness :
  ∃ e', head (events (store (handleMessage some_uuid (JSON_stringify
      (BroadcastTypes.island_event_json (relayed "id" HotelOutbound.ReservationConfirmed tom_event)))
      fresh_client)) Hotel) = Some e' ∧ b_message e' = "Hotel reservation confirmed.".
Proof.
  destruct (hotel_announcements_reach_the_feed "http://broadcast" "-"
    HotelOutbound.ReservationConfirmed tom_event BroadcastProperties.beach_env
    (BroadcastProperties.bearer_request "") "id" (EventBus.MkBus [] [] []) some_uuid fresh_client)
    as (_ & _ & _ & _ & _ & _ & e' & Hhd & Hmsg & _); [done|].
  exists e'. split; [exact Hhd|exact Hmsg].
Defined.

(** C34: what the hotel answers to a storable booking, and to its cancellation,
    satisfies the schemas the client checks them with, and so does a listing
    of rooms whose numbers are safe integers. *)
Theorem hotel_answers_satisfy_the_client {DB} `{HotelDb.PrismaClient DB} env request_id fetch dto
    (h : HotelOutbound.Hotel DB) o h1 :
  HotelInvariant.storable dto = true →
  HotelReservation.create env request_id fetch dto h = (Returned o, h1) →
  conforms ReservationSchema (reservation_json o) = true ∧
  (∀ x h2, HotelReservation.cancel env request_id fetch (HotelReservation.o_id o) h1 = (Returned x, h2) →
    conforms CancelReservationResponseSchema (cancelled_json x) = true) ∧
  (∀ l, Forall (λ o, safe (HotelRooms.l_capacity o) ∧ safe (HotelRooms.l_price_per_night o) ∧
      safe (HotelRooms.current_guests o)) l →
    conforms RoomsResponseSchema (JObj [("rooms", JArr (room_json <$> l))]) = true).
Proof.
  intros Hs Hrun. split_and!; [|intros x h2 Hx|by apply rooms_accepted].
  - unfold HotelInvariant.storable in Hs. rewrite !andb_true_iff in Hs.
    destruct Hs as (((Hg & Hin) & Hout) & _).
    apply HotelReservationSpec.create_refines_spec in Hrun as (ev & Hspec & _).
    inversion Hspec as [| | | |r room ? ? ? ? ? ? ? (guests & _ & Hr)|]; subst.
    rewrite Hr. apply reservation_accepted; apply fits_int4_safe; [exact Hg|exact Hin|exact Hout].
  - apply HotelReservationSpec.cancel_refines_spec in Hx as (ev & Hspec & _).
    inversion Hspec; reflexivity.
Qed.

Lemma hotel_answers_satisfy_the_client_witness :
  conforms ReservationSchema (reservation_json HotelProperties.booked_answer) = true.
Proof.
  apply (hotel_answers_satisfy_the_client HotelConcurrency.no_services "-" HotelConcurrency.no_network
    (HotelProperties.suite_dto "tom") HotelConcurrency.one_suite_hotel HotelProperties.booked_answer
    HotelProperties.booked_hotel eq_refl HotelProperties.booked_runs).
Defined.

(** An event that the beach can post, being accepted, never carries an
    availability: a client that receives it keeps its cached activities as they
    were and does not ask for them again. *)
Theorem posted_beach_events_leave_activities `{Zod} path h env auth uuid body b response b' client_uuid d :
  path = "/beach/full" ∨ path = "/beach/available" →
  BroadcastRoutes.post_handler path = Some h →
  h env auth uuid body b = (response, b') → BroadcastRoutes.status response = 200%Z →
  ∃ e, b' = EventBus.broadcast e b ∧
    (printable (BroadcastTypes.island_event_json e) →
     let d' := handleMessage client_uuid
       (JSON_stringify (BroadcastTypes.island_event_json e)) d in
     cached_activities d' = cached_activities d ∧ invalidations d' = invalidations d).
Proof. apply beach_post_leaves_activities. Qed.

Definition beach_body : json := JObj [("message", JStr "Snorkelling is full."); ("activity", JStr "snorkel")].

Lemma posted_beach_events_leave_activities_witness :
  ∃ e, (BroadcastRoutes.beach_full "id" beach_body (EventBus.MkBus [] [] [])).2 =
    EventBus.broadcast e (EventBus.MkBus [] [] []).
Proof.
  destruct (posted_beach_events_leave_activities "/beach/full" (λ _ _, BroadcastRoutes.beach_full)
    BroadcastProperties.beach_env (BroadcastProperties.bearer_request "") "id" beach_body
    (EventBus.MkBus [] [] []) BroadcastRoutes.success
    (BroadcastRoutes.beach_full "id" beach_body (EventBus.MkBus [] [] [])).2 some_uuid fresh_client
    (or_introl eq_refl) eq_refl) as (e & He & _); [by vm_compute|reflexivity|].
  exists e. exact He.
Defined.

(** ** The stream's address *)

(** What the broadcast service reads of a stream request to an address: the
    query parameter, decoded. *)
Definition stream_request (parameter : string) : BroadcastAuth.AuthRequest := {|
  BroadcastAuth.authorization := None; BroadcastAuth.x_service_token := None;
  BroadcastAuth.query_token := BroadcastAuth.QString <$> decodeURIComponent parameter;
  BroadcastAuth.x_admin_passcode := None |}.

(** The address of the stream carries the client's token as one parameter
    of URI characters that decodes to the token; a broadcast service configured
    with it lets the client in, on every channel. *)
Theorem stream_address_identifies_the_client gatewayUrl feToken env :
  feToken ≠ "" →
  ∃ parameter, stream_url gatewayUrl feToken =
      strip_trailing_slashes gatewayUrl +:+ BROADCAST_PATH +:+ "?token=" +:+ parameter ∧
    Forall (λ c, uri_char c = true) (chars parameter) ∧
    decodeURIComponent parameter = Some feToken ∧
    (env "FE_TOKEN" = Some feToken →
     BroadcastAuth.identifyService env (stream_request parameter) =
       Some {| BroadcastAuth.name := "frontend";
               BroadcastAuth.allowedChannels := BroadcastTypes.all_channels |}).
Proof.
  intros Ht. exists (encodeURIComponent feToken). unfold stream_url, stream_request.
  rewrite decode_encode. assert (truthy feToken = true) as Htr by by apply bool_decide_eq_true.
  rewrite Htr. split_and!; [done|apply encodeURIComponent_safe|done|].
  intros He. unfold BroadcastAuth.identifyService, BroadcastAuth.extractToken. cbn.
  rewrite Htr. unfold BroadcastAuth.configured_as. rewrite He, Htr. cbn.
  by rewrite bool_decide_true.
Qed.

Lemma stream_address_identifies_the_client_witness :
  ∃ parameter, stream_url "http://gateway/" "a b&c" =
    "http://gateway/api/broadcast/events?token=" +:+ parameter ∧
    decodeURIComponent parameter = Some "a b&c".
Proof.
  destruct (stream_address_identifies_the_client "http://gateway/" "a b&c" (λ _, None))
    as (p & Hu & _ & Hd & _); [discriminate|].
  exists p. split; [exact Hu|exact Hd].
Defined.
