(* ===== verification/WebProperties.v ===== *)
(** * What the web client guarantees

    The correctness properties of the client's API layer, event store, stream
    hook, session, codecs and avatars. *)

From S2P Require Import Prelude Json Zod JsString JsonText Uri.
From S2P Require Import WebTypes WebApi EventsStore IslandEvent UseBroadcast Session Avatar.

#[local] Existing Instance zod_reference.

(** ** Answers and errors *)

(** A call returns a value exactly when the service answered with data
    that its schema accepts; the value is what the schema keeps of the data. *)
Theorem answers_are_checked `{Zod} gatewayUrl axios c v :
  request gatewayUrl axios c = Returned v ↔
  ∃ raw, axios (axios_request gatewayUrl c) = AxiosData raw ∧
    conforms (call_schema c) raw = true ∧ v = project (call_schema c) raw.
Proof. apply request_checked. Qed.

Lemma answers_are_checked_witness :
  ¬ ∃ v, request "http://gateway" (λ _, AxiosData (JObj [])) getRooms = Returned v.
Proof.
  intros [v (raw & Hraw & Hc & _)%(answers_are_checked "http://gateway" (λ _, AxiosData (JObj [])) getRooms v)].
  injection Hraw as <-. discriminate Hc.
Defined.

(** Whatever an error carries, the message shown for it is not empty; and
    an error body with a text under [error] and nothing under [detail] or
    [message], as the hotel and the broadcast service answer, is shown as it
    is. *)
Theorem error_messages_are_shown data fallback :
  getErrorMessage data fallback ≠ "" ∧
  (∀ fs msg, data = Some (JObj fs) → jget "detail" fs = None → jget "message" fs = None →
    jget "error" fs = Some (JStr msg) → msg ≠ "" → getErrorMessage data fallback = msg).
Proof.
  split; [apply getErrorMessage_non_empty|]. intros fs msg ->. apply getErrorMessage_error_field.
Qed.

Lemma error_messages_are_shown_witness :
  getErrorMessage (Some (JObj [("error", JStr "Reservation not found")])) "Network Error" =
  "Reservation not found".
Proof.
  apply (proj2 (error_messages_are_shown (Some (JObj [("error", JStr "Reservation not found")]))
    "Network Error") [("error", JStr "Reservation not found")]);
    (reflexivity || discriminate).
Defined.

(** ** Events *)

(** However the store is used, every feed holds at most [MAX_EVENTS]
    events, all of its own channel; the tick of a channel counts every event
    that arrived in it, whatever was dropped or cleared; and an ingested event
    becomes the newest of each feed it arrives in and of no other. *)
Theorem feeds_are_bounded_and_counted ops :
  let s := foldl (λ s o, run_events_op o s) empty_events ops in
  (∀ ch, length (events s ch) ≤ MAX_EVENTS ∧ Forall (λ e, b_channel e = ch) (events s ch) ∧
    activityTick s ch = arrivals ch ops) ∧
  ∀ uuid e mirror ch, let s' := ingestEvent uuid e mirror s in
    if arrives e mirror ch then
      ∃ i, events s' ch = take MAX_EVENTS (with_channel e i ch :: events s ch)
    else events s' ch = events s ch.
Proof.
  cbv zeta. split.
  - intros ch. destruct (run_events_wf ops ch) as (Hl & Hc & _).
    rewrite activityTick_counts. done.
  - intros uuid e mirror ch.
    pose proof (ingestEvent_channel uuid e mirror
      (foldl (λ s o, run_events_op o s) empty_events ops) ch) as H.
    cbv zeta in H. destruct (arrives e mirror ch); [|by destruct H].
    destruct H as [(e' & He & _ & i & ->) _]. by exists i.
Qed.

(** C18: the stream hook never gives up and never doubles: in every reachable
    state it has nothing open and nothing scheduled, or one open connection, or
    one timer with a delay between the initial and the maximal back-off; while
    mounted with a gateway it always has one of the two, and unmounted it has
    neither. *)
Theorem stream_hook_never_gives_up gatewayUrl m s :
  hook_reachable gatewayUrl (m, s) →
  activity s ∧ (BACKOFF_INITIAL_MS ≤ backoffRef s ≤ BACKOFF_MAX_MS)%Z ∧
  (if m && truthy gatewayUrl then length (sources s) + length (pending s) = 1
   else sources s = [] ∧ pending s = []).
Proof.
  intros Hi%hook_reachable_inv. split_and!; [apply (hi_activity _ _ Hi)|apply (hi_backoff _ _ Hi)..|].
  destruct m; cbn [andb]; [|by apply (hi_unmounted _ _ Hi)].
  destruct (truthy gatewayUrl) eqn:Ht; [by apply (hi_mounted _ _ Hi)|by apply (hi_no_gateway _ _ Hi)].
Qed.

Definition gateway : string := "http://gateway".
Definition mounted_hook : HookState := mount gateway (initial_hook gateway).

Lemma mounted_reachable : hook_reachable gateway (true, mounted_hook).
Proof. eexists. split; [done|]. apply rtc_once. constructor. Qed.

Lemma stream_hook_never_gives_up_witness :
  length (sources mounted_hook) + length (pending mounted_hook) = 1.
Proof. apply (stream_hook_never_gives_up gateway true mounted_hook mounted_reachable). Defined.

(** From an open connection at the initial back-off, after [n] failures,
    each with its timer run out, the hook has reconnected and the next delay is
    the initial one doubled [n] times, capped. *)
Theorem back_off_doubles_up_to_the_cap n s :
  streaming_state s → backoffRef s = BACKOFF_INITIAL_MS →
  streaming_state (Nat.iter n fail_and_retry s) ∧
  backoffRef (Nat.iter n fail_and_retry s) =
    Z.min (BACKOFF_INITIAL_MS * 2 ^ Z.of_nat n) BACKOFF_MAX_MS.
Proof. apply backoff_after. Qed.

Lemma back_off_doubles_up_to_the_cap_witness :
  backoffRef (Nat.iter 6 fail_and_retry mounted_hook) = BACKOFF_MAX_MS.
Proof.
  destruct (back_off_doubles_up_to_the_cap 6 mounted_hook) as [_ H];
    [split_and!; [reflexivity|reflexivity|by exists 0]|reflexivity|].
  rewrite H. reflexivity.
Defined.

(** C37: a message that is not JSON changes nothing; a message in the beach's
    own shape sets what remains of the activity it names, in a list that was
    cached, and nothing else of any activity, and asks for the list otherwise;
    and every message keeps the feeds well formed and the activities'
    identities. *)
Theorem messages_update_availability `{Zod} uuid raw d :
  (JSON_parse raw = None → handleMessage uuid raw d = d) ∧
  (∀ v e p, JSON_parse raw = Some v → v ≠ JNull → normalizeIslandEvent v = Some e →
    getBeachAvailabilityPayload e = Some p →
    let d' := handleMessage uuid raw d in
    match cached_activities d with
    | None => cached_activities d' = None ∧ invalidations d' = S (invalidations d)
    | Some l => ∃ l', cached_activities d' = Some l' ∧ length l' = length l ∧
        (∀ i a, l !! i = Some a → l' !! i =
          Some (if decide (activity_id a = p_activityId p) then set_remaining (p_remaining p) a else a))
    end) ∧
  (events_wf (store d) →
    events_wf (store (handleMessage uuid raw d)) ∧
    option_map (λ l, activity_id <$> l) (cached_activities (handleMessage uuid raw d)) =
      option_map (λ l, activity_id <$> l) (cached_activities d)).
Proof.
  split_and!; [apply handleMessage_malformed| |apply handleMessage_sound].
  intros v e p Hv Hn He Hp. cbv zeta.
  assert (handleMessage uuid raw d = ingestBroadcastEvent uuid e d) as ->.
  { unfold handleMessage, decode_message, parseIslandEventMessage. rewrite Hv.
    by destruct v; simplify_eq; rewrite He. }
  unfold ingestBroadcastEvent. rewrite Hp. destruct (cached_activities d) as [l|]; [|done].
  eexists. split; [done|]. split; [apply length_fmap|]. apply updateActivities_spec.
Qed.

Definition full_snorkel : json := JObj
  [("source", JStr "beach"); ("type", JStr "beach.activity_full");
   ("payload", JObj [("activityId", JStr "snorkel"); ("remaining", JNum (NumZ 0))])].
Definition client_with_snorkel : ClientData :=
  {| store := empty_events; invalidations := 0; cached_activities :=
       Some [{| activity_id := "snorkel"; activity_name := "Snorkelling"; description := None;
                act_capacity := NumZ 8; act_remaining := NumZ 3 |}] |}.

Lemma messages_update_availability_witness :
  option_map (λ l, act_remaining <$> l) (cached_activities
    (handleMessage (λ _, "uuid") (JSON_stringify full_snorkel) client_with_snorkel)) = Some [NumZ 0].
Proof.
  destruct (normalizeIslandEvent full_snorkel) as [e|] eqn:He; [|discriminate].
  destruct (getBeachAvailabilityPayload e) as [p|] eqn:Hp.
  2: { injection He as <-. vm_compute in Hp. discriminate Hp. }
  destruct (messages_update_availability (λ _, "uuid") (JSON_stringify full_snorkel)
    client_with_snorkel) as (_ & H & _).
  destruct (H full_snorkel e p) as (l' & Hl & Hlen & Hget);
    [vm_compute; reflexivity|discriminate|exact He|exact Hp|].
  specialize (Hget 0 _ eq_refl). rewrite Hl. destruct l' as [|a [|? ?]]; try discriminate.
  injection Hget as ->. injection He as <-. vm_compute in Hp. injection Hp as <-. reflexivity.
Defined.

(** ** Session *)

(** Whatever the session goes through, signing in and out and reloads of
    whatever was stored, the guest and the administrator flag are those of the
    session; so it is never a guest's and an administrator's at once; and a
    reload of what it stored restores it exactly. *)
Theorem session_stays_coherent ops :
  let s := foldl (λ s o, run_session_op o s) EMPTY_SESSION_STATE ops in
  coherent s ∧ (isAdmin s = true → guest s = None ∧ useGuestSession s = None) ∧
  ∀ current, merge (Some (partialize s)) current = s.
Proof.
  cbv zeta. assert (coherent (foldl (λ s o, run_session_op o s) EMPTY_SESSION_STATE ops)) as Hc
    by by apply run_session_coherent.
  split_and!; [done|by apply coherent_exclusive|]. intros. by apply reload_restores.
Qed.

(** ** Codecs *)

(** Every seed has an avatar: the hash stays in 32 bits, its product with
    33 is exact in a double at every step, and the image's data URI is made of
    URI characters that decode to the image. *)
Theorem every_seed_has_an_avatar seed :
  (0 ≤ hashSeed seed < 2 ^ 32)%Z ∧
  Forall (λ z, - 2 ^ 53 < z * 33 < 2 ^ 53)%Z
    ((λ k, foldl hash_step 5381%Z (take k (code_units seed))) <$> seq 0 (S (length (code_units seed)))) ∧
  ∃ body, getAvatarDataUri seed = Some ("data:image/svg+xml;utf8," +:+ body) ∧
    Forall (λ c, uri_char c = true) (chars body) ∧
    ∃ f, features (hashSeed (or_else (Some seed) "guest")) = Some f ∧
      decodeURIComponent body = Some (svg f).
Proof.
  split; [apply hashSeed_range|]. split; [apply hash_exact; lia|].
  destruct (features_total (hashSeed (or_else (Some seed) "guest"))) as (f & Hf & _);
    [apply hashSeed_range|].
  exists (encodeURIComponent (svg f)). unfold getAvatarDataUri. rewrite Hf.
  split_and!; [done|apply encodeURIComponent_safe|]. exists f. by rewrite decode_encode.
Qed.
