(* ===== verification/PlayProperties.v ===== *)
(** * What the simulation, the mock and the games guarantee

    The correctness properties of the simulated guests, the traffic generator,
    the mocked beach, the parrot's chat and Kiki's quest. *)

From Stdlib Require Import QArith.
From S2P Require Import Prelude Json JsString Interleave.
From S2P Require HotelDb HotelOutbound HotelSeed.
From S2P Require Import WebTypes WebApi Session SyntheticGuests Simulation SimulationFacts.
From S2P Require TrafficGenerator BeachMock ParrotChat OctopusOracle KikiQuest.

(** ** Simulated guests *)

(** Random numbers are at least 0 and below 1; here they are one half. *)
Definition one_half (n : nat) : Q := 1 # 2.
Lemma one_half_unit : unit_interval one_half.
Proof. done. Qed.

Definition simulation_start : Sim := MkSim createInitialState 0 [] 0 0.

(** Whatever the random numbers, the reservation a simulated guest asks for
    is well formed: made out to the guest, for a known room type, from day 0
    on, for at least one night, and for at least one guest and no more than
    every seeded room of the type holds. *)
Theorem simulated_reservations_are_well_formed random clock simulation_day g s :
  unit_interval random →
  ∃ b s', randomReservationBody random clock simulation_day g s = (Returned b, s') ∧
    q_guest_id b = g_id g ∧ q_room_type b ∈ ROOM_TYPES ∧ (1 ≤ q_guest_count b)%Z ∧
    (0 ≤ q_check_in_day b < q_check_out_day b)%Z ∧
    (∀ room, room ∈ HotelSeed.seed_rooms →
      HotelOutbound.show_room_type (HotelDb.room_type room) = q_room_type b →
      (q_guest_count b ≤ HotelDb.capacity room)%Z) ∧
    guest_states s' = guest_states s ∧ calls s' = calls s.
Proof.
  intros Hr. destruct (randomReservationBody_well_formed random clock simulation_day g s Hr)
    as (b & s' & Hrun & (Hg & Hty & Hn & Hd) & Hgs & Hc).
  exists b, s'. split_and!; try done; try lia.
  intros room Hin Hroom. pose proof (max_guests_seeded room Hin) as Hm.
  rewrite Hroom in Hm. lia.
Qed.

Lemma simulated_reservations_are_well_formed_witness :
  ∃ b s', randomReservationBody one_half (λ _, 0%Z) (λ _, 7%Z) booked_guest simulation_start
    = (Returned b, s') ∧ (0 ≤ q_check_in_day b < q_check_out_day b)%Z.
Proof.
  destruct (simulated_reservations_are_well_formed one_half (λ _, 0%Z) (λ _, 7%Z) booked_guest
    simulation_start one_half_unit) as (b & s' & Hrun & _ & _ & _ & Hd & _).
  exists b, s'. split; [exact Hrun|exact Hd].
Defined.

(** C19: a step of the simulation that no other interrupts never fails; it takes
    at most one guest, a known one, to a stage that follows the guest's, and
    leaves the others where they are. *)
Theorem simulated_steps_follow_the_stages random clock simulation_day cooldown perform s :
  unit_interval random → all_known (guest_states s) →
  ∃ s', run (runGuestStep random clock simulation_day cooldown perform) s = (Returned tt, s') ∧
    all_known (guest_states s') ∧
    ∃ g st, g ∈ syntheticGuests ∧ guest_states s !! g_id g = Some st ∧
      (guest_states s' = guest_states s ∨
       ∃ st', next_stage st st' ∧ guest_states s' = <[g_id g := st']> (guest_states s)).
Proof.
  intros Hr Hk.
  pose proof (runGuestStep_spec random clock simulation_day cooldown perform s Hr Hk) as H.
  destruct (run _ s) as [o s']. destruct H as (-> & Hk' & Hg). by exists s'.
Qed.

Lemma simulated_steps_follow_the_stages_witness :
  ∃ s', run (runGuestStep one_half (λ _, 0%Z) (λ _, 7%Z) 0 all_succeed) simulation_start =
    (Returned tt, s') ∧ all_known (guest_states s').
Proof.
  destruct (simulated_steps_follow_the_stages one_half (λ _, 0%Z) (λ _, 7%Z) 0 all_succeed
    simulation_start one_half_unit createInitialState_known) as (s' & Hrun & Hk & _).
  exists s'. split; [exact Hrun|exact Hk].
Defined.

(** Two steps for one guest that interleave can leave the guest with a
    reservation that was cancelled: one step cancels the activity and the
    reservation and starts over, the other then writes back the stage it saw. *)
Theorem interleaved_steps_keep_a_cancelled_reservation :
  ∃ steps ps s', Forall (λ p, p = one_step) steps ∧
    rtc pool_step (steps, booked_sim) (ps, s') ∧ forallb finished ps = true ∧
    "/reservation/reservation-1" ∈ (call_url <$> calls s') ∧
    guest_states s' !! g_id booked_guest = Some (HotelBooked "gate-1" "reservation-1").
Proof.
  exists [one_step; one_step], sim_race.1, sim_race.2.
  destruct sim_race_end as (Hf & Hg & Hc). split_and!; [by repeat constructor| |done| |done].
  - rewrite <-surjective_pairing. apply sim_race_steps.
  - rewrite Hc. apply list_elem_of_further, list_elem_of_here.
Qed.

(** ** The traffic generator *)

(** C20: however the map's page is visited and left, and whatever steps begin and
    end in between, in strict mode or not: a visit that is mounted keeps exactly
    as many loops as there are concurrent guests, none lost or added; a visit
    that was left has no timer, and every step it left in flight ends without
    setting another; so the page never has more timers than concurrent guests,
    each within the bounds of its delay. *)
Theorem traffic_loops_are_kept strict (hs : list (bool * TrafficGenerator.Generator)) :
  TrafficGenerator.visits_reachable strict hs →
  (∀ i (m : bool) s, hs !! i = Some (m, s) →
    if m then TrafficGenerator.loops s = TrafficGenerator.CONCURRENT_GUESTS
    else TrafficGenerator.timers s = [] ∧
      TrafficGenerator.in_flight s ≤ TrafficGenerator.CONCURRENT_GUESTS ∧
      ∀ s', TrafficGenerator.loop_step s s' →
        TrafficGenerator.timers s' = [] ∧ S (TrafficGenerator.in_flight s') = TrafficGenerator.in_flight s) ∧
  length (hs ≫= (λ h, TrafficGenerator.timers h.2)) ≤ TrafficGenerator.CONCURRENT_GUESTS ∧
  Forall (λ t, TrafficGenerator.MIN_DELAY_MS ≤ t.2 ≤ TrafficGenerator.MAX_DELAY_MS)%Z
    (hs ≫= (λ h, TrafficGenerator.timers h.2)).
Proof.
  intros Hr%TrafficGenerator.visits_reachable_ok.
  split; [|by apply TrafficGenerator.all_timers]. intros i m s Hi.
  destruct Hr as [Hok _]. destruct (Forall_lookup_1 _ _ _ _ Hok Hi) as [Hv Hl].
  destruct m; [done|]. destruct Hl as [Ht Hf]. split_and!; [done..|].
  intros s' Hs. by apply TrafficGenerator.left_step.
Qed.

(** A visit is left while a step is in flight, and another begins. *)
Definition two_visits : list (bool * TrafficGenerator.Generator) :=
  [(false, TrafficGenerator.unmount_generator (TrafficGenerator.begin_step 0
     (TrafficGenerator.visit false true one_half one_half)));
   (true, TrafficGenerator.visit false true one_half one_half)].

Lemma two_visits_reachable : TrafficGenerator.visits_reachable false two_visits.
Proof.
  exists []. split; [done|].
  eapply rtc_l; [by apply (TrafficGenerator.page_mounts _ _ one_half one_half); try apply one_half_unit|].
  eapply rtc_l; [eapply (TrafficGenerator.generator_runs _ _ 0); [reflexivity|];
    by eapply (TrafficGenerator.loop_begin _ 0); left|].
  eapply rtc_l; [by eapply (TrafficGenerator.page_unmounts _ _ 0)|].
  apply rtc_once. apply (TrafficGenerator.page_mounts false
    [(false, TrafficGenerator.unmount_generator (TrafficGenerator.begin_step 0
       (TrafficGenerator.visit false true one_half one_half)))] one_half one_half);
    [by repeat constructor|apply one_half_unit..].
Qed.

Lemma traffic_loops_are_kept_witness :
  length (two_visits ≫= (λ h, TrafficGenerator.timers h.2)) ≤ 3 ∧
  (TrafficGenerator.loops ∘ snd) <$> two_visits = [1; 3].
Proof.
  destruct (traffic_loops_are_kept false two_visits two_visits_reachable) as (_ & Hn & _).
  split; [exact Hn|vm_compute; reflexivity].
Defined.

(** ** The mocked beach *)

(** Whatever is booked, cancelled and asked, in any order, no activity is
    overbooked and no place is lost or made: the free places of every activity
    and the guests that hold one add up to the places it started with. *)
Theorem mocked_places_are_conserved ops k :
  (∀ id g, BeachMock.Book id g ∈ ops → id ≠ "") →
  let b := foldl BeachMock.run_beach BeachMock.fresh_beach ops in
  (∀ a, a ∈ BeachMock.activities_of b → (0 ≤ BeachMock.remaining a)%Z) ∧
  (BeachMock.free_places (BeachMock.activities_of b) k +
     BeachMock.booked (BeachMock.loadBookings b) k)%Z =
  BeachMock.free_places BeachMock.SEED k.
Proof.
  intros Hops b.
  destruct (BeachMock.run_beach_spec ops BeachMock.fresh_beach Hops BeachMock.fresh_beach_inv)
    as [Hi Hp].
  split; [intros a; apply (BeachMock.bi_free _ Hi)|].
  specialize (Hp k). unfold BeachMock.places in Hp. fold b in Hp. rewrite Hp.
  assert (BeachMock.booked (BeachMock.loadBookings BeachMock.fresh_beach) k = 0%Z) as ->
    by (vm_compute; reflexivity).
  change (BeachMock.activities_of BeachMock.fresh_beach) with BeachMock.SEED. lia.
Qed.

Definition yoga_ops : list BeachMock.BeachOp :=
  [BeachMock.Book "activity-beach-yoga" "tom"; BeachMock.Book "activity-beach-yoga" "felix";
   BeachMock.Cancel "activity-beach-yoga" "tom"].

Lemma mocked_places_are_conserved_witness :
  let b := foldl BeachMock.run_beach BeachMock.fresh_beach yoga_ops in
  (BeachMock.free_places (BeachMock.activities_of b) "activity-beach-yoga" +
    BeachMock.booked (BeachMock.loadBookings b) "activity-beach-yoga")%Z = 11%Z.
Proof.
  intros b. destruct (mocked_places_are_conserved yoga_ops "activity-beach-yoga") as [_ H].
  - intros id g Hin. unfold yoga_ops in Hin. rewrite !elem_of_cons, elem_of_nil in Hin.
    destruct_or? Hin; congruence.
  - fold b in H. rewrite H. reflexivity.
Defined.

(** ** The parrot's chat *)

Abbreviation chat_after es := (ParrotChat.chat_run ParrotChat.initial_chat es).

(** In every chat, what is posted has text and a guest; an event posts at
    most one turn, only while none is in flight, and for the guest signed in;
    and, no history being loaded meanwhile, a guest's history is exactly the
    exchanges that were answered, in order, each with its question. *)
Theorem chats_are_orderly es :
  (∀ t, t ∈ ParrotChat.posted (chat_after es) → ParrotChat.sound_turn t) ∧
  (∀ e, let s := chat_after es in
    ParrotChat.posted (ParrotChat.chat_step e s) = ParrotChat.posted s ∨
    ∃ t, ParrotChat.posted (ParrotChat.chat_step e s) = ParrotChat.posted s ++ [t] ∧
      ParrotChat.in_flight s = None ∧
      ParrotChat.in_flight (ParrotChat.chat_step e s) = Some t ∧
      ParrotChat.participantId s = Some (ParrotChat.turn_guest t)) ∧
  (Forall (λ e, ParrotChat.is_load e = false) es → ∀ g,
    ParrotChat.messages_of (chat_after es) g = ParrotChat.exchanges es ParrotChat.initial_chat g).
Proof.
  split_and!.
  - apply (ParrotChat.ci_posted _ (ParrotChat.chat_run_inv es _ ParrotChat.initial_chat_inv)).
  - intros e. apply ParrotChat.posted_once.
  - intros Hes g. by rewrite ParrotChat.chat_run_messages.
Qed.

(** In every chat the keys of the thread are distinct, a disabled composer
    sends nothing, and the retry button posts the very turn that failed. *)
Theorem threads_have_distinct_keys es :
  let s := chat_after es in
  NoDup (ParrotChat.item_key <$> ParrotChat.threadItems s) ∧
  (∀ value m, ParrotChat.submit (ParrotChat.composerDisabled false s) value = Some m ↔
    m = trim value ∧ m ≠ "" ∧ ParrotChat.isHistoryReady s = true ∧ ParrotChat.in_flight s = None) ∧
  (∀ f, ParrotChat.retry_shown s = true → ParrotChat.failedTurn s = Some f →
    ParrotChat.posted (ParrotChat.chat_step ParrotChat.Retry s) =
      ParrotChat.posted s ++ [ParrotChat.failed_turn f]).
Proof.
  intros s. assert (ParrotChat.chat_inv s) as Hi
    by apply ParrotChat.chat_run_inv, ParrotChat.initial_chat_inv.
  split_and!; [by apply ParrotChat.thread_keys_NoDup|intros; apply ParrotChat.submit_sends|].
  intros f Hr Hf. by apply ParrotChat.retry_resends.
Qed.

(** ** Kiki's quest *)

(** C22: in every reachable state of the quest the purse holds whole rewards, a
    guest at the counter can pay, and the quest can go on, except where the
    oracle was closed before a trial ended; such a state is reachable, and then
    nothing can happen any more. *)
Theorem quest_goes_on_unless_abandoned s :
  reachable (eq KikiQuest.initial_quest) KikiQuest.quest_steps s →
  (∃ k, 0 ≤ k ∧ KikiQuest.meows s = 100 * k)%Z ∧
  (KikiQuest.phase s = KikiQuest.ready_to_buy → KikiQuest.canPayForBurger s = true) ∧
  ((∃ e s', e ≠ KikiQuest.ConfettiTimer ∧ KikiQuest.quest_step e s = Some s') ∨
   (KikiQuest.phase s = KikiQuest.at_octopus ∧ KikiQuest.oracleOpen s = false ∧
    KikiQuest.lastTrialPassed s = None)) ∧
  ∃ s2, KikiQuest.quest_run KikiQuest.initial_quest KikiQuest.abandon_run = Some s2 ∧
    ∀ e, KikiQuest.quest_step e s2 = None.
Proof.
  intros Hi%KikiQuest.quest_reachable_inv.
  split_and!; [apply (KikiQuest.qi_hundreds s Hi)|by apply KikiQuest.ready_can_pay|
    by apply KikiQuest.quest_progress|apply KikiQuest.abandon_run_sticks].
Qed.

Lemma quest_goes_on_unless_abandoned_witness :
  ∃ e s', e ≠ KikiQuest.ConfettiTimer ∧
    KikiQuest.quest_step e KikiQuest.initial_quest = Some s'.
Proof.
  destruct (quest_goes_on_unless_abandoned KikiQuest.initial_quest) as (_ & _ & [H|H] & _).
  - exists KikiQuest.initial_quest. split; [reflexivity|apply rtc_refl].
  - exact H.
  - destruct H as [H _]. discriminate H.
Defined.
