(* ===== verification/PageProperties.v ===== *)
(** * What holds of the client's pages

    The properties of the machine of the pages, of the map with its markers,
    locks and panels, of announcements, and of the theme across tabs. *)

From Stdlib Require Import QArith.
From S2P Require Import Prelude Json Zod JsString JsonText WebTypes WebApi EventsStore Session WebLib.
From S2P Require Import QueryClient UseBroadcast MapZones IslandPages.
From S2P Require IslandMarkers MapPage OctopusOracle KikiQuest ThemeProvider AirportView HotelPanel BeachView ShopView ParrotChat BroadcastView.
From S2P Require BroadcastTypes BroadcastAuth EventBus BroadcastRoutes Simulation HotelView.

(** ** Pages *)

(** C15: however the pages are used, typed addresses and reloads included, the map
    is shown only with a session and the last page only without one; a panel is
    open only on the map; a guest is one of the profiles; an administrator
    holds the configured passcode, which is not empty; and on the first page
    a text signs the administrator in exactly when it is that passcode, but for
    the white space around it. *)
Theorem pages_need_their_session ADMIN_PASSCODE guests es p :
  let a := app_run ADMIN_PASSCODE guests es (first_visit p) in
  (path a = Map → is_Some (session (app_session a))) ∧
  (path a = Quit → session (app_session a) = None) ∧
  (is_Some (activeZone a) → path a = Map) ∧
  match session (app_session a) with
  | Some (GuestSession g) => g ∈ guests
  | Some (AdminSession _ passcode) => passcode = ADMIN_PASSCODE ∧ passcode ≠ ""
  | None => True
  end ∧
  (path a = Home → ∀ text,
    (∃ name, session (app_session (app_event ADMIN_PASSCODE guests (SubmitPasscode text) a)) =
       Some (AdminSession name ADMIN_PASSCODE) ∧
     path (app_event ADMIN_PASSCODE guests (SubmitPasscode text) a) = Map) ↔
    ADMIN_PASSCODE ≠ "" ∧ trim text = ADMIN_PASSCODE).
Proof.
  intros a. assert (app_inv ADMIN_PASSCODE guests a) as [Hm Hq Hz Hc Hs] by apply app_run_inv.
  split_and!; try done.
  - destruct (session (app_session a)) as [[g|d x]|]; [done| |done]. by destruct Hs as (? & ? & _).
  - intros Hp text. unfold app_event. rewrite Hp.
    destruct (submit_passcode ADMIN_PASSCODE text) as [m|x] eqn:Hsub.
    + split; [by intros (? & _ & ?)|]. intros [Hne Ht].
      assert (submit_passcode ADMIN_PASSCODE text = inr ADMIN_PASSCODE) as Hin
        by by apply submit_passcode_spec. congruence.
    + apply submit_passcode_spec in Hsub as (-> & Hne & Ht). split; [done|]. intros _.
      by exists "Admin Observer".
Qed.

Definition first_steps : list AppEvent := [FlipTo true; SubmitPasscode " kiki "; ClickZone HotelZone].

Lemma pages_need_their_session_witness :
  is_Some (session (app_session (app_run "kiki" [] first_steps (first_visit Home)))).
Proof.
  destruct (pages_need_their_session "kiki" [] first_steps Home) as [Hmap _]. cbv zeta in Hmap.
  apply Hmap. vm_compute. reflexivity.
Defined.

(** ** Locks *)

(** For whoever is signed in, a zone but the lighthouse is locked on the map
    exactly when its panel shows a gate in place of the zone; the lighthouse is
    locked for a guest who has not landed, and its panel is open all the same. *)
Theorem locks_match_gates {Cache} `{!QueryClient Cache} z (p : Panels (Cache := Cache)) :
  coherent (pn_session p) → is_Some (session (pn_session p)) →
  ParrotChat.participantId (pn_chat p) = g_id <$> guest (pn_session p) →
  let locked z := zone_locked z (useIsAdmin (pn_session p)) (landed p) (checked_in p) in
  (z ≠ BroadcastZone → gated (ZonePanelContent z p) = locked z) ∧
  gated (ZonePanelContent BroadcastZone p) = false ∧
  (locked BroadcastZone = true ↔ useIsAdmin (pn_session p) = false ∧ landed p = false).
Proof.
  intros Hc Hs Hchat locked. split_and!.
  - intros Hz. rewrite locked_iff_gated by done. by rewrite bool_decide_false.
  - done.
  - unfold locked, zone_locked. destruct (useIsAdmin (pn_session p)), (landed p); cbn; naive_solver.
Qed.

Definition a_guest : GuestProfile := {|
  g_id := "tom"; g_name := "Tom"; g_surname := "Cat"; g_age := 30; g_passport := EU;
  g_priority := standard; g_disability := false; g_avatar := ""; g_personality := "" |}.
Definition arriving : Panels (Cache := MemCache) := {|
  pn_session := guestSessionState a_guest;
  pn_events := empty_events;
  pn_airport := AirportView.MkArrivalUi ∅ None None [];
  pn_hotel := HotelPanel.MkUi (HotelView.MkForm "SUITE" 1 None None) ∅ false None None None [];
  pn_beach := BeachView.MkBeachUi ∅ None None [];
  pn_crab := ShopView.Crab.MkCrabUi ∅ None [];
  pn_chat := {| ParrotChat.participantId := Some "tom"; ParrotChat.histories := ∅;
    ParrotChat.pendingTurn := None; ParrotChat.failedTurn := None; ParrotChat.in_flight := None;
    ParrotChat.posted := [] |};
  pn_loading := λ _, false; pn_error := None; pn_show := λ _, "" |}.

Lemma locks_match_gates_witness :
  gated (ZonePanelContent BeachZone arriving) = true ∧
  gated (ZonePanelContent BroadcastZone arriving) = false.
Proof.
  destruct (locks_match_gates BeachZone arriving) as (H1 & H2 & _); [done|by eexists|done|].
  split; [rewrite H1 by done; vm_compute; reflexivity|exact H2].
Defined.

(** C16: however the pages were used, once on the map, the page has the badge of a
    session, and every marker of its layer, pressed, slides in the panel of its zone
    under its name; the panel shows a gate in place of the zone exactly where the
    marker was drawn locked, but for the lighthouse, which never shows one and is
    drawn locked for a guest who has not landed. *)
Theorem markers_open_what_they_show {Cache} `{!QueryClient Cache} ADMIN_PASSCODE guests es start
    (p : Panels (Cache := Cache)) d active o oracle quest status :
  let a := app_run ADMIN_PASSCODE guests es (first_visit start) in
  let page a := MapPage.MapPage d a p active o oracle quest status in
  path a = Map → MapPage.drawn_from a p →
  is_Some (MapPage.mp_hud (page a)) ∧
  ∀ m, m ∈ IslandMarkers.layer_zones (MapPage.mp_layer (page a)) →
    let v := page (app_event ADMIN_PASSCODE guests (ClickZone (IslandMarkers.iv_zone m)) a) in
    MapPage.mp_open v = true ∧ (MapPage.mp_shell v).1.1 = Some (IslandMarkers.iv_label m) ∧
    (∃ c, MapPage.mp_content v = Some c ∧
      gated c = negb (bool_decide (IslandMarkers.iv_zone m = BroadcastZone)) && IslandMarkers.iv_locked m) ∧
    (IslandMarkers.iv_zone m = BroadcastZone →
      IslandMarkers.iv_locked m = true ↔ useIsAdmin (app_session a) = false ∧ landed p = false).
Proof.
  intros a page Hm Hd. pose proof (app_run_inv ADMIN_PASSCODE guests es start) as Hi. fold a in Hi. split.
  - by eapply MapPage.hud_shown.
  - intros m Hin v.
    destruct (MapPage.pressed_marker_opens _ _ _ _ _ _ _ _ _ _ _ Hi Hm Hd Hin) as (H1 & H2 & H3).
    split_and!; [done..|]. intros Hz. rewrite <- (MapPage.df_session _ _ Hd).
    destruct (IslandMarkers.layer_markers (w d) (h d) (useIsAdmin (pn_session p)) (landed p) (checked_in p)
      active o oracle quest) as [_ Hall]. rewrite Forall_forall in Hall.
    destruct (Hall m Hin) as (_ & -> & _). rewrite Hz. unfold zone_locked.
    destruct (useIsAdmin (pn_session p)), (landed p); cbn; naive_solver.
Qed.

(** The guest has just entered; the beach is drawn locked and opens a gate. *)
Definition entering : App := app_run "kiki" [a_guest] [ChooseGuest 0] (first_visit Home).
Definition entered_page (a : App) : MapPage.MapPageView :=
  MapPage.MapPage (compute 1280 720) a arriving (λ _, false) false OctopusOracle.initial_panel
    KikiQuest.initial_quest Connected.

Lemma markers_open_what_they_show_witness :
  ∃ c, MapPage.mp_content (entered_page (app_event "kiki" [a_guest] (ClickZone BeachZone) entering)) = Some c ∧
    gated c = true.
Proof.
  destruct (proj2 (markers_open_what_they_show "kiki" [a_guest] [ChooseGuest 0] Home arriving (compute 1280 720)
    (λ _, false) false OctopusOracle.initial_panel KikiQuest.initial_quest Connected eq_refl
    (MapPage.Build_drawn_from entering arriving eq_refl eq_refl))
    (IslandMarkers.ZoneIndicator (w (compute 1280 720)) (h (compute 1280 720)) false false false false BeachZone))
    as (_ & _ & (c & Hc & Hg) & _); [by right; right; left|].
  exists c. split; [exact Hc|]. rewrite Hg. reflexivity.
Defined.

(** ** Announcements *)

#[local] Existing Instance zod_reference.

(** C12: an announcement that an administrator submits, with the passcode the
    service is configured with, is posted with its text trimmed, accepted by
    the service and broadcast; and a client that receives its frame's text
    has it as the newest entry of every zone's feed, with a tick of every
    zone's marker, and first in the lighthouse's panel, for guests and
    administrators alike. *)
Theorem announcements_reach_every_feed `{Zod} env name passcode s uuid b client_uuid d isAdmin :
  env "ADMIN_PASSCODE" = Some passcode → passcode ≠ "" → trim (BroadcastView.c_message s) ≠ "" →
  let message := trim (BroadcastView.c_message s) in
  let e := BroadcastView.admin_event uuid message in
  let d' := handleMessage client_uuid (JSON_stringify (BroadcastTypes.island_event_json e)) d in
  ∃ c body,
    BroadcastView.c_publishing (BroadcastView.composer_submit (adminSessionState name passcode) s) = Some c ∧
    call_data c = Some body ∧
    BroadcastRoutes.post_handler (call_url c) = Some BroadcastRoutes.admin_announcement ∧
    BroadcastRoutes.admin_announcement env (BroadcastView.call_auth c) uuid body b =
      (BroadcastRoutes.success, EventBus.broadcast e b) ∧
    (∀ z, (∃ e', head (useZoneEvents (store d') z) = Some e' ∧ b_message e' = message ∧ b_sender e' = "Admin") ∧
       useZoneActivityTick (store d') z = (useZoneActivityTick (store d) z + 1)%Z) ∧
    ∃ e' l, (BroadcastView.BroadcastPanel isAdmin (store d')).2 = Some (e' :: l) ∧ b_message e' = message.
Proof.
  intros He Hp Hm message e d'.
  destruct (BroadcastView.announcement_accepted env message passcode uuid b Hm Hp He)
    as (body & Hbody & Hhandler & Hrun).
  exists (postAnnouncement message passcode), body. split_and!; try done.
  - unfold BroadcastView.composer_submit. fold message. unfold truthy.
    by rewrite bool_decide_true by done.
  - intros z. destruct (BroadcastView.announcement_arrives uuid message client_uuid d
      (z_channel (getZone z))) as (e' & Hhd & _ & Hm' & Hs & _ & Htick).
    split; [by exists e'|exact Htick].
  - apply BroadcastView.announcement_visible.
Qed.

Lemma announcements_reach_every_feed_witness :
  ∃ e', head (useZoneEvents (store (handleMessage (λ _, "id") (JSON_stringify
      (BroadcastTypes.island_event_json (BroadcastView.admin_event "1" "Hello")))
      {| store := empty_events; cached_activities := None; invalidations := 0 |})) BeachZone) = Some e' ∧
    b_message e' = "Hello".
Proof.
  destruct (announcements_reach_every_feed (λ _, Some "kiki") "Admin" "kiki"
    (BroadcastView.MkComposer " Hello " None []) "1" (EventBus.MkBus [] [] []) (λ _, "id")
    {| store := empty_events; cached_activities := None; invalidations := 0 |} false)
    as (_ & _ & _ & _ & _ & _ & Hz & _); [done|done|discriminate|].
  destruct (Hz BeachZone) as [(e' & Hhd & Hm & _) _]. exists e'. split; [exact Hhd|exact Hm].
Defined.

(** ** The map *)

(** C40: on any screen the map keeps its shape, covers the screen at the scale it is
    first shown with, which is the same on every screen and between the bounds of
    the others, and at any of these at least half of the screen each way; the
    layer has one marker for each zone, named and locked as its zone is, and the
    markers' squares lie within the map and take no clicks from one another; but
    Kiki, waiting at the Crusty Crab, takes clicks from the crab's. *)
Theorem markers_fit_the_map vpW vpH :
  (0 < vpW)%Q → (0 < vpH)%Q →
  let d := compute vpW vpH in
  let zoom := IslandMarkers.zoom_range d in
  (w d == h d * MAP_ASPECT)%Q ∧ (IslandMarkers.initialScale zoom == 1 / MAP_ZOOM_BUDGET)%Q ∧
  (IslandMarkers.smallestScale zoom <= IslandMarkers.initialScale zoom <= IslandMarkers.largestScale zoom)%Q ∧
  (vpW <= w d * IslandMarkers.initialScale zoom)%Q ∧ (vpH <= h d * IslandMarkers.initialScale zoom)%Q ∧
  (∀ k, (IslandMarkers.smallestScale zoom <= k)%Q →
     (vpW * (1 # 2) <= w d * k)%Q ∧ (vpH * (1 # 2) <= h d * k)%Q) ∧
  (∀ isAdmin landed checkedIn active open oracle quest,
     let l := IslandMarkers.layer_zones
       (IslandMarkers.ZoneLayer (w d) (h d) isAdmin landed checkedIn active open oracle quest) in
     IslandMarkers.iv_zone <$> l = all_zones ∧
     Forall (λ v, IslandMarkers.iv_locked v = zone_locked (IslandMarkers.iv_zone v) isAdmin landed checkedIn ∧
       IslandMarkers.iv_label v = z_label (getZone (IslandMarkers.iv_zone v)) ∧
       box_inside (w d) (h d) (IslandMarkers.iv_box v)) l) ∧
  (∀ z z', z ≠ z' → boxes_apart (zone_box (w d) (h d) z) (zone_box (w d) (h d) z')) ∧
  (∀ height, (0 < height)%Q →
     ¬ boxes_apart (zone_box (w d) (h d) CrabZone)
         (IslandMarkers.kiki_box (IslandMarkers.kiki_block (w d) (h d) KikiQuest.CRAB_POSITION) height)).
Proof.
  intros HW HH d zoom. destruct (compute_budget vpW vpH HW HH) as (Hpos & Hw & Hs & _).
  fold d in Hpos, Hw, Hs.
  assert (w d == MAP_W * (w d / MAP_W))%Q as Ew by (unfold MAP_W; field).
  assert (h d == MAP_H * (w d / MAP_W))%Q as Eh
    by (rewrite Hw; unfold MAP_ASPECT, MAP_W, MAP_H; field).
  assert (0 < w d / MAP_W)%Q as Hsc by (apply Qlt_shift_div_l; [done|]; by rewrite Qmult_0_l).
  destruct (IslandMarkers.zoom_covers vpW vpH _ HW HH (Qle_refl _)) as (H1 & H2 & _ & _ & H3).
  split_and!; try done; try apply H3.
  - intros k Hk. by destruct (IslandMarkers.zoom_covers vpW vpH k HW HH Hk) as (_ & _ & ? & ? & _).
  - intros a l c act open p q layer.
    destruct (IslandMarkers.layer_markers (w d) (h d) a l c act open p q) as [Hz Hall].
    split; [done|]. eapply Forall_impl; [exact Hall|]. intros v (-> & -> & _ & ->). split_and!; [done..|].
    by apply (zones_inside _ _ _ (w d / MAP_W)).
  - intros z z' Hne. by apply (zones_apart _ _ z z' (w d / MAP_W)).
  - intros height Hh. by apply (IslandMarkers.kiki_covers_crab _ _ (w d / MAP_W)).
Qed.

Lemma markers_fit_the_map_witness :
  let d := compute 1280 720 in boxes_apart (zone_box (w d) (h d) CrabZone) (zone_box (w d) (h d) BeachZone).
Proof. apply (markers_fit_the_map 1280 720); [reflexivity|reflexivity|discriminate]. Defined.

(** ** Themes *)

(** In every reachable state of the browser each tab shows its theme's class
    and no other, listens to the system exactly when its theme follows it, and
    two frames without a change of theme remove every style that suppresses
    transitions. *)
Theorem tabs_show_their_theme disable def key b :
  ThemeProvider.browser_reachable disable def key b →
  Forall (λ s,
    ThemeProvider.shown s = [ThemeProvider.show_resolved
      (ThemeProvider.resolvedTheme (ThemeProvider.prefers_dark b) (ThemeProvider.theme s))] ∧
    ThemeProvider.media_listeners s = (if decide (ThemeProvider.theme s = ThemeProvider.SystemTheme) then 1 else 0) ∧
    ThemeProvider.styles (ThemeProvider.run_frame (ThemeProvider.run_frame s)) = [])
    (ThemeProvider.tabs b).
Proof.
  intros Hb%ThemeProvider.browser_reachable_inv. eapply Forall_impl; [exact Hb|]. intros s Hs.
  split_and!; [apply Hs|apply Hs|by eapply ThemeProvider.two_frames_settle].
Qed.

Definition no_tabs : ThemeProvider.Browser := ThemeProvider.MkBrowser ∅ true [].

Lemma tabs_show_their_theme_witness :
  Forall (λ s, ThemeProvider.shown s = ["light"] ∨ ThemeProvider.shown s = ["dark"])
    (ThemeProvider.tabs (ThemeProvider.crossed_browser no_tabs)).
Proof.
  eapply Forall_impl.
  - apply (tabs_show_their_theme true ThemeProvider.SystemTheme "theme").
    apply ThemeProvider.run_actions_reachable. exists no_tabs. split; [reflexivity|apply rtc_refl].
  - intros s (Hs & _). rewrite Hs. destruct (ThemeProvider.resolvedTheme _ _); [right|left]; reflexivity.
Defined.

(** C39: where a theme is only ever chosen in a tab that has received every event,
    all tabs show the stored theme once theirs are delivered; where two tabs
    choose before they have heard of each other, they can end in disagreement
    with nothing left to deliver. *)
Theorem tabs_agree_with_careful_choices disable def key b :
  (ThemeProvider.carefully_reachable disable def key b →
   ∀ s, s ∈ ThemeProvider.tabs b → ThemeProvider.inbox s = [] →
     ThemeProvider.theme s = ThemeProvider.stored_theme def key b) ∧
  ∃ b', ThemeProvider.browser_reachable true ThemeProvider.SystemTheme "theme" b' ∧
    ThemeProvider.inbox <$> ThemeProvider.tabs b' = [[]; []] ∧
    ThemeProvider.theme <$> ThemeProvider.tabs b' = [ThemeProvider.LightTheme; ThemeProvider.DarkTheme].
Proof.
  split.
  - intros Hb%ThemeProvider.carefully_reachable_synchronised s Hs Hi.
    unfold ThemeProvider.synchronised in Hb. rewrite Forall_forall in Hb.
    rewrite <- (Hb s Hs). symmetry. by apply ThemeProvider.settled_empty.
  - exists (ThemeProvider.crossed_browser no_tabs). split; [|by vm_compute].
    apply ThemeProvider.run_actions_reachable. by exists no_tabs.
Qed.

Lemma tabs_agree_with_careful_choices_witness :
  ∃ s, ThemeProvider.tabs (ThemeProvider.act true ThemeProvider.SystemTheme "theme"
      (ThemeProvider.OpenPage []) no_tabs) = [s] ∧
    ThemeProvider.theme s = ThemeProvider.SystemTheme.
Proof.
  eexists. split; [reflexivity|].
  apply (tabs_agree_with_careful_choices true ThemeProvider.SystemTheme "theme"
    (ThemeProvider.act true ThemeProvider.SystemTheme "theme" (ThemeProvider.OpenPage []) no_tabs)).
  - exists no_tabs. split; [reflexivity|]. eapply rtc_l; [|apply rtc_refl].
    exists (ThemeProvider.OpenPage []). split; [exact I|reflexivity].
  - apply list_elem_of_singleton. reflexivity.
  - reflexivity.
Defined.
