(* ===== verification/PanelProperties.v ===== *)
(** * What holds of the client's panels

    The properties of the zones' panels with the services they talk to: the
    reservation form and its panel, the hotel's validation pipe, the mocked beach
    and the client's calls, the shops, and what of checked answers the panels can
    read. *)

From S2P Require Import Prelude Json Zod JsString WebTypes WebApi WebLib WebData QueryClient Session.
From S2P Require HotelDb HotelOutbound HotelReservation HotelConcurrency HotelInvariant HotelBootstrap HotelFlow HotelProperties.
From S2P Require HotelView HotelPanel BeachMock BeachView BeachOverMock ShopView Simulation.

(** ** Reservations *)

#[local] Existing Instance HotelView.utc.
#[local] Existing Instance HotelBootstrap.validator_reference.
#[local] Existing Instances HotelDb.MemDB.prisma HotelDb.MemDB.prisma_responsive.

(** C7: whatever a guest did to the form, what a valid form posts passes the
    hotel's validation pipe with its fields as they are; the hotel refuses it
    for its days, changing nothing, exactly when both dates are on one calendar
    day, and handles it otherwise, never as a bad request; and the nights on
    the form's button are the days sent, or one less where the time of day at
    check-out comes before the one at check-in. *)
Theorem valid_forms_reach_the_hotel {DB} `{HotelDb.PrismaResponsive DB} `{!HotelBootstrap.ClassValidator}
    `{!HotelView.Calendar} env request_id fetch anchorMs now events values g (h : HotelOutbound.Hotel DB) :
  let f := foldl (λ f e, HotelView.form_event e f) (HotelView.default_form now) events in
  HotelView.ReservationFormSchema f = Some (inr values) →
  let b := HotelView.formToRequest anchorMs values g in
  let answer := HotelBootstrap.post_reservation env request_id fetch (HotelFlow.body_fields b) h in
  let sent := (Simulation.q_check_out_day b - Simulation.q_check_in_day b)%Z in
  ∃ ty, HotelOutbound.show_room_type ty = HotelView.room_type f ∧
    HotelBootstrap.ValidationPipe (HotelFlow.body_fields b) = Some (Returned (HotelFlow.dto_of b ty)) ∧
    (if decide (sent = 0%Z)
     then answer = (Thrown (HotelOutbound.HttpException "check_out_day must be greater than check_in_day" 400), h)
     else answer = HotelReservation.create env request_id fetch (HotelFlow.dto_of b ty) h ∧
       ∀ msg, answer.1 ≠ Thrown (HotelOutbound.HttpException msg 400)) ∧
    (0 ≤ sent)%Z ∧
    HotelView.nights f = Some (sent -
      if (HotelView.time_of_day (HotelView.v_check_out_date values) <?
          HotelView.time_of_day (HotelView.v_check_in_date values))%Z then 1 else 0)%Z.
Proof.
  intros f Hf b answer sent.
  destruct (HotelFlow.form_posted env request_id fetch anchorMs f values g h
    (HotelView.form_events_inv events now) Hf) as (ty & Hty & Hpipe & Ha). exists ty.
  split_and!; [done|done| |apply (HotelView.formToRequest_days anchorMs f values g Hf)..].
  fold b answer in Ha. revert Ha. unfold sent, b. cbn. unfold dateToSimulationDay.
  case_decide; case_decide; try done; lia.
Qed.

(** Today's form, with a check-out picked later on the same day. *)
Definition same_day : list HotelView.FormEvent := [HotelView.PickCheckOut (Some 5000%Z)].
Definition same_day_values : HotelView.ReservationFormValues :=
  HotelView.MkValues "STANDARD" 1 1000 5000.

Lemma valid_forms_reach_the_hotel_witness :
  HotelBootstrap.post_reservation HotelConcurrency.no_services "-" HotelConcurrency.no_network
    (HotelFlow.body_fields (HotelView.formToRequest 0 same_day_values "tom")) HotelConcurrency.one_suite_hotel =
  (Thrown (HotelOutbound.HttpException "check_out_day must be greater than check_in_day" 400),
   HotelConcurrency.one_suite_hotel).
Proof.
  destruct (valid_forms_reach_the_hotel HotelConcurrency.no_services "-" HotelConcurrency.no_network
    0 1000 same_day same_day_values "tom" HotelConcurrency.one_suite_hotel)
    as (ty & _ & _ & Ha & _); [vm_compute; reflexivity|].
  rewrite decide_True in Ha by (vm_compute; reflexivity). exact Ha.
Defined.




(** An answer of the hotel, as the schema keeps it. *)
Definition some_answer (g : string) : json := JObj
  [("id", JStr "r1"); ("guest_id", JStr g); ("room_id", JStr "room-suite-01"); ("room_type", JStr "SUITE");
   ("guest_count", JNum (NumZ 1)); ("check_in_day", JNum (NumZ 0)); ("check_out_day", JNum (NumZ 1));
   ("status", JStr "CONFIRMED")].
Definition some_reservation (g : string) : Reservation :=
  MkReservation "r1" g "room-suite-01" "SUITE" 1 0 1 "CONFIRMED".

(** C29: a guest who waits for each answer never sees a confirmation beside an
    empty form: whenever the panel has no reservation to show it has forgotten
    the last one; a guest who cancels while a booking is still pending can be
    left with the confirmation of the reservation just cancelled. *)
Theorem confirmations_follow_the_reservation {Cache} `{!QueryClient Cache} `{!HotelView.Calendar}
    anchorMs g (s : HotelPanel.HotelUi Cache) :
  (reachable (HotelPanel.ui_init g) (HotelPanel.patient_step anchorMs g) s →
   ∀ f c, HotelPanel.hotel_view g s = HotelPanel.FormAndResult f c → c = None ∧ HotelView.form_inv f) ∧
  ∃ (s' : HotelPanel.HotelUi MemCache) r,
    reachable (HotelPanel.ui_init (H := HotelView.utc) g) (HotelPanel.ui_step (H := HotelView.utc) 0 g) s' ∧
    HotelPanel.hotel_view g s' = HotelPanel.FormAndResult (HotelPanel.form s') (Some r) ∧
    HotelPanel.reservation g s' = None ∧ HotelPanel.submitting s' = None ∧ HotelPanel.cancelling s' = None.
Proof.
  split.
  - intros Hs%HotelPanel.patiently_reachable_inv f c Hv.
    split; [by eapply HotelPanel.ui_inv_no_result|].
    assert (f = HotelPanel.form s) as ->; [|apply Hs].
    revert Hv. unfold HotelPanel.hotel_view. repeat case_match; try done. by intros [= <- _].
  - destruct (HotelPanel.race_reachable g 0 (HotelView.MkValues "STANDARD" 1 0 HotelView.DAY_MS)
      (some_answer g) (some_reservation g)) as [Hr Hv]; [done|done|].
    eexists _, _. split_and!; [exact Hr|exact Hv|apply HotelPanel.cancel_success_reservation|done..].
Qed.

Lemma confirmations_follow_the_reservation_witness :
  let s := HotelPanel.fetch_ends "tom" None
    (HotelPanel.MkUi (HotelView.default_form 0) (∅ : MemCache) true None None None []) in
  HotelPanel.hotel_view "tom" s = HotelPanel.FormAndResult (HotelView.default_form 0) None ∧
  HotelView.form_inv (HotelView.default_form 0).
Proof.
  intros s. split; [reflexivity|].
  eapply (confirmations_follow_the_reservation 0 "tom" s); [|reflexivity].
  eexists. split; [exists 0%Z, ∅; split; reflexivity|].
  eapply rtc_l; [|apply rtc_refl]. split; [apply HotelPanel.ui_fetch_error|].
  intros [? [=]].
Defined.

(** ** The beach *)

(** Whatever the handlers of the mock were asked before, the client's schemas accept
    what they answer, which reads as the activities and the booking the mock holds. *)
Theorem mocked_answers_are_readable ops g :
  (∀ id g, BeachMock.Book id g ∈ ops → id ≠ "") →
  let b := foldl BeachMock.run_beach BeachMock.fresh_beach ops in
  let list := BeachMock.body (BeachMock.get_activities b).1 in
  let booked := BeachMock.body (BeachMock.by_guest g b).1 in
  conforms ActivitiesResponseSchema list = true ∧
  BeachView.read_activities (project ActivitiesResponseSchema list) =
    Some (BeachOverMock.client_activity <$> BeachMock.activities_of b) ∧
  conforms ActivityByGuestResponseSchema booked = true ∧
  BeachView.read_booked (project ActivityByGuestResponseSchema booked) =
    Some (BeachMock.current_booking (BeachMock.loadBookings b) g).
Proof.
  intros Hops b. apply BeachOverMock.seeded_answers.
  by apply BeachOverMock.seeded_run, BeachOverMock.seeded_fresh.
Qed.




(** ** The shops *)

(** C30: in every state of the goat farm's popup, a stock that is fetched while its
    countdown runs is fetched again once the countdown is out; but when the
    fetch at the end of a countdown fails, the popup, left open, stays at 0:00
    and never fetches again, however much time passes. *)
Theorem goat_countdown_goes_on_until_a_fetch_fails events now :
  let s := ShopView.Goats.goat_run events (ShopView.Goats.goat_mount now) in
  (∀ d a later,
    ShopView.Goats.is_open s = true → ShopView.Goats.is_fetching s = true → (0 < a)%Z →
    (0 < seconds_until_restock d - (ShopView.Goats.nowMs s - a) / 1000)%Z →
    (a + 1000 * seconds_until_restock d ≤ later)%Z →
    ShopView.Goats.is_fetching (ShopView.Goats.goat_run
      [ShopView.Goats.Fetched d a; ShopView.Goats.Tick later; ShopView.Goats.TimeoutFires] s) = true) ∧
  (∀ m es, ShopView.Goats.timeout_set s = true →
    let s' := ShopView.Goats.goat_run [ShopView.Goats.TimeoutFires; ShopView.Goats.FetchFails m] s in
    ShopView.Goats.left_alone_run (ShopView.Goats.nowMs s') es →
    let s'' := ShopView.Goats.goat_run es s' in
    ShopView.Goats.is_open s'' = true ∧ ShopView.Goats.is_fetching s'' = false ∧
    ShopView.Goats.timeout_set s'' = false ∧
    option_map ShopView.Goats.pop_countdown (ShopView.Goats.GoatFarmPopup true false s'') = Some "0:00").
Proof.
  intros s. assert (ShopView.Goats.goat_inv s) as Hi
    by apply ShopView.Goats.goat_run_inv, ShopView.Goats.goat_mount_inv.
  split.
  - intros d a later Ho Hf Ha Hn Hl. by apply (ShopView.Goats.restock_again s d a later).
  - intros m es Ht s' Hes s''.
    destruct (ShopView.Goats.stopped_run es s' (ShopView.Goats.failed_refetch_stops s m Hi Ht) Hes)
      as [_ Ho Hz Hts Hfe]. fold s'' in Ho, Hz, Hts, Hfe. split_and!; [done..|].
    unfold ShopView.Goats.GoatFarmPopup. rewrite Ho. cbn. by rewrite Hz.
Qed.

(** Opened, stocked for a second, and out. *)
Definition running_out : list ShopView.Goats.GoatEvent :=
  [ShopView.Goats.Toggle; ShopView.Goats.Fetched (MkGoatStock [] "" 1) 1000; ShopView.Goats.Tick 2500].

Lemma goat_countdown_goes_on_until_a_fetch_fails_witness :
  option_map ShopView.Goats.pop_countdown (ShopView.Goats.GoatFarmPopup true false
    (ShopView.Goats.goat_run [ShopView.Goats.Tick 5000; ShopView.Goats.Tick 900000]
      (ShopView.Goats.goat_run [ShopView.Goats.TimeoutFires; ShopView.Goats.FetchFails "503"]
        (ShopView.Goats.goat_run running_out (ShopView.Goats.goat_mount 500))))) = Some "0:00".
Proof.
  destruct (goat_countdown_goes_on_until_a_fetch_fails running_out 500) as [_ H].
  destruct (H "503" [ShopView.Goats.Tick 5000; ShopView.Goats.Tick 900000]) as (_ & _ & _ & Hc);
    [vm_compute; reflexivity|vm_compute; split_and!; try done; discriminate|exact Hc].
Defined.

(** An order leaves the crab's panel only for one piece of a dish of the menu
    that is on sale, by a guest who has landed and in whose name it is placed,
    and while no other order is pending. *)
Theorem orders_are_for_dishes_on_sale {Cache} `{!QueryClient Cache} session landed isLoading id
    (s : ShopView.Crab.CrabUi Cache) :
  ShopView.Crab.press session landed isLoading id s ≠ s →
  ∃ g item, guest session = Some g ∧ useIsAdmin session = false ∧ landed = true ∧
    ShopView.Crab.c_order s = None ∧
    item ∈ default [] (getQueryData (ShopView.Crab.c_cache s) ShopView.Crab.menu_key ≫= read_menu) ∧
    mi_id item = id ∧ mi_available item = true ∧
    ShopView.Crab.press session landed isLoading id s =
      ShopView.Crab.MkCrabUi (ShopView.Crab.c_cache s) (Some (placeOrder (g_id g) (g_name g) [(id, 1%Z)]))
        (ShopView.Crab.c_toasts s).
Proof.
  intros Hp. destruct (ShopView.Crab.press_spec session landed isLoading id s Hp)
    as (g & item & ? & ? & ? & ? & ? & ? & ?). exists g, item. split_and!; try done.
  revert Hp. unfold ShopView.Crab.press, ShopView.Crab.CrabPanel. by destruct (useIsAdmin session).
Qed.

Definition hungry : GuestProfile := {|
  g_id := "tom"; g_name := "Tom"; g_surname := "Cat"; g_age := 30; g_passport := EU;
  g_priority := standard; g_disability := false; g_avatar := ""; g_personality := "" |}.
Definition menu_answer : json := JObj [("items", JArr [JObj
  [("id", JStr "patty"); ("name", JStr "Krabby Patty"); ("emoji", JStr "B"); ("description", JStr "");
   ("price", JNum (NumZ 5)); ("available", JBool true); ("remaining", JNull)]])].
Definition crab_with_menu : ShopView.Crab.CrabUi MemCache :=
  ShopView.Crab.MkCrabUi (setQueryData ShopView.Crab.menu_key menu_answer ∅) None [].

Lemma orders_are_for_dishes_on_sale_witness :
  ∃ g, guest (guestSessionState hungry) = Some g ∧
    ShopView.Crab.press (guestSessionState hungry) true false "patty" crab_with_menu =
    ShopView.Crab.MkCrabUi (ShopView.Crab.c_cache crab_with_menu)
      (Some (placeOrder (g_id g) (g_name g) [("patty", 1%Z)])) [].
Proof.
  destruct (orders_are_for_dishes_on_sale (guestSessionState hungry) true false "patty" crab_with_menu)
    as (g & item & Hg & _ & _ & _ & _ & _ & _ & Hp).
  - intros H%(f_equal ShopView.Crab.c_order). vm_compute in H. discriminate H.
  - exists g. split; [exact Hg|exact Hp].
Defined.

(** ** Answers *)

(** C35: a call of the API layer returns exactly what its schema keeps of data it
    accepts, and what is returned can be read by the components that show it:
    the rooms, a reservation, an arrival, the queues, the activities and a
    guest's activity, the menu and the farm's stock are all there with every
    field they use. *)
Theorem returned_data_is_readable `{Zod} gatewayUrl axios c v :
  request gatewayUrl axios c = Returned v →
  (∃ raw, axios (axios_request gatewayUrl c) = AxiosData raw ∧
     conforms (call_schema c) raw = true ∧ v = project (call_schema c) raw) ∧
  (c = getRooms → is_Some (read_rooms v)) ∧
  ((∃ b, c = postReservation b) ∨ (∃ g, c = getReservationByGuest g) → is_Some (read_reservation v)) ∧
  ((∃ b, c = postArrival b) → is_Some (read_post_arrival v)) ∧
  ((∃ g, c = getArrivalStatus g) → is_Some (read_arrival v)) ∧
  (c = getQueue → is_Some (read_queue v)) ∧
  (c = getActivities → is_Some (BeachView.read_activities v)) ∧
  ((∃ g, c = getActivityByGuest g) → is_Some (BeachView.read_booked v)) ∧
  (c = getMenu → is_Some (read_menu v)) ∧
  (c = getGoatFarmStock → is_Some (read_goat_stock v)).
Proof.
  intros (raw & Hraw & Hc & ->)%request_checked. split; [by exists raw|].
  split_and!.
  - intros ->. by apply reads_rooms.
  - intros [[b ->]|[g ->]]; by apply reads_reservation.
  - intros [b ->]. by apply reads_post_arrival.
  - intros [g ->]. by apply reads_arrival.
  - intros ->. by apply reads_queue.
  - intros ->. by apply BeachView.reads_activities.
  - intros [g ->]. by apply BeachView.reads_booked.
  - intros ->. by apply reads_menu.
  - intros ->. by apply reads_goat_stock.
Qed.

#[local] Existing Instance zod_reference.

Lemma returned_data_is_readable_witness :
  is_Some (read_reservation (some_answer "tom")).
Proof.
  apply (returned_data_is_readable "" (λ _, AxiosData (some_answer "tom"))
    (getReservationByGuest "tom") (some_answer "tom")); [vm_compute; reflexivity|].
  right. exists "tom". reflexivity.
Defined.
