(* ===== verification/ViewProperties.v ===== *)
(** * What holds of the client's views

    The properties of what a user sees and presses: the administrator's view of
    the parrot's conversations, the draft of a chat, the guests in the carousel
    and the hotel's form. *)

From S2P Require Import Prelude Json JsString JsonText JsonPretty Zod Session WebLib QueryObserver.
From S2P Require Import ParrotAdmin ParrotConversations.
From S2P Require ParrotChat ChatView ChatVisits IslandPages Carousel GuestSelection.
From S2P Require WebTypes HotelView HotelForm Simulation.

(** ** The administrator's view of the conversations *)

(** C24: whatever is pressed and answered, the administrator's panel shows what was
    heard: always the transcript of the selected guest or the dashboard; a
    transcript with entries is one that was answered for its guest; as long as the
    dashboard stays cached, metrics once answered stay shown whatever fails later,
    while the rows of the list are shown as last answered, but hidden by a failed
    poll until the next answer. *)
Theorem admin_panel_shows_what_was_heard `{UseQuery Query} fmt guests es :
  let s := admin_run (Query := Query) fmt guests es in
  is_Some (admin_view fmt guests s) ∧
  (∀ v items, admin_view fmt guests s = Some (TranscriptShown v) → transcript_body v = ReadyView items →
    ∃ g t, ParrotAdminPanel (selectedGuestId s) = Some g ∧ TranscriptEvent g (Answered t) ∈ es ∧
      items = map (map node_view) (map TranscriptItem (transcript_entries t))) ∧
  (DropDashboard ∉ es → ∀ metrics rows, admin_view fmt guests s = Some (Dashboard metrics rows) →
    (∀ a, last_answer (metrics_events es) = Some a → metrics = ReadyView (metrics_view a)) ∧
    (∀ l, last_answer (list_events es) = Some l → last_failure (list_events es) = None →
      rows = ReadyView (length (conversations l),
        (λ c, ParrotConversationRow fmt guests c (bool_decide (Some (summary_guest_id c) = selectedGuestId s)))
          <$> conversations l)) ∧
    (∀ l m, last_answer (list_events es) = Some l → last_failure (list_events es) = Some m → m ≠ "" →
      rows = ErrorView m)).
Proof.
  intros s. split_and!.
  - apply admin_view_shown.
  - intros v items Hv Hb. unfold admin_view in Hv.
    destruct (ParrotAdminPanel (selectedGuestId s)) as [g|] eqn:Hg;
      [|by destruct (metrics_query s), (list_query s)].
    destruct (transcript_queries s !! g) as [q|] eqn:Hq; simplify_eq/=.
    destruct (transcripts_kept fmt guests es) as [_ Hk].
    destruct (Hk g q Hq) as (life & -> & Hlife).
    destruct (transcript_body_ready fmt guests g _ _ Hb) as (t & Ht & ->).
    exists g, t. split_and!; [done| |done]. apply Hlife.
    by rewrite (proj1 (query_run_fields life)) in Ht.
  - intros Hd metrics rows Hv. destruct (dashboard_kept fmt guests es Hd) as [(q & Hq & Hlq) (k & Hk & Hlk)].
    unfold admin_view in Hv. fold s in Hq, Hk. rewrite Hq, Hk in Hv.
    destruct (ParrotAdminPanel (selectedGuestId s)); [by destruct (transcript_queries s !! _)|].
    simplify_eq/=. split_and!.
    + intros a Ha. destruct (ParrotMetrics_lived _ _ Hlq) as [[_ ?]|[(m & _ & _ & ?)|(a' & -> & ?)]]; congruence.
    + intros l Hl Hf.
      destruct (ParrotConversationList_lived fmt guests _ _ (selectedGuestId s) Hlk)
        as [[_ ?]|[(m & _ & ?)|[-> _]]]; [congruence..|]. by rewrite Hl.
    + intros l m Hl Hf Hm.
      destruct (ParrotConversationList_lived fmt guests _ _ (selectedGuestId s) Hlk)
        as [[_ ?]|[(m' & -> & ?)|[_ [?|?]]]]; congruence.
Qed.

(** Metrics and two conversations are answered, then polled in vain. *)
Definition no_metrics : AdminMetrics := MkMetrics 2 10 4 2 2 0 [] 0 0 0 0 0 0.
Definition two_conversations : ConversationsList := MkConversations
  [MkSummary "tom" (NumZ 0) 1 2 0 false false false; MkSummary "ann" (NumZ 0) 1 2 0 false true false].
Definition polled_in_vain : list AdminEvent :=
  [MetricsEvent (Answered no_metrics); ListEvent (Answered two_conversations);
   MetricsEvent Refetch; ListEvent Refetch; MetricsEvent (FetchFailed "502"); ListEvent (FetchFailed "502")].

Lemma admin_panel_shows_what_was_heard_witness :
  admin_view (Query := MemQuery) (λ _, "now") [] (admin_run (λ _, "now") [] polled_in_vain) =
    Some (Dashboard (ReadyView (metrics_view no_metrics)) (ErrorView "502")).
Proof.
  destruct (admin_panel_shows_what_was_heard (Query := MemQuery) (λ _, "now") [] polled_in_vain) as (_ & _ & Hd).
  destruct (admin_view (λ _, "now") [] (admin_run (λ _, "now") [] polled_in_vain)) as [[v|m r]|] eqn:Hv;
    [vm_compute in Hv; discriminate| |vm_compute in Hv; discriminate].
  assert (DropDashboard ∉ polled_in_vain) as Hk.
  { unfold polled_in_vain. rewrite !not_elem_of_cons. split_and!; [discriminate..|]. apply not_elem_of_nil. }
  destruct (Hd Hk m r eq_refl) as (Hm & _ & Hr).
  rewrite (Hm no_metrics eq_refl), (Hr two_conversations "502" eq_refl eq_refl ltac:(discriminate)).
  reflexivity.
Defined.

(** ** The draft of a chat *)

Abbreviation visited es := (ChatVisits.visit_run es ChatVisits.no_visits).
Abbreviation chat_of v := (ChatView.panel_chat (ChatVisits.live v)).




(** ** A chat that is closed and opened again *)

Definition tom_history (ms : list ParrotChat.ChatMessage) : ParrotChat.ChatHistory :=
  {| ParrotChat.history_guest := "tom"; ParrotChat.messages := ms |}.
Definition said (r : ParrotChat.Role) (text : string) : ParrotChat.ChatMessage :=
  {| ParrotChat.content := Some text; ParrotChat.role := r |}.

(** Tom opens the chat, says [text] and closes it before the answer. *)
Definition says (text id : string) : list ChatVisits.VisitEvent :=
  [ChatVisits.OpenPanel; ChatVisits.InPanel (ChatView.Typed text);
   ChatVisits.InPanel (ChatView.ClickSend id)].
Definition tom_arrives : list ChatVisits.VisitEvent :=
  [ChatVisits.InPanel (ChatView.GuestChanges (Some "tom"));
   ChatVisits.InPanel (ChatView.HistoryArrives "tom" (tom_history []))].
Definition first_said : list ChatVisits.VisitEvent := tom_arrives ++ says "first" "1".

(** He says something else on the next visit, which is answered first. *)
Definition overtaken : list ChatVisits.VisitEvent :=
  first_said ++ ChatVisits.ClosePanel :: says "second" "2" ++
  [ChatVisits.InPanel (ChatView.ReplyArrives "two"); ChatVisits.OrphanReplies 0 "one"].
(** The answer is an error, and the panel is closed. *)
Definition unheard : list ChatVisits.VisitEvent :=
  first_said ++ [ChatVisits.ClosePanel; ChatVisits.OrphanFails 0 "502"; ChatVisits.OpenPanel].
(** The history, fetched again, has the exchange before the answer arrives. *)
Definition doubled : list ChatVisits.VisitEvent :=
  first_said ++
  [ChatVisits.InPanel (ChatView.HistoryArrives "tom"
     (tom_history [said ParrotChat.User "first"; said ParrotChat.Assistant "one"]));
   ChatVisits.InPanel (ChatView.ReplyArrives "one")].

(** C21: over any visits to a chat, every turn posted is answered, failed or in
    flight, once; nothing is posted for a guest before a history of that guest was
    loaded, and from a load on, until the next or until the history is dropped, the
    guest's history is what was loaded and then exactly the exchanges answered, in the
    order of the answers, of open and closed visits alike; closing the panel forgets
    the draft and the failed turn but no turn in flight; only closing lets a second
    turn be in flight, and then a later turn can come before an earlier one, and the
    failure of one is never shown; and a history fetched while its turn is in flight
    has the exchange twice. *)
Theorem closed_chats_keep_their_turns es :
  let v := visited es in
  (ParrotChat.posted (chat_of v) ≡ₚ ChatVisits.settled es ChatVisits.no_visits ++ ChatVisits.flights v) ∧
  (∀ g, Forall (λ e, ChatVisits.loads g e = false) es →
     Forall (λ t, ParrotChat.turn_guest t ≠ g) (ParrotChat.posted (chat_of v))) ∧
  (∀ es1 g h es2, es = es1 ++ ChatVisits.InPanel (ChatView.HistoryArrives g h) :: es2 →
     Forall (ChatVisits.keeps g) es2 →
     ParrotChat.messages_of (chat_of v) g = ParrotChat.messages h ++
       ChatVisits.answered es2 (visited (es1 ++ [ChatVisits.InPanel (ChatView.HistoryArrives g h)])) g) ∧
  (ChatVisits.ClosePanel ∉ es → ChatVisits.orphans v = []) ∧
  (let v' := ChatVisits.visit_event ChatVisits.ClosePanel v in
   ChatVisits.panel_open v = true →
   ChatView.draft (ChatVisits.live v') = "" ∧ ParrotChat.failedTurn (chat_of v') = None ∧
   ChatVisits.flights v' = ChatVisits.flights v ∧
   ParrotChat.histories (chat_of v') = ParrotChat.histories (chat_of v)) ∧
  (ParrotChat.turn_message <$> ParrotChat.posted (chat_of (visited overtaken)) = ["first"; "second"] ∧
   ParrotChat.messages_of (chat_of (visited overtaken)) "tom" =
     [said ParrotChat.User "second"; said ParrotChat.Assistant "two";
      said ParrotChat.User "first"; said ParrotChat.Assistant "one"]) ∧
  (ParrotChat.turn_message <$> ParrotChat.posted (chat_of (visited unheard)) = ["first"] ∧
   ChatVisits.flights (visited unheard) = [] ∧
   ParrotChat.threadItems (chat_of (visited unheard)) = []) ∧
  ParrotChat.messages_of (chat_of (visited doubled)) "tom" =
    [said ParrotChat.User "first"; said ParrotChat.Assistant "one";
     said ParrotChat.User "first"; said ParrotChat.Assistant "one"].
Proof.
  intros v. split; [|split; [|split; [|split; [|split]]]].
  - by apply (ChatVisits.visit_run_accounts es ChatVisits.no_visits []).
  - intros g Hes. by apply ChatVisits.nothing_said_unheard.
  - intros es1 g h es2 Hes Hk. subst v. rewrite Hes. by apply ChatVisits.history_since_load.
  - intros Hc. by apply ChatVisits.orphans_of_closing.
  - intros v' Ho. subst v'. cbn [ChatVisits.visit_event]. unfold ChatVisits.close_panel. by rewrite Ho.
  - split_and!; by vm_compute.
Qed.

(** Tom comes back to an old conversation, adds to it and leaves before the answer. *)
Definition old_words : list ParrotChat.ChatMessage := [said ParrotChat.User "before"; said ParrotChat.Assistant "zero"].
Definition left_early : list ChatVisits.VisitEvent :=
  says "first" "1" ++ [ChatVisits.ClosePanel; ChatVisits.OrphanReplies 0 "one"].

Lemma closed_chats_keep_their_turns_witness :
  ParrotChat.messages_of (chat_of (visited
    ([ChatVisits.InPanel (ChatView.GuestChanges (Some "tom"))] ++
     ChatVisits.InPanel (ChatView.HistoryArrives "tom" (tom_history old_words)) :: left_early))) "tom" =
  old_words ++ [said ParrotChat.User "first"; said ParrotChat.Assistant "one"].
Proof.
  destruct (closed_chats_keep_their_turns
    ([ChatVisits.InPanel (ChatView.GuestChanges (Some "tom"))] ++
     ChatVisits.InPanel (ChatView.HistoryArrives "tom" (tom_history old_words)) :: left_early)) as (_ & _ & H & _).
  rewrite (H _ _ _ _ eq_refl ltac:(unfold left_early, says; repeat constructor)). vm_compute. reflexivity.
Defined.

(** ** Tool payloads *)

(** C32: in a transcript, the row of a tool shows a payload that is no JSON as it is,
    and any other, if a double tells its numbers apart and writes them without an
    exponent, as indented text that reads as the same value, with the keys in the
    order an object gives them, so that showing it again changes nothing; and the
    rows of an entry's calls come in order before its words. *)
Theorem tool_payloads_keep_their_value is_call name raw :
  let shown := row_payload (ParrotToolRow is_call name raw) in
  (JSON_parse raw = None → shown = raw) ∧
  (∀ v, JSON_parse raw = Some v → plain_numbers v →
     JSON_parse shown = Some (own_order v) ∧ own_order (own_order v) = own_order v ∧ row_payload (ParrotToolRow is_call name shown) = shown) ∧
  (∀ e c cs i k, entry_role e ≠ ToolEntry → tool_calls e = Some (c :: cs) → (c :: cs) !! i = Some k →
     TranscriptItem e !! i =
       Some (ToolRow true (default "unknown" (call_name k)) (default "" (call_arguments k)))).
Proof.
  pose proof (prettyJson_spec raw) as Hspec. cbn. split_and!.
  - intros Hn. by rewrite Hn in Hspec.
  - intros v Hv Hf. rewrite Hv in Hspec. destruct (Hspec Hf) as [? ?].
    by rewrite own_order_idem.
  - intros e c cs i k Hr Hc Hi. by apply (transcript_item_calls e c cs Hr Hc).
Qed.

(** An object whose keys are indices, out of order. *)
Definition numbered : string := JSON_stringify (JObj [("12", JNum (NumZ 7)); ("3", JNull)]).

Lemma tool_payloads_keep_their_value_witness :
  JSON_parse (row_payload (ParrotToolRow true "lookup" numbered)) =
    Some (JObj [("3", JNull); ("12", JNum (NumZ 7))]) ∧
  row_payload (ParrotToolRow true "lookup" "crab") = "crab".
Proof.
  split.
  - destruct (proj1 (proj2 (tool_payloads_keep_their_value true "lookup" numbered))
      (JObj [("12", JNum (NumZ 7)); ("3", JNull)])) as [Hp _];
      [vm_compute; reflexivity|vm_compute; auto|].
    rewrite Hp. vm_compute. reflexivity.
  - apply (tool_payloads_keep_their_value true "lookup" "crab"). vm_compute. reflexivity.
Defined.

(** ** Choosing a guest *)

(** C27: whatever is pressed, fed or reinitialised, and however often the effects run,
    the carousel's buttons are enabled as its library says and a selected slide is
    heard exactly once, while every further run of the effects leaves one more
    registration for [reInit] behind; and from wherever a looping carousel of the
    guests stands, each of them comes to the front within one turn of the button,
    and choosing the guest in front signs that guest in on the map. *)
Theorem every_guest_can_be_chosen `{Carousel.Embla Api} ADMIN_PASSCODE guests has_setApi es api g page :
  let c := Carousel.carousel_run has_setApi es Carousel.carousel_mount in
  Carousel.api c = Some api →
  (Carousel.can_prev c = Carousel.canScrollPrev api ∧ Carousel.can_next c = Carousel.canScrollNext api ∧
   Carousel.count Carousel.SelectEvent c = 1 ∧
   Carousel.count Carousel.ReInitEvent (Carousel.carousel_event has_setApi Carousel.EffectsAgain c) =
     S (Carousel.count Carousel.ReInitEvent c)) ∧
  (Carousel.loops api = true → Carousel.slides api = length guests → 1 < length guests → g ∈ guests →
   IslandPages.path page = IslandPages.Home →
   ∃ k i, k < length guests ∧
     let c' := Carousel.carousel_run has_setApi (replicate k Carousel.PressNext) c in
     Carousel.selection c' = Some i ∧ GuestSelection.front_guest guests c' = Some g ∧
     let page' := IslandPages.app_event ADMIN_PASSCODE guests (IslandPages.ChooseGuest i) page in
     session (IslandPages.app_session page') = Some (GuestSession g) ∧
     IslandPages.path page' = IslandPages.Map).
Proof.
  intros c Hapi. pose proof (Carousel.carousel_run_inv has_setApi es) as Hinv. fold c in Hinv. split.
  - destruct (Carousel.inv_flags c Hinv api Hapi) as [Hp Hn]. split_and!; [done..| |].
    + by apply (Carousel.inv_select c Hinv api).
    + by apply Carousel.reinit_stays; exists api.
  - intros Hl Hs Hlen Hg Hhome.
    destruct (GuestSelection.guest_comes_to_front guests has_setApi c api g) as (k & Hk & Hf); [done..|].
    unfold GuestSelection.front_guest in Hf. apply bind_Some in Hf as (i & Hi & Hgi).
    exists k, i. cbv zeta. split_and!; [done|done| | |].
    + unfold GuestSelection.front_guest. by rewrite Hi.
    + unfold IslandPages.app_event. by rewrite Hhome, Hgi.
    + unfold IslandPages.app_event. by rewrite Hhome, Hgi.
Qed.

Definition guest_named (name : string) : GuestProfile := {|
  g_id := name; g_name := name; g_surname := "Cat"; g_age := 3; g_passport := EU;
  g_disability := false; g_priority := standard; g_avatar := ""; g_personality := "calm" |}.

Lemma every_guest_can_be_chosen_witness :
  ∃ k i, k < 3 ∧
    let c' := Carousel.carousel_run false (replicate k Carousel.PressNext)
      (Carousel.carousel_run false [Carousel.ApiReady (Carousel.MkRing 3 0 true); Carousel.PressPrev]
         Carousel.carousel_mount) in
    Carousel.selection c' = Some i ∧
    session (IslandPages.app_session (IslandPages.app_event "kiki" (guest_named <$> ["ann"; "bob"; "tom"])
      (IslandPages.ChooseGuest i) (IslandPages.first_visit IslandPages.Home))) = Some (GuestSession (guest_named "bob")).
Proof.
  destruct (proj2 (every_guest_can_be_chosen (H := Carousel.ring_embla) "kiki" (guest_named <$> ["ann"; "bob"; "tom"]) false
    [Carousel.ApiReady (Carousel.MkRing 3 0 true); Carousel.PressPrev] (Carousel.MkRing 3 2 true)
    (guest_named "bob") (IslandPages.first_visit IslandPages.Home) ltac:(vm_compute; reflexivity)) eq_refl eq_refl
    ltac:(cbn; lia) ltac:(right; left) eq_refl)
    as (k & i & Hk & Hi & _ & Hs & _).
  exists k, i. cbv zeta. split_and!; [exact Hk|exact Hi|exact Hs].
Defined.

(** ** The hotel's form *)

(** C36: however the form is used, with requests pending or not, nothing on it can be
    changed while one is pending; it names one room type and at least one guest, and
    shows a badge of nights exactly when the schema accepts it.  No error is shown
    before a submit; a submit shows the refusal beneath the check-out exactly when
    both dates are set and there is no badge, and a missing date beneath its field;
    after a submit, picking the check-out renews its refusal, but picking an earlier
    check-in leaves one standing beside the badge.  Badge and button say the same
    number of nights, but for a stay of less than a day, where the badge says none
    and the button none at all. *)
Theorem form_shows_what_is_wrong `{HotelView.Calendar} msg es now e :
  let s := HotelForm.form_run msg es (HotelForm.fresh_form now) in
  let v := HotelForm.form_view false s in
  HotelForm.use_form msg true e s = s ∧
  (∀ c, HotelForm.values (HotelForm.use_form msg false (HotelForm.Use c) s) =
     HotelView.form_event c (HotelForm.values s)) ∧
  ((false, HotelForm.PressSubmit) ∉ es →
   HotelForm.df_error (HotelForm.fv_check_in v) = None ∧
   HotelForm.df_error (HotelForm.fv_check_out v) = None ∧ HotelForm.fv_guests_error v = None) ∧
  ((HotelView.guest_count (HotelForm.values s) ≤ max_safe_integer)%Z →
   (λ b, b.1.1.1) <$> filter (λ b, b.2 = true) (HotelForm.fv_rooms v) = [HotelView.room_type (HotelForm.values s)] ∧
   (1 ≤ HotelForm.st_value (HotelForm.fv_guests v))%Z ∧
   (is_Some (HotelForm.fv_badge v) ↔
    ∃ values, HotelView.ReservationFormSchema (HotelForm.values s) = Some (inr values)) ∧
   (let v' := HotelForm.form_view false (HotelForm.use_form msg false HotelForm.PressSubmit s) in
    HotelForm.fv_guests_error v' = None ∧
    HotelForm.df_error (HotelForm.fv_check_in v') =
      (if decide (is_Some (HotelView.check_in_date (HotelForm.values s))) then None
       else HotelForm.shown_error (Some (msg "check_in_date" (HotelForm.values s)))) ∧
    HotelForm.df_error (HotelForm.fv_check_out v') =
      (if decide (HotelView.check_out_date (HotelForm.values s) = None) then
         HotelForm.shown_error (Some (msg "check_out_date" (HotelForm.values s)))
       else if decide (is_Some (HotelForm.fv_badge v') ∨ HotelView.check_in_date (HotelForm.values s) = None) then None
       else Some "Check-out must be after check-in")) ∧
   ((false, HotelForm.PressSubmit) ∈ es → is_Some (HotelView.check_in_date (HotelForm.values s)) → ∀ o,
    let v' := HotelForm.form_view false
      (HotelForm.use_form msg false (HotelForm.Use (HotelView.PickCheckOut (Some o))) s) in
    HotelForm.df_error (HotelForm.fv_check_out v') =
      (if decide (is_Some (HotelForm.fv_badge v')) then None else Some "Check-out must be after check-in")) ∧
   ∀ n, HotelView.nights (HotelForm.values s) = Some n →
     HotelForm.fv_badge v = Some (show_int n +:+ "n") ∧
     HotelForm.fv_submit_text v =
       (if (n =? 0)%Z then "Book room"
        else "Book " +:+ show_int n +:+ " night" +:+ (if (1 <? n)%Z then "s" else ""))) ∧
  (HotelForm.df_error (HotelForm.fv_check_out v) = Some "Check-out must be after check-in" →
   ∀ i o, HotelView.check_out_date (HotelForm.values s) = Some o → (i < o)%Z →
   let v' := HotelForm.form_view false
     (HotelForm.use_form msg false (HotelForm.Use (HotelView.PickCheckIn (Some i))) s) in
   is_Some (HotelForm.fv_badge v') ∧
   HotelForm.df_error (HotelForm.fv_check_out v') = Some "Check-out must be after check-in").
Proof.
  intros s v. pose proof (HotelForm.form_run_inv msg es now) as Hi. fold s in Hi.
  pose proof (HotelForm.isSubmitted_iff msg es (HotelForm.fresh_form now) eq_refl) as Hsub. fold s in Hsub.
  split_and!.
  - apply HotelForm.pending_form_is_kept.
  - intros c. apply HotelForm.idle_form_follows.
  - intros Hn. assert (HotelForm.isSubmitted s = false) as Hs%HotelForm.unsubmitted_no_errors
      by by apply not_true_iff_false; rewrite Hsub.
    fold s in Hs. by apply HotelForm.no_errors_shown.
  - intros Hg. split_and!; [by apply HotelForm.one_room_selected|apply Hi|by apply HotelForm.badge_iff_valid|..].
    + by apply HotelForm.submitted_errors_shown.
    + intros Hin [i Hci] o. apply (HotelForm.check_out_renews msg s i o); [done..|by apply Hsub|done].
    + intros n Hn. by apply HotelForm.badge_and_button.
  - intros He i o Ho Hlt. apply (HotelForm.refusal_goes_stale msg s i o); [|by apply (HotelForm.shown_error_Some false)|done..].
    destruct (HotelForm.isSubmitted s) eqn:Hs; [done|]. apply HotelForm.unsubmitted_no_errors in Hs.
    fold s in Hs. destruct (HotelForm.no_errors_shown false s Hs) as (_ & Hn & _). fold v in Hn. congruence.
Qed.

(** In the afternoon the same day's morning is picked as the check-out, and the form
    submitted; then the check-in is moved to the day before. *)
Definition refused_form : list (bool * HotelForm.UseEvent) :=
  [(false, HotelForm.Use (HotelView.PickCheckOut (Some 0%Z))); (false, HotelForm.PressSubmit)].
Definition refused_state : HotelForm.FormState :=
  HotelForm.form_run (H := HotelView.utc) (λ _ _, "Invalid date") refused_form
    (HotelForm.fresh_form (H := HotelView.utc) (12 * 3600000)%Z).

Lemma form_shows_what_is_wrong_witness :
  let v' := HotelForm.form_view (H := HotelView.utc) false (HotelForm.use_form (H := HotelView.utc) (λ _ _, "Invalid date") false
    (HotelForm.Use (HotelView.PickCheckIn (Some (- HotelView.DAY_MS)%Z))) refused_state) in
  is_Some (HotelForm.fv_badge v') ∧
  HotelForm.df_error (HotelForm.fv_check_out v') = Some "Check-out must be after check-in".
Proof.
  destruct (form_shows_what_is_wrong (H := HotelView.utc) (λ _ _, "Invalid date") refused_form (12 * 3600000)%Z
    HotelForm.PressSubmit) as (_ & _ & _ & _ & Hstale).
  apply (Hstale ltac:(vm_compute; reflexivity) (- HotelView.DAY_MS)%Z 0%Z); [vm_compute; reflexivity|].
  unfold HotelView.DAY_MS. lia.
Defined.
