(* ===== verification/IslandProperties.v ===== *)
(** * What a guest sees is so

    The properties of the whole island ([Island]): what any page's feeds say of
    bookings is in the hotel's tables, the feeds replay the broadcast log, and
    what the hotel announced can still reach every open page, however requests,
    posts, connections and readers interleave. *)

From S2P Require Import Prelude Json Zod JsString JsonText Interleave.
From S2P Require HotelDb HotelOutbound HotelReservation HotelReservationSpec HotelInvariant.
From S2P Require HotelConcurrency HotelAnnouncements.
From S2P Require BroadcastTypes BroadcastAuth EventBus BroadcastRoutes PostedEvents.
From S2P Require Import BroadcastService.
From S2P Require Import WebTypes EventsStore IslandEvent UseBroadcast Wire WebWire FeedHistory.
From S2P Require Import Island IslandInvariant.

(** A request without credentials, and a page's. *)
Definition no_auth : BroadcastAuth.AuthRequest := {|
  BroadcastAuth.authorization := None; BroadcastAuth.x_service_token := None;
  BroadcastAuth.query_token := None; BroadcastAuth.x_admin_passcode := None |}.
Definition page_auth : BroadcastAuth.AuthRequest := {|
  BroadcastAuth.authorization := None; BroadcastAuth.x_service_token := None;
  BroadcastAuth.query_token := Some (BroadcastAuth.QString "fe");
  BroadcastAuth.x_admin_passcode := None |}.

Section facts.
Context {DB : Type} `{HotelDb.PrismaClient DB} `{Zod} `{EventSource}.
Variable env : HotelOutbound.HotelEnv.
Variable service_env : string → option string.
Implicit Types (i : Island DB).

Abbreviation island_steps := (rtc (island_step env service_env)).

(** A connection that is still open has been written all that was due. *)
Lemma open_stream_due s r :
  service_inv s → r ∈ (EventBus.res <$> EventBus.clients (bus s)) →
  ∃ who n, grants s !! r = Some (who, n) ∧
    EventBus.stream r (bus s) =
      EventBus.connected_chunk :: (EventBus.frame <$> due who (drop n (EventBus.log (bus s)))).
Proof.
  intros Hs (c & -> & Hc)%list_elem_of_fmap.
  destruct (si_granted s Hs c Hc) as (who & n & Hg & _ & _ & ->). by exists who, n.
Qed.

(** A page that has read all of an open connection shows all that was due. *)
Lemma caught_up past s p shown r :
  service_inv s → page_shows past s p shown →
  link p = Some (r, length (EventBus.stream r (bus s))) →
  r ∈ (EventBus.res <$> EventBus.clients (bus s)) →
  ∃ who n before, grants s !! r = Some (who, n) ∧
    shown = before ++ due who (drop n (EventBus.log (bus s))).
Proof.
  intros Hs [_ _ Hp] Hl Ho. rewrite Hl in Hp. destruct Hp as (who & n & before & Hg & _ & _ & _ & ->).
  destruct (open_stream_due s r Hs Ho) as (who' & n' & Hg' & Hst).
  rewrite Hg in Hg'. injection Hg' as <- <-. exists who, n, before. split; [done|].
  rewrite Hst. cbn. by rewrite length_fmap, take_ge.
Qed.

(** Reading on, a page gets to the end of its stream. *)
Lemma catch_up p r m i page k :
  pages i !! p = Some page → link page = Some (r, k) →
  length (EventBus.stream r (bus (service i))) = k + m →
  ∃ i' page', island_steps i i' ∧ hotel i' = hotel i ∧ service i' = service i ∧
    pages i' !! p = Some page' ∧
    link page' = Some (r, length (EventBus.stream r (bus (service i)))).
Proof.
  revert i page k. induction m as [|m IH]; intros i page k Hp Hl Hlen.
  { exists i, page. rewrite Hlen, Nat.add_0_r. split_and!; [apply rtc_refl|done..]. }
  destruct (lookup_lt_is_Some_2 (EventBus.stream r (bus (service i))) k) as [chunk Hc]; [lia|].
  set (i1 := act env service_env (PageReads p (λ _, "")) i).
  destruct (IH i1 (read_chunk (λ _, "") (service i) page) (S k)) as (i' & page' & Hs & Hh & Hv & Hp' & Hl').
  - cbn. by rewrite list_lookup_alter_eq, Hp.
  - unfold read_chunk. by rewrite Hl, Hc.
  - cbn. lia.
  - exists i', page'. split_and!; try done. eapply rtc_l; [|exact Hs].
    by exists (PageReads p (λ _, "")).
Qed.

Lemma page_reads_on i p page r k :
  island_inv env i → pages i !! p = Some page → link page = Some (r, k) →
  ∃ i' page', island_steps i i' ∧ hotel i' = hotel i ∧ service i' = service i ∧
    pages i' !! p = Some page' ∧
    link page' = Some (r, length (EventBus.stream r (bus (service i)))).
Proof.
  intros Hi Hp Hl. destruct (Forall_lookup_1 _ _ _ _ (ii_pages _ _ Hi) Hp) as (shown & [_ _ Hpos]).
  rewrite Hl in Hpos. destruct Hpos as (who & n & before & _ & _ & Hk & _).
  apply (catch_up p r (length (EventBus.stream r (bus (service i))) - k) i page k); [done..|lia].
Qed.

(** The newest entry of a feed shows the last event that was taken in. *)
Lemma feeds_of_newest l e s ch :
  feeds_of (l ++ [e]) s → arrives e true ch = true →
  ∃ e', head (events s ch) = Some e' ∧ shown_as ch e e'.
Proof.
  intros Hf Ha. destruct (Hf ch) as (entries & He & Hs).
  unfold arrived in He. rewrite filter_app, filter_cons, decide_True, filter_nil, reverse_app in He
    by done.
  apply Forall2_cons_inv_l in He as (e' & rest & Hsh & _ & ->). exists e'. by rewrite Hs.
Qed.

(** An announcement that arrives is written to every open stream of the hotel's
    channel, and is then the last event due there. *)
Lemma announcement_due i k request_id url ty e uuid :
  island_inv env i → HotelOutbound.BROADCAST_SERVICE_URL env = Some url →
  HotelOutbound.sent (hotel i) !! k = Some (HotelOutbound.publish_request request_id url ty e) →
  HotelAnnouncements.told (HotelDb.tables (HotelOutbound.db (hotel i))) ty e →
  let i' := act env service_env (AnnouncementArrives k no_auth uuid) i in
  service i' = MkService (EventBus.broadcast (relayed uuid ty e) (bus (service i))) (grants (service i)) ∧
  pages i' = pages i ∧ hotel i' = hotel i.
Proof.
  intros Hi Hurl Hk He. cbn [act]. rewrite Hk. cbn [mbind option_bind].
  rewrite (posted_to_publish env _ _ _ _ _ Hurl He). cbn [service pages hotel].
  split; [|done]. unfold post. destruct (hotel_event_relayed ty e service_env no_auth uuid (bus (service i)))
    as (h & -> & ->). done.
Qed.

Lemma admin_code auth :
  BroadcastAuth.requireAdmin service_env auth = true →
  ∃ code, service_env "ADMIN_PASSCODE" = Some code ∧ code ≠ "" ∧
    BroadcastAuth.x_admin_passcode auth = Some code.
Proof. intros (code & ? & ? & ?)%BroadcastAuth.requireAdmin_iff. by exists code. Qed.

Lemma reachable_step i i' :
  island_reachable env service_env i → island_steps i i' → island_reachable env service_env i'.
Proof. intros (i0 & Hi0 & Hi) Hs. exists i0. split; [done|]. by etrans. Qed.
(** The announcement arrives and the page reads to the end: it is the last
    event the page took in. *)
Lemma announcement_read i p page request_id url ty e r k who n :
  island_reachable env service_env i → pages i !! p = Some page →
  HotelOutbound.BROADCAST_SERVICE_URL env = Some url →
  HotelOutbound.publish_request request_id url ty e ∈ HotelOutbound.sent (hotel i) →
  HotelAnnouncements.told (HotelDb.tables (HotelOutbound.db (hotel i))) ty e →
  link page = Some (r, k) → r ∈ (EventBus.res <$> EventBus.clients (bus (service i))) →
  grants (service i) !! r = Some (who, n) →
  BroadcastTypes.Hotel ∈ BroadcastAuth.allowedChannels who →
  ∃ i' page' shown, island_steps i i' ∧ hotel i' = hotel i ∧ pages i' !! p = Some page' ∧
    feeds_of (web_event <$> (shown ++ [relayed "id" ty e])) (store (client page')).
Proof.
  intros Hi Hp Hurl Hrq He Hl Ho Hg Hch. pose proof (island_reachable_inv _ _ _ Hi) as Hinv.
  apply list_elem_of_lookup_1 in Hrq as [j Hrq].
  set (a := AnnouncementArrives j no_auth "id"). set (i1 := act env service_env a i).
  destruct (announcement_due i j request_id url ty e "id" Hinv Hurl Hrq He) as (Hs1 & Hp1 & Hh1).
  fold a i1 in Hs1, Hp1, Hh1.
  assert (island_steps i i1) as Hstep by (apply rtc_once; by exists a).
  pose proof (island_reachable_inv _ _ _ (reachable_step _ _ Hi Hstep)) as Hinv1.
  destruct (page_reads_on i1 p page r k Hinv1) as (i2 & page2 & Hsteps & Hh2 & Hs2 & Hp2 & Hl2);
    [by rewrite Hp1|done|].
  assert (island_steps i i2) as Hsteps' by (by etrans).
  pose proof (island_reachable_inv _ _ _ (reachable_step _ _ Hi Hsteps')) as Hinv2.
  destruct (Forall_lookup_1 _ _ _ _ (ii_pages _ _ Hinv2) Hp2) as (shown & Hsh).
  rewrite <-Hs2 in Hl2.
  destruct (caught_up _ _ _ _ _ (ii_service _ _ Hinv2) Hsh Hl2) as (who2 & n2 & before & Hg2 & Heq).
  { rewrite Hs2, Hs1. cbn [bus]. by rewrite EventBus.broadcast_written. }
  assert (grants (service i2) = grants (service i)) as Hgr by (by rewrite Hs2, Hs1).
  rewrite Hgr, Hg in Hg2. injection Hg2 as <- <-.
  destruct (si_entitled _ (ii_service _ _ Hinv) r who n Hg) as (m & Hm & _).
  assert (shown = (before ++ due who (drop n (EventBus.log (bus (service i))))) ++
    [relayed "id" ty e]) as ->.
  { rewrite Heq, Hs2, Hs1. cbn [bus]. rewrite EventBus.broadcast_written. cbn [EventBus.log].
    rewrite drop_app_le by lia. unfold due. rewrite filter_app, filter_cons, filter_nil, decide_True, app_assoc by done.
    done. }
  exists i2, page2. eexists. split_and!; [done|by rewrite Hh2|done|apply Hsh].
Qed.

(** A request that is given every turn runs to its end, and the rest of the
    island waits. *)
Lemma request_turns n j i :
  ∃ i', island_steps i i' ∧ (requests i', hotel i') = Nat.iter n (turn j) (requests i, hotel i) ∧
    service i' = service i ∧ pages i' = pages i.
Proof.
  revert i. induction n as [|n IH]; intros i; [by exists i|].
  set (i1 := act env service_env (RequestContinues j) i).
  assert ((requests i1, hotel i1) = turn j (requests i, hotel i) ∧
    service i1 = service i ∧ pages i1 = pages i) as (Ht & Hv & Hp).
  { unfold i1. cbn [act]. by destruct (turn j (requests i, hotel i)). }
  destruct (IH i1) as (i' & Hs & Hi' & Hv' & Hp'). exists i'.
  rewrite Nat.iter_succ_r, <-Ht, <-Hv, <-Hp. split_and!; [|done..].
  eapply rtc_l; [|exact Hs]. by exists (RequestContinues j).
Qed.

Lemma request_served i request_id fetch rq :
  ∃ i', island_steps i i' ∧
    hotel i' = (HotelReservation.handle env request_id fetch rq (hotel i)).2 ∧
    service i' = service i ∧ pages i' = pages i.
Proof.
  set (i1 := act env service_env (RequestArrives request_id fetch rq) i).
  destruct (turns_run (length (requests i)) (HotelConcurrency.handle_async env request_id fetch rq)
    (requests i1) (hotel i)) as [n Hn].
  { cbn. by rewrite lookup_app_r, Nat.sub_diag by lia. }
  destruct (request_turns n (length (requests i)) i1) as (i' & Hs & Hi' & Hv & Hp).
  exists i'. split_and!; [| |done..].
  2: { rewrite <-HotelConcurrency.run_handle, <-Hn. by apply (f_equal snd) in Hi'. }
  eapply rtc_l; [|exact Hs]. by exists (RequestArrives request_id fetch rq).
Qed.

(** A booking that can be made is made, and announced. *)
Lemma booking_made `{!HotelDb.PrismaResponsive DB} request_id fetch dto
    (h : HotelOutbound.Hotel DB) url :
  HotelInvariant.hotel_wf (HotelDb.tables (HotelOutbound.db h)) →
  HotelInvariant.storable dto = true →
  (HotelReservation.c_check_in_day dto < HotelReservation.c_check_out_day dto)%Z →
  HotelOutbound.clearance env request_id fetch (HotelOutbound.sent h)
    (HotelReservation.c_guest_id dto) ≠ Some false →
  (∃ room, HotelReservationSpec.candidate (HotelDb.tables (HotelOutbound.db h)) dto room) →
  HotelOutbound.BROADCAST_SERVICE_URL env = Some url → truthy url = true →
  let h' := (HotelReservation.handle env request_id fetch (HotelReservation.PostReservation dto) h).2 in
  let t := HotelDb.tables (HotelOutbound.db h') in
  ∃ r room, HotelDb.reservations t !! HotelDb.r_id r = Some r ∧
    HotelDb.rooms t !! HotelDb.r_room_id r = Some room ∧
    HotelDb.room_type room = HotelReservation.c_room_type dto ∧
    (∃ id guests, r = HotelDb.row_of id guests (HotelReservation.new_reservation dto room)) ∧
    let e := HotelReservation.event_of "Hotel reservation confirmed." r (HotelDb.room_type room) in
    HotelOutbound.publish_request request_id url HotelOutbound.ReservationConfirmed e
      ∈ HotelOutbound.sent h' ∧
    HotelAnnouncements.told t HotelOutbound.ReservationConfirmed e.
Proof.
  intros Hwf Hsto Hd Hcl Hroom Hurl Htr h'.
  destruct (HotelInvariant.create_succeeds_wf env request_id fetch dto h Hwf Hsto) as [_ [o Ho]];
    [done|].
  assert (h' = (HotelReservation.create env request_id fetch dto h).2) as ->
    by apply HotelInvariant.hmap_snd.
  destruct (HotelReservation.create env request_id fetch dto h) as [out h1] eqn:E.
  cbn in Ho |- *. subst out. apply HotelReservationSpec.create_refines_spec in E as (ev & Hs & Hsent).
  inversion Hs as [| | | |r room _ _ Hc _ _ Hid _ (guests & _ & Hr) Ho Ht Hev|]; subst.
  destruct Hc as ((rid & Hrid & Hty) & _ & _).
  pose proof (HotelInvariant.inv_room_key _ Hwf _ _ Hrid) as <-.
  assert (HotelDb.r_room_id r = HotelDb.room_id room) as Hrr by (by rewrite Hr).
  exists r, room. cbn. rewrite lookup_insert_eq, Hrr.
  split_and!; [done..|by exists (HotelDb.r_id r), guests| |].
  - rewrite Hsent. rewrite !elem_of_app. right. right. cbn.
    unfold HotelOutbound.published. rewrite Hurl, Htr. constructor.
  - exists r, room. cbn. rewrite lookup_insert_eq, Hrr. split_and!; [done..| |done].
    rewrite Hr. unfold HotelInvariant.storable in Hsto. by apply andb_true_iff in Hsto as [? _].
Qed.

(** Every entry of a feed shows something that was broadcast. *)
Lemma shown_in_log i p page ch e' :
  island_reachable env service_env i → pages i !! p = Some page →
  e' ∈ events (store (client page)) ch →
  ∃ e, e ∈ all_broadcast i ∧ shown_as ch (web_event e) e'.
Proof.
  intros Hi%island_reachable_inv Hp Hin.
  destruct (Forall_lookup_1 _ _ _ _ (ii_pages _ _ Hi) Hp) as (shown & [Hsub Hf _]).
  destruct (feeds_of_elem _ _ _ _ Hf Hin) as (we & (e & -> & He)%list_elem_of_fmap & Hsh).
  exists e. split; [|done]. by apply (elem_of_sublist _ _ _ He).
Qed.
End facts.

(** ** Concrete islands of the instances *)

#[local] Existing Instances zod_reference event_source_reference.
#[local] Existing Instances HotelDb.MemDB.prisma HotelDb.MemDB.prisma_responsive.

Definition gateway_env : HotelOutbound.HotelEnv := {|
  HotelOutbound.AIRPORT_SERVICE_URL := None;
  HotelOutbound.BROADCAST_SERVICE_URL := Some "http://broadcast:3002" |}.
Definition page_env (v : string) : option string :=
  if decide (v = "FE_TOKEN") then Some "fe" else None.
Definition quiet_island : Island HotelDb.Tables :=
  MkIsland [] HotelConcurrency.one_suite_hotel start [] [].

(** A page connects, and a guest books the suite. *)
Definition booking : list Action :=
  [PageOpens; PageConnects 0 7 page_auth;
   RequestArrives "-" HotelConcurrency.no_network (HotelConcurrency.suite_request "tom");
   RequestContinues 0; RequestContinues 0; RequestContinues 0; RequestContinues 0;
   RequestContinues 0].
Definition booked_island : Island HotelDb.Tables := acts gateway_env page_env booking quiet_island.
Definition tom_announcement : HotelOutbound.HttpRequest :=
  default ("", "", [], None) (head (HotelOutbound.sent (hotel booked_island))).

(** The announcement arrives, and the page reads its stream. *)
Definition telling : list Action :=
  [AnnouncementArrives 0 no_auth "id"; PageReads 0 (λ _, "uuid");
   PageReads 0 (λ _, "uuid")].
Definition told_island : Island HotelDb.Tables := acts gateway_env page_env telling booked_island.

Lemma quiet_start : island_start quiet_island.
Proof.
  exists (HotelOutbound.db HotelConcurrency.one_suite_hotel). split; [|done].
  constructor; cbn.
  - intros id room [<- <-]%lookup_singleton_Some. done.
  - intros id r. by rewrite lookup_empty.
  - intros id r. by rewrite lookup_empty.
Qed.

Lemma booked_reachable : island_reachable gateway_env page_env booked_island.
Proof.
  exists quiet_island. split; [exact quiet_start|]. apply acts_reach.
  by repeat constructor.
Qed.

Lemma told_permitted : all_permitted (booking ++ telling).
Proof. by repeat constructor. Qed.

Lemma told_reachable : island_reachable gateway_env page_env told_island.
Proof.
  apply (reachable_step _ _ booked_island); [exact booked_reachable|]. apply acts_reach.
  by repeat constructor.
Qed.

Definition told_page : Page := default new_page (pages told_island !! 0).
Definition told_entry : BroadcastEvent :=
  default (web_event (relayed "" HotelOutbound.ReservationConfirmed
    {| HotelOutbound.message := ""; HotelOutbound.reservation_id := ""; HotelOutbound.guest_id := "";
       HotelOutbound.ev_room_type := HotelDb.SUITE; HotelOutbound.guest_count := 0;
       HotelOutbound.check_in_day := 0; HotelOutbound.check_out_day := 0 |}))
    (head (events (store (client told_page)) Hotel)).

(** ** Properties *)

(** C6: what a page shows of bookings is so, or was said by somebody else: along
    any sequence of actions whose posted bodies print faithfully, by whom and to
    whatever path they are posted, an entry of any feed that says a reservation was confirmed or cancelled carries the guest,
    the days, the party and the type of room of a reservation in the hotel's
    tables, a cancelled one if it says so; or it shows what somebody other than
    the hotel posted to one of the hotel's paths, which the service takes from
    anyone. *)
Theorem shown_bookings_exist {DB} `{HotelDb.PrismaClient DB} `{Zod} `{EventSource} env service_env
    (i0 : Island DB) l p page ch e :
  island_start i0 → all_permitted l →
  let i := acts env service_env l i0 in
  pages i !! p = Some page → e ∈ events (store (client page)) ch →
  b_event_type e = "hotel.reservation_confirmed" ∨ b_event_type e = "hotel.reservation_cancelled" →
  let t := HotelDb.tables (HotelOutbound.db (hotel i)) in
  (∃ r room, HotelDb.reservations t !! HotelDb.r_id r = Some r ∧
    HotelDb.rooms t !! HotelDb.r_room_id r = Some room ∧
    b_sender e = "hotel" ∧ b_guest_id e = Some (HotelDb.r_guest_id r) ∧
    b_data e = Some
      [("reservation_id", JStr (HotelDb.r_id r));
       ("room_type", JStr (HotelOutbound.show_room_type (HotelDb.room_type room)));
       ("guest_count", JNum (NumZ (HotelDb.r_guest_count r)));
       ("check_in_day", JNum (NumZ (HotelDb.r_check_in_day r)));
       ("check_out_day", JNum (NumZ (HotelDb.r_check_out_day r)))] ∧
    (b_event_type e = "hotel.reservation_cancelled" →
     HotelDb.r_status r = HotelDb.CANCELLED ∧ b_message e = "Hotel reservation cancelled.")) ∨
  (∃ l1 path auth uuid body l2 ev, l = l1 ++ EventPosted path auth uuid body :: l2 ∧
    path ∈ PostedEvents.hotel_paths ∧
    became env service_env (acts env service_env l1 i0) (EventPosted path auth uuid body) ev ∧
    shown_as ch (web_event ev) e).
Proof.
  intros Hstart Hl i Hp Hin Hty t.
  assert (island_reachable env service_env i) as Hi by (exists i0; split; [done|by apply acts_reach]).
  destruct (shown_in_log _ _ i p page ch e Hi Hp Hin) as (ev & Hev & Hsh).
  assert (all_broadcast i0 = []) as Hnone by (by destruct Hstart as (d & _ & ->)).
  pose proof (broadcast_posted env service_env l i0 Hnone) as Hall. rewrite Forall_forall in Hall.
  destruct (Hall ev Hev) as (l1 & a & l2 & Heq & Hbec).
  unfold all_permitted in Hl. rewrite Heq in Hl. apply Forall_app in Hl as [Hl1 Hl2].
  assert (island_inv env (acts env service_env l1 i0)) as Hi1
    by (apply (island_reachable_inv _ service_env); exists i0; split; [done|by apply acts_reach]).
  assert (PostedEvents.hotel_event (BroadcastTypes.event_type ev) = true) as Hhotel.
  { destruct Hsh as [n ->]. cbn [with_channel web_event b_event_type] in Hty.
    destruct (BroadcastTypes.event_type ev); destruct Hty as [Hty|Hty]; try discriminate Hty; reflexivity. }
  destruct (hotel_event_source env service_env _ a ev Hi1 Hbec Hhotel)
    as [(k & auth & uuid & ty & he & -> & -> & Htold)|(path & auth & uuid & body & -> & Hpath)].
  - left. apply (HotelAnnouncements.told_succeeds _ t) in Htold.
    2: { unfold t, i. rewrite Heq, acts_app. by apply acts_onward. }
    destruct Htold as (r & room & Hr & Hroom & -> & _ & Hc). destruct Hsh as [n ->].
    exists r, room. split_and!; try done. destruct ty; [done|]. by split; [apply Hc|].
  - right. exists l1, path, auth, uuid, body, l2, ev. by split_and!.
Qed.

Lemma shown_bookings_exist_witness :
  (∃ r room, HotelDb.reservations (HotelDb.tables (HotelOutbound.db (hotel told_island))) !! HotelDb.r_id r = Some r ∧
    HotelDb.rooms (HotelDb.tables (HotelOutbound.db (hotel told_island))) !! HotelDb.r_room_id r = Some room ∧
    b_guest_id told_entry = Some (HotelDb.r_guest_id r)) ∨
  (∃ path auth uuid body, EventPosted path auth uuid body ∈ booking ++ telling).
Proof.
  destruct (shown_bookings_exist gateway_env page_env quiet_island (booking ++ telling) 0 told_page Hotel told_entry
    quiet_start told_permitted) as [(r & room & Hr & Hroom & _ & Hg & _)|(l1 & path & auth & uuid & body & l2 & ev & Hl & _)];
    [by vm_compute|by vm_compute; constructor|by left; vm_compute|left|right].
  - exists r, room. split_and!; [exact Hr|exact Hroom|exact Hg].
  - exists path, auth, uuid, body. rewrite Hl. apply elem_of_app. right. constructor.
Defined.

(** Whoever posts to the hotel's paths, a well-formed event is broadcast. *)
Theorem anyone_may_announce_bookings {DB} `{HotelDb.PrismaClient DB} `{Zod} `{EventSource} env service_env
    (i : Island DB) ty he auth uuid :
  service (act env service_env
    (EventPosted (HotelOutbound.getEndpointForEvent ty) auth uuid (HotelOutbound.event_json he)) i) =
  MkService (EventBus.broadcast (relayed uuid ty he) (bus (service i))) (grants (service i)).
Proof.
  cbn [act service]. unfold post.
  destruct (hotel_event_relayed ty he service_env auth uuid (bus (service i))) as (h & -> & ->). done.
Qed.

(** C10: every page's feeds replay the broadcast log: through any restarts, what a
    page has taken in is a part of all that was broadcast in the order of its
    broadcast, each event at most once for each time it was broadcast; every feed is that part newest first, up to its bound; a page
    that has read all of an open connection ends with everything that was
    broadcast on its channels since that connection opened; and a page can always
    read on to the end of its stream. *)
Theorem feeds_replay_the_log {DB} `{HotelDb.PrismaClient DB} `{Zod} `{EventSource} env service_env
    (i : Island DB) p page :
  island_reachable env service_env i → pages i !! p = Some page →
  (∃ shown, sublist shown (past i ++ EventBus.log (bus (service i))) ∧
    feeds_of (web_event <$> shown) (store (client page)) ∧
    ∀ r, link page = Some (r, length (EventBus.stream r (bus (service i)))) →
      r ∈ (EventBus.res <$> EventBus.clients (bus (service i))) →
      ∃ who n before, grants (service i) !! r = Some (who, n) ∧
        shown = before ++ filter (λ e, BroadcastTypes.channel e ∈ BroadcastAuth.allowedChannels who)
          (drop n (EventBus.log (bus (service i))))) ∧
  (∀ r k, link page = Some (r, k) →
    ∃ i' page', rtc (island_step env service_env) i i' ∧ hotel i' = hotel i ∧
      service i' = service i ∧ pages i' !! p = Some page' ∧
      link page' = Some (r, length (EventBus.stream r (bus (service i))))).
Proof.
  intros Hi%island_reachable_inv Hp. split; [|by intros r k; apply page_reads_on].
  destruct (Forall_lookup_1 _ _ _ _ (ii_pages _ _ Hi) Hp) as (shown & Hsh).
  exists shown. split_and!; [apply Hsh|apply Hsh|]. intros r Hl Ho.
  apply (caught_up (past i) _ page); [apply (ii_service _ _ Hi)|done..].
Qed.

Lemma feeds_replay_the_log_witness :
  ∃ shown, sublist shown (past told_island ++ EventBus.log (bus (service told_island))) ∧
    feeds_of (web_event <$> shown) (store (client told_page)).
Proof.
  destruct (feeds_replay_the_log gateway_env page_env told_island 0 told_page told_reachable)
    as [(shown & Hsub & Hf & _) _]; [by vm_compute|].
  exists shown. split; [exact Hsub|exact Hf].
Defined.

(** What the hotel has announced can still reach every open page: from any
    reachable state, the announcement arriving and the page reading on, its
    newest entry of the hotel's feed is the announcement, with the data of the
    reservation it tells of. *)
Theorem announcements_can_reach_open_pages {DB} `{HotelDb.PrismaClient DB} `{Zod} `{EventSource}
    env service_env (i : Island DB) p page rq r k who n :
  island_reachable env service_env i → pages i !! p = Some page →
  rq ∈ HotelOutbound.sent (hotel i) → rq.1.1.1 = "POST" →
  link page = Some (r, k) → r ∈ (EventBus.res <$> EventBus.clients (bus (service i))) →
  grants (service i) !! r = Some (who, n) →
  BroadcastTypes.Hotel ∈ BroadcastAuth.allowedChannels who →
  ∃ url request_id ty e, rq = HotelOutbound.publish_request request_id url ty e ∧
    HotelAnnouncements.told (HotelDb.tables (HotelOutbound.db (hotel i))) ty e ∧
    ∃ i' page' e', rtc (island_step env service_env) i i' ∧ hotel i' = hotel i ∧
      pages i' !! p = Some page' ∧
      head (events (store (client page')) Hotel) = Some e' ∧
      b_message e' = HotelOutbound.message e ∧ b_guest_id e' = Some (HotelOutbound.guest_id e) ∧
      b_data e' = BroadcastTypes.data (relayed "id" ty e).
Proof.
  intros Hi Hp Hrq Hpost Hl Ho Hg Hch.
  destruct (ii_hotel _ _ (island_reachable_inv _ _ _ Hi)) as [_ [_ Hhon]]. cbn in Hhon. rewrite Forall_forall in Hhon.
  destruct (Hhon rq Hrq) as (url & request_id & ty & e & Hurl & -> & He).
  { unfold HotelAnnouncements.is_post. by rewrite Hpost. }
  exists url, request_id, ty, e. split_and!; [done..|].
  destruct (announcement_read env service_env i p page request_id url ty e r k who n)
    as (i' & page' & shown & Hsteps & Hh & Hp' & Hf); try done.
  destruct (feeds_of_newest (web_event <$> shown) (web_event (relayed "id" ty e))
    (store (client page')) Hotel) as (e' & Hhd & j & ->); [by rewrite fmap_app in Hf|by destruct ty|].
  exists i', page'. eexists. by split_and!.
Qed.

Lemma announcements_can_reach_open_pages_witness :
  ∃ i' page' e', rtc (island_step gateway_env page_env) booked_island i' ∧
    pages i' !! 0 = Some page' ∧ head (events (store (client page')) Hotel) = Some e'.
Proof.
  destruct (announcements_can_reach_open_pages gateway_env page_env booked_island 0
    {| link := Some (7, 0); client := client new_page |} tom_announcement 7 0
    {| BroadcastAuth.name := "frontend"; BroadcastAuth.allowedChannels := BroadcastTypes.all_channels |} 0
    booked_reachable) as (url & request_id & ty & e & _ & _ & i' & page' & e' & Hs & _ & Hp & Hh & _);
    [by vm_compute|apply (bool_decide_unpack _); by vm_compute|by vm_compute|done
    |apply (bool_decide_unpack _); by vm_compute|by vm_compute|apply (bool_decide_unpack _); by vm_compute|].
  exists i', page', e'. split_and!; [exact Hs|exact Hp|exact Hh].
Defined.

(** C11: a booking reaches every open page: from any reachable island, a request
    for days in order and a room that is free, of a guest the airport does not
    hold back, can be served so that its row is in the tables and the newest
    entry of an open page's hotel feed is the confirmation, with the data of
    that row. *)
Theorem bookings_reach_open_pages {DB} `{HotelDb.PrismaResponsive DB} `{Zod} `{EventSource}
    env service_env (i : Island DB) p page request_id fetch dto url r k who n :
  island_reachable env service_env i → pages i !! p = Some page →
  link page = Some (r, k) → r ∈ (EventBus.res <$> EventBus.clients (bus (service i))) →
  grants (service i) !! r = Some (who, n) →
  BroadcastTypes.Hotel ∈ BroadcastAuth.allowedChannels who →
  HotelOutbound.BROADCAST_SERVICE_URL env = Some url → truthy url = true →
  let t := HotelDb.tables (HotelOutbound.db (hotel i)) in
  HotelInvariant.hotel_wf t → HotelInvariant.storable dto = true →
  (HotelReservation.c_check_in_day dto < HotelReservation.c_check_out_day dto)%Z →
  HotelOutbound.clearance env request_id fetch (HotelOutbound.sent (hotel i))
    (HotelReservation.c_guest_id dto) ≠ Some false →
  (∃ room, HotelReservationSpec.candidate t dto room) →
  ∃ i' page' row e', rtc (island_step env service_env) i i' ∧ pages i' !! p = Some page' ∧
    HotelDb.reservations (HotelDb.tables (HotelOutbound.db (hotel i'))) !! HotelDb.r_id row = Some row ∧
    HotelDb.r_status row = HotelDb.CONFIRMED ∧
    HotelDb.r_guest_id row = HotelReservation.c_guest_id dto ∧
    HotelDb.r_check_in_day row = HotelReservation.c_check_in_day dto ∧
    HotelDb.r_check_out_day row = HotelReservation.c_check_out_day dto ∧
    head (events (store (client page')) Hotel) = Some e' ∧
    b_event_type e' = "hotel.reservation_confirmed" ∧ b_guest_id e' = Some (HotelReservation.c_guest_id dto) ∧
    b_data e' = Some
      [("reservation_id", JStr (HotelDb.r_id row));
       ("room_type", JStr (HotelOutbound.show_room_type (HotelReservation.c_room_type dto)));
       ("guest_count", JNum (NumZ (HotelReservation.c_guest_count dto)));
       ("check_in_day", JNum (NumZ (HotelReservation.c_check_in_day dto)));
       ("check_out_day", JNum (NumZ (HotelReservation.c_check_out_day dto)))].
Proof.
  intros Hi Hp Hl Ho Hg Hch Hurl Htr t Hwf Hsto Hd Hcl Hroom.
  destruct (request_served env service_env i request_id fetch (HotelReservation.PostReservation dto))
    as (i1 & Hs1 & Hh1 & Hv1 & Hp1).
  destruct (booking_made env request_id fetch dto (hotel i) url)
    as (row & room & Hrow & Hr & Hty & (id & guests & Heq) & Hsent & Htold); try done.
  rewrite <-Hh1 in Hrow, Hr, Hsent, Htold.
  destruct (announcement_read env service_env i1 p page request_id url HotelOutbound.ReservationConfirmed
    (HotelReservation.event_of "Hotel reservation confirmed." row (HotelDb.room_type room)) r k who n)
    as (i2 & page2 & shown & Hs2 & Hh2 & Hp2 & Hf); rewrite ?Hp1, ?Hv1; try done.
  { by eapply reachable_step. }
  rewrite fmap_app in Hf.
  destruct (feeds_of_newest _ _ _ Hotel Hf) as (e' & Hhd & j & ->); [done|].
  exists i2, page2, row. eexists. rewrite Hh2.
  split_and!; [by etrans|done|done|by rewrite Heq..|exact Hhd|done|cbn; by rewrite Heq|].
  cbn. by rewrite Hty, Heq.
Qed.

(** A page is connected; nobody has booked. *)
Definition listening : list Action := [PageOpens; PageConnects 0 7 page_auth].
Definition listening_island : Island HotelDb.Tables :=
  acts gateway_env page_env listening quiet_island.
Definition suite_for_tom : HotelReservation.CreateReservationDto := {|
  HotelReservation.c_guest_id := "tom"; HotelReservation.c_room_type := HotelDb.SUITE;
  HotelReservation.c_guest_count := 2; HotelReservation.c_party_guest_ids := None;
  HotelReservation.c_check_in_day := 3; HotelReservation.c_check_out_day := 5
|}.

Lemma listening_reachable : island_reachable gateway_env page_env listening_island.
Proof.
  exists quiet_island. split; [exact quiet_start|]. apply acts_reach.
  by repeat constructor.
Qed.

Lemma listening_tables :
  HotelDb.tables (HotelOutbound.db (hotel listening_island)) =
    HotelDb.tables (HotelOutbound.db HotelConcurrency.one_suite_hotel).
Proof. reflexivity. Qed.

Lemma suite_is_free :
  ∃ room, HotelReservationSpec.candidate
    (HotelDb.tables (HotelOutbound.db HotelConcurrency.one_suite_hotel)) suite_for_tom room.
Proof.
  exists HotelConcurrency.one_suite. split_and!.
  - exists "room-suite-01". by split.
  - by vm_compute.
  - intros id r. cbn. by rewrite lookup_empty.
Qed.

Lemma bookings_reach_open_pages_witness :
  ∃ i' page' row e', rtc (island_step gateway_env page_env) listening_island i' ∧
    pages i' !! 0 = Some page' ∧
    HotelDb.reservations (HotelDb.tables (HotelOutbound.db (hotel i'))) !! HotelDb.r_id row = Some row ∧
    head (events (store (client page')) Hotel) = Some e' ∧ b_guest_id e' = Some "tom".
Proof.
  destruct (bookings_reach_open_pages gateway_env page_env listening_island 0
    {| link := Some (7, 0); client := client new_page |} "-" HotelConcurrency.no_network suite_for_tom
    "http://broadcast:3002" 7 0
    {| BroadcastAuth.name := "frontend"; BroadcastAuth.allowedChannels := BroadcastTypes.all_channels |} 0
    listening_reachable) as (i' & page' & row & e' & Hs & Hp & Hr & _ & _ & _ & _ & Hh & _ & Hg & _);
    [by vm_compute|done|apply (bool_decide_unpack _); by vm_compute|by vm_compute
    |apply (bool_decide_unpack _); by vm_compute|done|done|..].
  all: try done.
  - rewrite listening_tables. apply HotelConcurrency.one_suite_inv.
  - rewrite listening_tables. exact suite_is_free.
  - exists i', page', row, e'. split_and!; [exact Hs|exact Hp|exact Hr|exact Hh|exact Hg].
Defined.

(** C13: whatever a page shows was posted to the broadcast service: along any
    sequence of actions whose posted bodies print faithfully, an entry of any feed
    shows the event that an accepted post among them became; an entry that is an
    administrator's announcement, in whatever feed, one posted with the
    configured, non-empty passcode; and one of a hotel's type, one that came by
    the hotel's own paths. *)
Theorem shown_events_were_posted {DB} `{HotelDb.PrismaClient DB} `{Zod} `{EventSource} env service_env
    (i0 : Island DB) l p page ch e' :
  island_start i0 → all_permitted l →
  pages (acts env service_env l i0) !! p = Some page → e' ∈ events (store (client page)) ch →
  ∃ l1 a l2 e path auth uuid body h,
    l = l1 ++ a :: l2 ∧ post_of env (acts env service_env l1 i0) a = Some (path, auth, uuid, body) ∧
    BroadcastRoutes.post_handler path = Some h ∧
    h service_env auth uuid body (bus (service (acts env service_env l1 i0))) =
      (BroadcastRoutes.success, EventBus.broadcast e (bus (service (acts env service_env l1 i0)))) ∧
    shown_as ch (web_event e) e' ∧
    (b_event_type e' = ADMIN_ANNOUNCEMENT_EVENT_TYPE →
     ∃ code, service_env "ADMIN_PASSCODE" = Some code ∧ code ≠ "" ∧
       BroadcastAuth.x_admin_passcode auth = Some code) ∧
    (b_event_type e' = "hotel.reservation_confirmed" ∨ b_event_type e' = "hotel.reservation_cancelled" →
     path ∈ PostedEvents.hotel_paths).
Proof.
  intros Hstart Hl Hp Hin.
  destruct (shown_in_log env service_env (acts env service_env l i0) p page ch e')
    as (e & He & Hsh); [exists i0; split; [done|by apply acts_reach]|done|done|].
  assert (all_broadcast i0 = []) as Hnone by (by destruct Hstart as (d & _ & ->)).
  pose proof (broadcast_posted env service_env l i0 Hnone) as Hall. rewrite Forall_forall in Hall.
  destruct (Hall e He) as (l1 & a & l2 & -> & path & auth & uuid & body & h & Hpost & Hh & Hrun).
  destruct (became_outcome service_env _ e path auth uuid body h Hh Hrun) as [Hhotel Hadmin].
  exists l1, a, l2, e, path, auth, uuid, body, h.
  destruct Hsh as [n ->]. cbn [with_channel web_event b_event_type].
  split_and!; [done..|by exists n| |].
  - intros Hty. apply admin_code, Hadmin. by apply (inj BroadcastTypes.show_event_type).
  - intros Hty. destruct (decide (path ∈ PostedEvents.hotel_paths)) as [|Hn]; [done|].
    specialize (Hhotel Hn). destruct (BroadcastTypes.event_type e); naive_solver.
Qed.

Definition resort_env (v : string) : option string :=
  if decide (v = "ADMIN_PASSCODE") then Some "meow" else page_env v.
Definition admin_auth : BroadcastAuth.AuthRequest := {|
  BroadcastAuth.authorization := None; BroadcastAuth.x_service_token := None;
  BroadcastAuth.query_token := None; BroadcastAuth.x_admin_passcode := Some "meow" |}.
(** The administrator announces a storm to a page. *)
Definition storm : list Action :=
  [PageOpens; PageConnects 0 7 page_auth;
   EventPosted "/admin/announcement" admin_auth "id" (JObj [("message", JStr "A storm!")]);
   PageReads 0 (λ _, "uuid"); PageReads 0 (λ _, "uuid")].
Definition storm_page : Page :=
  default new_page (pages (acts gateway_env resort_env storm quiet_island) !! 0).
Definition storm_entry : BroadcastEvent := default told_entry (head (events (store (client storm_page)) Beach)).

Lemma storm_permitted : all_permitted storm.
Proof. repeat constructor; cbn; set_solver. Qed.

Lemma shown_events_were_posted_witness :
  ∃ l1 a l2 auth, storm = l1 ++ a :: l2 ∧ BroadcastAuth.x_admin_passcode auth = Some "meow" ∧
    ∃ path uuid body, post_of gateway_env (acts gateway_env resort_env l1 quiet_island) a =
      Some (path, auth, uuid, body).
Proof.
  destruct (shown_events_were_posted gateway_env resort_env quiet_island storm 0 storm_page Beach storm_entry
    quiet_start storm_permitted)
    as (l1 & a & l2 & e & path & auth & uuid & body & h & Hl & Hpost & _ & _ & _ & Hadm & _);
    [by vm_compute|by vm_compute; constructor|].
  destruct (Hadm ltac:(by vm_compute)) as (code & Hcode & _ & Hx). injection Hcode as <-.
  exists l1, a, l2, auth. split_and!; [exact Hl|exact Hx|].
  exists path, uuid, body. exact Hpost.
Defined.
